(* ===== verification/_CoqProject ===== *)
-Q . S2P
Prelude.v
GoStrings.v
Json.v
K8s.v
Api.v
Client.v
Sort.v
Conditions.v
Selection.v
Validation.v
GoURL.v
ConfigCache.v
ReconcilerConfig.v
ConfigLoader.v
Placeholders.v
Values.v
Claims.v
StatusManager.v
Plan.v
Pipeline.v
Endpoint.v
Mirror.v
Registrar.v
RuntimePlan.v
RuntimeExposure.v
Lifecycle.v
Strategy.v
Provisioner.v
Strategies.v
Liveness.v
WorkloadLiveness.v
Delivery.v
EndpointChain.v
Flags.v
Rbac.v
Setup.v
GoMemory.v
DeepCopy.v
Interleaving.v
System.v
TestUtils.v
