(* ===== verification/Prelude.v ===== *)
(** * A verification development of the Score orchestrator

    The program is a set of Kubernetes controllers.  The orchestrator turns a Workload
    into one ResourceClaim per resource it asks for and, once these are bound, into a
    WorkloadPlan; the provisioner binds the claims by creating the resources; the
    Kubernetes runtime makes a Deployment and a Service of a plan and publishes the
    address of the Service on a WorkloadExposure, which the orchestrator registers and
    mirrors back into the status of the Workload.  The controllers share nothing but
    the objects of the API server, so each is modelled as a program over calls to it.

    ** The model

    A piece of Go code that talks to the outside is a [prog] (Client.v): it returns,
    panics, or makes a call (to the API server, the event recorder, the clock, the
    random source) and goes on with the reply.  [wp E p past Q] says what holds of
    every run whose replies satisfy [E]: no panic, and [Q] of the result and of the
    calls and replies in order.  Most theorems put no condition on the replies; where
    one does, [E] states what the API server guarantees.  [run] executes a program
    against a given server, and is how the examples are computed.  A Go error is a
    [goerror], a pair of a value and an error a [res].  Code that makes no calls is a
    plain function.

    The recursions are structural (over a list, a string or a value), so every model
    terminates and [wp] never speaks of a run that does not return; loops that wait for
    events, in the configuration loader, are steps of a state machine.  Only the deep
    copies of DeepCopy.v take fuel, because the constraints of a configuration refer to
    selectors and these to constraints through the heap: the fuel counts these nestings,
    and [DeepCopyInto_deep] shows that as much as the value is nested is enough, and
    more changes nothing.  Machine integers are [Z], with the wrap-around of [int64] where
    the code can reach it ([int64], below).

    What is not in the repository is a parameter with the laws it documents: [Scheme]
    and [Finalizers] (controller-runtime; setting a controller reference succeeds only
    for a registered owner of the same namespace and an object that nobody else
    controls), [MapOrder] (the order in which Go visits a map), [Semver],
    [LabelSelectors] and [DNS1123] (version comparison and apimachinery), [ConfigYAML],
    [ReconcilerYAML] (the YAML library), [ConfigSource] (a configuration loader, which
    ConfigLoader.v implements), [ControllerRefs], [Quantities], [Defaulter] and
    [SemanticEqual] (apimachinery), [NumberText] (the text of a JSON number),
    [StatusStore] and [ApiServer] (what the API server makes of the writes of a status,
    and what it may reply), [OtherFlags] (the flags of the logging and configuration
    packages), [External] (the deep copies of types of other packages) and [Platform]
    (the operating system under the test helpers). The standard library of Go is
    modelled where the sources use it: strings, UTF-8 and base64 in GoStrings.v,
    [net/url] in GoURL.v, [encoding/json] on values in Json.v, where a byte that is not
    valid UTF-8 becomes U+FFFD. [sort.Slice] is the parameter [SortSlice] with its
    contract ([SortSliceLaws]: a sorted permutation, which keeps the order of equals
    only up to twelve elements); where the result is the same for every sorted
    permutation, as in the selection of a backend, [sort_slice] of Sort.v computes it.

    ** The files, in dependency order, and what their theorems show

    - Prelude, GoStrings, Json, K8s, Client, Sort: shared ground.  Api:
      [api/v1b1/*_types.go], a record per struct.
    - Conditions ([internal/conditions], [internal/status]): the Ready condition
      follows the documented rule, the aggregate of the claims is what it says.
    - Selection ([internal/selection]): the chosen backend is the best accepted one of
      the chosen profile, by an order written out apart from the comparison of the
      code, and does not depend on the order of the candidates.
    - Validation ([internal/config/validation.go]): the validator accepts exactly the
      configurations that satisfy its rules, which are written out.
    - ConfigCache, ReconcilerConfig, ConfigLoader ([internal/config]): the cache, the
      repair of the settings, and the loader with its watchers as a state machine: what
      is returned was validated; when the channels of the watchers are safe.
    - Placeholders ([internal/projection], [internal/reconcile/resolver.go]): detection
      is exact, substitution replaces every reference or reports the missing one.
      Values ([internal/reconcile/values.go]): the merge.
    - Claims, StatusManager, Plan ([internal/controller/managers] and
      [internal/reconcile]): what each manager writes, and when.
    - Pipeline ([internal/controller/phases], [reconciler], [workload_controller.go]):
      the composition.  A status is written at most once, last, and says what the last
      lists of claims and of plans say; deletion removes the finalizer only after every claim
      was dealt with; written objects wake their workload.
    - Endpoint ([internal/endpoint]) over GoURL: the derived endpoint.
    - Mirror and Registrar ([internal/controller/exposure_mirror_controller.go],
      [workloadexposure_registrar_controller.go]): the two ends of an exposure, and
      that they agree.
    - RuntimePlan and RuntimeExposure ([runtimes/kubernetes]): the objects of a plan,
      what is patched and when; the published address.
    - Lifecycle, Strategy, Provisioner, Strategies ([internal/controller/provisioner_*],
      [internal/provisioner]): the phases of a claim as a state machine. The provisioner
      is verified against the interface of a strategy, the class [StrategyLaws], and the
      three strategies are shown to satisfy it, which gives the theorems on a reconcile
      with the registered strategies: what it creates, what it deletes, when it gives up
      the claim, and the status it writes.
    - Liveness, WorkloadLiveness: with a platform that cooperates a claim is bound, a
      workload becomes Ready, a deleted workload goes away.
    - Delivery, EndpointChain: across the components.  The credentials that a strategy
      stores are what the containers of the workload get, and the URL of the Service is
      what the status of the workload gets.
    - Interleaving: the status of a workload has two writers that read outdated
      versions.  What each writes is read off its reconcile; a history interleaves
      their requests in any order, and no change of one is undone by the other as long
      as the exposures carry no conditions, as the runtime publishes them.
    - System: all controllers at once.  What each relies on is what the others promise:
      in any interleaving, call by call, no reconcile panics, and claims, exposures and
      endpoints stay in order.
    - Flags, Setup ([cmd/main.go], [runtimes/kubernetes/cmd/main.go], the
      [SetupWithManager] methods): the command line, the options of the servers, and
      the order of the set-up with its failures; that the wiring fits.
    - Rbac ([config/rbac/role.yaml], [runtimes/kubernetes/manifests/rbac.yaml] and the
      markers of the controllers): every call a reconcile can make is granted, and
      every look-up has its index.
    - GoMemory, DeepCopy ([api/v1b1/zz_generated.deepcopy.go]): the generated copies on
      a heap of Go values. They terminate and share nothing with the original, which is
      why the other files treat copied objects as values.
    - TestUtils ([test/utils/utils.go]): the helpers of the end-to-end tests.

    A method loses its receiver unless the model needs its fields. Definitions keep the
    names of the source; methods of different types with the same name get a prefix
    ([secret_Provision], [ed_DeriveEndpoint], [pm_SelectBackend]).

    ** Not modelled

    The registration of the types with the scheme and of the logger, log messages, and
    the constant files of the controllers, whose values the modelled code declares
    again and which nothing uses.  The list metadata of the API types, and the fields
    of Kubernetes objects that no code reads or writes, are left out of the records of
    Api.v and K8s.v (DeepCopy.v has the complete structs). *)

From Stdlib Require Export ZArith Lia Ascii.
From stdpp Require Export prelude gmap strings list fin_maps sorting.

#[export] Set Warnings "-register-all,-clear-no-such-hyp".

#[global] Arguments String.append : simpl nomatch.

Lemma string_app_nil_r s : s +:+ "" = s.
Proof. induction s; simpl; congruence. Qed.

Lemma string_app_assoc a b c : (a +:+ b) +:+ c = a +:+ b +:+ c.
Proof. induction a; simpl; congruence. Qed.

Lemma string_length_app a b : String.length (a +:+ b) = String.length a + String.length b.
Proof. induction a; simpl; lia. Qed.

(** ** Machine integers *)

(** The value of a Go [int64] operation whose exact result is [z]. *)
Definition int64 (z : Z) : Z := ((z + 2 ^ 63) mod 2 ^ 64 - 2 ^ 63)%Z.

Definition is_int64 (z : Z) : Prop := (- 2 ^ 63 <= z < 2 ^ 63)%Z.

Lemma int64_range z : is_int64 (int64 z).
Proof. unfold is_int64, int64. pose proof (Z.mod_pos_bound (z + 2 ^ 63) (2 ^ 64)). lia. Qed.

Lemma int64_id z : is_int64 z → int64 z = z.
Proof. unfold is_int64, int64. intros Hz. rewrite Z.mod_small; lia. Qed.

Lemma int64_mod z : (int64 z mod 2 ^ 64 = z mod 2 ^ 64)%Z.
Proof.
  unfold int64. rewrite Zminus_mod_idemp_l. by rewrite Z.add_simpl_r.
Qed.
