(* ===== verification/GoStrings.v ===== *)
(** * GoStrings: the parts of Go's [strings] and [strconv] the sources use

    A Go string is a sequence of bytes; it is modelled by [string], whose
    characters are the 256 bytes.  Case mapping and trimming work on the UTF-8
    encoding: the model is exact on ASCII and on the four non-ASCII code points
    that Go maps to an ASCII letter, which are the only ones that can change the
    outcome of a search for an ASCII word; every other non-ASCII byte is left as
    it is.  [TrimSpace] removes every code point for which [unicode.IsSpace]
    holds.  [ParseInt] is [strconv.ParseInt(s, 10, 64)], [FormatInt] is the [%d]
    verb. *)
From S2P Require Import Prelude.
From Stdlib Require Import DecimalString DecimalZ DecimalPos DecimalFacts.


(** ** Prefixes, suffixes and substrings *)

Definition HasPrefix (s p : string) : bool := String.prefix p s.

(** The reversed string, used to reduce suffixes to prefixes. *)
Fixpoint rev_str (s : string) : string :=
  match s with
  | "" => ""
  | String a s' => rev_str s' +:+ String a ""
  end.

Fixpoint HasSuffix (s suf : string) : bool :=
  bool_decide (s = suf) ||
  match s with
  | "" => false
  | String _ s' => HasSuffix s' suf
  end.

Fixpoint TrimSuffix (s suf : string) : string :=
  if bool_decide (s = suf) then ""
  else match s with
       | "" => ""
       | String a s' => String a (TrimSuffix s' suf)
       end.

Fixpoint Contains (s sub : string) : bool :=
  String.prefix sub s ||
  match s with
  | "" => false
  | String _ s' => Contains s' sub
  end.

(** [strings.Split(s, sep)] for a separator of one byte. *)
Fixpoint Split (s : string) (sep : ascii) : list string :=
  match s with
  | "" => [""]
  | String a s' =>
      if bool_decide (a = sep) then "" :: Split s' sep
      else match Split s' sep with
           | [] => [String a ""]
           | p :: ps => String a p :: ps
           end
  end.

(** [strings.ReplaceAll(s, old, new)], [old] not empty: [skip] counts the bytes
    of the current occurrence that are still to be dropped. *)
Fixpoint replace_go (s old new : string) (skip : nat) : string :=
  match s with
  | "" => ""
  | String a s' =>
      match skip with
      | S k => replace_go s' old new k
      | 0 => if String.prefix old s
             then new +:+ replace_go s' old new (pred (String.length old))
             else String a (replace_go s' old new 0)
      end
  end.

Definition ReplaceAll (s old new : string) : string := replace_go s old new 0.

(** ** Case mapping and trimming *)

Definition lower_byte (a : ascii) : ascii :=
  let n := N_of_ascii a in
  if (65 <=? n)%N && (n <=? 90)%N then ascii_of_N (n + 32) else a.

Definition upper_byte (a : ascii) : ascii :=
  let n := N_of_ascii a in
  if (97 <=? n)%N && (n <=? 122)%N then ascii_of_N (n - 32) else a.

(** U+0130 and U+212A are the code points outside ASCII whose lower case is an
    ASCII letter, U+0131 and U+017F those whose upper case is one. *)
Fixpoint ToLower (s : string) : string :=
  match s with
  | String "196" (String "176" s') => String "i" (ToLower s')
  | String "226" (String "132" (String "170" s')) => String "k" (ToLower s')
  | String a s' => String (lower_byte a) (ToLower s')
  | "" => ""
  end.

Fixpoint ToUpper (s : string) : string :=
  match s with
  | String "196" (String "177" s') => String "I" (ToUpper s')
  | String "197" (String "191" s') => String "S" (ToUpper s')
  | String a s' => String (upper_byte a) (ToUpper s')
  | "" => ""
  end.

Definition space1 (a : ascii) : bool :=
  let n := N_of_ascii a in ((9 <=? n)%N && (n <=? 13)%N) || (n =? 32)%N.

Definition space2 (a b : ascii) : bool :=
  (N_of_ascii a =? 194)%N && ((N_of_ascii b =? 133)%N || (N_of_ascii b =? 160)%N).

Definition space3 (a b c : ascii) : bool :=
  match N_of_ascii a, N_of_ascii b, N_of_ascii c with
  | 225%N, 154%N, 128%N => true
  | 226%N, 128%N, n => (n <=? 138)%N && (128 <=? n)%N || (n =? 168)%N || (n =? 169)%N || (n =? 175)%N
  | 226%N, 129%N, 159%N => true
  | 227%N, 128%N, 128%N => true
  | _, _, _ => false
  end.

Fixpoint trim_left (s : string) : string :=
  match s with
  | "" => ""
  | String a s1 =>
      if space1 a then trim_left s1
      else match s1 with
           | "" => s
           | String b s2 =>
               if space2 a b then trim_left s2
               else match s2 with
                    | "" => s
                    | String c s3 => if space3 a b c then trim_left s3 else s
                    end
           end
  end.

(** The same on the reversed string, whose code points are read backwards. *)
Fixpoint trim_left_rev (s : string) : string :=
  match s with
  | "" => ""
  | String a s1 =>
      if space1 a then trim_left_rev s1
      else match s1 with
           | "" => s
           | String b s2 =>
               if space2 b a then trim_left_rev s2
               else match s2 with
                    | "" => s
                    | String c s3 => if space3 c b a then trim_left_rev s3 else s
                    end
           end
  end.

Definition TrimSpace (s : string) : string :=
  rev_str (trim_left_rev (rev_str (trim_left s))).

(** ** Integers in decimal *)

Definition FormatInt (z : Z) : string := NilZero.string_of_int (Z.to_int z).

(** The digits of an unsigned literal; no digit at all is a syntax error. *)
Definition parse_digits (s : string) : option Z :=
  match s with
  | "" => None
  | _ => Z.of_uint <$> NilEmpty.uint_of_string s
  end.

(** [None] is an error, of syntax or of range. *)
Definition ParseInt (s : string) : option Z :=
  match s with
  | String "-" s' => n ← parse_digits s'; if (n <=? 2 ^ 63)%Z then Some (- n)%Z else None
  | String "+" s' => n ← parse_digits s'; if (n <? 2 ^ 63)%Z then Some n else None
  | _ => n ← parse_digits s; if (n <? 2 ^ 63)%Z then Some n else None
  end.

(** ** Lemmas *)

Lemma prefix_iff p s : String.prefix p s = true ↔ ∃ r, s = p +:+ r.
Proof.
  revert s. induction p as [|a p IH]; intros s.
  - split; [intros _; by exists s | by destruct s].
  - destruct s as [|b s]; [split; [done | intros (? & [=])]|]. simpl.
    destruct (ascii_dec a b) as [->|Hne].
    + rewrite IH. split; intros (r & Hr); exists r; simpl; congruence.
    + split; [done | intros (r & [=])]. congruence.
Qed.

Lemma prefix_refl s : String.prefix s s = true.
Proof. apply prefix_iff. exists "". by rewrite string_app_nil_r. Qed.

Lemma Contains_iff s sub : Contains s sub = true ↔ ∃ a b, s = a +:+ sub +:+ b.
Proof.
  induction s as [|c s IH]; cbn [Contains]; rewrite orb_true_iff, prefix_iff.
  - split.
    + intros [(r & Hr) | ?]; [|done]. by exists "", r.
    + intros ([|] & b & Hb); [by left; exists b | done].
  - rewrite IH. split.
    + intros [(r & Hr) | (a & b & ->)]; [by exists "", r | by exists (String c a), b].
    + intros ([|x a] & b & [=]); [left; by exists b | right; exists a, b; done].
Qed.

Lemma Contains_app_r a s sub : Contains s sub = true → Contains (a +:+ s) sub = true.
Proof.
  rewrite !Contains_iff. intros (x & y & ->). exists (a +:+ x), y. by rewrite string_app_assoc.
Qed.

Lemma Contains_app_l s b sub : Contains s sub = true → Contains (s +:+ b) sub = true.
Proof.
  rewrite !Contains_iff. intros (x & y & ->). exists x, (y +:+ b).
  by rewrite !string_app_assoc.
Qed.

Lemma HasSuffix_iff s suf : HasSuffix s suf = true ↔ ∃ p, s = p +:+ suf.
Proof.
  induction s as [|c s IH]; cbn [HasSuffix]; rewrite orb_true_iff, bool_decide_eq_true.
  - split.
    + intros [<- | ?]; [by exists "" | done].
    + intros ([|] & Hp); [by left | done].
  - rewrite IH. split.
    + intros [<- | (p & ->)]; [by exists "" | by exists (String c p)].
    + intros ([|x p] & [=]); [by left | right; by exists p].
Qed.

Lemma string_app_inj_nil a b : a +:+ b = b → a = "".
Proof.
  intros H. apply (f_equal String.length) in H. rewrite string_length_app in H.
  destruct a; simpl in *; [done | lia].
Qed.

(** Cutting a suffix the string ends with gives back what precedes it. *)
Lemma TrimSuffix_app p suf : TrimSuffix (p +:+ suf) suf = p.
Proof.
  induction p as [|c p IH]; simpl.
  - destruct suf as [|a suf]; [done|]. cbn [TrimSuffix]. by rewrite bool_decide_true.
  - rewrite bool_decide_false, IH; [done|].
    intros H. by apply (string_app_inj_nil (String c p)) in H.
Qed.

Lemma Split_cons s sep : ∃ p ps, Split s sep = p :: ps.
Proof.
  destruct s as [|a s]; simpl; [by eauto|].
  case_bool_decide; [by eauto|]. destruct (Split s sep); eauto.
Qed.

(** Joining the pieces with the separator gives the string back. *)
Lemma Split_concat s sep : String.concat (String sep "") (Split s sep) = s.
Proof.
  induction s as [|a s IH]; [done|]. simpl.
  destruct (Split_cons s sep) as (p & ps & Hs). rewrite Hs in IH |- *.
  case_bool_decide as Ha; simpl in *; [by rewrite IH, Ha|].
  destruct ps; simpl in *; by rewrite <- IH.
Qed.

Lemma replace_go_absent s old new :
  Contains s old = false → replace_go s old new 0 = s.
Proof.
  induction s as [|a s IH]; [done|]. cbn [Contains replace_go].
  rewrite orb_false_iff. intros [Hp Hs]. rewrite Hp. by rewrite IH.
Qed.

Lemma ReplaceAll_absent s old new : Contains s old = false → ReplaceAll s old new = s.
Proof. apply replace_go_absent. Qed.

(** *** Decimal integers *)

Lemma string_of_uint_cons d : d ≠ Decimal.Nil → NilEmpty.string_of_uint d ≠ "".
Proof. by destruct d. Qed.

Lemma string_of_uint_digit d a s :
  NilEmpty.string_of_uint d = String a s → a ≠ "-"%char ∧ a ≠ "+"%char.
Proof. destruct d; simpl; intros [=]; subst; done. Qed.

Lemma parse_digits_format d :
  d ≠ Decimal.Nil → parse_digits (NilEmpty.string_of_uint d) = Some (Z.of_uint d).
Proof.
  intros Hd. pose proof (string_of_uint_cons d Hd) as Hne.
  destruct (NilEmpty.string_of_uint d) as [|a s] eqn:E; [done|].
  unfold parse_digits. by rewrite <- E, NilEmpty.usu.
Qed.

Lemma ParseInt_unsigned d :
  d ≠ Decimal.Nil → (Z.of_uint d < 2 ^ 63)%Z →
  ParseInt (NilEmpty.string_of_uint d) = Some (Z.of_uint d).
Proof.
  intros Hd Hlt. pose proof (parse_digits_format d Hd) as Hp.
  destruct (NilEmpty.string_of_uint d) as [|a s] eqn:E; [done|].
  apply string_of_uint_digit in E as [Hm Hpl].
  assert (ParseInt (String a s) =
    (n ← parse_digits (String a s); if (n <? 2 ^ 63)%Z then Some n else None)) as ->.
  { destruct a as [[] [] [] [] [] [] [] []]; done. }
  rewrite Hp. simpl. by destruct (Z.ltb_spec (Z.of_uint d) (2 ^ 63)); [|lia].
Qed.

Lemma NilZero_NilEmpty d :
  d ≠ Decimal.Nil → NilZero.string_of_uint d = NilEmpty.string_of_uint d.
Proof. by destruct d. Qed.

Lemma ParseInt_negative d :
  d ≠ Decimal.Nil → (Z.of_uint d <= 2 ^ 63)%Z →
  ParseInt (String "-" (NilEmpty.string_of_uint d)) = Some (- Z.of_uint d)%Z.
Proof.
  intros Hd Hle. unfold ParseInt. rewrite (parse_digits_format d Hd). simpl.
  by destruct (Z.leb_spec (Z.of_uint d) (2 ^ 63)); [|lia].
Qed.

(** Printing an [int64] and parsing it again is the identity. *)
Lemma ParseInt_FormatInt z :
  (- 2 ^ 63 <= z < 2 ^ 63)%Z → ParseInt (FormatInt z) = Some z.
Proof.
  intros Hz. pose proof (DecimalZ.of_to z) as Hof. unfold FormatInt.
  destruct z as [|p|p]; [done| |]; cbn [Z.to_int NilZero.string_of_int] in *;
    pose proof (Unsigned.to_uint_nonnil p) as Hne;
    rewrite (NilZero_NilEmpty _ Hne); cbn [Z.of_int] in Hof.
  - rewrite ParseInt_unsigned; [by rewrite Hof | done | lia].
  - rewrite ParseInt_negative; [by rewrite Hof | done | lia].
Qed.

(** A string of digits has no separator, so the formatted number is one piece. *)
Lemma uint_no_minus d : Contains (NilEmpty.string_of_uint d) "-" = false.
Proof. induction d; simpl; done. Qed.

(** ** The order of strings

    Go compares strings byte by byte. *)
Fixpoint str_ltb (a b : string) : bool :=
  match a, b with
  | "", "" => false
  | "", String _ _ => true
  | String _ _, "" => false
  | String x a', String y b' =>
      if bool_decide (x = y) then str_ltb a' b'
      else (N_of_ascii x <? N_of_ascii y)%N
  end.

Lemma N_of_ascii_inj x y : N_of_ascii x = N_of_ascii y → x = y.
Proof.
  intros H. rewrite <- (ascii_N_embedding x), <- (ascii_N_embedding y). by rewrite H.
Qed.

Lemma str_ltb_irrefl a : str_ltb a a = false.
Proof. induction a as [|x a IH]; simpl; [done|]. by rewrite bool_decide_true. Qed.

Lemma str_ltb_trans a b c : str_ltb a b = true → str_ltb b c = true → str_ltb a c = true.
Proof.
  revert b c. induction a as [|x a IH]; intros [|y b] [|z c]; simpl; try done.
  repeat case_bool_decide; subst; try done; [by apply IH| |].
  - rewrite !N.ltb_lt. intros Hxy Hyx. lia.
  - rewrite !N.ltb_lt. lia.
Qed.

Lemma str_ltb_total a b : a ≠ b → str_ltb a b = true ∨ str_ltb b a = true.
Proof.
  revert b. induction a as [|x a IH]; intros [|y b] Hne; simpl; [done|by left|by right|].
  case_bool_decide as Hxy.
  - subst. rewrite bool_decide_true by done. apply IH. congruence.
  - rewrite (bool_decide_false (y = x)) by done. rewrite !N.ltb_lt.
    assert (N_of_ascii x ≠ N_of_ascii y) by (intros ?%N_of_ascii_inj; done). lia.
Qed.

Lemma str_ltb_neg_trans a b c :
  str_ltb b a = false → str_ltb c b = false → str_ltb c a = false.
Proof.
  intros Hba Hcb. destruct (str_ltb c a) eqn:Hca; [|done].
  destruct (decide (a = b)) as [<-|Hab]; [congruence|].
  destruct (str_ltb_total a b Hab) as [H|H]; [|congruence].
  by rewrite (str_ltb_trans c a b) in Hcb.
Qed.

(** The lexicographic order of bytes: a proper prefix, or a smaller byte at the first
    difference. *)
Definition lex_before (a b : string) : Prop :=
  (∃ c r, b = a +:+ String c r) ∨
  ∃ p x y r s, a = p +:+ String x r ∧ b = p +:+ String y s ∧ (N_of_ascii x < N_of_ascii y)%N.

Lemma str_ltb_iff a b : str_ltb a b = true ↔ lex_before a b.
Proof.
  unfold lex_before. revert b. induction a as [|x a IH]; intros [|y b]; simpl.
  - split; [done|]. by intros [(c & r & [=])|([|] & x & y & r1 & r2 & [=] & _)].
  - split; [|done]. intros _. left. by exists y, b.
  - split; [done|]. by intros [(c & r & [=])|([|] & z & y & r1 & r2 & _ & [=] & _)].
  - case_bool_decide as Hxy.
    + subst y. rewrite IH. split.
      * intros [(c & r & ->)|(p & u & v & r1 & r2 & -> & -> & Hlt)]; [left; by exists c, r|].
        right. by exists (String x p), u, v, r1, r2.
      * intros [(c & r & Heq)|([|z p] & u & v & r1 & r2 & Ha & Hb & Hlt)]; simpl in *.
        -- injection Heq as ->. left. by exists c, r.
        -- injection Ha as <- _. injection Hb as <- _. lia.
        -- injection Ha as -> ->. injection Hb as ->. right. by exists p, u, v, r1, r2.
    + rewrite N.ltb_lt. split.
      * intros Hlt. right. by exists "", x, y, a, b.
      * intros [(c & r & Heq)|([|z p] & u & v & r1 & r2 & Ha & Hb & Hlt)]; simpl in *.
        -- injection Heq as ->. done.
        -- by injection Ha as -> _; injection Hb as -> _.
        -- injection Ha as -> _. by injection Hb as -> _.
Qed.

(** [strconv.Quote] on a string without special characters. *)
Definition quote (s : string) : string := String "034" (s +:+ String "034" "").

(** ** Strings over a set of characters *)

Fixpoint str_forall (P : ascii → bool) (s : string) : bool :=
  match s with
  | "" => true
  | String a s' => P a && str_forall P s'
  end.

Definition is_digit (a : ascii) : bool :=
  let n := N_of_ascii a in (48 <=? n)%N && (n <=? 57)%N.

Lemma str_forall_app P a b : str_forall P (a +:+ b) = str_forall P a && str_forall P b.
Proof. induction a as [|x a IH]; simpl; [done|]. by rewrite IH, andb_assoc. Qed.

Lemma str_forall_impl (P Q : ascii → bool) s :
  (∀ a, P a = true → Q a = true) → str_forall P s = true → str_forall Q s = true.
Proof.
  intros HPQ. induction s as [|a s IH]; simpl; [done|].
  rewrite !andb_true_iff. intros [Ha Hs]. auto.
Qed.

Lemma string_of_uint_digits d : str_forall is_digit (NilEmpty.string_of_uint d) = true.
Proof. by induction d. Qed.

(** A formatted number is not empty and made of digits after the sign. *)
Lemma FormatInt_nonneg z :
  (0 <= z)%Z → FormatInt z ≠ "" ∧ str_forall is_digit (FormatInt z) = true.
Proof.
  intros Hz. unfold FormatInt. destruct z as [|p|p]; [done| |lia].
  cbn [Z.to_int NilZero.string_of_int]. pose proof (Unsigned.to_uint_nonnil p) as Hne.
  rewrite (NilZero_NilEmpty _ Hne).
  split; [by apply string_of_uint_cons | apply string_of_uint_digits].
Qed.

Definition is_numeric (a : ascii) : bool := is_digit a || bool_decide (a = "-"%char).

Lemma FormatInt_numeric z : str_forall is_numeric (FormatInt z) = true.
Proof.
  destruct (decide (0 <= z)%Z) as [Hz|Hz].
  - apply FormatInt_nonneg in Hz as [_ Hz]. eapply str_forall_impl; [|exact Hz].
    intros a Ha. unfold is_numeric. by rewrite Ha.
  - unfold FormatInt. destruct z as [|p|p]; [lia..|].
    cbn [Z.to_int NilZero.string_of_int]. pose proof (Unsigned.to_uint_nonnil p) as Hne.
    rewrite (NilZero_NilEmpty _ Hne). simpl. eapply str_forall_impl, string_of_uint_digits.
    intros a Ha. unfold is_numeric. by rewrite Ha.
Qed.

(** A string none of whose characters is the separator is one piece. *)
Lemma Split_single P s sep :
  str_forall P s = true → P sep = false → Split s sep = [s].
Proof.
  intros Hs Hsep. induction s as [|a s IH]; simpl in *; [done|].
  apply andb_true_iff in Hs as [Ha Hs]. rewrite IH by done.
  rewrite bool_decide_false; [done|]. intros ->. congruence.
Qed.

Lemma Split_app P a b sep :
  str_forall P a = true → P sep = false →
  Split (a +:+ String sep b) sep = a :: Split b sep.
Proof.
  intros Ha Hsep. induction a as [|x a IH]; simpl in *.
  - by rewrite bool_decide_true.
  - apply andb_true_iff in Ha as [Hx Ha]. rewrite IH by done.
    rewrite bool_decide_false; [done|]. intros ->. congruence.
Qed.

Lemma string_app_inj a b c d :
  String.length b = String.length d → a +:+ b = c +:+ d → a = c ∧ b = d.
Proof.
  intros Hlen. revert c. induction a as [|x a IH]; intros [|y c]; simpl; intros Heq.
  - done.
  - apply (f_equal String.length) in Heq. simpl in Heq.
    rewrite string_length_app in Heq. lia.
  - apply (f_equal String.length) in Heq. simpl in Heq.
    rewrite string_length_app in Heq. lia.
  - injection Heq as -> Heq. by destruct (IH _ Heq) as [-> ->].
Qed.

(** A string over [P] does not end with a suffix outside [P]. *)
Lemma HasSuffix_outside P s suf :
  str_forall P s = true → str_forall P suf = false → HasSuffix s suf = false.
Proof.
  intros Hs Hsuf. apply not_true_iff_false. rewrite HasSuffix_iff. intros (p & ->).
  rewrite str_forall_app, andb_true_iff in Hs. destruct Hs. congruence.
Qed.

Lemma HasSuffix_app p suf : HasSuffix (p +:+ suf) suf = true.
Proof. apply HasSuffix_iff. by exists p. Qed.

Lemma HasSuffix_app_ne p suf suf' :
  String.length suf = String.length suf' → suf ≠ suf' → HasSuffix (p +:+ suf) suf' = false.
Proof.
  intros Hlen Hne. apply not_true_iff_false. rewrite HasSuffix_iff. intros (q & Heq).
  by apply (string_app_inj _ _ _ _ Hlen) in Heq as [_ ?].
Qed.

(** ** Cutting at a byte *)

(** The part of [s] before the first [stop], and the part after it. *)
Fixpoint cut_at (stop : ascii) (s : string) : option (string * string) :=
  match s with
  | "" => None
  | String a t => if bool_decide (a = stop) then Some ("", t)
                  else '(p, r) ← cut_at stop t; Some (String a p, r)
  end.

Definition no_char (a : ascii) (s : string) : Prop :=
  str_forall (λ b, negb (bool_decide (b = a))) s = true.

Lemma no_char_cons a b s : no_char a (String b s) ↔ b ≠ a ∧ no_char a s.
Proof.
  unfold no_char. simpl. by rewrite andb_true_iff, negb_true_iff, bool_decide_eq_false.
Qed.

Lemma no_char_app a s t : no_char a (s +:+ t) ↔ no_char a s ∧ no_char a t.
Proof. unfold no_char. by rewrite str_forall_app, andb_true_iff. Qed.

Lemma cut_at_Some stop s p r :
  cut_at stop s = Some (p, r) ↔ s = p +:+ String stop r ∧ no_char stop p.
Proof.
  revert p r. induction s as [|a s IH]; intros p r; simpl.
  - split; [done|]. intros [Heq _]. by destruct p.
  - case_bool_decide as Ha.
    + subst a. split; [by intros [= <- <-]|]. intros [Heq Hp]. destruct p as [|b p]; simpl in Heq.
      * by injection Heq as ->.
      * injection Heq as -> ->. by apply no_char_cons in Hp as [].
    + destruct (cut_at stop s) as [[p' r']|] eqn:Hc; simpl.
      * destruct (proj1 (IH p' r') eq_refl) as [-> Hp']. split.
        -- intros [= <- <-]. split; [done|]. by apply no_char_cons.
        -- intros [Heq Hp]. destruct p as [|b p]; simpl in Heq; [by injection Heq as ->|].
           injection Heq as -> Heq. apply no_char_cons in Hp as [_ Hp].
           assert (Some (p', r') = Some (p, r)) as [= -> ->] by (by apply IH). done.
      * split; [done|]. intros [Heq Hp]. destruct p as [|b p]; simpl in Heq; [by injection Heq as ->|].
        injection Heq as -> ->. apply no_char_cons in Hp as [_ Hp].
        exfalso. by assert (None = Some (p, r)) by (by apply IH).
Qed.

Lemma cut_at_app stop p r : no_char stop p → cut_at stop (p +:+ String stop r) = Some (p, r).
Proof. intros. by apply cut_at_Some. Qed.

(** The rest of [s] after the prefix [p]. *)
Fixpoint strip (p s : string) : option string :=
  match p, s with
  | "", _ => Some s
  | String a p, String b s => if bool_decide (a = b) then strip p s else None
  | String _ _, "" => None
  end.

Lemma strip_Some p s r : strip p s = Some r ↔ s = p +:+ r.
Proof.
  revert s. induction p as [|a p IH]; intros s; simpl; [naive_solver|].
  destruct s as [|b s]; [naive_solver|]. case_bool_decide; [subst; rewrite IH; naive_solver|].
  naive_solver.
Qed.

Lemma strip_app p r : strip p (p +:+ r) = Some r.
Proof. by apply strip_Some. Qed.

(** ** encoding/base64: [StdEncoding] and [URLEncoding] with padding *)

Definition sextet (url : bool) (n : N) : ascii :=
  if (n <? 26)%N then ascii_of_N (65 + n)
  else if (n <? 52)%N then ascii_of_N (97 + (n - 26))
  else if (n <? 62)%N then ascii_of_N (48 + (n - 52))
  else if (n =? 62)%N then (if url then "-" else "+")%char
  else (if url then "_" else "/")%char.

Fixpoint base64 (url : bool) (s : string) : string :=
  match s with
  | "" => ""
  | String a "" =>
      let n := N_of_ascii a in
      String (sextet url (n / 4)) (String (sextet url (n mod 4 * 16)) "==")
  | String a (String b "") =>
      let n := N_of_ascii a in let m := N_of_ascii b in
      String (sextet url (n / 4)) (String (sextet url (n mod 4 * 16 + m / 16))
        (String (sextet url (m mod 16 * 4)) "="))
  | String a (String b (String c t)) =>
      let n := N_of_ascii a in let m := N_of_ascii b in let l := N_of_ascii c in
      String (sextet url (n / 4)) (String (sextet url (n mod 4 * 16 + m / 16))
        (String (sextet url (m mod 16 * 4 + l / 64)) (String (sextet url (l mod 64))
          (base64 url t))))
  end.

Example base64_man : base64 false "Man" = "TWFu" ∧ base64 false "M" = "TQ==".
Proof. split; reflexivity. Qed.

(** [n] bytes make [4 * ceil (n / 3)] characters. *)
Lemma base64_length url n s :
  String.length s = n → String.length (base64 url s) = 4 * ((n + 2) / 3).
Proof.
  revert s. induction (Nat.lt_wf_0 n) as [n _ IH]. intros s <-.
  destruct s as [|a [|b [|c t]]]; [done..|]. cbn [base64 String.length].
  rewrite (IH (String.length t)) by (cbn; lia || done).
  replace (S (S (S (String.length t))) + 2) with (String.length t + 2 + 1 * 3) by lia.
  rewrite Nat.div_add by lia. lia.
Qed.

(** The alphabet has no dollar. *)
Lemma sextet_no_dollar url n : sextet url n ≠ "$"%char.
Proof.
  unfold sextet. destruct (N.ltb_spec n 26) as [?|?]; [|destruct (N.ltb_spec n 52) as [?|?];
    [|destruct (N.ltb_spec n 62) as [?|?]; [|by destruct (n =? 62)%N, url]]];
    intros Heq; apply (f_equal N_of_ascii) in Heq; rewrite N_ascii_embedding in Heq by lia;
    change (N_of_ascii "$") with 36%N in Heq; lia.
Qed.

Lemma base64_no_dollar url s : no_char "$" (base64 url s).
Proof.
  remember (String.length s) as n eqn:Hn. revert s Hn.
  induction (Nat.lt_wf_0 n) as [n _ IH]. intros s ->.
  destruct s as [|a [|b [|c t]]]; [done|..]; cbn [base64];
    repeat (apply no_char_cons; split; [apply sextet_no_dollar|]); [done..|].
  by apply (IH (String.length t)); [cbn; lia|].
Qed.

Lemma no_char_substring a n m s : no_char a s → no_char a (String.substring n m s).
Proof.
  revert n m. induction s as [|b s IH]; intros n m Hs; [by destruct n, m|].
  apply no_char_cons in Hs as [Hb Hs]. destruct n as [|n]; [|by apply IH].
  destruct m as [|m]; [done|]. cbn. apply no_char_cons. split; [done|by apply IH].
Qed.

(** The bytes of the alphabet are ASCII. *)
Definition is_ascii (a : ascii) : bool := (N_of_ascii a <? 128)%N.

Lemma sextet_ascii url n : is_ascii (sextet url n) = true.
Proof.
  unfold is_ascii, sextet.
  destruct (N.ltb_spec n 26) as [?|?]; [|destruct (N.ltb_spec n 52) as [?|?];
    [|destruct (N.ltb_spec n 62) as [?|?]; [|by destruct (n =? 62)%N, url]]];
    rewrite N_ascii_embedding by lia; apply N.ltb_lt; lia.
Qed.

Lemma base64_ascii url s : str_forall is_ascii (base64 url s) = true.
Proof.
  remember (String.length s) as n eqn:Hn. revert s Hn.
  induction (Nat.lt_wf_0 n) as [n _ IH]. intros s ->.
  destruct s as [|a [|b [|c t]]]; [done|..]; cbn [base64 str_forall];
    rewrite !sextet_ascii; [done..|].
  by apply (IH (String.length t)); [cbn; lia|].
Qed.

Lemma str_forall_substring P n m s :
  str_forall P s = true → str_forall P (String.substring n m s) = true.
Proof.
  revert n m. induction s as [|b s IH]; intros n m Hs; [by destruct n, m|].
  apply andb_true_iff in Hs as [Hb Hs]. destruct n as [|n]; [|by apply IH].
  destruct m as [|m]; [done|]. cbn. rewrite Hb. by apply IH.
Qed.

(** ** unicode/utf8 *)

Definition byte_in (lo hi : N) (a : ascii) : bool :=
  let n := N_of_ascii a in (lo <=? n)%N && (n <=? hi)%N.

(** The number of bytes of the UTF-8 encoding that [s] starts with; [0] when it starts
    with none ([utf8.DecodeRuneInString] then gives [RuneError]). *)
Definition rune_len (s : string) : nat :=
  match s with
  | "" => 0
  | String a t =>
      let n := N_of_ascii a in
      if (n <? 128)%N then 1
      else if byte_in 194 223 a then
        match t with
        | String b _ => if byte_in 128 191 b then 2 else 0
        | _ => 0
        end
      else if byte_in 224 239 a then
        match t with
        | String b (String c _) =>
            if byte_in (if n =? 224 then 160 else 128)%N (if n =? 237 then 159 else 191)%N b &&
               byte_in 128 191 c then 3 else 0
        | _ => 0
        end
      else if byte_in 240 244 a then
        match t with
        | String b (String c (String d _)) =>
            if byte_in (if n =? 240 then 144 else 128)%N (if n =? 244 then 143 else 191)%N b &&
               byte_in 128 191 c && byte_in 128 191 d then 4 else 0
        | _ => 0
        end
      else 0
  end.

(** [utf8.ValidString]: [skip] counts the bytes of the current encoding that are still to
    come. *)
Fixpoint valid_go (s : string) (skip : nat) : bool :=
  match s, skip with
  | "", 0 => true
  | "", S _ => false
  | String _ t, S k => valid_go t k
  | String _ t, 0 => match rune_len s with 0 => false | S k => valid_go t k end
  end.

Definition ValidString (s : string) : bool := valid_go s 0.

(** U+FFFD *)
Definition RuneError : string := String "239" (String "191" (String "189" "")).

(** Every byte that is not part of an encoding becomes U+FFFD, as in
    [strings.ToValidUTF8(s, "\uFFFD")] on single bytes. *)
Fixpoint coerce_go (s : string) (skip : nat) : string :=
  match s with
  | "" => ""
  | String a t =>
      match skip with
      | S k => String a (coerce_go t k)
      | 0 => match rune_len s with
             | 0 => RuneError +:+ coerce_go t 0
             | S k => String a (coerce_go t k)
             end
      end
  end.

Definition coerce_utf8 (s : string) : string := coerce_go s 0.

Example coerce_bytes :
  coerce_utf8 (String "255" (String "195" (String "169" (String "195" "a")))) =
  RuneError +:+ String "195" (String "169" (RuneError +:+ "a")).
Proof. reflexivity. Qed.

Lemma rune_len_app s t : rune_len s ≠ 0 → rune_len (s +:+ t) = rune_len s.
Proof.
  destruct s as [|a [|b [|c [|d s]]]]; [done|..]; simpl; repeat case_match; done.
Qed.

Lemma coerce_go_copy b t k : coerce_go (String b t) (S k) = String b (coerce_go t k).
Proof. done. Qed.

(** Only the bytes of the encoding count. *)
Lemma rune_len_copied a t k :
  rune_len (String a t) = S k → rune_len (String a (coerce_go t k)) = S k.
Proof.
  intros Hr. unfold rune_len in Hr |- *. cbv zeta in *.
  destruct (N_of_ascii a <? 128)%N; [done|].
  destruct (byte_in 194 223 a).
  { destruct t as [|b t]; [done|]. destruct (byte_in 128 191 b) eqn:Hb; [|done].
    injection Hr as <-. rewrite coerce_go_copy. by rewrite Hb. }
  destruct (byte_in 224 239 a).
  { destruct t as [|b [|c t]]; [done..|]. destruct (_ && _) eqn:Hb; [|done].
    injection Hr as <-. rewrite !coerce_go_copy. by rewrite Hb. }
  destruct (byte_in 240 244 a); [|done].
  destruct t as [|b [|c [|d t]]]; [done..|]. destruct (_ && _ && _) eqn:Hb; [|done].
  injection Hr as <-. rewrite !coerce_go_copy. by rewrite Hb.
Qed.

Lemma coerce_valid_go s k : valid_go s k = true → coerce_go s k = s.
Proof.
  revert k. induction s as [|a s IH]; intros [|k]; [done..| |].
  - cbn [valid_go coerce_go]. destruct (rune_len _) as [|k]; [done|]. intros H. by rewrite IH.
  - cbn [valid_go coerce_go]. intros H. by rewrite IH.
Qed.

(** Valid text is left as it is. *)
Lemma coerce_utf8_id s : ValidString s = true → coerce_utf8 s = s.
Proof. apply coerce_valid_go. Qed.

Lemma rune_len_length a t k : rune_len (String a t) = S k → k ≤ String.length t.
Proof.
  destruct t as [|b [|c [|d t]]]; simpl; repeat case_match; intros [= <-]; simpl; lia.
Qed.

Lemma coerce_go_valid s k :
  k ≤ String.length s → valid_go (coerce_go s k) k = true.
Proof.
  revert k. induction s as [|a s IH]; intros k Hk; simpl in Hk.
  - by replace k with 0 by lia.
  - destruct k as [|k]; [|apply IH; lia]. cbn [coerce_go].
    destruct (rune_len (String a s)) as [|k] eqn:Hr.
    + change (valid_go (coerce_go s 0) 0 = true). apply IH. lia.
    + cbn [valid_go]. rewrite (rune_len_copied _ _ _ Hr). apply IH. by eapply rune_len_length.
Qed.

(** The result is valid text. *)
Lemma coerce_utf8_valid s : ValidString (coerce_utf8 s) = true.
Proof. apply coerce_go_valid. lia. Qed.

Lemma valid_go_app s t k :
  valid_go s k = true → ValidString t = true → valid_go (s +:+ t) k = true.
Proof.
  intros Hs Ht. revert k Hs. induction s as [|a s IH]; intros [|k]; [done..| |apply IH].
  cbn [valid_go]. intros Hs. change (String a s +:+ t) with (String a (s +:+ t)).
  destruct (rune_len (String a s)) as [|k] eqn:Hr; [done|].
  cbn [valid_go]. pose proof (rune_len_app (String a s) t) as Happ. simpl String.append in Happ.
  rewrite Happ, Hr by congruence. by apply IH.
Qed.

Lemma ValidString_app s t :
  ValidString s = true → ValidString t = true → ValidString (s +:+ t) = true.
Proof. apply valid_go_app. Qed.

Lemma ascii_valid s : str_forall is_ascii s = true → ValidString s = true.
Proof.
  unfold ValidString. induction s as [|a s IH]; [done|]. cbn [str_forall].
  rewrite andb_true_iff. unfold is_ascii. intros [Ha Hs]. cbn [valid_go]. simpl. rewrite Ha.
  by apply IH.
Qed.

(** ASCII text comes from nothing else. *)
Lemma coerce_utf8_ascii s t :
  str_forall is_ascii t = true → coerce_utf8 s = t → s = t.
Proof.
  unfold coerce_utf8. revert t. induction s as [|a s IH]; intros t Ht; [done|].
  cbn [coerce_go]. destruct (rune_len (String a s)) as [|k] eqn:Hr.
  - intros <-. by vm_compute in Ht.
  - intros <-. cbn [str_forall] in Ht. apply andb_true_iff in Ht as [Ha Ht].
    unfold is_ascii in Ha. simpl in Hr. rewrite Ha in Hr. injection Hr as <-. f_equal.
    by apply IH.
Qed.

Lemma FormatInt_ascii z : str_forall is_ascii (FormatInt z) = true.
Proof.
  apply (str_forall_impl is_numeric); [|apply FormatInt_numeric].
  intros a. unfold is_numeric, is_digit, is_ascii. rewrite orb_true_iff, andb_true_iff.
  intros [[_ Ha]|Ha]; [|by apply bool_decide_eq_true in Ha as ->].
  apply N.leb_le in Ha. apply N.ltb_lt. lia.
Qed.
