(* ===== verification/Json.v ===== *)
(** * Json: dynamic Go values and raw JSON

    [value] is the content of a Go [interface{}] as the sources build and inspect
    it: [VMap] is a [map[string]interface{}], [VArr] a slice, and [VTyped v] a
    value of any other static type (a [map[string]string], a [[]string], ...)
    that [encoding/json] encodes as [v] but that does not pass the type assertion
    [.(map[string]interface{})].

    [RawJSON] stands for the byte slice of a [runtime.RawExtension] or an
    [apiextv1.JSON], read up to what [json.Unmarshal] makes of it: absent, the
    encoding of a value, or bytes that do not parse.  [Marshal] followed by
    [Unmarshal] gives the JSON reading of the value back: the static types are gone,
    and JSON text is UTF-8, so the bytes of a string or of a key that are no valid
    UTF-8 come back as U+FFFD. *)
From S2P Require Import Prelude GoStrings.

Inductive value :=
| VNull
| VBool (b : bool)
| VNum (lit : string)
| VStr (s : string)
| VArr (l : list value)
| VMap (m : gmap string value)
| VTyped (v : value).

Inductive RawJSON :=
| RawEmpty
| RawMalformed (bytes : string)
| RawValue (v : value).

(** The order in which the encoder writes the keys of a map. *)
Definition key_before (p q : string * value) : Prop := str_ltb q.1 p.1 = false.

#[export] Instance key_before_dec : RelDecision key_before.
Proof. intros p q. unfold key_before. apply _. Defined.

(** A map as it is read back: the keys are written in order, each with its invalid bytes
    replaced, and of two equal keys the decoder keeps the last. *)
Definition json_keys (m : gmap string value) : gmap string value :=
  list_to_map (reverse (prod_map coerce_utf8 id <$> merge_sort key_before (map_to_list m))).

(** What [json.Unmarshal] into an [interface{}] gives back after [json.Marshal]. *)
Fixpoint json_erase (v : value) : value :=
  match v with
  | VStr s => VStr (coerce_utf8 s)
  | VArr l => VArr (json_erase <$> l)
  | VMap m => VMap (json_keys (json_erase <$> m))
  | VTyped v => json_erase v
  | _ => v
  end.

Definition Marshal (v : value) : RawJSON := RawValue (json_erase v).

(** [None] is a parse error. *)
Definition Unmarshal (raw : RawJSON) : option value :=
  match raw with RawValue v => Some v | _ => None end.

Definition raw_len_zero (raw : RawJSON) : bool :=
  match raw with
  | RawEmpty => true
  | RawMalformed b => bool_decide (b = "")
  | RawValue _ => false
  end.

(** ** Induction that reaches into arrays and maps *)

Fixpoint value_size (v : value) : nat :=
  match v with
  | VArr l => S (foldr (λ x n, value_size x + n) 0 l)
  | VMap m => S (map_fold (λ _ x n, value_size x + n) 0 m)
  | VTyped v => S (value_size v)
  | _ => 0
  end.

Lemma value_size_arr x l : x ∈ l → value_size x < value_size (VArr l).
Proof. induction 1; simpl in *; lia. Qed.

Lemma value_size_map k x (m : gmap string value) :
  m !! k = Some x → value_size x < value_size (VMap m).
Proof.
  intros Hk. simpl.
  rewrite (map_fold_delete_L _ 0 k x m); [lia | intros; lia | done].
Qed.

Lemma value_nested_ind (P : value → Prop)
    (Pnull : P VNull) (Pbool : ∀ b, P (VBool b)) (Pnum : ∀ l, P (VNum l))
    (Pstr : ∀ s, P (VStr s))
    (Parr : ∀ l, (∀ x, x ∈ l → P x) → P (VArr l))
    (Pmap : ∀ m, (∀ k x, m !! k = Some x → P x) → P (VMap m))
    (Ptyped : ∀ v, P v → P (VTyped v)) v : P v.
Proof.
  induction (Nat.lt_wf_0_projected value_size v) as [v _ IH].
  destruct v as [|b|l|s|l|m|v]; [done.. | | |].
  - apply Parr. intros x Hx. by apply IH, value_size_arr.
  - apply Pmap. intros k x Hx. by eapply IH, value_size_map.
  - apply Ptyped, IH. simpl. lia.
Qed.

(** ** What comes back of a map *)

Lemma json_keys_entry (m : gmap string value) k v :
  (k, v) ∈ reverse (prod_map coerce_utf8 id <$> merge_sort key_before (map_to_list m)) ↔
  ∃ k', m !! k' = Some v ∧ coerce_utf8 k' = k.
Proof.
  rewrite elem_of_reverse, list_elem_of_fmap. split.
  - intros ([k' v'] & [= -> ->] & Hin). rewrite (merge_sort_Permutation _ _) in Hin.
    apply elem_of_map_to_list in Hin. by exists k'.
  - intros (k' & Hk' & <-). exists (k', v). split; [done|].
    by rewrite (merge_sort_Permutation _ _), elem_of_map_to_list.
Qed.

(** A key that no other key is read as. *)
Lemma json_keys_lookup (m : gmap string value) k :
  coerce_utf8 k = k → (∀ k', is_Some (m !! k') → coerce_utf8 k' = k → k' = k) →
  json_keys m !! k = m !! k.
Proof.
  intros Hk Honly. unfold json_keys.
  set (l := reverse _). destruct (list_to_map l !! k) as [v|] eqn:Hl.
  - apply elem_of_list_to_map_2, json_keys_entry in Hl as (k' & Hk' & Hc).
    by rewrite <- (Honly k' (mk_is_Some _ _ Hk') Hc), Hk'.
  - symmetry. apply eq_None_not_Some. intros [v Hv].
    apply not_elem_of_list_to_map_2 in Hl. apply Hl, list_elem_of_fmap. exists (k, v).
    split; [done|]. apply json_keys_entry. eauto.
Qed.

(** An ASCII key. *)
Lemma json_keys_ascii (m : gmap string value) k :
  str_forall is_ascii k = true → json_keys m !! k = m !! k.
Proof.
  intros Hk. apply json_keys_lookup; [by apply coerce_utf8_id, ascii_valid|].
  intros k' _ Hc. by eapply coerce_utf8_ascii.
Qed.

(** A map whose keys are all valid text. *)
Lemma json_keys_valid (m : gmap string value) :
  (∀ k, is_Some (m !! k) → ValidString k = true) → json_keys m = m.
Proof.
  intros Hm. apply map_eq. intros k. destruct (ValidString k) eqn:Hk.
  - apply json_keys_lookup; [by apply coerce_utf8_id|]. intros k' Hk' <-.
    symmetry. by apply coerce_utf8_id, Hm.
  - destruct (json_keys m !! k) as [v|] eqn:Hl.
    + apply elem_of_list_to_map_2, json_keys_entry in Hl as (k' & _ & <-).
      by rewrite coerce_utf8_valid in Hk.
    + symmetry. apply eq_None_not_Some. intros Hs. apply Hm in Hs. congruence.
Qed.

(** Marshalling and parsing back. *)
Lemma Unmarshal_Marshal v : Unmarshal (Marshal v) = Some (json_erase v).
Proof. done. Qed.
