(* ===== verification/K8s.v ===== *)
(** * K8s: the shapes of the Kubernetes types the sources use

    These records list the fields of the [metav1], [corev1] and [appsv1] structs
    that the sources read or write; the packages that declare them are not part of
    the repository.  A nil map is told apart from an empty one ([option]) where
    the sources do so. *)
From S2P Require Import Prelude Json.

(** [types.NamespacedName], as the pair of the namespace and the name. *)
Abbreviation ObjectKey := (string * string)%type (only parsing).

(** Nanoseconds; 0 is the zero [time.Time]. *)
Abbreviation Time := Z (only parsing).

Record OwnerReference := {
  or_APIVersion : string;
  or_Kind : string;
  or_Name : string;
  or_UID : string;
  or_Controller : option bool;
  or_BlockOwnerDeletion : option bool;
}.

#[export] Instance OwnerReference_eq_dec : EqDecision OwnerReference.
Proof. solve_decision. Defined.

Record ObjectMeta := {
  om_Name : string;
  om_Namespace : string;
  om_UID : string;
  om_ResourceVersion : string;
  om_Generation : Z;
  om_Labels : option (gmap string string);
  om_Annotations : option (gmap string string);
  om_Finalizers : list string;
  om_OwnerReferences : list OwnerReference;
  om_DeletionTimestamp : option Time;
}.

#[export] Instance ObjectMeta_eq_dec : EqDecision ObjectMeta.
Proof. solve_decision. Defined.

(** The zero value, to be updated field by field in composite literals. *)
Definition ObjectMeta_zero : ObjectMeta :=
  {| om_Name := ""; om_Namespace := ""; om_UID := ""; om_ResourceVersion := "";
     om_Generation := 0; om_Labels := None; om_Annotations := None;
     om_Finalizers := []; om_OwnerReferences := []; om_DeletionTimestamp := None |}.

Definition meta_key (m : ObjectMeta) : ObjectKey := (om_Namespace m, om_Name m).

(** Reading a key of a possibly nil map. *)
Definition map_get (m : option (gmap string string)) (k : string) : option string :=
  m ≫= (.!! k).

(** [metav1.Time.IsZero] on the pointer. *)
Definition time_is_zero (t : option Time) : bool :=
  match t with None => true | Some t => (t =? 0)%Z end.

(** [metav1.ConditionStatus] *)
Inductive ConditionStatus := ConditionTrue | ConditionFalse | ConditionUnknown.

#[export] Instance ConditionStatus_eq_dec : EqDecision ConditionStatus.
Proof. solve_decision. Defined.

Record Condition := {
  c_Type : string;
  c_Status : ConditionStatus;
  c_ObservedGeneration : Z;
  c_LastTransitionTime : Time;
  c_Reason : string;
  c_Message : string;
}.

#[export] Instance Condition_eq_dec : EqDecision Condition.
Proof. solve_decision. Defined.

(** [metav1.LabelSelectorRequirement] *)
Record LabelSelectorRequirement := {
  lsr_Key : string;
  lsr_Operator : string;
  lsr_Values : list string;
}.

#[export] Instance LabelSelectorRequirement_eq_dec : EqDecision LabelSelectorRequirement.
Proof. solve_decision. Defined.

(** [metav1.LabelSelector] *)
Record LabelSelector := {
  ls_MatchLabels : gmap string string;
  ls_MatchExpressions : list LabelSelectorRequirement;
}.

(** ** Core and apps objects *)

Record Secret := {
  sec_ObjectMeta : ObjectMeta;
  sec_Type : string;
  sec_Data : gmap string string;
}.

Record ConfigMap := {
  cm_ObjectMeta : ObjectMeta;
  cm_Data : gmap string string;
}.

Record EnvVar := { env_Name : string; env_Value : string }.

Record ContainerPort := { cp_Name : string; cp_ContainerPort : Z }.

Record VolumeMount := { vm_Name : string; vm_MountPath : string }.

(** Quantities are kept as the text given to [resource.MustParse]. *)
Record ResourceList := {
  rl_Requests : gmap string string;
  rl_Limits : gmap string string;
}.

Record Probe := {
  prb_Command : list string;
  prb_InitialDelaySeconds : Z;
  prb_PeriodSeconds : Z;
  prb_TimeoutSeconds : Z;
  prb_FailureThreshold : Z;
}.

Record SecurityContext := {
  sc_RunAsUser : option Z;
  sc_RunAsGroup : option Z;
  sc_FSGroup : option Z;
  sc_RunAsNonRoot : option bool;
  sc_AllowPrivilegeEscalation : option bool;
  sc_ReadOnlyRootFilesystem : option bool;
  sc_Drop : list string;
}.

Record Container := {
  ctr_Name : string;
  ctr_Image : string;
  ctr_Env : list EnvVar;
  ctr_Ports : list ContainerPort;
  ctr_VolumeMounts : list VolumeMount;
  ctr_Resources : option ResourceList;
  ctr_ReadinessProbe : option Probe;
  ctr_LivenessProbe : option Probe;
  ctr_SecurityContext : option SecurityContext;
}.

Record PodTemplateSpec := {
  pts_Labels : gmap string string;
  pts_SecurityContext : option SecurityContext;
  pts_Containers : list Container;
}.

Record PersistentVolumeClaim := {
  pvc_Name : string;
  pvc_AccessModes : list string;
  pvc_Storage : string;
}.

Record StatefulSet := {
  sts_ObjectMeta : ObjectMeta;
  sts_ServiceName : string;
  sts_Replicas : option Z;
  sts_Selector : gmap string string;
  sts_Template : PodTemplateSpec;
  sts_VolumeClaimTemplates : list PersistentVolumeClaim;
  sts_ReadyReplicas : Z;
}.

Record Deployment := {
  dep_ObjectMeta : ObjectMeta;
  dep_Replicas : option Z;
  dep_Selector : gmap string string;
  dep_Template : PodTemplateSpec;
  dep_StatusReplicas : Z;
  dep_StatusReadyReplicas : Z;
}.

Record K8sServicePort := {
  ksp_Name : string;
  ksp_Port : Z;
  ksp_TargetPort : Z;
  ksp_NodePort : Z;
  ksp_Protocol : string;
}.

Record LoadBalancerIngress := { lbi_IP : string; lbi_Hostname : string }.

Record Service := {
  svc_ObjectMeta : ObjectMeta;
  svc_Type : string;
  svc_ClusterIP : string;
  svc_Ports : list K8sServicePort;
  svc_Selector : gmap string string;
  svc_Ingress : list LoadBalancerIngress;
}.

(** [reconcile.Request] and [ctrl.Result] of controller-runtime. *)
Record Result := {
  res_Requeue : bool;
  res_RequeueAfter : Z;
}.

Definition Result_zero : Result := {| res_Requeue := false; res_RequeueAfter := 0 |}.

#[export] Instance Result_eq_dec : EqDecision Result.
Proof. solve_decision. Defined.

(** [time.Second] and [time.Minute] in nanoseconds. *)
Definition Second : Z := 1000000000.
Definition Minute : Z := 60 * Second.
