(* ===== verification/Api.v ===== *)
(** * Api: the API types of [api/v1b1]

    One record per struct, one inductive type per string enumeration.  A pointer
    to a value is an [option]; a slice is a list (nil and empty slices are not
    told apart); the raw JSON fields are [RawJSON].  Enumerations have a last
    constructor for a string outside the declared constants, which the API server
    would refuse but the code handles. *)
From S2P Require Import Prelude Json K8s.

(** ** workload_types.go *)

Record FileSourceSpec := { fss_URI : string }.

Record FileSpec := {
  fs_Target : string;
  fs_Mode : option string;
  fs_Source : option FileSourceSpec;
  fs_Content : option string;
  fs_BinaryContent : option string;
}.

Record HTTPGetProbe := {
  hgp_Path : string;
  hgp_Port : Z;
  hgp_Headers : gmap string string;
}.

Record ExecProbe := { ep_Command : list string }.

Record ProbeSpec := {
  ps_HTTPGet : option HTTPGetProbe;
  ps_Exec : option ExecProbe;
}.

Record ResourceRequirements := {
  rr_Limits : gmap string string;
  rr_Requests : gmap string string;
}.

Record ContainerSpec := {
  cs_Image : string;
  cs_Command : list string;
  cs_Args : list string;
  cs_Variables : option (gmap string string);
  cs_Files : list FileSpec;
  cs_LivenessProbe : option ProbeSpec;
  cs_ReadinessProbe : option ProbeSpec;
  cs_Resources : option ResourceRequirements;
}.

(** Ports are [int32]. *)
Record ServicePort := {
  sp_Port : Z;
  sp_Protocol : string;
  sp_TargetPort : option Z;
}.

Record ServiceSpec := { ss_Ports : list ServicePort }.

Record ResourceSpec := {
  rs_Type : string;
  rs_Class : option string;
  rs_Params : option RawJSON;
}.

Record WorkloadSpec := {
  ws_Profile : option string;
  ws_Containers : gmap string ContainerSpec;
  ws_Service : option ServiceSpec;
  ws_Resources : gmap string ResourceSpec;
}.

(** ** resourceclaim_types.go *)

Inductive ResourceClaimPhase :=
| ResourceClaimPhaseEmpty
| ResourceClaimPhasePending
| ResourceClaimPhaseClaiming
| ResourceClaimPhaseBound
| ResourceClaimPhaseFailed
| ResourceClaimPhaseOther (s : string).

#[export] Instance ResourceClaimPhase_eq_dec : EqDecision ResourceClaimPhase.
Proof. solve_decision. Defined.

Inductive DeprovisionPolicy :=
| DeprovisionDelete
| DeprovisionRetain
| DeprovisionOrphan
| DeprovisionOther (s : string).

#[export] Instance DeprovisionPolicy_eq_dec : EqDecision DeprovisionPolicy.
Proof. solve_decision. Defined.

(** [scorev1b1.NamespacedName] *)
Record NamespacedName := {
  nn_Name : string;
  nn_Namespace : string;
}.

#[export] Instance NamespacedName_eq_dec : EqDecision NamespacedName.
Proof. solve_decision. Defined.

Record ResourceClaimSpec := {
  rcs_WorkloadRef : NamespacedName;
  rcs_Key : string;
  rcs_Type : string;
  rcs_Class : option string;
  rcs_ID : option string;
  rcs_Params : option RawJSON;
  rcs_DeprovisionPolicy : option DeprovisionPolicy;
}.

Record LocalObjectReference := { lor_Name : string }.

Record CertificateOutput := {
  co_SecretName : option string;
  co_Data : option (gmap string string);
}.

Record ResourceClaimOutputs := {
  rco_SecretRef : option LocalObjectReference;
  rco_ConfigMapRef : option LocalObjectReference;
  rco_URI : option string;
  rco_Image : option string;
  rco_Cert : option CertificateOutput;
}.

Record ResourceClaimStatus := {
  rst_Phase : ResourceClaimPhase;
  rst_Reason : string;
  rst_Message : string;
  rst_Outputs : option ResourceClaimOutputs;
  rst_OutputsAvailable : bool;
  rst_ObservedGeneration : Z;
  rst_LastTransitionTime : option Time;
}.

Record ResourceClaim := {
  rc_ObjectMeta : ObjectMeta;
  rc_Spec : ResourceClaimSpec;
  rc_Status : ResourceClaimStatus;
}.

(** ** Workload status and object *)

Record ClaimSummary := {
  csum_Key : string;
  csum_Phase : ResourceClaimPhase;
  csum_Reason : string;
  csum_Message : string;
  csum_OutputsAvailable : bool;
}.

Record WorkloadStatus := {
  wst_Endpoint : option string;
  wst_Conditions : list Condition;
  wst_Claims : list ClaimSummary;
}.

Record Workload := {
  wl_ObjectMeta : ObjectMeta;
  wl_Spec : WorkloadSpec;
  wl_Status : WorkloadStatus;
}.

(** ** orchestratorconfig_types.go *)

Record ResourceConstraints := {
  rcn_CPU : string;
  rcn_Memory : string;
  rcn_Storage : string;
}.

Inductive ConstraintsSpec := {
  cns_Selectors : list SelectorSpec;
  cns_Features : list string;
  cns_Regions : list string;
  cns_Resources : option ResourceConstraints;
}
with SelectorSpec := {
  sel_MatchLabels : gmap string string;
  sel_MatchExpressions : list LabelSelectorRequirement;
  sel_Profile : string;
  sel_Constraints : option ConstraintsSpec;
}.

Record TemplateSpec := {
  ts_Kind : string;
  ts_Ref : string;
  ts_Values : option RawJSON;
}.

(** [Priority] is a Go [int] of 64 bits. *)
Record BackendSpec := {
  be_BackendId : string;
  be_RuntimeClass : string;
  be_Template : TemplateSpec;
  be_Priority : Z;
  be_Version : string;
  be_Constraints : option ConstraintsSpec;
}.

Record ProfileSpec := {
  pr_Name : string;
  pr_Description : string;
  pr_Backends : list BackendSpec;
}.

Record ClassSpec := {
  cls_Name : string;
  cls_Description : string;
  cls_Parameters : option RawJSON;
  cls_Constraints : option ConstraintsSpec;
}.

Record ProvisionerDefaults := {
  pd_Class : string;
  pd_Params : option RawJSON;
}.

Record ProvisionerSpec := {
  pv_Type : string;
  pv_Provisioner : string;
  pv_Classes : list ClassSpec;
  pv_Defaults : option ProvisionerDefaults;
}.

Record DefaultsSpec := {
  ds_Profile : string;
  ds_Selectors : list SelectorSpec;
}.

Record OrchestratorConfigMeta := {
  ocm_Name : string;
  ocm_Version : string;
}.

Record OrchestratorConfigSpec := {
  ocs_Profiles : list ProfileSpec;
  ocs_Provisioners : list ProvisionerSpec;
  ocs_Defaults : DefaultsSpec;
}.

Record OrchestratorConfig := {
  oc_APIVersion : string;
  oc_Kind : string;
  oc_Metadata : OrchestratorConfigMeta;
  oc_Spec : OrchestratorConfigSpec;
  oc_Reconciler : option RawJSON;
}.

(** ** workloadplan_types.go *)

Record WorkloadPlanWorkloadRef := {
  wpr_Name : string;
  wpr_Namespace : string;
}.

#[export] Instance WorkloadPlanWorkloadRef_eq_dec : EqDecision WorkloadPlanWorkloadRef.
Proof. solve_decision. Defined.

Record PlanClaim := {
  pc_Key : string;
  pc_Type : string;
  pc_Class : option string;
  pc_Params : option RawJSON;
}.

Record WorkloadPlanSpec := {
  wps_WorkloadRef : WorkloadPlanWorkloadRef;
  wps_ObservedWorkloadGeneration : Z;
  wps_RuntimeClass : string;
  wps_Template : option TemplateSpec;
  wps_ResolvedValues : option RawJSON;
  wps_Claims : list PlanClaim;
}.

Inductive WorkloadPlanPhase :=
| WorkloadPlanPhaseEmpty
| WorkloadPlanPhasePending
| WorkloadPlanPhaseProvisioning
| WorkloadPlanPhaseReady
| WorkloadPlanPhaseFailed
| WorkloadPlanPhaseOther (s : string).

#[export] Instance WorkloadPlanPhase_eq_dec : EqDecision WorkloadPlanPhase.
Proof. solve_decision. Defined.

Record WorkloadPlanStatus := {
  wpst_Phase : WorkloadPlanPhase;
  wpst_Conditions : list Condition;
  wpst_Message : string;
}.

Record WorkloadPlan := {
  wp_ObjectMeta : ObjectMeta;
  wp_Spec : WorkloadPlanSpec;
  wp_Status : WorkloadPlanStatus;
}.

(** ** workloadexposure_types.go *)

Record WorkloadExposureWorkloadRef := {
  wer_Name : string;
  wer_Namespace : option string;
  wer_UID : string;
}.

#[export] Instance WorkloadExposureWorkloadRef_eq_dec :
  EqDecision WorkloadExposureWorkloadRef.
Proof. solve_decision. Defined.

Record WorkloadExposureSpec := {
  wes_WorkloadRef : WorkloadExposureWorkloadRef;
  wes_ObservedWorkloadGeneration : Z;
  wes_RuntimeClass : string;
}.

#[export] Instance WorkloadExposureSpec_eq_dec : EqDecision WorkloadExposureSpec.
Proof. solve_decision. Defined.

Record ExposureEntry := {
  ee_Name : string;
  ee_URL : string;
  ee_Type : string;
  ee_Ready : bool;
  ee_Scope : string;
  ee_SchemeHint : string;
  ee_Reachable : option bool;
}.

#[export] Instance ExposureEntry_eq_dec : EqDecision ExposureEntry.
Proof. solve_decision. Defined.

Record WorkloadExposureStatus := {
  west_Exposures : list ExposureEntry;
  west_Conditions : list Condition;
}.

#[export] Instance WorkloadExposureStatus_eq_dec : EqDecision WorkloadExposureStatus.
Proof. solve_decision. Defined.

Record WorkloadExposure := {
  we_ObjectMeta : ObjectMeta;
  we_Spec : WorkloadExposureSpec;
  we_Status : WorkloadExposureStatus;
}.
