(* ===== verification/Client.v ===== *)
(** * Client: errors, calls to the outside, and programs over them

    The Go code reaches the API server, the event recorder, the clock and the
    random source through calls whose implementation is not in the repository.  A
    piece of code that makes such calls is a [prog]: a finite tree that returns,
    panics, or makes a [call] and continues with the [reply].  [wp E p past Q] says
    that, as long as the replies satisfy [E], [p] does not panic and [Q] holds of
    its result and of its sequence of calls and replies; [run] executes [p] against
    a given server. *)
From S2P Require Import Prelude Json K8s Api.

(** ** Errors *)

(** The reasons of an apimachinery status error that the sources tell apart. *)
Inductive StatusReason := NotFound | AlreadyExists | Conflict | OtherReason.

#[export] Instance StatusReason_eq_dec : EqDecision StatusReason.
Proof. solve_decision. Defined.

(** A Go [error]: a status error of the API server, the result of [errors.New]
    or of [fmt.Errorf] without [%w], of [fmt.Errorf("prefix: %w", cause)], or of
    [fmt.Errorf("%w: suffix", cause)]. *)
Inductive goerror :=
| EStatus (r : StatusReason) (msg : string)
| ENew (msg : string)
| EWrap (prefix : string) (cause : goerror)
| EWrapFirst (cause : goerror) (suffix : string).

(** [err.Error()] *)
Fixpoint Error (e : goerror) : string :=
  match e with
  | EStatus _ msg => msg
  | ENew msg => msg
  | EWrap p c => p +:+ ": " +:+ Error c
  | EWrapFirst c s => Error c +:+ ": " +:+ s
  end.

(** [apierrors.ReasonForError], which looks through wrapped errors. *)
Fixpoint ReasonForError (e : goerror) : option StatusReason :=
  match e with
  | EStatus r _ => Some r
  | ENew _ => None
  | EWrap _ c | EWrapFirst c _ => ReasonForError c
  end.

(** [errors.Is(e, sentinel)] for a sentinel made by [errors.New]; the sentinels of
    the sources have distinct texts, which no other error repeats. *)
Fixpoint ErrorsIs (e : goerror) (sentinel : string) : bool :=
  match e with
  | EStatus _ _ => false
  | ENew msg => bool_decide (msg = sentinel)
  | EWrap _ c | EWrapFirst c _ => ErrorsIs c sentinel
  end.

Definition IsNotFound (e : goerror) : bool := bool_decide (ReasonForError e = Some NotFound).
Definition IsAlreadyExists (e : goerror) : bool :=
  bool_decide (ReasonForError e = Some AlreadyExists).
Definition IsConflict (e : goerror) : bool := bool_decide (ReasonForError e = Some Conflict).

(** A Go pair [(A, error)] of which exactly one part is meaningful. *)
Inductive res (A : Type) :=
| Ok (a : A)
| Err (e : goerror).
Arguments Ok {_} _.
Arguments Err {_} _.

Definition res_wrap {A} (prefix : string) (r : res A) : res A :=
  match r with Ok a => Ok a | Err e => Err (EWrap prefix e) end.

(** The error part, as the code tests it. *)
Definition err_of {A} (r : res A) : option goerror :=
  match r with Ok _ => None | Err e => Some e end.

(** [client.IgnoreNotFound] *)
Definition IgnoreNotFound (e : goerror) : option goerror := if IsNotFound e then None else Some e.

(** ** Calls *)

Inductive Kind :=
| KWorkload | KResourceClaim | KWorkloadPlan | KWorkloadExposure
| KSecret | KConfigMap | KStatefulSet | KDeployment | KService.

#[export] Instance Kind_eq_dec : EqDecision Kind.
Proof. solve_decision. Defined.

Definition obj (K : Kind) : Type :=
  match K with
  | KWorkload => Workload
  | KResourceClaim => ResourceClaim
  | KWorkloadPlan => WorkloadPlan
  | KWorkloadExposure => WorkloadExposure
  | KSecret => Secret
  | KConfigMap => ConfigMap
  | KStatefulSet => StatefulSet
  | KDeployment => Deployment
  | KService => Service
  end.

Definition obj_meta {K : Kind} : obj K → ObjectMeta :=
  match K return obj K → ObjectMeta with
  | KWorkload => wl_ObjectMeta
  | KResourceClaim => rc_ObjectMeta
  | KWorkloadPlan => wp_ObjectMeta
  | KWorkloadExposure => we_ObjectMeta
  | KSecret => sec_ObjectMeta
  | KConfigMap => cm_ObjectMeta
  | KStatefulSet => sts_ObjectMeta
  | KDeployment => dep_ObjectMeta
  | KService => svc_ObjectMeta
  end.

Definition obj_key {K : Kind} (o : obj K) : ObjectKey := meta_key (obj_meta o).

Inductive call :=
| Get (K : Kind) (key : ObjectKey)
| ListByField (K : Kind) (index : string) (val : string)
| ListByLabel (K : Kind) (namespace : string) (label : string) (val : string)
| Create (K : Kind) (o : obj K)
| Update (K : Kind) (o : obj K)
| StatusUpdate (K : Kind) (o : obj K)
| Patch (K : Kind) (base o : obj K)
| StatusPatch (K : Kind) (base o : obj K)
| Delete (K : Kind) (key : ObjectKey)
| Event (on : ObjectKey) (eventtype reason message : string)
| Now
| RandRead (n : nat).

(** The written object comes back as the server stored it. *)
Definition reply (c : call) : Type :=
  match c with
  | Get K _ => res (obj K)
  | ListByField K _ _ | ListByLabel K _ _ _ => res (list (obj K))
  | Create K _ | Update K _ | StatusUpdate K _ | Patch K _ _ | StatusPatch K _ _ => res (obj K)
  | Delete _ _ => res ()
  | Event _ _ _ _ => ()
  | Now => Time
  | RandRead _ => option string
  end.

(** The calls that change an object of the cluster. *)
Definition is_write (c : call) : bool :=
  match c with
  | Create _ _ | Update _ _ | StatusUpdate _ _ | Patch _ _ _ | StatusPatch _ _ _
  | Delete _ _ => true
  | _ => false
  end.

Definition is_list (c : call) : bool :=
  match c with ListByField _ _ _ | ListByLabel _ _ _ _ => true | _ => false end.

(** The call neither changes the cluster nor lists objects. *)
Definition fetches (c : call) : Prop := is_write c = false ∧ is_list c = false.

(** ** The scheme

    [apiutil.GVKForObject] (the API version and kind of a registered type) and
    [controllerutil.SetControllerReference], which returns the metadata of the
    controlled object with the owner added. *)
Class Scheme := {
  GVKForObject : Kind → res (string * string);
  SetControllerReference : Kind → ObjectMeta → ObjectMeta → res ObjectMeta;
}.

Definition succeeds {A} (r : res A) : Prop := ∃ a, r = Ok a.

(** What controller-runtime documents of [SetControllerReference]: on success the
    owner is a controller reference of the object, and nothing else changes; it fails
    for an owner of an unregistered type or of another namespace, and for an object that
    another controller owns already, and succeeds for an object without a controller. *)
Class SchemeLaws `{Scheme} : Prop := {
  SetControllerReference_spec K owner m m' :
    SetControllerReference K owner m = Ok m' →
    ∃ refs, m' = {| m with om_OwnerReferences := refs |} ∧
      ∃ r, r ∈ refs ∧ or_UID r = om_UID owner ∧ or_Name r = om_Name owner ∧
           or_Controller r = Some true;
  SetControllerReference_free K owner m :
    succeeds (GVKForObject K) →
    om_Namespace owner = "" ∨ om_Namespace owner = om_Namespace m →
    Forall (λ r, or_Controller r ≠ Some true) (om_OwnerReferences m) →
    succeeds (SetControllerReference K owner m);
}.

(** [controllerutil.ContainsFinalizer], [AddFinalizer] and [RemoveFinalizer]. *)
Class Finalizers := {
  ContainsFinalizer : ObjectMeta → string → bool;
  AddFinalizer : ObjectMeta → string → ObjectMeta;
  RemoveFinalizer : ObjectMeta → string → ObjectMeta;
}.

Class FinalizersLaws `{Finalizers} : Prop := {
  ContainsFinalizer_spec m f : ContainsFinalizer m f = true ↔ f ∈ om_Finalizers m;
  AddFinalizer_spec m f : ∃ fs, AddFinalizer m f = {| m with om_Finalizers := fs |} ∧
    ∀ g, g ∈ fs ↔ g = f ∨ g ∈ om_Finalizers m;
  RemoveFinalizer_spec m f : ∃ fs, RemoveFinalizer m f = {| m with om_Finalizers := fs |} ∧
    ∀ g, g ∈ fs ↔ g ≠ f ∧ g ∈ om_Finalizers m;
}.

(** ** The order in which Go visits a map: any order *)

Class MapOrder := { visit : ∀ {A : Type}, gmap string A → list (string * A) }.

Class MapOrderLaws `{MapOrder} : Prop := {
  visit_perm {A} (m : gmap string A) : visit m ≡ₚ map_to_list m;
}.

(** ** Programs *)

(** [Panic] is a run-time panic of the Go code, which ends the reconcile call. *)
Inductive prog (A : Type) :=
| Ret (a : A)
| Call (c : call) (k : reply c → prog A)
| Panic.
Arguments Ret {_} _.
Arguments Call {_} _ _.
Arguments Panic {_}.

#[export] Instance prog_ret : MRet prog := @Ret.

#[export] Instance prog_bind : MBind prog := λ A B f, fix go p :=
  match p with
  | Ret a => f a
  | Call c k => Call c (λ r, go (k r))
  | Panic => Panic
  end.

Definition ask (c : call) : prog (reply c) := Call c Ret.

(** Return early with the error, as [if err != nil { return err }] does. *)
Definition bind_res {A B} (p : prog (res A)) (f : A → prog (res B)) : prog (res B) :=
  p ≫= λ r, match r with Ok a => f a | Err e => Ret (Err e) end.

Definition wrap {A} (prefix : string) (p : prog (res A)) : prog (res A) :=
  p ≫= λ r, Ret (res_wrap prefix r).

(** The dereference of a pointer. *)
Definition deref {A} (o : option A) : prog A :=
  match o with Some a => Ret a | None => Panic end.

Declare Scope prog_scope.
Delimit Scope prog_scope with prog.
Notation "x ←? p ; q" := (bind_res p (λ x, q))
  (at level 20, p at level 100, q at level 200, right associativity) : prog_scope.
Notation "p ;;? q" := (bind_res p (λ _, q))
  (at level 100, q at level 200, right associativity) : prog_scope.
Open Scope prog_scope.

(** ** Behaviour *)

Record event := Ev { ev_call : call; ev_reply : reply ev_call }.

(** [wp E p past Q]: as long as every reply satisfies [E], [p] does not panic and
    [Q] holds of its result and of the calls and replies so far. *)
Fixpoint wp {A} (E : event → Prop) (p : prog A) (past : list event)
    (Q : A → list event → Prop) : Prop :=
  match p with
  | Ret a => Q a past
  | Call c k => ∀ r, E (Ev c r) → wp E (k r) (past ++ [Ev c r]) Q
  | Panic => False
  end.

(** [tr] continues [past]. *)
Definition extends (past tr : list event) : Prop := ∃ l, tr = past ++ l.

Lemma extends_refl past : extends past past.
Proof. exists []. by rewrite app_nil_r. Qed.

Lemma extends_app past tr l : extends past tr → extends past (tr ++ l).
Proof. intros [l' ->]. exists (l' ++ l). by rewrite app_assoc. Qed.

Lemma extends_trans a b c : extends a b → extends b c → extends a c.
Proof. intros Hab [l ->]. by apply extends_app. Qed.

(** Any reply whatever. *)
Definition any : event → Prop := λ _, True.

(** The server answers a read of [k] with [r]. *)
Definition answers (K : Kind) (k : ObjectKey) (r : res (obj K)) : event → Prop :=
  λ e, ∀ r', e = Ev (Get K k) r' → r' = r.

(** The calls of a run that change the cluster, in order. *)
Definition writes (tr : list event) : list call :=
  filter (λ c, is_write c = true) (ev_call <$> tr).

(** The server answers a read of [k] with [o]. *)
Definition reads (K : Kind) (k : ObjectKey) (o : obj K) : event → Prop :=
  λ e, ∀ r, e = Ev (Get K k) r → r = Ok o.

(** Every call [p] can make satisfies [P]. *)
Fixpoint every_call {A} (P : call → Prop) (p : prog A) : Prop :=
  match p with
  | Ret _ => True
  | Call c k => P c ∧ ∀ r, every_call P (k r)
  | Panic => True
  end.

(** Every result [p] can return satisfies [Q]. *)
Fixpoint every_result {A} (Q : A → Prop) (p : prog A) : Prop :=
  match p with
  | Ret a => Q a
  | Call c k => ∀ r, every_result Q (k r)
  | Panic => True
  end.

(** [steps p l q]: after the calls and replies [l], [q] is what is left of [p]. *)
Fixpoint steps {A} (p : prog A) (l : list event) (q : prog A) {struct l} : Prop :=
  match l with
  | [] => q = p
  | e :: l =>
      match p with
      | Call c k => ∃ r, e = Ev c r ∧ steps (k r) l q
      | _ => False
      end
  end.

(** [p] returns [a] after [l]. *)
Definition returns {A} (p : prog A) (l : list event) (a : A) : Prop := steps p l (Ret a).

(** [p] makes the call [c] after [l]. *)
Definition makes {A} (p : prog A) (l : list event) (c : call) : Prop := ∃ k, steps p l (Call c k).

Section run.
Context {W : Type} (serve : ∀ c : call, W → reply c * W).

(** The execution against a server; [None] is a panic. *)
Fixpoint run {A} (p : prog A) (w : W) : option A * W * list event :=
  match p with
  | Ret a => (Some a, w, [])
  | Call c k =>
      let '(r, w1) := serve c w in
      let '(a, w2, tr) := run (k r) w1 in (a, w2, Ev c r :: tr)
  | Panic => (None, w, [])
  end.
End run.

(** *** Laws of programs *)

Lemma writes_app l1 l2 : writes (l1 ++ l2) = writes l1 ++ writes l2.
Proof. unfold writes. by rewrite fmap_app, filter_app. Qed.

Lemma writes_none l : Forall (λ e, is_write (ev_call e) = false) l → writes l = [].
Proof.
  induction 1 as [|e l He Hl IH]; [done|]. unfold writes in *. cbn [fmap list_fmap].
  rewrite filter_cons_False; [done|]. by rewrite He.
Qed.

Lemma bind_ret_l {A B} (a : A) (f : A → prog B) : mret a ≫= f = f a.
Proof. done. Qed.

Lemma wp_mono {A} (E E' : event → Prop) (p : prog A) past (Q Q' : A → list event → Prop) :
  (∀ e, E' e → E e) → (∀ a tr, Q a tr → Q' a tr) → wp E p past Q → wp E' p past Q'.
Proof. intros HE HQ. revert past. induction p; simpl; intros past Hp; naive_solver. Qed.

Lemma wp_bind {A B} E (p : prog A) (f : A → prog B) past Q :
  wp E (p ≫= f) past Q ↔ wp E p past (λ a tr, wp E (f a) tr Q).
Proof.
  revert past. induction p as [a|c k IH|]; intros past; simpl; [done| |done].
  split; intros Hk r Hr; apply IH, Hk, Hr.
Qed.

Lemma wp_and {A} E (p : prog A) past (Q Q' : A → list event → Prop) :
  wp E p past Q → wp E p past Q' → wp E p past (λ a tr, Q a tr ∧ Q' a tr).
Proof. revert past. induction p; simpl; naive_solver. Qed.

Lemma wp_bind_res {A B} E (p : prog (res A)) (f : A → prog (res B)) past Q :
  wp E (bind_res p f) past Q ↔
  wp E p past (λ r tr, match r with Ok a => wp E (f a) tr Q | Err e => Q (Err e) tr end).
Proof.
  unfold bind_res. rewrite wp_bind. split; apply wp_mono; auto; intros [a|e] tr; done.
Qed.

(** What [wp] promises holds of every execution whose replies are as assumed. *)
Lemma wp_run {A W} (serve : ∀ c : call, W → reply c * W) E (p : prog A) past Q w a w' tr :
  wp E p past Q → run serve p w = (a, w', tr) → Forall E tr →
  ∃ x, a = Some x ∧ Q x (past ++ tr).
Proof.
  revert past w a w' tr. induction p as [x|c k IH|]; intros past w a w' tr Hwp; simpl; [| |done].
  - intros [= <- <- <-] _. exists x. by rewrite app_nil_r.
  - destruct (serve c w) as [r w1]. destruct (run serve (k r) w1) as [[a2 w2] tr2] eqn:Hr.
    intros [= <- <- <-]. rewrite Forall_cons. intros [He Htr].
    destruct (IH r _ _ _ _ _ (Hwp r He) Hr Htr) as (x & ? & Hx). exists x.
    by rewrite <- app_assoc in Hx.
Qed.

Lemma every_call_mono {A} (p : prog A) (P P' : call → Prop) :
  (∀ c, P c → P' c) → every_call P p → every_call P' p.
Proof. intros HP. induction p; simpl; naive_solver. Qed.

Lemma every_call_and {A} (p : prog A) (P P' : call → Prop) :
  every_call P p → every_call P' p → every_call (λ c, P c ∧ P' c) p.
Proof. induction p; simpl; naive_solver. Qed.

Lemma every_call_bind {A B} P (p : prog A) (f : A → prog B) :
  every_call P p → (∀ a, every_call P (f a)) → every_call P (p ≫= f).
Proof. intros Hp Hf. induction p as [|c k IH|]; simpl in *; [done| |done]. naive_solver. Qed.

Lemma every_call_bind_result {A B} (Q : A → Prop) P (p : prog A) (f : A → prog B) :
  every_result Q p → every_call P p → (∀ a, Q a → every_call P (f a)) → every_call P (p ≫= f).
Proof. intros HQ Hp Hf. induction p as [|c k IH|]; simpl in *; [auto| |done]. naive_solver. Qed.

Lemma every_call_bind_res {A B} P (p : prog (res A)) (f : A → prog (res B)) :
  every_call P p → (∀ a, every_call P (f a)) → every_call P (bind_res p f).
Proof. intros Hp Hf. apply every_call_bind; [done|]. by intros [a|e]. Qed.

Lemma every_call_wrap {A} P prefix (p : prog (res A)) :
  every_call P p → every_call P (wrap prefix p).
Proof. intros Hp. by apply every_call_bind. Qed.

Lemma every_call_ask (P : call → Prop) c : P c → every_call P (ask c).
Proof. done. Qed.

Lemma every_call_deref {A} P (o : option A) : every_call P (deref o).
Proof. by destruct o. Qed.

(** A call that is not a write. *)
Definition read_only {A} (p : prog A) : Prop := every_call (λ c, is_write c = false) p.

Lemma fetches_reads {A} (p : prog A) : every_call fetches p → read_only p.
Proof. apply every_call_mono. by intros c [? _]. Qed.

(** A program that does not panic adds its calls to the past, all of which satisfy
    what every call satisfies, and returns what every result satisfies. *)
Lemma wp_of_every {A} E (P : call → Prop) (Q : A → Prop) (p : prog A) past :
  wp E p past (λ _ _, True) → every_call P p → every_result Q p →
  wp E p past (λ a tr, Q a ∧ ∃ l, tr = past ++ l ∧ Forall (λ e, P (ev_call e) ∧ E e) l).
Proof.
  revert past. induction p as [a|c k IH|]; intros past; simpl; [| |done].
  - intros _ _ Ha. split; [done|]. exists []. by rewrite app_nil_r.
  - intros Hwp [Hc Hk] HQ r Hr.
    eapply wp_mono; [done| |apply (IH r); [by apply Hwp|apply Hk|apply HQ]].
    intros a tr [Ha (l & -> & Hl)]. split; [done|]. exists (Ev c r :: l).
    rewrite <- app_assoc. split; [done|]. by constructor.
Qed.

(** The calls of an execution satisfy what every call satisfies. *)
Lemma every_call_run {A W} (serve : ∀ c : call, W → reply c * W) (P : call → Prop)
    (p : prog A) w a w' tr :
  every_call P p → run serve p w = (a, w', tr) → Forall (λ e, P (ev_call e)) tr.
Proof.
  revert w a w' tr. induction p as [x|c k IH|]; intros w a w' tr Hp; simpl.
  - by intros [= <- <- <-].
  - destruct Hp as [Hc Hk]. destruct (serve c w) as [r w1].
    destruct (run serve (k r) w1) as [[a2 w2] tr2] eqn:Hr. intros [= <- <- <-].
    constructor; [done|]. by eapply IH.
  - by intros [= <- <- <-].
Qed.

Lemma every_result_bind {A B} (p : prog A) (f : A → prog B) (Q : B → Prop) :
  every_result (λ a, every_result Q (f a)) p → every_result Q (p ≫= f).
Proof. induction p; simpl; naive_solver. Qed.

Lemma every_result_mono {A} (p : prog A) (Q Q' : A → Prop) :
  (∀ a, Q a → Q' a) → every_result Q p → every_result Q' p.
Proof. intros HQ. induction p; simpl; naive_solver. Qed.

Lemma every_result_top {A} (p : prog A) : every_result (λ _, True) p.
Proof. induction p; simpl; auto. Qed.

(** The calls a program adds to the past satisfy what every call satisfies. *)
Lemma wp_with_calls {A} E (P : call → Prop) (p : prog A) past (Q : A → list event → Prop) :
  wp E p past Q → every_call P p →
  wp E p past (λ a tr, Q a tr ∧ ∃ l, tr = past ++ l ∧ Forall (λ e, P (ev_call e)) l).
Proof.
  intros Hwp Hc. apply wp_and; [done|].
  eapply wp_mono; [done| |apply (wp_of_every E P (λ _, True) p past)];
    [|eapply wp_mono; [done| |exact Hwp]; done|done|apply every_result_top].
  intros a tr [_ (l & -> & Hl)]. exists l. split; [done|].
  eapply Forall_impl; [exact Hl|]. by intros e [? _].
Qed.

(** *** Prefixes of runs *)

Lemma steps_bind {A B} (p : prog A) (f : A → prog B) l1 a l2 q :
  returns p l1 a → steps (f a) l2 q → steps (p ≫= f) (l1 ++ l2) q.
Proof.
  unfold returns. revert p. induction l1 as [|e l1 IH]; intros p Hp Hf; simpl in Hp; [by subst p|].
  destruct p as [|c k|]; [done| |done]. destruct Hp as (r & -> & Hr). exists r.
  split; [done|]. by apply IH.
Qed.

Lemma makes_bind_inv {A B} (p : prog A) (f : A → prog B) l c :
  makes (p ≫= f) l c →
  makes p l c ∨ ∃ l1 a l2, l = l1 ++ l2 ∧ returns p l1 a ∧ makes (f a) l2 c.
Proof.
  unfold makes, returns. revert p. induction l as [|e l IH]; intros p [k Hk].
  - destruct p as [a|c' k'|]; simpl in Hk; [|left; injection Hk as -> _; by exists k'|done].
    right. exists [], a, []. split; [done|]. split; [done|]. by exists k.
  - destruct p as [a|c' k'|]; [|destruct Hk as (r & -> & Hr)|done].
    + right. exists [], a, (e :: l). split; [done|]. split; [done|]. by exists k.
    + destruct (IH (k' r)) as [[k2 Hk2]|(l1 & a & l2 & -> & Hret & Hf)]; [by exists k| |].
      * left. exists k2, r. done.
      * right. exists (Ev c' r :: l1), a, l2. split; [done|]. split; [|done]. by exists r.
Qed.

Lemma returns_bind_inv {A B} (p : prog A) (f : A → prog B) l b :
  returns (p ≫= f) l b → ∃ l1 a l2, l = l1 ++ l2 ∧ returns p l1 a ∧ returns (f a) l2 b.
Proof.
  unfold returns. revert p. induction l as [|e l IH]; intros p Hl.
  - destruct p as [a|c k|]; simpl in Hl; [|done..]. by exists [], a, [].
  - destruct p as [a|c k|]; [by exists [], a, (e :: l)| |done].
    destruct Hl as (r & -> & Hr). destruct (IH _ Hr) as (l1 & a & l2 & -> & Hret & Hf).
    exists (Ev c r :: l1), a, l2. split; [done|]. split; [by exists r|done].
Qed.

Lemma returns_ret_inv {A} (a b : A) l : returns (Ret a) l b → l = [] ∧ b = a.
Proof. unfold returns. destruct l; simpl; [by intros [= ->]|done]. Qed.

Lemma makes_ret_inv {A} (a : A) l c : ¬ makes (Ret a) l c.
Proof. intros [k Hk]. by destruct l. Qed.

Lemma makes_ask_inv {A} c (f : reply c → prog A) l c' :
  makes (ask c ≫= f) l c' → (l = [] ∧ c' = c) ∨ ∃ r l', l = Ev c r :: l' ∧ makes (f r) l' c'.
Proof.
  intros [k Hk]. destruct l as [|e l].
  - left. by injection Hk as ->.
  - destruct Hk as (r & -> & Hr). right. exists r, l. split; [done|]. by exists k.
Qed.

Lemma makes_none {A} (p : prog A) P l c : every_call P p → makes p l c → P c.
Proof.
  revert p. induction l as [|e l IH]; intros p Hp [k Hk].
  - destruct p as [|c' k'|]; simpl in Hk; [done| |done]. injection Hk as -> _. by destruct Hp.
  - destruct p as [|c' k'|]; [done| |done]. destruct Hk as (r & -> & Hr).
    apply (IH (k' r)); [apply Hp|by exists k].
Qed.

Lemma read_only_makes {A} (p : prog A) l c : read_only p → makes p l c → is_write c = false.
Proof. apply makes_none. Qed.

Lemma returns_result {A} (p : prog A) Q l a : every_result Q p → returns p l a → Q a.
Proof.
  unfold returns. revert p. induction l as [|e l IH]; intros p Hp Hk.
  - destruct p; simpl in Hk; [|done..]. by injection Hk as <-.
  - destruct p as [|c k|]; [done| |done]. destruct Hk as (r & -> & Hr). by eapply IH, Hr.
Qed.

(** A write of [p ≫= f] is one of [f] when [p] only reads. *)
Lemma write_after_reads {A B} (p : prog A) (f : A → prog B) l c :
  read_only p → is_write c = true → makes (p ≫= f) l c →
  ∃ l1 a l2, l = l1 ++ l2 ∧ returns p l1 a ∧ makes (f a) l2 c.
Proof.
  intros Hp Hw [Hm|?]%makes_bind_inv; [|done]. apply (makes_none _ _ _ _ Hp) in Hm. congruence.
Qed.

(** A write of [p ≫= f] is one of [p] when [f] only reads. *)
Lemma write_before_reads {A B} (p : prog A) (f : A → prog B) l c :
  (∀ a, read_only (f a)) → is_write c = true → makes (p ≫= f) l c → makes p l c.
Proof.
  intros Hf Hw [?|(l1 & a & l2 & _ & _ & Hm)]%makes_bind_inv; [done|].
  apply (makes_none _ _ _ _ (Hf a)) in Hm. congruence.
Qed.

(** The value with which [wrap prefix p] goes on. *)
Lemma returns_wrap_ok {A} prefix (p : prog (res A)) l a :
  returns (wrap prefix p) l (Ok a) → returns p l (Ok a).
Proof.
  intros (l1 & r & l2 & -> & Hr & [-> Heq]%returns_ret_inv)%returns_bind_inv.
  rewrite app_nil_r. destruct r as [a'|e]; [|done]. by injection Heq as ->.
Qed.

Lemma write_after_ok {A B} (p : prog (res A)) (f : A → prog (res B)) l c :
  read_only p → is_write c = true → makes (bind_res p f) l c →
  ∃ l1 a l2, l = l1 ++ l2 ∧ returns p l1 (Ok a) ∧ makes (f a) l2 c.
Proof.
  intros Hp Hw Hm. unfold bind_res in Hm. apply write_after_reads in Hm; [|done..].
  destruct Hm as (l1 & [a|e] & l2 & -> & Hret & Hm); [by exists l1, a, l2|].
  by apply makes_ret_inv in Hm.
Qed.

(** ** Automation *)

Create HintDb prog.
#[export] Hint Resolve extends_refl extends_app : prog.
#[export] Hint Resolve every_call_bind every_call_bind_res every_call_wrap every_call_ask : prog.

(** Walk through a program and leave what is to be shown of each call. *)
Ltac calls_step :=
  lazymatch goal with
  | |- every_call _ (bind_res _ _) => apply every_call_bind_res
  | |- every_call _ (_ ≫= _) => apply every_call_bind
  | |- every_call _ (wrap _ _) => apply every_call_wrap
  | |- every_call _ (ask _) => apply every_call_ask
  | |- every_call _ (mret _) => exact I
  | |- every_call _ (Ret _) => exact I
  | |- every_call _ Panic => exact I
  | |- every_call _ (deref _) => apply every_call_deref
  | |- every_call _ (match ?x with _ => _ end) => destruct x eqn:?
  | |- ∀ _, every_call _ _ => intro
  end.
Ltac calls := repeat calls_step.

(** ** A concrete scheme, for the witnesses

    It refuses owners of another namespace and objects that another controller owns. *)
Module SchemeDemo.
Definition kind_name (K : Kind) : string :=
  match K with
  | KWorkload => "Workload" | KResourceClaim => "ResourceClaim" | KWorkloadPlan => "WorkloadPlan"
  | KWorkloadExposure => "WorkloadExposure" | KSecret => "Secret" | KConfigMap => "ConfigMap"
  | KStatefulSet => "StatefulSet" | KDeployment => "Deployment" | KService => "Service"
  end.

Definition reference (K : Kind) (owner : ObjectMeta) : OwnerReference :=
  {| or_APIVersion := "score.dev/v1b1"; or_Kind := kind_name K; or_Name := om_Name owner;
     or_UID := om_UID owner; or_Controller := Some true; or_BlockOwnerDeletion := Some true |}.

Definition same_object (a b : OwnerReference) : bool :=
  bool_decide (or_APIVersion a = or_APIVersion b) && bool_decide (or_Kind a = or_Kind b) &&
  bool_decide (or_Name a = or_Name b).

Fixpoint upsert_reference (r : OwnerReference) (refs : list OwnerReference) : list OwnerReference :=
  match refs with
  | [] => [r]
  | x :: refs => if same_object x r then r :: refs else x :: upsert_reference r refs
  end.

Definition set_controller (K : Kind) (owner m : ObjectMeta) : res ObjectMeta :=
  if negb (bool_decide (om_Namespace owner = "")) &&
     negb (bool_decide (om_Namespace owner = om_Namespace m))
  then Err (ENew "cross-namespace owner references are disallowed")
  else
    let owned := {| m with om_OwnerReferences :=
                      upsert_reference (reference K owner) (om_OwnerReferences m) |} in
    match List.find (λ r, bool_decide (or_Controller r = Some true)) (om_OwnerReferences m) with
    | Some r => if same_object r (reference K owner) then Ok owned
                else Err (ENew "the object is already owned by another controller")
    | None => Ok owned
    end.

#[local] Instance scheme : Scheme :=
  {| GVKForObject K := Ok ("score.dev/v1b1", kind_name K); SetControllerReference := set_controller |}.

Lemma upsert_has r refs : r ∈ upsert_reference r refs.
Proof.
  induction refs as [|x refs IH]; simpl; [by left|]. destruct (same_object x r); [by left|by right].
Qed.

#[local] Instance scheme_laws : SchemeLaws.
Proof.
  split.
  - intros K owner m m'. simpl. unfold set_controller. destruct (_ && _); [done|]. cbv zeta.
    intros Hm. assert (m' = {| m with om_OwnerReferences :=
      upsert_reference (reference K owner) (om_OwnerReferences m) |}) as ->.
    { destruct (List.find _ _) as [x|]; [destruct (same_object x _); [|done]|]; congruence. }
    eexists. split; [done|]. exists (reference K owner). split; [apply upsert_has|done].
  - intros K owner m _ Hns Hfree. simpl. unfold set_controller.
    assert (negb (bool_decide (om_Namespace owner = "")) &&
      negb (bool_decide (om_Namespace owner = om_Namespace m)) = false) as ->.
    { repeat case_bool_decide; naive_solver. }
    destruct (List.find _ _) as [x|] eqn:Hx; [|by eexists].
    apply find_some in Hx as [Hin%list_elem_of_In Hx%bool_decide_eq_true].
    rewrite Forall_forall in Hfree. by destruct (Hfree x Hin).
Qed.

(** The errors: an owner of another namespace, and a second controller. *)
Example refusals :
  let owner := {| ObjectMeta_zero with om_Name := "a"; om_Namespace := "n" |} in
  let other := {| ObjectMeta_zero with om_Name := "b"; om_Namespace := "n" |} in
  (∃ e, set_controller KWorkload owner ObjectMeta_zero = Err e) ∧
  ∃ m e, set_controller KWorkload owner {| ObjectMeta_zero with om_Namespace := "n" |} = Ok m ∧
    set_controller KWorkload other m = Err e.
Proof. by repeat eexists. Qed.
End SchemeDemo.
