(* ===== verification/Sort.v ===== *)
(** * Sort: [sort.Slice]

    Go documents [sort.Slice(x, less)] as a sort, not necessarily stable, for any
    [less] that is a strict weak order: [is_sort less l l'] is that contract.
    [sort_slice] is the insertion sort that Go runs on slices of at most twelve
    elements; it satisfies the contract.  Where the result of the program may depend on
    the algorithm the sort is a parameter, the class [SortSlice], that meets the
    contract on every slice and is insertion sort on short ones; where it does not, as
    for the choice of a backend, [sort_slice] stands for any sort, and a theorem says
    that any other gives the same. *)
From S2P Require Import Prelude.

Class StrictWeakOrder {A} (less : A → A → bool) : Prop := {
  swo_asym a b : less a b = true → less b a = false;
  swo_neg_trans a b c : less b a = false → less c b = false → less c a = false;
}.

Section sort.
Context {A : Type} (less : A → A → bool).

(** [a] may stand before [b]. *)
Definition before (a b : A) : Prop := less b a = false.

Definition is_sort (l l' : list A) : Prop := l' ≡ₚ l ∧ StronglySorted before l'.

(** The inner loop, on the sorted part read from its last element. *)
Fixpoint insert_back (x : A) (rp : list A) : list A :=
  match rp with
  | [] => [x]
  | y :: ys => if less x y then y :: insert_back x ys else x :: y :: ys
  end.

Definition sort_slice (l : list A) : list A :=
  reverse (foldl (λ rp x, insert_back x rp) [] l).

Lemma insert_back_perm x rp : insert_back x rp ≡ₚ x :: rp.
Proof.
  induction rp as [|y ys IH]; simpl; [done|]. destruct (less x y); [|done].
  rewrite IH. by rewrite Permutation_swap.
Qed.

Lemma foldl_insert_perm l rp : foldl (λ rp x, insert_back x rp) rp l ≡ₚ l ++ rp.
Proof.
  revert rp. induction l as [|x l IH]; intros rp; simpl; [done|].
  rewrite IH, insert_back_perm. by rewrite Permutation_middle.
Qed.

Lemma sort_slice_perm l : sort_slice l ≡ₚ l.
Proof. unfold sort_slice. by rewrite reverse_Permutation, foldl_insert_perm, app_nil_r. Qed.

Context `{!StrictWeakOrder less}.

Lemma insert_back_sorted x rp :
  StronglySorted (flip before) rp → StronglySorted (flip before) (insert_back x rp).
Proof.
  induction 1 as [|y ys Hys IH Hy]; simpl; [by repeat constructor|].
  destruct (less x y) eqn:Hxy.
  - constructor; [done|]. rewrite insert_back_perm. constructor; [|done].
    by apply swo_asym.
  - constructor; [by constructor|]. constructor; [done|].
    eapply Forall_impl; [exact Hy|]. intros z Hz. unfold flip, before in *.
    by eapply swo_neg_trans.
Qed.

Lemma foldl_insert_sorted l rp :
  StronglySorted (flip before) rp →
  StronglySorted (flip before) (foldl (λ rp x, insert_back x rp) rp l).
Proof.
  revert rp. induction l as [|x l IH]; intros rp Hrp; simpl; [done|].
  by apply IH, insert_back_sorted.
Qed.

Lemma StronglySorted_snoc (R : relation A) l x :
  StronglySorted R l → Forall (λ y, R y x) l → StronglySorted R (l ++ [x]).
Proof.
  induction 1 as [|y l Hl IH Hy]; simpl; [by repeat constructor|].
  rewrite Forall_cons. intros [Hyx Hall]. constructor; [by apply IH|].
  by apply Forall_app_2, Forall_singleton.
Qed.

Lemma StronglySorted_reverse (R : relation A) l :
  StronglySorted (flip R) l → StronglySorted R (reverse l).
Proof.
  induction 1 as [|x l Hl IH Hx]; [constructor|]. rewrite reverse_cons.
  apply StronglySorted_snoc; [done|]. by rewrite reverse_Permutation.
Qed.

(** The executable sort meets the contract. *)
Lemma sort_slice_is_sort l : is_sort l (sort_slice l).
Proof.
  split; [apply sort_slice_perm|].
  apply StronglySorted_reverse, foldl_insert_sorted. constructor.
Qed.

(** The first element of a sorted slice is one nothing stands strictly before. *)
Lemma is_sort_head l x l' :
  is_sort l (x :: l') → x ∈ l ∧ ∀ y, y ∈ l → less y x = false.
Proof.
  intros [Hperm Hs]. inversion_clear Hs as [|? ? _ Hall]. rewrite Forall_forall in Hall.
  split; [rewrite <- Hperm; set_solver|]. intros y. rewrite <- Hperm, elem_of_cons.
  intros [->|Hy]; [|by apply Hall].
  destruct (less x x) eqn:Hxx; [|done]. by rewrite (swo_asym _ _ Hxx) in Hxx.
Qed.

(** When the elements are comparable, the first one does not depend on the
    order of the input nor on the sort used. *)
Lemma is_sort_head_unique l1 l2 x1 x2 l1' l2' :
  l1 ≡ₚ l2 → (∀ a b, a ∈ l1 → b ∈ l1 → less a b = true ∨ less b a = true ∨ a = b) →
  is_sort l1 (x1 :: l1') → is_sort l2 (x2 :: l2') → x1 = x2.
Proof.
  intros Hperm Htot H1%is_sort_head H2%is_sort_head.
  destruct H1 as [Hin1 Hmin1], H2 as [Hin2 Hmin2]. rewrite <- Hperm in Hin2.
  destruct (Htot x1 x2 Hin1 Hin2) as [H|[H|H]]; [| |done].
  - rewrite Hmin2 in H; [done | by rewrite <- Hperm].
  - by rewrite Hmin1 in H.
Qed.
(** ** The first element of a stable sort

    Insertion sort is stable: it puts the first of the minimal elements first. *)
Definition keep_min (acc : option A) (x : A) : option A :=
  match acc with
  | None => Some x
  | Some z => if less x z then Some x else Some z
  end.

Definition first_min (l : list A) : option A := foldl keep_min None l.

Lemma insert_back_last x rp :
  StronglySorted (flip before) rp → last (insert_back x rp) = keep_min (last rp) x.
Proof.
  induction 1 as [|y ys Hys IH Hy]; [done|]. cbn [insert_back].
  destruct (less x y) eqn:Hxy.
  - assert (insert_back x ys ≠ []) as Hne.
    { intros Hnil. pose proof (insert_back_perm x ys) as Hp. rewrite Hnil in Hp.
      by apply Permutation_nil_cons in Hp. }
    rewrite !last_cons, IH. destruct (last ys) as [z|] eqn:Hz; cbn [keep_min]; [|by rewrite Hxy].
    by destruct (less x z).
  - rewrite !last_cons. destruct (last ys) as [z|] eqn:Hz; cbn [keep_min]; [|by rewrite Hxy].
    rewrite (swo_neg_trans z y x); [done| |done].
    rewrite Forall_forall in Hy. apply Hy. by apply last_Some_elem_of.
Qed.

Lemma sort_slice_first_min l : head (sort_slice l) = first_min l.
Proof.
  unfold sort_slice, first_min. rewrite head_reverse.
  assert (∀ rp, StronglySorted (flip before) rp →
    last (foldl (λ rp x, insert_back x rp) rp l) = foldl keep_min (last rp) l) as Hgen.
  { induction l as [|x l IH]; intros rp Hrp; simpl; [done|].
    rewrite IH by by apply insert_back_sorted. by rewrite insert_back_last. }
  apply (Hgen []). constructor.
Qed.

Lemma first_min_spec l x :
  first_min l = Some x →
  ∃ l1 l2, l = l1 ++ x :: l2 ∧ (∀ y, y ∈ l1 → less x y = true) ∧ (∀ y, y ∈ l2 → less y x = false).
Proof.
  unfold first_min. revert x. induction l as [|z l IH] using rev_ind; intros x; [done|].
  rewrite foldl_snoc. destruct (foldl keep_min None l) as [w|] eqn:Hw; cbn [keep_min].
  - destruct (IH w eq_refl) as (l1 & l2 & -> & H1 & H2). destruct (less z w) eqn:Hzw; intros [= ->].
    + exists (l1 ++ w :: l2), []. split; [done|]. split; [|set_solver].
      intros y. rewrite elem_of_app, elem_of_cons. intros [Hy|[->|Hy]]; [|done|].
      * destruct (less x y) eqn:Hxy; [done|]. exfalso.
        assert (less x w = false); [|congruence].
        eapply swo_neg_trans; [|exact Hxy]. apply swo_asym. by apply H1.
      * destruct (less x y) eqn:Hxy; [done|]. exfalso.
        assert (less x w = false); [|congruence]. eapply swo_neg_trans; [|exact Hxy].
        by apply H2.
    + exists l1, (l2 ++ [z]). rewrite <- app_assoc. split; [done|]. split; [done|].
      intros y. rewrite elem_of_app, list_elem_of_singleton. intros [Hy| ->]; [by apply H2|done].
  - intros [= ->]. destruct l as [|y l _] using rev_ind.
    + exists [], []. split; [done|]. split; set_solver.
    + rewrite foldl_snoc in Hw. by destruct (foldl keep_min None l); simpl in Hw; [destruct (less _ _)|].
Qed.
End sort.

(** ** Any sort that Go may run *)

Class SortSlice := { SliceSort : ∀ {A : Type}, (A → A → bool) → list A → list A }.

Class SortSliceLaws `{SortSlice} : Prop := {
  SliceSort_sorts {A} (less : A → A → bool) l :
    StrictWeakOrder less → is_sort less l (SliceSort less l);
  SliceSort_short {A} (less : A → A → bool) l :
    length l ≤ 12 → SliceSort less l = sort_slice less l;
}.

(** A sort that meets the contract and is not stable on longer slices. *)
Module SortDemo.
#[local] Instance unstable : SortSlice :=
  {| SliceSort A less l :=
       if length l <=? 12 then sort_slice less l else sort_slice less (reverse l) |}.

#[local] Instance unstable_laws : SortSliceLaws.
Proof.
  split; intros A less l.
  - intros Hless. simpl. destruct (length l <=? 12); [by apply sort_slice_is_sort|].
    destruct (sort_slice_is_sort less (reverse l)) as [Hp Hs]. split; [|done].
    by rewrite Hp, reverse_Permutation.
  - intros Hl. simpl. by rewrite (proj2 (Nat.leb_le _ _) Hl).
Qed.
End SortDemo.
