(* ===== verification/Conditions.v ===== *)
(** * Conditions: [internal/conditions] and [internal/status]

    The list of status conditions of an object, the rule that derives [Ready] from
    the other three conditions, the aggregation of claim statuses and the
    normalisation of runtime conditions. *)
From S2P Require Import Prelude Json K8s Api.

(** ** conditions.go: vocabulary *)

Definition ConditionReady := "Ready".
Definition ConditionClaimsReady := "ClaimsReady".
Definition ConditionRuntimeReady := "RuntimeReady".
Definition ConditionInputsValid := "InputsValid".

Definition ReasonSucceeded := "Succeeded".
Definition ReasonSpecInvalid := "SpecInvalid".
Definition ReasonPolicyViolation := "PolicyViolation".
Definition ReasonClaimPending := "ClaimPending".
Definition ReasonClaiming := "Claiming".
Definition ReasonClaimFailed := "ClaimFailed".
Definition ReasonProjectionError := "ProjectionError".
Definition ReasonRuntimeSelecting := "RuntimeSelecting".
Definition ReasonRuntimeProvisioning := "RuntimeProvisioning".
Definition ReasonRuntimeDegraded := "RuntimeDegraded".
Definition ReasonQuotaExceeded := "QuotaExceeded".
Definition ReasonPermissionDenied := "PermissionDenied".
Definition ReasonNetworkUnavailable := "NetworkUnavailable".

(** The abstract vocabulary of reasons, in the order of the constants. *)
Definition reasons : list string :=
  [ReasonSucceeded; ReasonSpecInvalid; ReasonPolicyViolation; ReasonClaimPending;
   ReasonClaiming; ReasonClaimFailed; ReasonProjectionError; ReasonRuntimeSelecting;
   ReasonRuntimeProvisioning; ReasonRuntimeDegraded; ReasonQuotaExceeded;
   ReasonPermissionDenied; ReasonNetworkUnavailable].

Definition MessageSpecValidationFailed := "Workload specification validation failed".
Definition MessageSpecValidationPending := "Workload specification validation pending".
Definition MessageClaimsNotReady := "Resource claims are not ready".
Definition MessageClaimsProvisioning := "Resource claims are being provisioned".
Definition MessageRuntimeProvisioningFailed := "Runtime provisioning failed".
Definition MessageRuntimeProvisioning := "Runtime is being provisioned".
Definition MessageWorkloadReady := "Workload is ready and operational".
Definition MessageAllClaimsReady := "All resource claims are ready".
Definition MessageClaimsFailed := "One or more resource claims have failed".
Definition MessageProjectionError := "One or more required outputs are not resolved.".

(** ** conditions.go: operations *)

(** The assignments of the loop body to the condition of the given type. *)
Definition update_condition (now : Time) (c : Condition) (status : ConditionStatus)
    (reason message : string) : Condition :=
  if bool_decide (c_Status c ≠ status) || bool_decide (c_Reason c ≠ reason) then
    {| c with c_Status := status; c_Reason := reason; c_Message := message;
              c_LastTransitionTime := now |}
  else if bool_decide (c_Message c ≠ message) then {| c with c_Message := message |}
  else c.

Fixpoint SetCondition (now : Time) (conditions : list Condition) (conditionType : string)
    (status : ConditionStatus) (reason message : string) : list Condition :=
  match conditions with
  | [] =>
      [{| c_Type := conditionType; c_Status := status; c_ObservedGeneration := 0;
          c_LastTransitionTime := now; c_Reason := reason; c_Message := message |}]
  | c :: cs =>
      if bool_decide (c_Type c = conditionType)
      then update_condition now c status reason message :: cs
      else c :: SetCondition now cs conditionType status reason message
  end.

Fixpoint GetCondition (conditions : list Condition) (conditionType : string) : option Condition :=
  match conditions with
  | [] => None
  | c :: cs => if bool_decide (c_Type c = conditionType) then Some c
               else GetCondition cs conditionType
  end.

Fixpoint IsConditionTrue (conditions : list Condition) (conditionType : string) : bool :=
  match conditions with
  | [] => false
  | c :: cs => if bool_decide (c_Type c = conditionType)
               then bool_decide (c_Status c = ConditionTrue)
               else IsConditionTrue cs conditionType
  end.

Record ConditionUpdate := {
  cu_Type : string;
  cu_Status : ConditionStatus;
  cu_Reason : string;
  cu_Message : string;
}.

Definition ForProjectionError (message : string) : list ConditionUpdate :=
  [{| cu_Type := ConditionRuntimeReady; cu_Status := ConditionFalse;
      cu_Reason := ReasonProjectionError; cu_Message := message |}].

Definition ApplyConditionUpdates (now : Time) (conditions : list Condition)
    (updates : list ConditionUpdate) : list Condition :=
  foldl (λ cs u, SetCondition now cs (cu_Type u) (cu_Status u) (cu_Reason u) (cu_Message u))
    conditions updates.

Definition ComputeReadyCondition (conditions : list Condition) :
    ConditionStatus * string * string :=
  let inputsValid := IsConditionTrue conditions ConditionInputsValid in
  let claimsReady := IsConditionTrue conditions ConditionClaimsReady in
  let runtimeReady := IsConditionTrue conditions ConditionRuntimeReady in
  if negb inputsValid then
    match GetCondition conditions ConditionInputsValid with
    | Some c => if bool_decide (c_Status c = ConditionFalse)
                then (ConditionFalse, c_Reason c, MessageSpecValidationFailed)
                else (ConditionFalse, ReasonSpecInvalid, MessageSpecValidationPending)
    | None => (ConditionFalse, ReasonSpecInvalid, MessageSpecValidationPending)
    end
  else if negb claimsReady then
    match GetCondition conditions ConditionClaimsReady with
    | Some c => if bool_decide (c_Status c = ConditionFalse)
                then (ConditionFalse, c_Reason c, MessageClaimsNotReady)
                else (ConditionFalse, ReasonClaimPending, MessageClaimsProvisioning)
    | None => (ConditionFalse, ReasonClaimPending, MessageClaimsProvisioning)
    end
  else if negb runtimeReady then
    match GetCondition conditions ConditionRuntimeReady with
    | Some c => if bool_decide (c_Status c = ConditionFalse)
                then (ConditionFalse, c_Reason c, MessageRuntimeProvisioningFailed)
                else (ConditionFalse, ReasonRuntimeProvisioning, MessageRuntimeProvisioning)
    | None => (ConditionFalse, ReasonRuntimeProvisioning, MessageRuntimeProvisioning)
    end
  else (ConditionTrue, ReasonSucceeded, MessageWorkloadReady).

(** ** status/aggregate.go *)

Record ClaimAggregation := {
  ca_Ready : bool;
  ca_Reason : string;
  ca_Message : string;
  ca_Claims : list ClaimSummary;
}.

Definition claim_summary (claim : ResourceClaim) : ClaimSummary :=
  {| csum_Key := rcs_Key (rc_Spec claim);
     csum_Phase := match rst_Phase (rc_Status claim) with
                   | ResourceClaimPhaseEmpty => ResourceClaimPhasePending
                   | p => p
                   end;
     csum_Reason := rst_Reason (rc_Status claim);
     csum_Message := rst_Message (rc_Status claim);
     csum_OutputsAvailable := rst_OutputsAvailable (rc_Status claim) |}.

(** One round of the counting loop, on [(boundCount, failedCount)]. *)
Definition count_claim (counts : Z * Z) (claim : ResourceClaim) : Z * Z :=
  let '(bound, failed) := counts in
  match rst_Phase (rc_Status claim) with
  | ResourceClaimPhaseBound =>
      if rst_OutputsAvailable (rc_Status claim) then ((bound + 1)%Z, failed) else (bound, failed)
  | ResourceClaimPhaseFailed => (bound, (failed + 1)%Z)
  | _ => (bound, failed)
  end.

Definition AggregateClaimStatuses (claims : list ResourceClaim) : ClaimAggregation :=
  match claims with
  | [] => {| ca_Ready := true; ca_Reason := ReasonSucceeded;
             ca_Message := "No resource dependencies"; ca_Claims := [] |}
  | _ =>
      let summaries := claim_summary <$> claims in
      let '(boundCount, failedCount) := foldl count_claim (0%Z, 0%Z) claims in
      let totalClaims := Z.of_nat (length claims) in
      if (0 <? failedCount)%Z then
        {| ca_Ready := false; ca_Reason := ReasonClaimFailed;
           ca_Message := MessageClaimsFailed; ca_Claims := summaries |}
      else if (boundCount =? totalClaims)%Z then
        {| ca_Ready := true; ca_Reason := ReasonSucceeded;
           ca_Message := MessageAllClaimsReady; ca_Claims := summaries |}
      else
        {| ca_Ready := false; ca_Reason := ReasonClaimPending;
           ca_Message := MessageClaimsProvisioning; ca_Claims := summaries |}
  end.

Definition bool_status (b : bool) : ConditionStatus :=
  if b then ConditionTrue else ConditionFalse.

Definition UpdateWorkloadStatusFromAggregation (now : Time) (workload : Workload)
    (agg : ClaimAggregation) : Workload :=
  let st := {| (wl_Status workload) with wst_Claims := ca_Claims agg |} in
  {| workload with wl_Status :=
       {| st with wst_Conditions :=
            SetCondition now (wst_Conditions st) ConditionClaimsReady
              (bool_status (ca_Ready agg)) (ca_Reason agg) (ca_Message agg) |} |}.

(** ** status/normalize.go *)

Definition reasonMap : gmap string string := list_to_map [
  ("Ready", "Succeeded"); ("Available", "Succeeded"); ("Deployed", "Succeeded");
  ("Active", "Succeeded"); ("Healthy", "Succeeded"); ("Running", "Succeeded");
  ("InvalidSpec", "SpecInvalid"); ("ValidationError", "SpecInvalid");
  ("SchemaViolation", "SpecInvalid"); ("InvalidConfiguration", "SpecInvalid");
  ("PolicyViolation", "PolicyViolation"); ("SecurityViolation", "PolicyViolation");
  ("ComplianceFailure", "PolicyViolation"); ("AdmissionDenied", "PolicyViolation");
  ("Pending", "BindingPending"); ("Waiting", "BindingPending");
  ("Provisioning", "BindingPending"); ("BindingFailed", "BindingFailed");
  ("ProvisioningFailed", "BindingFailed"); ("ResourceUnavailable", "BindingFailed");
  ("ProjectionError", "ProjectionError"); ("TransformationError", "ProjectionError");
  ("MappingError", "ProjectionError");
  ("Selecting", "RuntimeSelecting"); ("RuntimeProvisioning", "RuntimeProvisioning");
  ("Degraded", "RuntimeDegraded"); ("Unavailable", "RuntimeDegraded");
  ("Failed", "RuntimeDegraded");
  ("QuotaExceeded", "QuotaExceeded"); ("ResourceQuotaExceeded", "QuotaExceeded");
  ("LimitExceeded", "QuotaExceeded");
  ("PermissionDenied", "PermissionDenied"); ("Forbidden", "PermissionDenied");
  ("Unauthorized", "PermissionDenied"); ("AccessDenied", "PermissionDenied");
  ("NetworkUnavailable", "NetworkUnavailable"); ("NetworkError", "NetworkUnavailable");
  ("ConnectivityError", "NetworkUnavailable"); ("DNSError", "NetworkUnavailable")].

Definition normalizeReason (reason : string) : string := default "" (reasonMap !! reason).

Definition typeMap : gmap string string := list_to_map [
  ("Ready", "Ready"); ("ClaimsReady", "ClaimsReady"); ("RuntimeReady", "RuntimeReady");
  ("InputsValid", "InputsValid");
  ("Available", "RuntimeReady"); ("Deployed", "RuntimeReady"); ("Active", "RuntimeReady");
  ("Healthy", "RuntimeReady"); ("Running", "RuntimeReady"); ("Progressing", "RuntimeReady");
  ("Valid", "InputsValid"); ("Validated", "InputsValid"); ("SpecValid", "InputsValid");
  ("Bound", "ClaimsReady"); ("Provisioned", "ClaimsReady"); ("ResourceReady", "ClaimsReady")].

Definition normalizeConditionType (conditionType : string) : string :=
  default "" (typeMap !! conditionType).

Definition sanitizeMessage (message : string) : string := message.

Definition normalizeCondition (condition : Condition) : option Condition :=
  let normalizedReason := normalizeReason (c_Reason condition) in
  if bool_decide (normalizedReason = "") then None
  else
    let normalizedType := normalizeConditionType (c_Type condition) in
    if bool_decide (normalizedType = "") then None
    else Some {| condition with c_Type := normalizedType; c_Reason := normalizedReason;
                                c_Message := sanitizeMessage (c_Message condition) |}.

Definition NormalizeConditions (conditions : list Condition) : list Condition :=
  omap normalizeCondition conditions.

(** ** Lemmas: lists of conditions *)

Lemma GetCondition_type cs t c : GetCondition cs t = Some c → c_Type c = t.
Proof.
  induction cs as [|d cs IH]; simpl; [done|]. case_bool_decide; [by intros [= ->] | done].
Qed.

Lemma GetCondition_None cs t : GetCondition cs t = None ↔ t ∉ c_Type <$> cs.
Proof.
  induction cs as [|c cs IH]; simpl; [set_solver|].
  case_bool_decide; [set_solver|]. rewrite IH. set_solver.
Qed.

Lemma IsConditionTrue_Get cs t :
  IsConditionTrue cs t = true ↔ ∃ c, GetCondition cs t = Some c ∧ c_Status c = ConditionTrue.
Proof.
  induction cs as [|c cs IH]; simpl; [naive_solver|].
  case_bool_decide; [rewrite bool_decide_eq_true; naive_solver | done].
Qed.

Lemma update_condition_type now c s r m : c_Type (update_condition now c s r m) = c_Type c.
Proof. unfold update_condition. by repeat case_match. Qed.

(** When the condition of that type keeps its status and reason, so does its
    transition time. *)
Definition transition_time (now : Time) (old : option Condition)
    (s : ConditionStatus) (r : string) : Time :=
  match old with
  | Some c => if bool_decide (c_Status c = s ∧ c_Reason c = r)
              then c_LastTransitionTime c else now
  | None => now
  end.

Lemma update_condition_spec now c s r m :
  let c' := update_condition now c s r m in
  c_Status c' = s ∧ c_Reason c' = r ∧ c_Message c' = m ∧
  c_LastTransitionTime c' = transition_time now (Some c) s r.
Proof.
  unfold update_condition, transition_time.
  destruct (decide (c_Status c = s)), (decide (c_Reason c = r)), (decide (c_Message c = m));
    repeat (case_bool_decide; simpl); naive_solver.
Qed.

Lemma SetCondition_types now cs t s r m :
  c_Type <$> SetCondition now cs t s r m =
  if decide (t ∈ c_Type <$> cs) then c_Type <$> cs else (c_Type <$> cs) ++ [t].
Proof.
  induction cs as [|c cs IH]; [done|]. cbn [SetCondition].
  case_bool_decide as Hc; rewrite !fmap_cons, ?update_condition_type, ?IH.
  - by rewrite decide_True by set_solver.
  - do 2 case_decide; set_solver.
Qed.

Lemma SetCondition_other now cs t s r m t' :
  t' ≠ t → GetCondition (SetCondition now cs t s r m) t' = GetCondition cs t'.
Proof.
  intros Hne. induction cs as [|c cs IH]; simpl; [by rewrite bool_decide_false|].
  case_bool_decide as Hc; simpl; [|by rewrite IH].
  rewrite update_condition_type. by rewrite !bool_decide_false by congruence.
Qed.

Lemma SetCondition_same now cs t s r m :
  ∃ c, GetCondition (SetCondition now cs t s r m) t = Some c ∧
       c_Status c = s ∧ c_Reason c = r ∧ c_Message c = m ∧
       c_LastTransitionTime c = transition_time now (GetCondition cs t) s r.
Proof.
  induction cs as [|c cs IH]; simpl.
  - eexists. by rewrite bool_decide_true.
  - case_bool_decide as Hc; simpl; [|by rewrite bool_decide_false].
    rewrite update_condition_type, bool_decide_true by done.
    eexists. split; [done|]. apply update_condition_spec.
Qed.

Lemma IsConditionTrue_Set_other now cs t s r m t' :
  t' ≠ t → IsConditionTrue (SetCondition now cs t s r m) t' = IsConditionTrue cs t'.
Proof.
  intros Hne. apply eq_true_iff_eq. by rewrite !IsConditionTrue_Get, SetCondition_other.
Qed.

Lemma IsConditionTrue_Set_same now cs t s r m :
  IsConditionTrue (SetCondition now cs t s r m) t = bool_decide (s = ConditionTrue).
Proof.
  apply eq_true_iff_eq. rewrite IsConditionTrue_Get, bool_decide_eq_true.
  destruct (SetCondition_same now cs t s r m) as (c & Hget & <- & _).
  rewrite Hget. naive_solver.
Qed.

(** SetCondition writes exactly one condition.  Afterwards the condition of
    the given type has the given status, reason and message; its transition time
    is kept when neither status nor reason changed and is the current time
    otherwise; the conditions of every other type are untouched; and a list in
    which no type occurs twice still has that property, the types being the old
    ones in the old order, the new one last. *)
Theorem SetCondition_correct now cs t s r m :
  let cs' := SetCondition now cs t s r m in
  (∃ c, GetCondition cs' t = Some c ∧ c_Status c = s ∧ c_Reason c = r ∧ c_Message c = m ∧
        c_LastTransitionTime c = transition_time now (GetCondition cs t) s r) ∧
  (∀ t', t' ≠ t → GetCondition cs' t' = GetCondition cs t') ∧
  (c_Type <$> cs') = (if decide (t ∈ c_Type <$> cs) then c_Type <$> cs
                      else (c_Type <$> cs) ++ [t]) ∧
  (NoDup (c_Type <$> cs) → NoDup (c_Type <$> cs')).
Proof.
  intros cs'. split_and!.
  - apply SetCondition_same.
  - intros t' Hne. by apply SetCondition_other.
  - apply SetCondition_types.
  - intros Hnd. unfold cs'. rewrite SetCondition_types. case_decide; [done|].
    apply NoDup_app. split_and!; [done | set_solver | apply NoDup_singleton].
Qed.

Lemma SetCondition_correct_witness :
  let cs := [Build_Condition "Ready" ConditionFalse 0 5 "ClaimPending" "x"] in
  NoDup (c_Type <$> cs) ∧
  NoDup (c_Type <$> SetCondition 7 cs "InputsValid" ConditionTrue "Succeeded" "ok") ∧
  SetCondition 7 cs "InputsValid" ConditionTrue "Succeeded" "ok" =
    cs ++ [Build_Condition "InputsValid" ConditionTrue 0 7 "Succeeded" "ok"].
Proof.
  intros cs. split; [apply NoDup_singleton|]. split; [|reflexivity].
  apply (SetCondition_correct 7 cs "InputsValid" ConditionTrue "Succeeded" "ok").
  apply NoDup_singleton.
Defined.

(** ** The Ready rule *)

(** The declarative reading of the rule: the first of the three conditions that is
    not true decides, with its own reason when it is explicitly false. *)
Record ready_rule := {
  rule_type : string;
  rule_reason : string;
  rule_failed : string;
  rule_pending : string;
}.

Definition ready_rules : list ready_rule :=
  [{| rule_type := ConditionInputsValid; rule_reason := ReasonSpecInvalid;
      rule_failed := MessageSpecValidationFailed;
      rule_pending := MessageSpecValidationPending |};
   {| rule_type := ConditionClaimsReady; rule_reason := ReasonClaimPending;
      rule_failed := MessageClaimsNotReady; rule_pending := MessageClaimsProvisioning |};
   {| rule_type := ConditionRuntimeReady; rule_reason := ReasonRuntimeProvisioning;
      rule_failed := MessageRuntimeProvisioningFailed;
      rule_pending := MessageRuntimeProvisioning |}].

Definition is_false (oc : option Condition) : option Condition :=
  c ← oc; if bool_decide (c_Status c = ConditionFalse) then Some c else None.

Fixpoint ready_spec (rules : list ready_rule) (cs : list Condition) :
    ConditionStatus * string * string :=
  match rules with
  | [] => (ConditionTrue, ReasonSucceeded, MessageWorkloadReady)
  | u :: rules =>
      if IsConditionTrue cs (rule_type u) then ready_spec rules cs
      else match is_false (GetCondition cs (rule_type u)) with
           | Some c => (ConditionFalse, c_Reason c, rule_failed u)
           | None => (ConditionFalse, rule_reason u, rule_pending u)
           end
  end.

Lemma ready_spec_status rules cs :
  let s := (ready_spec rules cs).1.1 in
  (s = ConditionTrue ↔ Forall (λ u, IsConditionTrue cs (rule_type u) = true) rules) ∧
  s ≠ ConditionUnknown.
Proof.
  induction rules as [|u rules IH]; simpl; [by rewrite Forall_nil|].
  rewrite Forall_cons. destruct (IsConditionTrue cs (rule_type u)); [naive_solver|].
  destruct (is_false _); naive_solver.
Qed.

(** ComputeReadyCondition implements the declarative rule: the status, reason
    and message are those of the first of InputsValid, ClaimsReady and RuntimeReady
    that is not true; Ready is true exactly when all three are true, and never
    Unknown. *)
Theorem ComputeReadyCondition_refines cs :
  ComputeReadyCondition cs = ready_spec ready_rules cs ∧
  ((ComputeReadyCondition cs).1.1 = ConditionTrue ↔
     ∀ t, t ∈ [ConditionInputsValid; ConditionClaimsReady; ConditionRuntimeReady] →
          ∃ c, GetCondition cs t = Some c ∧ c_Status c = ConditionTrue) ∧
  (ComputeReadyCondition cs).1.1 ≠ ConditionUnknown.
Proof.
  assert (ComputeReadyCondition cs = ready_spec ready_rules cs) as Hspec.
  { unfold ComputeReadyCondition, ready_rules. cbn [ready_spec rule_type].
    destruct (IsConditionTrue cs ConditionInputsValid),
      (IsConditionTrue cs ConditionClaimsReady), (IsConditionTrue cs ConditionRuntimeReady);
      simpl; try done;
      destruct (GetCondition cs _); simpl; by repeat case_bool_decide. }
  rewrite Hspec. destruct (ready_spec_status ready_rules cs) as [Hiff Hne].
  split_and!; [done | | done]. rewrite Hiff. unfold ready_rules.
  rewrite !Forall_cons, Forall_nil. cbn [rule_type]. rewrite !IsConditionTrue_Get.
  set_solver.
Qed.

(** ** Aggregation of claim statuses *)

Definition claim_bound (claim : ResourceClaim) : Prop :=
  rst_Phase (rc_Status claim) = ResourceClaimPhaseBound ∧
  rst_OutputsAvailable (rc_Status claim) = true.

Definition claim_failed (claim : ResourceClaim) : Prop :=
  rst_Phase (rc_Status claim) = ResourceClaimPhaseFailed.

#[export] Instance claim_bound_dec claim : Decision (claim_bound claim).
Proof. unfold claim_bound. apply _. Defined.
#[export] Instance claim_failed_dec claim : Decision (claim_failed claim).
Proof. unfold claim_failed. apply _. Defined.

Lemma count_claim_step b f c :
  count_claim (b, f) c =
  ((b + if decide (claim_bound c) then 1 else 0)%Z,
   (f + if decide (claim_failed c) then 1 else 0)%Z).
Proof.
  unfold count_claim.
  destruct (decide (claim_bound c)) as [Hb|Hb], (decide (claim_failed c)) as [Hf|Hf];
    unfold claim_bound, claim_failed in *;
    destruct (rst_Phase (rc_Status c)), (rst_OutputsAvailable (rc_Status c));
    first [exfalso; intuition congruence | f_equal; lia].
Qed.

(** The loop counts the bound claims with outputs and the failed claims. *)
Lemma count_claim_spec claims b f :
  foldl count_claim (b, f) claims =
  ((b + Z.of_nat (length (filter claim_bound claims)))%Z,
   (f + Z.of_nat (length (filter claim_failed claims)))%Z).
Proof.
  revert b f. induction claims as [|c claims IH]; intros b f; [simpl; f_equal; lia|].
  cbn [foldl]. rewrite count_claim_step, IH, !filter_cons.
  repeat case_decide; simpl; f_equal; lia.
Qed.

Lemma filter_length_all {A} (P : A → Prop) `{∀ x, Decision (P x)} (l : list A) :
  length (filter P l) = length l ↔ Forall P l.
Proof.
  induction l as [|x l IH]; simpl; [by rewrite Forall_nil|].
  rewrite filter_cons, Forall_cons. pose proof (length_filter P l).
  case_decide; simpl; [rewrite <- IH; naive_solver lia | naive_solver lia].
Qed.

Lemma filter_length_pos {A} (P : A → Prop) `{∀ x, Decision (P x)} (l : list A) :
  0 < length (filter P l) ↔ Exists P l.
Proof.
  induction l as [|x l IH]; simpl; [split; [lia | by intros ?%Exists_nil]|].
  rewrite filter_cons, Exists_cons, <- IH. case_decide; simpl; naive_solver lia.
Qed.

Lemma AggregateClaimStatuses_spec claims :
  let agg := AggregateClaimStatuses claims in
  (ca_Ready agg = true ↔ Forall claim_bound claims) ∧
  (ca_Reason agg = ReasonClaimFailed ↔ Exists claim_failed claims) ∧
  (ca_Reason agg = ReasonClaimPending ↔
     ¬ Forall claim_bound claims ∧ ¬ Exists claim_failed claims) ∧
  ca_Claims agg = claim_summary <$> claims.
Proof.
  destruct claims as [|c cl]; cbn zeta.
  { simpl. rewrite Forall_nil, Exists_nil. naive_solver. }
  remember (c :: cl) as claims eqn:Hcl.
  assert (AggregateClaimStatuses claims =
    let '(b, f) := foldl count_claim (0%Z, 0%Z) claims in
    if (0 <? f)%Z then Build_ClaimAggregation false ReasonClaimFailed MessageClaimsFailed
                         (claim_summary <$> claims)
    else if (b =? Z.of_nat (length claims))%Z
    then Build_ClaimAggregation true ReasonSucceeded MessageAllClaimsReady
           (claim_summary <$> claims)
    else Build_ClaimAggregation false ReasonClaimPending MessageClaimsProvisioning
           (claim_summary <$> claims)) as -> by (by subst).
  rewrite count_claim_spec. clear Hcl.
  assert (length (filter claim_bound claims) = length claims ↔ Forall claim_bound claims)
    as Hb by apply filter_length_all.
  assert (0 < length (filter claim_failed claims) ↔ Exists claim_failed claims)
    as Hf by apply filter_length_pos.
  assert (Exists claim_failed claims → ¬ Forall claim_bound claims) as Hexcl.
  { rewrite Exists_exists, Forall_forall. intros (x & Hx & Hfx) Hall.
    destruct (Hall x Hx). unfold claim_failed in Hfx. congruence. }
  destruct (Z.ltb_spec 0 (0 + Z.of_nat (length (filter claim_failed claims)))) as [Hlt|Hle];
    [assert (Exists claim_failed claims) by (apply Hf; lia)
    |assert (¬ Exists claim_failed claims) by (rewrite <- Hf; lia);
     destruct (Z.eqb_spec (0 + Z.of_nat (length (filter claim_bound claims)))
                  (Z.of_nat (length claims)));
     [assert (Forall claim_bound claims) by (apply Hb; lia)
     |assert (¬ Forall claim_bound claims) by (rewrite <- Hb; lia)]];
    clear Hb Hf; simpl; split_and!; try split; intros; destruct_and?; tauto || done.
Qed.

(** C15: The aggregated status is ready exactly when every claim is Bound with its
    outputs available; it reports ClaimFailed exactly when some claim has failed,
    also when others are bound, and ClaimPending in the remaining cases; there is
    one summary per claim, in order, with the empty phase shown as Pending. *)
Theorem AggregateClaimStatuses_correct claims :
  let agg := AggregateClaimStatuses claims in
  (ca_Ready agg = true ↔ Forall claim_bound claims) ∧
  (ca_Reason agg = ReasonClaimFailed ↔ Exists claim_failed claims) ∧
  (ca_Reason agg = ReasonClaimPending ↔
     ¬ Forall claim_bound claims ∧ ¬ Exists claim_failed claims) ∧
  ca_Claims agg = claim_summary <$> claims.
Proof. exact (AggregateClaimStatuses_spec claims). Qed.

(** ** Normalisation *)

Definition abstract_types : list string :=
  [ConditionReady; ConditionClaimsReady; ConditionRuntimeReady; ConditionInputsValid].

(** The reasons a normalised condition can carry. *)
Definition normalized_reasons : list string :=
  [ReasonSucceeded; ReasonSpecInvalid; ReasonPolicyViolation; "BindingPending";
   "BindingFailed"; ReasonProjectionError; ReasonRuntimeSelecting;
   ReasonRuntimeProvisioning; ReasonRuntimeDegraded; ReasonQuotaExceeded;
   ReasonPermissionDenied; ReasonNetworkUnavailable].

Lemma reasonMap_image : map_Forall (λ _ v, v ∈ normalized_reasons ∧ v ≠ "") reasonMap.
Proof. refine (bool_decide_unpack _ _). vm_compute. exact I. Qed.

Lemma typeMap_image : map_Forall (λ _ v, v ∈ abstract_types ∧ v ≠ "") typeMap.
Proof. refine (bool_decide_unpack _ _). vm_compute. exact I. Qed.

(** The tables are only looked up through the lemmas above. *)
#[local] Opaque reasonMap typeMap.

Lemma normalizeCondition_Some c c' :
  normalizeCondition c = Some c' ↔
  ∃ r t, reasonMap !! c_Reason c = Some r ∧ typeMap !! c_Type c = Some t ∧
         c' = {| c with c_Type := t; c_Reason := r |}.
Proof.
  unfold normalizeCondition, normalizeReason, normalizeConditionType, sanitizeMessage.
  destruct (reasonMap !! c_Reason c) as [r|] eqn:Hr; simpl;
    [|split; [done | by intros (? & ? & ? & _)]].
  destruct (reasonMap_image _ _ Hr) as [_ Hr0]. rewrite bool_decide_false by done.
  destruct (typeMap !! c_Type c) as [t|] eqn:Ht; simpl;
    [|split; [done | by intros (? & ? & _ & ? & _)]].
  destruct (typeMap_image _ _ Ht) as [_ Ht0]. rewrite bool_decide_false by done.
  split; [intros [= <-]; exists r, t; by destruct c|].
  intros (r' & t' & [= <-] & [= <-] & ->). by destruct c.
Qed.

(** Normalisation only lets the abstract vocabulary through: every condition it
    returns has one of the four abstract types and one of the abstract reasons, and
    comes from a runtime condition whose status, message, observed generation and
    transition time it keeps; a runtime condition is dropped exactly when its
    reason or its type is not in the tables. *)
Theorem NormalizeConditions_vocabulary cs :
  (∀ c', c' ∈ NormalizeConditions cs →
     c_Type c' ∈ abstract_types ∧ c_Reason c' ∈ normalized_reasons ∧
     ∃ c, c ∈ cs ∧ normalizeConditionType (c_Type c) = c_Type c' ∧
          normalizeReason (c_Reason c) = c_Reason c' ∧
          c_Status c' = c_Status c ∧ c_Message c' = c_Message c ∧
          c_ObservedGeneration c' = c_ObservedGeneration c ∧
          c_LastTransitionTime c' = c_LastTransitionTime c) ∧
  (∀ c, c ∈ cs → (normalizeCondition c = None ↔
     reasonMap !! c_Reason c = None ∨ typeMap !! c_Type c = None)).
Proof.
  split.
  - intros c'. unfold NormalizeConditions. rewrite list_elem_of_omap.
    intros (c & Hc & (r & t & Hr & Ht & ->)%normalizeCondition_Some).
    destruct (reasonMap_image _ _ Hr), (typeMap_image _ _ Ht). simpl.
    unfold normalizeConditionType, normalizeReason. split_and!; [done..|].
    exists c. by rewrite Hr, Ht.
  - intros c _. rewrite eq_None_not_Some. unfold is_Some.
    setoid_rewrite normalizeCondition_Some.
    destruct (reasonMap !! c_Reason c) as [r|], (typeMap !! c_Type c) as [t|];
      split; try tauto; try (intros _ (? & ? & ? & ? & ? & ?); done).
    + intros H. exfalso. apply H. by exists {| c with c_Type := t; c_Reason := r |}, r, t.
    + by intros [|].
Qed.

(** Normalisation does not let the abstract vocabulary through unchanged: a
    runtime condition that already reports the abstract reason Succeeded is always
    dropped, while the reason Pending becomes BindingPending, a reason that is not
    among the constants of the conditions package. *)
Theorem NormalizeConditions_not_closed cs c :
  (c_Reason c = ReasonSucceeded → normalizeCondition c = None) ∧
  normalizeReason "Pending" = "BindingPending" ∧ ("BindingPending" ∉ reasons) ∧
  NormalizeConditions (filter (λ c, c_Reason c = ReasonSucceeded) cs) = [].
Proof.
  assert (∀ c, c_Reason c = ReasonSucceeded → normalizeCondition c = None) as Hdrop.
  { intros d Hd. unfold normalizeCondition. rewrite Hd. reflexivity. }
  split_and!; [apply Hdrop | reflexivity | | ].
  - apply (bool_decide_eq_false ("BindingPending" ∈ reasons)). reflexivity.
  - induction cs as [|d cs IH]; [done|]. rewrite filter_cons.
    case_decide as Hd; [|done]. simpl. by rewrite Hdrop.
Qed.
