(* ===== verification/Selection.v ===== *)
(** * Selection: [internal/selection]

    The deterministic choice of a profile and of a backend for a workload.  The
    version library (Masterminds/semver) and the label selectors of apimachinery
    are parameters.  The debug prints are left out. *)
From S2P Require Import Prelude GoStrings Json K8s Api Client Sort.

(** [semver.NewVersion] and [Version.Compare]. *)
Class Semver := {
  Version : Type;
  NewVersion : string → option Version;
  Compare : Version → Version → Z;
}.

(** What the SemVer specification says of precedence: it is a total preorder, and
    comparing the other way round changes the sign. *)
Class SemverLaws `{Semver} : Prop := {
  Compare_opp a b : Compare b a = (- Compare a b)%Z;
  Compare_trans a b c :
    (0 <= Compare a b)%Z → (0 <= Compare b c)%Z → (0 <= Compare a c)%Z;
}.

(** [metav1.LabelSelectorAsSelector]: [None] when the selector does not parse, and
    otherwise the [Matches] method of the result. *)
Class LabelSelectors := {
  LabelSelectorAsSelector : LabelSelector → option (gmap string string → bool);
}.

Record SelectedBackend := {
  sb_BackendID : string;
  sb_RuntimeClass : string;
  sb_Template : TemplateSpec;
  sb_Priority : Z;
  sb_Version : string;
}.

(** ** Quantities *)

(** [parseQuantity] returns an [int64] or an error. *)
Definition parseQuantity (quantityStr : string) : option Z :=
  if bool_decide (quantityStr = "") then Some 0%Z
  else if HasSuffix quantityStr "m" then ParseInt (TrimSuffix quantityStr "m")
  else if HasSuffix quantityStr "Mi" then
    v ← ParseInt (TrimSuffix quantityStr "Mi"); Some (int64 (int64 (v * 1024) * 1024))
  else if HasSuffix quantityStr "Gi" then
    v ← ParseInt (TrimSuffix quantityStr "Gi");
    Some (int64 (int64 (int64 (v * 1024) * 1024) * 1024))
  else ParseInt quantityStr.

(** An absent bound holds; one that does not parse does not. *)
Definition bound_ok (holds : Z → bool) (bound : string) : bool :=
  bool_decide (bound = "") ||
  match parseQuantity bound with Some b => holds b | None => false end.

Definition validateQuantityConstraint (actual constraint : string) : bool :=
  if bool_decide (constraint = "") then true
  else match Split constraint "-" with
       | [_] => bool_decide (actual = constraint)
       | [minStr; maxStr] =>
           match parseQuantity actual with
           | None => false
           | Some actualQty =>
               bound_ok (λ minQty, (minQty <=? actualQty)%Z) minStr &&
               bound_ok (λ maxQty, (actualQty <=? maxQty)%Z) maxStr
           end
       | _ => false
       end.

(** One resource of one container, added to the running [int64] total. *)
Definition add_request (requests : gmap string string) (name : string) (total : Z) : Z :=
  match requests !! name with
  | Some q => match parseQuantity q with Some v => int64 (total + v) | None => total end
  | None => total
  end.

Definition add_container (_ : string) (container : ContainerSpec)
    (totals : Z * Z * Z) : Z * Z * Z :=
  match cs_Resources container with
  | Some r =>
      let '(cpu, mem, sto) := totals in
      (add_request (rr_Requests r) "cpu" cpu, add_request (rr_Requests r) "memory" mem,
       add_request (rr_Requests r) "ephemeral-storage" sto)
  | None => totals
  end.

Definition calculateWorkloadResources (workload : Workload) : string * string * string :=
  let '(cpu, mem, sto) :=
    map_fold add_container (0%Z, 0%Z, 0%Z) (ws_Containers (wl_Spec workload)) in
  (FormatInt cpu +:+ "m", FormatInt mem, FormatInt sto).

Definition validateResourceConstraints (workload : Workload)
    (constraints : ResourceConstraints) : bool :=
  let '(totalCPU, totalMemory, totalStorage) := calculateWorkloadResources workload in
  (bool_decide (rcn_CPU constraints = "") ||
     validateQuantityConstraint totalCPU (rcn_CPU constraints)) &&
  (bool_decide (rcn_Memory constraints = "") ||
     validateQuantityConstraint totalMemory (rcn_Memory constraints)) &&
  (bool_decide (rcn_Storage constraints = "") ||
     validateQuantityConstraint totalStorage (rcn_Storage constraints)).

(** ** Features: a [map[string]bool] whose values are all true is a set *)

Definition detectIngressFeatures (workload : Workload) (featureSet : gset string) : gset string :=
  match ws_Service (wl_Spec workload) with
  | None => featureSet
  | Some service =>
      match ss_Ports service with
      | [] => featureSet
      | ports =>
          {["http-ingress"]} ∪
          foldl (λ fs p,
            let fs := if bool_decide (sp_Port p ∈ [80; 8080; 3000; 8000]%Z)
                      then {["http-ingress"]} ∪ fs else fs in
            if bool_decide (sp_Port p ∈ [443; 8443]%Z)
            then {["http-ingress"]} ∪ ({["https-ingress"]} ∪ fs) else fs) featureSet ports
      end
  end.

Definition monitoring_port (p : ServicePort) : bool :=
  bool_decide (sp_Port p ∈ [9090; 9100; 3000]%Z).

Definition monitoring_variable (varName : string) : bool :=
  let upperVarName := ToUpper varName in
  Contains upperVarName "METRICS" || Contains upperVarName "MONITORING" ||
  Contains upperVarName "PROMETHEUS".

Definition detectMonitoringFeatures (workload : Workload) (featureSet : gset string) :
    gset string :=
  if existsb monitoring_port
       (match ws_Service (wl_Spec workload) with Some s => ss_Ports s | None => [] end)
  then {["monitoring"]} ∪ featureSet
  else if existsb (λ '(_, container),
              match cs_Variables container with
              | None => false
              | Some vars => existsb (λ '(varName, _), monitoring_variable varName)
                               (map_to_list vars)
              end) (map_to_list (ws_Containers (wl_Spec workload)))
  then {["monitoring"]} ∪ featureSet
  else featureSet.

Definition detectScaleFeatures (workload : Workload) (featureSet : gset string) : gset string :=
  match map_get (om_Annotations (wl_ObjectMeta workload)) "score.dev/scale-to-zero" with
  | Some v => if bool_decide (v = "true") then {["scale-to-zero"]} ∪ featureSet else featureSet
  | None => featureSet
  end.

Definition detectStorageFeatures (workload : Workload) (featureSet : gset string) : gset string :=
  if existsb (λ '(_, container), negb (bool_decide (length (cs_Files container) = 0)))
       (map_to_list (ws_Containers (wl_Spec workload)))
  then {["persistent-storage"]} ∪ featureSet else featureSet.

Definition database_type (t : string) : bool :=
  let resourceType := ToLower t in
  Contains resourceType "postgres" || Contains resourceType "mysql" ||
  Contains resourceType "database" || Contains resourceType "redis".

Definition detectDatabaseFeatures (workload : Workload) (featureSet : gset string) :
    gset string :=
  if existsb (λ '(_, resource), database_type (rs_Type resource))
       (map_to_list (ws_Resources (wl_Spec workload)))
  then {["database-connectivity"]} ∪ featureSet else featureSet.

Definition autoDetectFeatures (workload : Workload) (featureSet : gset string) : gset string :=
  detectDatabaseFeatures workload (detectStorageFeatures workload
    (detectScaleFeatures workload (detectMonitoringFeatures workload
       (detectIngressFeatures workload featureSet)))).

Definition getWorkloadFeatures (workload : Workload) : gset string :=
  let featureSet :=
    match map_get (om_Annotations (wl_ObjectMeta workload)) "score.dev/requirements" with
    | Some requirements => list_to_set (TrimSpace <$> Split requirements ",")
    | None => ∅
    end in
  autoDetectFeatures workload featureSet.

Definition validateFeatureRequirements (workload : Workload)
    (requiredFeatures : list string) : bool :=
  match requiredFeatures with
  | [] => true
  | _ => let workloadFeatureSet := getWorkloadFeatures workload in
         forallb (λ required, bool_decide (required ∈ workloadFeatureSet)) requiredFeatures
  end.

(** ** label.go *)

Definition combineLabels (workloadLabels namespaceLabels : gmap string string) :
    gmap string string :=
  map_fold (λ key v result, <[key:=v]> result)
    (map_fold (λ key v result, <[key:=v]> result) ∅ namespaceLabels) workloadLabels.

(** ** Selectors and backend filtering *)

Section selection.
Context `{!Semver} `{!LabelSelectors}.

Definition selectorMatches (selector : SelectorSpec) (targetLabels : gmap string string) :
    bool :=
  match LabelSelectorAsSelector
          {| ls_MatchLabels := sel_MatchLabels selector;
             ls_MatchExpressions := sel_MatchExpressions selector |} with
  | None => false
  | Some matches => matches targetLabels
  end.

Definition workload_labels (workload : Workload) : gmap string string :=
  default ∅ (om_Labels (wl_ObjectMeta workload)).

Definition backendSelectorsMatch (selectors : list SelectorSpec)
    (targetLabels : gmap string string) : bool :=
  match selectors with
  | [] => true
  | _ => existsb (λ selector, selectorMatches selector targetLabels) selectors
  end.

(** The three [continue] guards of the filtering loop. *)
Definition backend_accepted (workload : Workload) (backend : BackendSpec) : bool :=
  match be_Constraints backend with
  | None => true
  | Some constraints =>
      backendSelectorsMatch (cns_Selectors constraints) (workload_labels workload) &&
      validateFeatureRequirements workload (cns_Features constraints) &&
      match cns_Resources constraints with
      | None => true
      | Some resources => validateResourceConstraints workload resources
      end
  end.

Fixpoint filterBackends (workload : Workload) (backends : list BackendSpec) :
    list BackendSpec :=
  match backends with
  | [] => []
  | b :: bs => if backend_accepted workload b then b :: filterBackends workload bs
               else filterBackends workload bs
  end.

(** ** Backend selection *)

(** The [less] function given to [sort.Slice]. *)
Definition backend_less (a b : BackendSpec) : bool :=
  if bool_decide (be_Priority a ≠ be_Priority b)
  then (be_Priority b <? be_Priority a)%Z
  else match NewVersion (be_Version a), NewVersion (be_Version b) with
       | Some versionA, Some versionB =>
           let cmp := Compare versionA versionB in
           if bool_decide (cmp ≠ 0%Z) then (0 <? cmp)%Z
           else str_ltb (be_BackendId a) (be_BackendId b)
       | Some _, None => true
       | None, Some _ => false
       | None, None => str_ltb (be_BackendId a) (be_BackendId b)
       end.

(** [None] is the index-out-of-range panic on an empty slice. *)
Definition selectBackend (candidates : list BackendSpec) : option BackendSpec :=
  head (sort_slice backend_less candidates).

(** ** Profile selection *)

Definition has_profile (config : OrchestratorConfig) (name : string) : bool :=
  existsb (λ p, bool_decide (pr_Name p = name)) (ocs_Profiles (oc_Spec config)).

Definition find_profile_name (P : string → bool) (profiles : list ProfileSpec) : string :=
  default "" (pr_Name <$> List.find (λ p, P (pr_Name p)) profiles).

Definition deriveProfileFromWorkload (config : OrchestratorConfig) (workload : Workload) :
    string :=
  let has_ports := match ws_Service (wl_Spec workload) with
                   | Some s => negb (bool_decide (length (ss_Ports s) = 0))
                   | None => false
                   end in
  if has_ports
  then find_profile_name (λ name, Contains (ToLower name) "web" ||
                                  Contains (ToLower name) "service")
         (ocs_Profiles (oc_Spec config))
  else find_profile_name (λ name, Contains (ToLower name) "batch" ||
                                  Contains (ToLower name) "job")
         (ocs_Profiles (oc_Spec config)).

Definition selectProfileFromSelectors (config : OrchestratorConfig) (workload : Workload) :
    string :=
  default "" (sel_Profile <$>
    List.find (λ selector, selectorMatches selector (workload_labels workload) &&
                           negb (bool_decide (sel_Profile selector = "")))
      (ds_Selectors (ocs_Defaults (oc_Spec config)))).

Definition selectProfile (config : OrchestratorConfig) (workload : Workload) : res string :=
  match map_get (om_Annotations (wl_ObjectMeta workload)) "score.dev/profile" with
  | Some (String _ _ as profileHint) =>
      if has_profile config profileHint then Ok profileHint
      else Err (ENew ("hinted profile " +:+ quote profileHint +:+ " does not exist"))
  | _ =>
      let derivedProfile := deriveProfileFromWorkload config workload in
      if negb (bool_decide (derivedProfile = "")) then Ok derivedProfile
      else
        let selectedProfile := selectProfileFromSelectors config workload in
        if negb (bool_decide (selectedProfile = "")) then Ok selectedProfile
        else if negb (bool_decide (ds_Profile (ocs_Defaults (oc_Spec config)) = ""))
        then Ok (ds_Profile (ocs_Defaults (oc_Spec config)))
        else Err (ENew
          "no profile could be determined and no default profile is configured")
  end.

Definition find_profile (config : OrchestratorConfig) (name : string) : option ProfileSpec :=
  List.find (λ p, bool_decide (pr_Name p = name)) (ocs_Profiles (oc_Spec config)).

Definition selected_of (b : BackendSpec) : SelectedBackend :=
  {| sb_BackendID := be_BackendId b; sb_RuntimeClass := be_RuntimeClass b;
     sb_Template := be_Template b; sb_Priority := be_Priority b;
     sb_Version := be_Version b |}.

Definition profile_not_found (name : string) : goerror :=
  ENew ("profile " +:+ quote name +:+ " not found in configuration").
Definition no_candidates (name : string) : goerror :=
  ENew ("no suitable backend candidates found for profile " +:+ quote name).

Definition SelectBackend (config : OrchestratorConfig) (workload : Workload) :
    res SelectedBackend :=
  match selectProfile config workload with
  | Err e => Err (EWrap "profile selection failed" e)
  | Ok profileName =>
      match find_profile config profileName with
      | None => Err (profile_not_found profileName)
      | Some selectedProfile =>
          match selectBackend (filterBackends workload (pr_Backends selectedProfile)) with
          | None => Err (no_candidates profileName)
          | Some selectedBackend => Ok (selected_of selectedBackend)
          end
      end
  end.
End selection.

(** ** The order of backends *)

Section backend_order.
Context `{!Semver} `{!SemverLaws}.

(** The version comparison of the code: a version that parses is above one that
    does not. *)
Definition version_cmp (a b : BackendSpec) : Z :=
  match NewVersion (be_Version a), NewVersion (be_Version b) with
  | Some va, Some vb => Compare va vb
  | Some _, None => 1
  | None, Some _ => -1
  | None, None => 0
  end.

Lemma backend_less_spec a b :
  backend_less a b = true ↔
  (be_Priority b < be_Priority a)%Z ∨
  (be_Priority a = be_Priority b ∧
   ((0 < version_cmp a b)%Z ∨
    (version_cmp a b = 0%Z ∧ str_ltb (be_BackendId a) (be_BackendId b) = true))).
Proof.
  unfold backend_less, version_cmp.
  destruct (NewVersion (be_Version a)), (NewVersion (be_Version b));
    repeat case_bool_decide; rewrite ?Z.ltb_lt; split; intros; try done; try lia;
    intuition (try lia; try done).
Qed.

Lemma version_cmp_opp a b : version_cmp b a = (- version_cmp a b)%Z.
Proof.
  unfold version_cmp. destruct (NewVersion (be_Version a)), (NewVersion (be_Version b));
    [apply Compare_opp | done..].
Qed.

Lemma version_cmp_trans a b c :
  (0 <= version_cmp a b)%Z → (0 <= version_cmp b c)%Z → (0 <= version_cmp a c)%Z.
Proof.
  unfold version_cmp. destruct (NewVersion (be_Version a)), (NewVersion (be_Version b)),
    (NewVersion (be_Version c)); try lia. apply Compare_trans.
Qed.

Lemma backend_less_false a b :
  backend_less a b = false ↔
  (be_Priority a < be_Priority b)%Z ∨
  (be_Priority a = be_Priority b ∧
   ((version_cmp a b < 0)%Z ∨
    (version_cmp a b = 0%Z ∧ str_ltb (be_BackendId a) (be_BackendId b) = false))).
Proof.
  rewrite <- not_true_iff_false, backend_less_spec.
  destruct (str_ltb (be_BackendId a) (be_BackendId b)); intuition lia.
Qed.

#[export] Instance backend_less_swo : StrictWeakOrder backend_less.
Proof.
  split.
  - intros a b. rewrite backend_less_spec, backend_less_false, (version_cmp_opp a b).
    intros [?|[? [?|[? Hid]]]]; [lia | lia |]. right. split; [done|]. right. split; [lia|].
    destruct (str_ltb (be_BackendId b) (be_BackendId a)) eqn:Hba; [|done].
    pose proof (str_ltb_trans _ _ _ Hid Hba) as Hx. by rewrite str_ltb_irrefl in Hx.
  - intros a b c. rewrite !backend_less_false.
    pose proof (version_cmp_trans a b c). pose proof (version_cmp_trans b c a).
    pose proof (version_cmp_trans c a b).
    pose proof (str_ltb_neg_trans (be_BackendId a) (be_BackendId b) (be_BackendId c)).
    rewrite (version_cmp_opp b a), (version_cmp_opp c b), (version_cmp_opp c a) in *.
    intros [?|[? Hx]] [?|[? Hy]]; [left; lia..|]. right. split; [lia|].
    destruct (decide (version_cmp c a = 0%Z)) as [Hz|Hz].
    + right. split; [done|]. destruct Hx as [?|[? ?]], Hy as [?|[? ?]]; try lia. auto.
    + left. destruct Hx as [?|[? ?]], Hy as [?|[? ?]]; lia.
Qed.

(** Backends with distinct identifiers are always comparable. *)
Lemma backend_less_total a b :
  be_BackendId a ≠ be_BackendId b → backend_less a b = true ∨ backend_less b a = true.
Proof.
  intros Hid. rewrite !backend_less_spec, (version_cmp_opp a b).
  destruct (str_ltb_total _ _ Hid),
    (Z.lt_trichotomy (be_Priority a) (be_Priority b)) as [?|[?|?]],
    (Z.lt_trichotomy (version_cmp a b) 0) as [?|[?|?]];
    first [left; lia | right; lia | left; right; split; [lia|]; auto with lia; fail
          | right; right; split; [lia|]; auto with lia].
Qed.
End backend_order.

(** ** Quantities: printing, parsing and ranges *)

Inductive unit_suffix := Plain | Milli | Mebi | Gibi.

Definition suffix_of (u : unit_suffix) : string :=
  match u with Plain => "" | Milli => "m" | Mebi => "Mi" | Gibi => "Gi" end.

(** What one unit is worth in the numbers the code compares. *)
Definition scale_of (u : unit_suffix) : Z :=
  match u with Plain | Milli => 1 | Mebi => 2 ^ 20 | Gibi => 2 ^ 30 end.

Definition print_quantity (n : Z) (u : unit_suffix) : string := FormatInt n +:+ suffix_of u.

Lemma int64_mul_l a b : int64 (int64 a * b) = int64 (a * b).
Proof.
  unfold int64 at 1 3. f_equal. rewrite <- (Z.add_mod_idemp_l (int64 a * b)) by lia.
  rewrite <- (Z.mul_mod_idemp_l (int64 a)) by lia. rewrite int64_mod.
  by rewrite Z.mul_mod_idemp_l, Z.add_mod_idemp_l by lia.
Qed.

Lemma print_quantity_ne n u : (0 <= n)%Z → print_quantity n u ≠ "".
Proof.
  intros Hn. destruct (FormatInt_nonneg n Hn) as [Hne _]. unfold print_quantity.
  destruct (FormatInt n); [done|]. simpl. done.
Qed.

Lemma parseQuantity_print n u :
  (0 <= n < 2 ^ 63)%Z → parseQuantity (print_quantity n u) = Some (int64 (n * scale_of u)).
Proof.
  intros Hn. assert (is_int64 n) as Hi by (unfold is_int64; lia).
  pose proof (print_quantity_ne n u ltac:(lia)) as Hne.
  destruct (FormatInt_nonneg n ltac:(lia)) as [_ Hdig].
  pose proof (ParseInt_FormatInt n Hi) as Hparse.
  unfold parseQuantity. rewrite bool_decide_false by done. unfold print_quantity.
  destruct u; cbn [suffix_of scale_of].
  - rewrite string_app_nil_r. rewrite !(HasSuffix_outside is_digit) by done.
    by rewrite Hparse, Z.mul_1_r, int64_id.
  - rewrite HasSuffix_app, TrimSuffix_app, Hparse. by rewrite Z.mul_1_r, int64_id.
  - assert (HasSuffix (FormatInt n +:+ "Mi") "m" = false) as ->.
    { change "Mi" with ("M" +:+ "i"). rewrite <- string_app_assoc.
      by apply HasSuffix_app_ne. }
    rewrite HasSuffix_app, TrimSuffix_app, Hparse. simpl. rewrite int64_mul_l.
    do 2 f_equal. lia.
  - assert (HasSuffix (FormatInt n +:+ "Gi") "m" = false) as ->.
    { change "Gi" with ("G" +:+ "i"). rewrite <- string_app_assoc.
      by apply HasSuffix_app_ne. }
    rewrite (HasSuffix_app_ne _ "Gi" "Mi") by done.
    rewrite HasSuffix_app, TrimSuffix_app, Hparse. simpl. rewrite (int64_mul_l (n * 1024) 1024), int64_mul_l.
    do 2 f_equal. lia.
Qed.

(** No printed quantity contains the separator of a range. *)
Definition is_quantity_char (a : ascii) : bool := is_digit a || bool_decide (a ∈ ["m"; "M"; "G"; "i"]%char).

Lemma print_quantity_chars n u :
  (0 <= n)%Z → str_forall is_quantity_char (print_quantity n u) = true.
Proof.
  intros Hn. destruct (FormatInt_nonneg n Hn) as [_ Hdig]. unfold print_quantity.
  rewrite str_forall_app. apply andb_true_iff. split; [|by destruct u].
  eapply str_forall_impl; [|exact Hdig]. intros a Ha. unfold is_quantity_char. by rewrite Ha.
Qed.

(** A quantity printed with one of the units the code knows is parsed to its
    number times the unit, reduced to an [int64]: it is exact as long as the
    product fits, and it wraps around otherwise, so that 8796093022208Mi (2^63
    bytes) is read as a negative number and 17592186044416Mi (2^64 bytes) as 0. *)
Theorem parseQuantity_units n u :
  (0 <= n < 2 ^ 63)%Z →
  parseQuantity (print_quantity n u) = Some (int64 (n * scale_of u)) ∧
  ((n * scale_of u < 2 ^ 63)%Z → parseQuantity (print_quantity n u) = Some (n * scale_of u)%Z) ∧
  parseQuantity "8796093022208Mi" = Some (- 2 ^ 63)%Z ∧
  parseQuantity "17592186044416Mi" = Some 0%Z.
Proof.
  intros Hn. rewrite (parseQuantity_print n u Hn). split_and!; try reflexivity.
  intros Hlt. f_equal. apply int64_id. unfold is_int64. destruct u; simpl in *; lia.
Qed.

Lemma parseQuantity_units_witness :
  (0 <= 512 < 2 ^ 63)%Z ∧ parseQuantity "512Mi" = Some 536870912%Z.
Proof.
  split; [lia|]. apply (parseQuantity_units 512 Mebi ltac:(lia)). vm_compute. reflexivity.
Defined.

Lemma validateQuantityConstraint_split actual lo hi :
  str_forall is_quantity_char lo = true → str_forall is_quantity_char hi = true →
  validateQuantityConstraint actual (lo +:+ "-" +:+ hi) =
  match parseQuantity actual with
  | None => false
  | Some a => bound_ok (λ l, (l <=? a)%Z) lo && bound_ok (λ h, (a <=? h)%Z) hi
  end.
Proof.
  intros Hlo Hhi. unfold validateQuantityConstraint.
  change ("-" +:+ hi) with (String "-" hi). rewrite bool_decide_false.
  - rewrite (Split_app is_quantity_char) by done.
    by rewrite (Split_single is_quantity_char).
  - destruct lo; done.
Qed.

Lemma bound_ok_print P n u :
  (0 <= n)%Z → (n * scale_of u < 2 ^ 63)%Z →
  bound_ok P (print_quantity n u) = P (n * scale_of u)%Z.
Proof.
  intros Hn Hlt. unfold bound_ok. rewrite bool_decide_false by by apply print_quantity_ne.
  assert (n < 2 ^ 63)%Z by (destruct u; simpl in *; lia).
  rewrite parseQuantity_print by lia. simpl. f_equal. apply int64_id.
  unfold is_int64. destruct u; simpl in *; lia.
Qed.

(** On ranges whose bounds fit, the constraint check is the interval check: a
    total of [a] units satisfies "<min>-<max>" exactly when min <= a <= max once all
    three are brought to the same unit, and an empty bound on either side puts no
    condition on that side. *)
Theorem validateQuantityConstraint_range a ua lo ul hi uh :
  (0 <= a)%Z → (a * scale_of ua < 2 ^ 63)%Z → (0 <= lo)%Z → (lo * scale_of ul < 2 ^ 63)%Z →
  (0 <= hi)%Z → (hi * scale_of uh < 2 ^ 63)%Z →
  let actual := print_quantity a ua in
  let ge := (lo * scale_of ul <=? a * scale_of ua)%Z in
  let le := (a * scale_of ua <=? hi * scale_of uh)%Z in
  validateQuantityConstraint actual (print_quantity lo ul +:+ "-" +:+ print_quantity hi uh)
    = ge && le ∧
  validateQuantityConstraint actual (print_quantity lo ul +:+ "-") = ge ∧
  validateQuantityConstraint actual ("-" +:+ print_quantity hi uh) = le.
Proof.
  intros Ha Hafit Hlo Hlofit Hhi Hhifit actual ge le.
  assert (parseQuantity actual = Some (a * scale_of ua)%Z) as Hact.
  { unfold actual. rewrite parseQuantity_print by (destruct ua; simpl in *; lia).
    f_equal. apply int64_id. unfold is_int64. destruct ua; simpl in *; lia. }
  pose proof (print_quantity_chars lo ul Hlo). pose proof (print_quantity_chars hi uh Hhi).
  split_and!.
  - rewrite validateQuantityConstraint_split, Hact, !bound_ok_print by done. done.
  - rewrite <- (string_app_nil_r (_ +:+ "-")), string_app_assoc.
    rewrite validateQuantityConstraint_split, Hact, bound_ok_print by done.
    unfold bound_ok. by rewrite andb_true_r.
  - change ("-" +:+ print_quantity hi uh) with ("" +:+ "-" +:+ print_quantity hi uh).
    rewrite validateQuantityConstraint_split, Hact, bound_ok_print by done. done.
Qed.

Lemma validateQuantityConstraint_range_witness :
  validateQuantityConstraint "536870912" "128Mi-8Gi" = true ∧
  validateQuantityConstraint "536870912" "1Gi-" = false.
Proof.
  split.
  - apply (validateQuantityConstraint_range 536870912 Plain 128 Mebi 8 Gibi);
      vm_compute; intuition discriminate.
  - apply (validateQuantityConstraint_range 536870912 Plain 1 Gibi 8 Gibi);
      vm_compute; intuition discriminate.
Defined.

(** ** What exact constraints and whole CPU counts mean to the code *)

Lemma FormatInt_no_suffix z u : u = Mebi ∨ u = Gibi → ∀ n, FormatInt z ≠ print_quantity n u.
Proof.
  intros Hu n Heq. pose proof (FormatInt_numeric z) as Hnum. rewrite Heq in Hnum.
  unfold print_quantity in Hnum. rewrite str_forall_app, andb_true_iff in Hnum.
  by destruct Hu; subst u; destruct Hnum.
Qed.

Section resources.
Context `{!Semver} `{!LabelSelectors}.

(** An exact memory or storage constraint written with a unit never holds.
    The totals of the workload are printed in bytes without a unit and compared as
    text, so a backend whose constraint is, say, "512Mi" is refused for every
    workload, also for one that requests exactly 512Mi. *)
Theorem exact_constraint_never_matches workload backend constraints resources n u :
  (0 <= n)%Z → u = Mebi ∨ u = Gibi →
  be_Constraints backend = Some constraints →
  cns_Resources constraints = Some resources →
  rcn_Memory resources = print_quantity n u ∨ rcn_Storage resources = print_quantity n u →
  backend_accepted workload backend = false.
Proof.
  intros Hn Hu Hc Hr Hmem. unfold backend_accepted. rewrite Hc, Hr.
  unfold validateResourceConstraints, calculateWorkloadResources.
  destruct (map_fold _ _ _) as [[cpu mem] sto].
  assert (∀ z, bool_decide (print_quantity n u = "") ||
               validateQuantityConstraint (FormatInt z) (print_quantity n u) = false) as Hno.
  { intros z. pose proof (print_quantity_ne n u Hn) as Hne. unfold validateQuantityConstraint.
    rewrite !bool_decide_false by done.
    rewrite (Split_single is_quantity_char) by (done || by apply print_quantity_chars).
    apply bool_decide_eq_false. by apply FormatInt_no_suffix. }
  destruct Hmem as [-> | ->]; rewrite Hno; by rewrite ?andb_false_r.
Qed.

(** A CPU request of n cores counts as n millicores: the plain number and the
    number with the suffix m are parsed to the same value. *)
Theorem cpu_cores_counted_as_millicores n total rest :
  (0 <= n < 2 ^ 63)%Z → is_int64 (total + n) →
  add_request (<["cpu" := print_quantity n Plain]> rest) "cpu" total =
    add_request (<["cpu" := print_quantity n Milli]> rest) "cpu" total ∧
  add_request (<["cpu" := print_quantity n Plain]> rest) "cpu" total = (total + n)%Z.
Proof.
  intros Hn Hsum. unfold add_request. rewrite !lookup_insert_eq, !parseQuantity_print by done.
  cbn [scale_of]. rewrite Z.mul_1_r, (int64_id n) by (unfold is_int64; lia).
  by rewrite int64_id.
Qed.
End resources.

Lemma cpu_cores_counted_as_millicores_witness :
  add_request {["cpu" := "2"]} "cpu" 0 = 2%Z.
Proof.
  apply (cpu_cores_counted_as_millicores 2 0 ∅); unfold is_int64; lia.
Defined.

(** ** The selected backend *)

Section select.
Context `{!Semver} `{!LabelSelectors}.

Lemma filterBackends_filter workload backends :
  filterBackends workload backends = filter (λ b, backend_accepted workload b = true) backends.
Proof.
  induction backends as [|b bs IH]; [done|]. simpl. rewrite filter_cons, IH.
  destruct (backend_accepted workload b) eqn:?; by case_decide.
Qed.

Lemma elem_of_filterBackends workload backends b :
  b ∈ filterBackends workload backends ↔ backend_accepted workload b = true ∧ b ∈ backends.
Proof.
  rewrite filterBackends_filter.
  apply (list_elem_of_filter (λ b, backend_accepted workload b = true)).
Qed.

Lemma filterBackends_perm workload l1 l2 :
  l1 ≡ₚ l2 → filterBackends workload l1 ≡ₚ filterBackends workload l2.
Proof. rewrite !filterBackends_filter. intros Hp. by rewrite Hp. Qed.

Lemma find_profile_Some config name p :
  find_profile config name = Some p → p ∈ ocs_Profiles (oc_Spec config) ∧ pr_Name p = name.
Proof.
  intros [Hin Hname]%find_some. split; [by apply list_elem_of_In|].
  by apply bool_decide_eq_true in Hname.
Qed.

Lemma find_profile_has config name :
  has_profile config name = true ↔ is_Some (find_profile config name).
Proof.
  unfold has_profile, find_profile.
  induction (ocs_Profiles (oc_Spec config)) as [|p ps IH]; simpl.
  - split; [done|]. by intros [? ?].
  - destruct (bool_decide (pr_Name p = name)); simpl; [|done]. by split; [eexists|].
Qed.

Context `{!SemverLaws}.

(** Backends of one profile have distinct identifiers: what the configuration
    validator enforces. *)
Definition unique_ids (backends : list BackendSpec) : Prop :=
  NoDup (be_BackendId <$> backends).

Lemma unique_ids_eq backends a b :
  unique_ids backends → a ∈ backends → b ∈ backends →
  be_BackendId a = be_BackendId b → a = b.
Proof.
  unfold unique_ids. induction backends as [|x bs IH]; simpl; [set_solver|].
  rewrite NoDup_cons, !elem_of_cons. intros [Hx Hnd] [->|Ha] [->|Hb] Heq;
    [done| | |by apply IH].
  - destruct Hx. rewrite Heq. by apply list_elem_of_fmap_2.
  - destruct Hx. rewrite <- Heq. by apply list_elem_of_fmap_2.
Qed.

Lemma unique_ids_total workload backends a b :
  unique_ids backends → a ∈ filterBackends workload backends →
  b ∈ filterBackends workload backends →
  backend_less a b = true ∨ backend_less b a = true ∨ a = b.
Proof.
  rewrite !elem_of_filterBackends. intros Hids [_ Ha] [_ Hb].
  destruct (decide (be_BackendId a = be_BackendId b)) as [Heq|Hne].
  - right. right. by eapply unique_ids_eq.
  - destruct (backend_less_total a b Hne); auto.
Qed.

(** A backend suits a workload when its constraints hold of it: one of its selectors,
    if it has any, parses and matches the labels; the workload has every feature it
    asks for; and the totals of the workload are within every bound that is set. *)
Definition suits (workload : Workload) (b : BackendSpec) : Prop :=
  ∀ c, be_Constraints b = Some c →
    (cns_Selectors c = [] ∨
     ∃ s matches, s ∈ cns_Selectors c ∧
       LabelSelectorAsSelector {| ls_MatchLabels := sel_MatchLabels s;
                                  ls_MatchExpressions := sel_MatchExpressions s |} = Some matches ∧
       matches (default ∅ (om_Labels (wl_ObjectMeta workload))) = true) ∧
    (∀ f, f ∈ cns_Features c → f ∈ getWorkloadFeatures workload) ∧
    ∀ r cpu mem sto, cns_Resources c = Some r →
      calculateWorkloadResources workload = (cpu, mem, sto) →
      (rcn_CPU r ≠ "" → validateQuantityConstraint cpu (rcn_CPU r) = true) ∧
      (rcn_Memory r ≠ "" → validateQuantityConstraint mem (rcn_Memory r) = true) ∧
      (rcn_Storage r ≠ "" → validateQuantityConstraint sto (rcn_Storage r) = true).

Lemma selectors_match_iff selectors labels :
  backendSelectorsMatch selectors labels = true ↔
  selectors = [] ∨
  ∃ s matches, s ∈ selectors ∧
    LabelSelectorAsSelector {| ls_MatchLabels := sel_MatchLabels s;
                               ls_MatchExpressions := sel_MatchExpressions s |} = Some matches ∧
    matches labels = true.
Proof.
  unfold backendSelectorsMatch. destruct selectors as [|s0 ss]; [naive_solver|].
  rewrite existsb_exists. unfold selectorMatches. split.
  - intros (s & Hin%list_elem_of_In & Hm). right.
    destruct (LabelSelectorAsSelector _) as [m|] eqn:Hs; [|done]. by exists s, m.
  - intros [?|(s & m & Hin & Hs & Hm)]; [done|]. exists s. rewrite <- list_elem_of_In.
    split; [done|]. by rewrite Hs.
Qed.

Lemma features_iff workload features :
  validateFeatureRequirements workload features = true ↔
  ∀ f, f ∈ features → f ∈ getWorkloadFeatures workload.
Proof.
  unfold validateFeatureRequirements. destruct features as [|f0 fs]; [set_solver|].
  cbv zeta. rewrite forallb_forall. setoid_rewrite <- list_elem_of_In.
  by setoid_rewrite bool_decide_eq_true.
Qed.

Lemma bound_iff (q : string) (b : bool) :
  bool_decide (q = "") || b = true ↔ (q ≠ "" → b = true).
Proof. case_bool_decide; naive_solver. Qed.

Lemma backend_accepted_iff workload b :
  backend_accepted workload b = true ↔ suits workload b.
Proof.
  unfold backend_accepted, suits. destruct (be_Constraints b) as [c|]; [|naive_solver].
  rewrite !andb_true_iff, selectors_match_iff, features_iff. unfold workload_labels.
  destruct (cns_Resources c) as [r|] eqn:Hr.
  - unfold validateResourceConstraints.
    destruct (calculateWorkloadResources workload) as [[cpu mem] sto].
    rewrite !andb_true_iff, !bound_iff. naive_solver.
  - naive_solver.
Qed.

Lemma backend_refused_iff workload b :
  backend_accepted workload b = false ↔ ¬ suits workload b.
Proof. by rewrite <- backend_accepted_iff, not_true_iff_false. Qed.

(** The version of [a] is higher, or the same; one that parses is above one that does
    not. *)
Definition higher_version (a b : BackendSpec) : Prop :=
  ∃ v, NewVersion (be_Version a) = Some v ∧
    ∀ w, NewVersion (be_Version b) = Some w → (0 < Compare v w)%Z.

Definition same_version (a b : BackendSpec) : Prop :=
  (NewVersion (be_Version a) = None ∧ NewVersion (be_Version b) = None) ∨
  ∃ v w, NewVersion (be_Version a) = Some v ∧ NewVersion (be_Version b) = Some w ∧
    Compare v w = 0%Z.

(** [a] is preferred to [b]: higher priority, then higher version, then smaller
    identifier. *)
Definition preferred (a b : BackendSpec) : Prop :=
  (be_Priority b < be_Priority a)%Z ∨
  (be_Priority a = be_Priority b ∧
   (higher_version a b ∨
    (same_version a b ∧ lex_before (be_BackendId a) (be_BackendId b)))).

Lemma preferred_iff a b : backend_less a b = true ↔ preferred a b.
Proof.
  rewrite backend_less_spec. unfold preferred. rewrite str_ltb_iff.
  assert ((0 < version_cmp a b)%Z ↔ higher_version a b) as ->.
  { unfold version_cmp, higher_version.
    destruct (NewVersion (be_Version a)), (NewVersion (be_Version b)); naive_solver lia. }
  assert (version_cmp a b = 0%Z ↔ same_version a b) as ->; [|done].
  unfold version_cmp, same_version.
  destruct (NewVersion (be_Version a)), (NewVersion (be_Version b)); naive_solver.
Qed.

(** The specification of the choice: an accepted backend that is preferred to every
    other accepted one. *)
Definition best_backend (workload : Workload) (backends : list BackendSpec)
    (b : BackendSpec) : Prop :=
  b ∈ backends ∧ suits workload b ∧
  ∀ b', b' ∈ backends → suits workload b' → be_BackendId b' ≠ be_BackendId b →
    preferred b b'.

Lemma best_backend_unique workload backends a b :
  unique_ids backends → best_backend workload backends a →
  best_backend workload backends b → a = b.
Proof.
  intros Hids (Ha & Haa & Hamin) (Hb & Hba & Hbmin).
  destruct (decide (be_BackendId a = be_BackendId b)) as [Heq|Hne].
  - by eapply unique_ids_eq.
  - pose proof (Hamin b Hb Hba (not_eq_sym Hne)) as Hab.
    pose proof (Hbmin a Ha Haa Hne) as Hba'.
    apply preferred_iff, swo_asym in Hab. apply preferred_iff in Hba'. congruence.
Qed.

Lemma is_sort_head_best workload backends b l :
  unique_ids backends → is_sort backend_less (filterBackends workload backends) (b :: l) →
  best_backend workload backends b.
Proof.
  intros Hids [Hin Hmin]%is_sort_head; [|apply _].
  pose proof (proj1 (elem_of_filterBackends _ _ _) Hin) as [Hacc Hmem].
  apply backend_accepted_iff in Hacc. split_and!; [done..|].
  intros b' Hb' Hacc'%backend_accepted_iff Hne. apply preferred_iff.
  assert (b' ∈ filterBackends workload backends) as Hin' by by apply elem_of_filterBackends.
  destruct (unique_ids_total workload backends b b') as [?|[Hless|Hless]]; try done.
  - by rewrite Hmin in Hless.
  - by subst.
Qed.

Lemma selectBackend_best workload backends b :
  unique_ids backends →
  selectBackend (filterBackends workload backends) = Some b ↔
  best_backend workload backends b.
Proof.
  intros Hids. unfold selectBackend.
  pose proof (sort_slice_is_sort backend_less (filterBackends workload backends)) as Hs.
  destruct (sort_slice backend_less _) as [|b0 l] eqn:Hl; simpl.
  - split; [done|]. intros (Hb & Hacc%backend_accepted_iff & _). destruct Hs as [Hperm _].
    assert (b ∈ filterBackends workload backends) as Hin by by apply elem_of_filterBackends.
    rewrite <- Hperm in Hin. set_solver.
  - apply is_sort_head_best in Hs; [|done]. split.
    + by intros [= <-].
    + intros Hb. f_equal. by eapply best_backend_unique.
Qed.

Lemma selectBackend_None workload backends :
  selectBackend (filterBackends workload backends) = None →
  ∀ b, b ∈ backends → backend_accepted workload b = false.
Proof.
  intros Hnone b Hb. destruct (backend_accepted workload b) eqn:Hacc; [|done].
  assert (b ∈ filterBackends workload backends) as Hf by by apply elem_of_filterBackends.
  unfold selectBackend in Hnone. rewrite <- (sort_slice_perm backend_less) in Hf.
  destruct (sort_slice _ _); [set_solver|done].
Qed.

(** C14: The choice among the candidates is deterministic.  Whatever order the
    backends of the profile are listed in, and whatever sorting algorithm
    sort.Slice uses, the first element after sorting is the same backend. *)
Theorem selectBackend_deterministic workload l1 l2 s1 s2 :
  unique_ids l1 → l1 ≡ₚ l2 →
  is_sort backend_less (filterBackends workload l1) s1 →
  is_sort backend_less (filterBackends workload l2) s2 →
  head s1 = head s2 ∧ head s1 = selectBackend (filterBackends workload l2).
Proof.
  intros Hids Hperm.
  assert (∀ s s', is_sort backend_less (filterBackends workload l1) s →
                  is_sort backend_less (filterBackends workload l2) s' →
                  head s = head s') as Hhead.
  { intros s s' Hs Hs'. pose proof (filterBackends_perm workload l1 l2 Hperm) as Hf.
    assert (s ≡ₚ s') as Hss by (by rewrite (proj1 Hs), (proj1 Hs')).
    destruct s as [|x s], s' as [|x' s']; simpl; [done| | |].
    - by apply Permutation_nil_cons in Hss.
    - symmetry in Hss. by apply Permutation_nil_cons in Hss.
    - f_equal. eapply is_sort_head_unique; [apply _| exact Hf | | exact Hs | exact Hs'].
      intros a b. by apply unique_ids_total. }
  intros Hs1 Hs2. split; [by apply Hhead|]. exact (Hhead _ _ Hs1 (sort_slice_is_sort _ _)).
Qed.

Lemma SelectBackend_spec config workload :
  (∀ p, p ∈ ocs_Profiles (oc_Spec config) → unique_ids (pr_Backends p)) →
  match SelectBackend config workload with
  | Ok sb => ∃ name p b,
      selectProfile config workload = Ok name ∧ find_profile config name = Some p ∧
      best_backend workload (pr_Backends p) b ∧ sb = selected_of b
  | Err e =>
      (∃ e', selectProfile config workload = Err e' ∧ e = EWrap "profile selection failed" e') ∨
      (∃ name, selectProfile config workload = Ok name ∧
         (∀ p, p ∈ ocs_Profiles (oc_Spec config) → pr_Name p ≠ name) ∧
         e = profile_not_found name) ∨
      (∃ name p, selectProfile config workload = Ok name ∧
         find_profile config name = Some p ∧
         (∀ b, b ∈ pr_Backends p → ¬ suits workload b) ∧
         e = no_candidates name)
  end.
Proof.
  intros Hids. unfold SelectBackend.
  destruct (selectProfile config workload) as [name|e]; [|by left; eexists].
  destruct (find_profile config name) as [p|] eqn:Hp.
  - pose proof (find_profile_Some _ _ _ Hp) as [Hin _].
    destruct (selectBackend _) as [b|] eqn:Hb.
    + exists name, p, b. split_and!; [done..| |done]. by apply selectBackend_best; auto.
    + right. right. exists name, p. split_and!; [done..| |done].
      intros b Hin'. rewrite <- backend_refused_iff. by eapply selectBackend_None.
  - right. left. exists name. split_and!; [done| |done]. intros p Hin Hname.
    apply list_elem_of_In in Hin.
    apply (find_none _ _ Hp) in Hin. by apply bool_decide_eq_false in Hin.
Qed.

(** C13: [SelectBackend] computes the specified choice: it returns a backend
    exactly when the profile selection yields a profile of the configuration that
    has a backend whose constraints hold of the workload, and then it returns the best
    of these: the highest priority, then the highest version (one that parses is above
    one that does not), then the lexicographically smallest identifier.  In the other
    cases it returns the error of the step that failed. *)
Theorem SelectBackend_correct config workload :
  (∀ p, p ∈ ocs_Profiles (oc_Spec config) → unique_ids (pr_Backends p)) →
  match SelectBackend config workload with
  | Ok sb => ∃ name p b,
      selectProfile config workload = Ok name ∧ find_profile config name = Some p ∧
      best_backend workload (pr_Backends p) b ∧ sb = selected_of b
  | Err e =>
      (∃ e', selectProfile config workload = Err e' ∧ e = EWrap "profile selection failed" e') ∨
      (∃ name, selectProfile config workload = Ok name ∧
         (∀ p, p ∈ ocs_Profiles (oc_Spec config) → pr_Name p ≠ name) ∧
         e = profile_not_found name) ∨
      (∃ name p, selectProfile config workload = Ok name ∧
         find_profile config name = Some p ∧
         (∀ b, b ∈ pr_Backends p → ¬ suits workload b) ∧
         e = no_candidates name)
  end.
Proof. apply SelectBackend_spec. Qed.
End select.

(** ** A concrete instance, for the witnesses *)

Module Demo.
(** Three-part versions in lexicographic order. *)
Definition compare_parts (a b : Z * Z * Z) : Z :=
  let '(a1, a2, a3) := a in let '(b1, b2, b3) := b in
  if (a1 =? b1)%Z then if (a2 =? b2)%Z then Z.sgn (a3 - b3) else Z.sgn (a2 - b2)
  else Z.sgn (a1 - b1).

Definition parse_version (s : string) : option (Z * Z * Z) :=
  match Split s "." with
  | [a; b; c] => a ← ParseInt a; b ← ParseInt b; c ← ParseInt c; Some (a, b, c)
  | _ => None
  end.

#[local] Instance semver : Semver :=
  {| Version := Z * Z * Z; NewVersion := parse_version; Compare := compare_parts |}.

#[local] Instance semver_laws : SemverLaws.
Proof.
  split.
  - intros [[a1 a2] a3] [[b1 b2] b3]. simpl. rewrite !(Z.eqb_sym _ b1), !(Z.eqb_sym _ b2).
    repeat case_match; rewrite <- Z.sgn_opp; f_equal; lia.
  - intros [[a1 a2] a3] [[b1 b2] b3] [[c1 c2] c3]. simpl.
    repeat case_match; rewrite !Z.sgn_nonneg; lia.
Qed.

(** Selectors by equality of labels. *)
#[local] Instance selectors : LabelSelectors :=
  {| LabelSelectorAsSelector ls :=
       match ls_MatchExpressions ls with
       | [] => Some (λ labels,
           bool_decide (map_Forall (λ k v, labels !! k = Some v) (ls_MatchLabels ls)))
       | _ => None
       end |}.

Definition template : TemplateSpec := {| ts_Kind := "helm"; ts_Ref := "r"; ts_Values := None |}.

Definition backend (id : string) (priority : Z) (version memory : string) : BackendSpec :=
  {| be_BackendId := id; be_RuntimeClass := "kubernetes"; be_Template := template;
     be_Priority := priority; be_Version := version;
     be_Constraints := Some
       {| cns_Selectors := []; cns_Features := []; cns_Regions := [];
          cns_Resources := Some
            {| rcn_CPU := ""; rcn_Memory := memory; rcn_Storage := "" |} |} |}.

Definition low := backend "low" 10 "2.0.0" "-1Gi".
Definition old := backend "old" 50 "1.2.0" "-1Gi".
Definition new := backend "new" 50 "1.10.0" "-1Gi".
Definition small := backend "small" 90 "1.0.0" "-100Mi".
Definition exact := backend "exact" 99 "1.0.0" "512Mi".

Definition container : ContainerSpec :=
  {| cs_Image := "nginx"; cs_Command := []; cs_Args := []; cs_Variables := None;
     cs_Files := []; cs_LivenessProbe := None; cs_ReadinessProbe := None;
     cs_Resources := Some {| rr_Limits := ∅; rr_Requests := {["memory" := "512Mi"]} |} |}.

Definition workload : Workload :=
  {| wl_ObjectMeta := ObjectMeta_zero;
     wl_Spec := {| ws_Profile := None; ws_Containers := {["main" := container]};
                   ws_Service := None; ws_Resources := ∅ |};
     wl_Status := {| wst_Endpoint := None; wst_Conditions := []; wst_Claims := [] |} |}.

Definition config (backends : list BackendSpec) : OrchestratorConfig :=
  {| oc_APIVersion := "score.dev/v1b1"; oc_Kind := "OrchestratorConfig";
     oc_Metadata := {| ocm_Name := "c"; ocm_Version := "1" |};
     oc_Spec := {| ocs_Profiles := [{| pr_Name := "batch"; pr_Description := "";
                                       pr_Backends := backends |}];
                   ocs_Provisioners := [];
                   ocs_Defaults := {| ds_Profile := "batch"; ds_Selectors := [] |} |};
     oc_Reconciler := None |}.
End Demo.
#[local] Existing Instances Demo.semver Demo.semver_laws Demo.selectors.

Lemma selectBackend_deterministic_witness :
  let l1 := [Demo.low; Demo.old; Demo.new; Demo.small] in
  let l2 := reverse l1 in
  selectBackend (filterBackends Demo.workload l1) = Some Demo.new ∧
  head (sort_slice backend_less (filterBackends Demo.workload l1)) =
    selectBackend (filterBackends Demo.workload l2).
Proof.
  intros l1 l2. split; [vm_compute; reflexivity|].
  apply (selectBackend_deterministic Demo.workload l1 l2 _
           (sort_slice backend_less (filterBackends Demo.workload l2))).
  - refine (bool_decide_unpack _ _). vm_compute. exact I.
  - symmetry. apply reverse_Permutation.
  - apply sort_slice_is_sort, _.
  - apply sort_slice_is_sort, _.
Defined.

Lemma SelectBackend_correct_witness :
  SelectBackend (Demo.config [Demo.low; Demo.old; Demo.new; Demo.small])
    Demo.workload = Ok (selected_of Demo.new) ∧
  best_backend Demo.workload
    [Demo.low; Demo.old; Demo.new; Demo.small] Demo.new.
Proof.
  set (backends := [Demo.low; Demo.old; Demo.new; Demo.small]).
  split; [vm_compute; reflexivity|].
  assert (∀ p, p ∈ ocs_Profiles (oc_Spec (Demo.config backends)) →
               unique_ids (pr_Backends p)) as Hids.
  { intros p ->%list_elem_of_singleton. refine (bool_decide_unpack _ _). vm_compute. exact I. }
  pose proof (SelectBackend_correct (Demo.config backends) Demo.workload Hids) as H.
  change (SelectBackend _ _) with (Ok (A:=SelectedBackend) (selected_of Demo.new)) in H.
  destruct H as (name & p & b & Hname & Hp & Hbest & Heq).
  injection Hname as <-. injection Hp as <-.
  destruct Hbest as (Hin & Hrest).
  assert (b = Demo.new) as <-; [|by split].
  cbn [pr_Backends] in Hin. unfold backends in Hin. rewrite !elem_of_cons in Hin.
  destruct Hin as [->|[->|[->|[->|[]%elem_of_nil]]]]; [discriminate Heq..|done|discriminate Heq].
Defined.

Lemma exact_constraint_never_matches_witness :
  backend_accepted Demo.workload Demo.exact = false.
Proof.
  apply (exact_constraint_never_matches Demo.workload Demo.exact
           {| cns_Selectors := []; cns_Features := []; cns_Regions := [];
              cns_Resources := Some
                {| rcn_CPU := ""; rcn_Memory := "512Mi"; rcn_Storage := "" |} |}
           {| rcn_CPU := ""; rcn_Memory := "512Mi"; rcn_Storage := "" |} 512 Mebi).
  - lia.
  - by left.
  - reflexivity.
  - reflexivity.
  - left. reflexivity.
Defined.
