(* ===== verification/Validation.v ===== *)
(** * Validation: [internal/config/validation.go]

    The validator of the orchestrator configuration.  [Validate] returns [None] for
    a nil error and otherwise the list of field errors that the code aggregates, in
    the order in which it appends them.  [IsDNS1123Label] of apimachinery is a
    parameter.  The list of supported values of a [NotSupported] error is left out:
    the code builds it in map order. *)
From S2P Require Import Prelude GoStrings Json K8s Api Client Sort Selection.

(** [validation.IsDNS1123Label]: the messages of the rules the string breaks. *)
Class DNS1123 := { IsDNS1123Label : string → list string }.

(** [field.Path], read from the root. *)
Inductive path_element := Child (name : string) | Index (i : nat).
Definition path := list path_element.

Inductive ErrorType := Required | Invalid | Duplicate | NotSupported | NotFoundField.

(** [field.Error] *)
Record FieldError := {
  fe_Type : ErrorType;
  fe_Field : path;
  fe_BadValue : string;
  fe_Detail : string;
}.

Definition field_required (p : path) (detail : string) : FieldError :=
  {| fe_Type := Required; fe_Field := p; fe_BadValue := ""; fe_Detail := detail |}.
Definition field_invalid (p : path) (bad detail : string) : FieldError :=
  {| fe_Type := Invalid; fe_Field := p; fe_BadValue := bad; fe_Detail := detail |}.
Definition field_duplicate (p : path) (bad : string) : FieldError :=
  {| fe_Type := Duplicate; fe_Field := p; fe_BadValue := bad; fe_Detail := "" |}.
Definition field_not_supported (p : path) (bad : string) : FieldError :=
  {| fe_Type := NotSupported; fe_Field := p; fe_BadValue := bad; fe_Detail := "" |}.
Definition field_not_found (p : path) (bad : string) : FieldError :=
  {| fe_Type := NotFoundField; fe_Field := p; fe_BadValue := bad; fe_Detail := "" |}.

(** [if cond { allErrs = append(allErrs, e) }] *)
Definition err_if (cond : bool) (e : FieldError) : list FieldError :=
  if cond then [e] else [].

Definition empty (s : string) : bool := bool_decide (s = "").

(** [for i, x := range l { allErrs = append(allErrs, body(i, x)...) }], with the
    variables [s] that the body updates. *)
Fixpoint for_range {A S} (body : nat → A → S → list FieldError * S) (i : nat) (l : list A)
    (s : S) : list FieldError * S :=
  match l with
  | [] => ([], s)
  | x :: l => let '(errs, s) := body i x s in
              let '(errs', s) := for_range body (1 + i) l s in (errs ++ errs', s)
  end.

Definition validTemplateKinds : gset string := {["manifests"; "helm"; "kustomize"]}.
Definition validRuntimeClasses : gset string := {["kubernetes"; "ecs"; "nomad"]}.

(** ** Constraints *)

Definition is_letter (a : ascii) : bool :=
  let n := N_of_ascii a in ((97 <=? n) && (n <=? 122) || (65 <=? n) && (n <=? 90))%N.

(** [[0-9]*[a-zA-Z]*] *)
Fixpoint match_digits_letters (s : string) : bool :=
  match s with
  | "" => true
  | String a t => if is_digit a then match_digits_letters t else str_forall is_letter s
  end.

(** [[0-9]+[a-zA-Z]*] *)
Definition match_quantity (s : string) : bool :=
  match s with
  | "" => false
  | String a t => is_digit a && match_digits_letters t
  end.

(** The constraint pattern of the code: a quantity, or two separated by a dash of
    which one may be missing.  No quantity contains a dash, so the alternatives are told apart by
    splitting. *)
Definition constraintPattern (s : string) : bool :=
  match Split s "-" with
  | [q] => match_quantity q
  | [lo; hi] => match_quantity lo && match_quantity hi || empty lo && match_quantity hi
                || match_quantity lo && empty hi
  | _ => false
  end.

Definition validateResourceConstraints (resources : ResourceConstraints) (fldPath : path) :
    list FieldError :=
  err_if (negb (empty (rcn_CPU resources)) && negb (constraintPattern (rcn_CPU resources)))
    (field_invalid (fldPath ++ [Child "cpu"]) (rcn_CPU resources)
       "invalid CPU constraint format") ++
  err_if (negb (empty (rcn_Memory resources)) && negb (constraintPattern (rcn_Memory resources)))
    (field_invalid (fldPath ++ [Child "memory"]) (rcn_Memory resources)
       "invalid memory constraint format") ++
  err_if (negb (empty (rcn_Storage resources)) &&
          negb (constraintPattern (rcn_Storage resources)))
    (field_invalid (fldPath ++ [Child "storage"]) (rcn_Storage resources)
       "invalid storage constraint format").

Definition validateConstraints (constraints : ConstraintsSpec) (fldPath : path) :
    list FieldError :=
  match cns_Resources constraints with
  | Some resources => validateResourceConstraints resources (fldPath ++ [Child "resources"])
  | None => []
  end.

Definition validateOptConstraints (constraints : option ConstraintsSpec) (fldPath : path) :
    list FieldError :=
  match constraints with Some c => validateConstraints c fldPath | None => [] end.

(** ** Backends and profiles *)

Definition validateTemplate (template : TemplateSpec) (fldPath : path) : list FieldError :=
  (if empty (ts_Kind template)
   then [field_required (fldPath ++ [Child "kind"]) "kind is required"]
   else err_if (negb (bool_decide (ts_Kind template ∈ validTemplateKinds)))
          (field_not_supported (fldPath ++ [Child "kind"]) (ts_Kind template))) ++
  err_if (empty (ts_Ref template))
    (field_required (fldPath ++ [Child "ref"]) "ref is required").

Definition validateBackend (backend : BackendSpec) (fldPath : path) (backendIds : gset string) :
    list FieldError * gset string :=
  let '(idErrs, backendIds) :=
    if empty (be_BackendId backend)
    then ([field_required (fldPath ++ [Child "backendId"]) "backendId is required"], backendIds)
    else (err_if (bool_decide (be_BackendId backend ∈ backendIds))
            (field_duplicate (fldPath ++ [Child "backendId"]) (be_BackendId backend)),
          {[be_BackendId backend]} ∪ backendIds) in
  (idErrs ++
   (if empty (be_RuntimeClass backend)
    then [field_required (fldPath ++ [Child "runtimeClass"]) "runtimeClass is required"]
    else err_if (negb (bool_decide (be_RuntimeClass backend ∈ validRuntimeClasses)))
           (field_not_supported (fldPath ++ [Child "runtimeClass"]) (be_RuntimeClass backend))) ++
   validateTemplate (be_Template backend) (fldPath ++ [Child "template"]) ++
   err_if (empty (be_Version backend))
     (field_required (fldPath ++ [Child "version"]) "version is required") ++
   err_if (be_Priority backend <? 0)%Z
     (field_invalid (fldPath ++ [Child "priority"]) (FormatInt (be_Priority backend))
        "priority must be non-negative") ++
   validateOptConstraints (be_Constraints backend) (fldPath ++ [Child "constraints"]),
   backendIds).

Section validator.
Context `{!DNS1123}.

(** The body of the loop over the profiles; the state is the names and the backend
    identifiers seen so far. *)
Definition validateProfile (fldPath : path) (i : nat) (profile : ProfileSpec)
    (seen : gset string * gset string) : list FieldError * (gset string * gset string) :=
  let '(profileNames, backendIds) := seen in
  let profilePath := fldPath ++ [Index i] in
  let '(nameErrs, profileNames) :=
    if empty (pr_Name profile)
    then ([field_required (profilePath ++ [Child "name"]) "name is required"], profileNames)
    else (err_if (negb (bool_decide (length (IsDNS1123Label (pr_Name profile)) = 0)))
            (field_invalid (profilePath ++ [Child "name"]) (pr_Name profile)
               (String.concat "; " (IsDNS1123Label (pr_Name profile)))) ++
          err_if (bool_decide (pr_Name profile ∈ profileNames))
            (field_duplicate (profilePath ++ [Child "name"]) (pr_Name profile)),
          {[pr_Name profile]} ∪ profileNames) in
  let '(backendErrs, backendIds) :=
    for_range (λ j backend,
      validateBackend backend (profilePath ++ [Child "backends"; Index j])) 0
      (pr_Backends profile) backendIds in
  (nameErrs ++
   err_if (bool_decide (length (pr_Backends profile) = 0))
     (field_required (profilePath ++ [Child "backends"])
        "at least one backend must be defined") ++ backendErrs,
   (profileNames, backendIds)).

Definition validateProfiles (profiles : list ProfileSpec) (fldPath : path) : list FieldError :=
  if bool_decide (length profiles = 0)
  then [field_required fldPath "at least one profile must be defined"]
  else (for_range (validateProfile fldPath) 0 profiles (∅, ∅)).1.

(** ** Provisioners *)

Definition validateClass (fldPath : path) (i : nat) (class : ClassSpec)
    (classNames : gset string) : list FieldError * gset string :=
  let classPath := fldPath ++ [Index i] in
  let '(nameErrs, classNames) :=
    if empty (cls_Name class)
    then ([field_required (classPath ++ [Child "name"]) "name is required"], classNames)
    else (err_if (bool_decide (cls_Name class ∈ classNames))
            (field_duplicate (classPath ++ [Child "name"]) (cls_Name class)),
          {[cls_Name class]} ∪ classNames) in
  (nameErrs ++
   validateOptConstraints (cls_Constraints class) (classPath ++ [Child "constraints"]),
   classNames).

Definition validateClasses (classes : list ClassSpec) (fldPath : path) : list FieldError :=
  (for_range (validateClass fldPath) 0 classes ∅).1.

Definition validateProvisioner (fldPath : path) (i : nat) (provisioner : ProvisionerSpec)
    (provisionerTypes : gset string) : list FieldError * gset string :=
  let provisionerPath := fldPath ++ [Index i] in
  let '(typeErrs, provisionerTypes) :=
    if empty (pv_Type provisioner)
    then ([field_required (provisionerPath ++ [Child "type"]) "type is required"],
          provisionerTypes)
    else (err_if (bool_decide (pv_Type provisioner ∈ provisionerTypes))
            (field_duplicate (provisionerPath ++ [Child "type"]) (pv_Type provisioner)),
          {[pv_Type provisioner]} ∪ provisionerTypes) in
  (typeErrs ++
   err_if (empty (pv_Provisioner provisioner))
     (field_required (provisionerPath ++ [Child "provisioner"]) "provisioner is required") ++
   validateClasses (pv_Classes provisioner) (provisionerPath ++ [Child "classes"]),
   provisionerTypes).

Definition validateProvisioners (provisioners : list ProvisionerSpec) (fldPath : path) :
    list FieldError :=
  (for_range (validateProvisioner fldPath) 0 provisioners ∅).1.

(** ** Defaults and cross references *)

Definition validateSelector (fldPath : path) (i : nat) (selector : SelectorSpec) (_ : ()) :
    list FieldError * () :=
  let selectorPath := fldPath ++ [Child "selectors"; Index i] in
  (err_if (bool_decide (size (sel_MatchLabels selector) = 0) &&
           bool_decide (length (sel_MatchExpressions selector) = 0))
     (field_required selectorPath
        "selector must specify either matchLabels or matchExpressions") ++
   validateOptConstraints (sel_Constraints selector) (selectorPath ++ [Child "constraints"]), ()).

Definition validateDefaults (defaults : DefaultsSpec) (fldPath : path) : list FieldError :=
  err_if (empty (ds_Profile defaults))
    (field_required (fldPath ++ [Child "profile"]) "default profile is required") ++
  (for_range (validateSelector fldPath) 0 (ds_Selectors defaults) ()).1.

Definition validateCrossReferences (config : OrchestratorConfig) : list FieldError :=
  let spec := oc_Spec config in
  let profileNames : gset string := list_to_set (pr_Name <$> ocs_Profiles spec) in
  let default := ds_Profile (ocs_Defaults spec) in
  err_if (negb (empty default) && negb (bool_decide (default ∈ profileNames)))
    (field_not_found [Child "spec"; Child "defaults"; Child "profile"] default) ++
  (for_range (λ i selector _,
     (err_if (negb (empty (sel_Profile selector)) &&
              negb (bool_decide (sel_Profile selector ∈ profileNames)))
        (field_not_found
           [Child "spec"; Child "defaults"; Child "selectors"; Index i; Child "profile"]
           (sel_Profile selector)), ())) 0 (ds_Selectors (ocs_Defaults spec)) ()).1 ++
  (for_range (λ i provisioner _,
     (match pv_Defaults provisioner with
      | Some d =>
          err_if (negb (empty (pd_Class d)) &&
                  negb (existsb (λ class, bool_decide (cls_Name class = pd_Class d))
                          (pv_Classes provisioner)))
            (field_not_found
               [Child "spec"; Child "provisioners"; Index i; Child "defaults"; Child "class"]
               (pd_Class d))
      | None => []
      end, ())) 0 (ocs_Provisioners spec) ()).1.

Definition Validate (config : OrchestratorConfig) : option (list FieldError) :=
  let allErrs :=
    err_if (negb (bool_decide (oc_APIVersion config = "score.dev/v1b1")))
      (field_invalid [Child "apiVersion"] (oc_APIVersion config) "must be 'score.dev/v1b1'") ++
    err_if (negb (bool_decide (oc_Kind config = "OrchestratorConfig")))
      (field_invalid [Child "kind"] (oc_Kind config) "must be 'OrchestratorConfig'") ++
    err_if (empty (ocm_Name (oc_Metadata config)))
      (field_required [Child "metadata"; Child "name"] "name is required") ++
    validateProfiles (ocs_Profiles (oc_Spec config)) [Child "spec"; Child "profiles"] ++
    validateProvisioners (ocs_Provisioners (oc_Spec config))
      [Child "spec"; Child "provisioners"] ++
    validateDefaults (ocs_Defaults (oc_Spec config)) [Child "spec"; Child "defaults"] ++
    validateCrossReferences config in
  if bool_decide (0 < length allErrs) then Some allErrs else None.
End validator.

(** ** What a valid configuration is *)

(** A quantity: one or more digits and any number of letters. *)
Definition quantity (s : string) : Prop :=
  ∃ digits letters, s = digits +:+ letters ∧ digits ≠ "" ∧
    str_forall is_digit digits = true ∧ str_forall is_letter letters = true.

(** A range: a quantity, or two with a dash between them, of which one may be missing. *)
Definition quantity_range (s : string) : Prop :=
  quantity s ∨
  ∃ lo hi, s = lo +:+ "-" +:+ hi ∧
    (quantity lo ∧ quantity hi ∨ lo = "" ∧ quantity hi ∨ quantity lo ∧ hi = "").

Definition quantity_ok (q : string) : Prop := q = "" ∨ quantity_range q.

Definition constraints_ok (constraints : option ConstraintsSpec) : Prop :=
  ∀ c r, constraints = Some c → cns_Resources c = Some r →
    quantity_ok (rcn_CPU r) ∧ quantity_ok (rcn_Memory r) ∧ quantity_ok (rcn_Storage r).

Record valid_backend (b : BackendSpec) : Prop := {
  vb_id : be_BackendId b ≠ "";
  vb_runtime : be_RuntimeClass b = "kubernetes" ∨ be_RuntimeClass b = "ecs" ∨
    be_RuntimeClass b = "nomad";
  vb_kind : ts_Kind (be_Template b) = "manifests" ∨ ts_Kind (be_Template b) = "helm" ∨
    ts_Kind (be_Template b) = "kustomize";
  vb_ref : ts_Ref (be_Template b) ≠ "";
  vb_version : be_Version b ≠ "";
  vb_priority : (0 <= be_Priority b)%Z;
  vb_constraints : constraints_ok (be_Constraints b);
}.

Record valid_provisioner (p : ProvisionerSpec) : Prop := {
  vp_type : pv_Type p ≠ "";
  vp_provisioner : pv_Provisioner p ≠ "";
  vp_classes : Forall (λ c, cls_Name c ≠ "" ∧ constraints_ok (cls_Constraints c)) (pv_Classes p);
  vp_class_names : NoDup (cls_Name <$> pv_Classes p);
  vp_default : ∀ d, pv_Defaults p = Some d → pd_Class d ≠ "" →
    pd_Class d ∈ cls_Name <$> pv_Classes p;
}.

Record valid_selector (names : list string) (s : SelectorSpec) : Prop := {
  vs_labels : sel_MatchLabels s ≠ ∅ ∨ sel_MatchExpressions s ≠ [];
  vs_constraints : constraints_ok (sel_Constraints s);
  vs_profile : sel_Profile s ≠ "" → sel_Profile s ∈ names;
}.

Definition profile_names (config : OrchestratorConfig) : list string :=
  pr_Name <$> ocs_Profiles (oc_Spec config).

Definition backend_ids (profiles : list ProfileSpec) : list string :=
  profiles ≫= λ p, be_BackendId <$> pr_Backends p.

Record valid_config `{!DNS1123} (config : OrchestratorConfig) : Prop := {
  vc_version : oc_APIVersion config = "score.dev/v1b1";
  vc_kind : oc_Kind config = "OrchestratorConfig";
  vc_name : ocm_Name (oc_Metadata config) ≠ "";
  vc_profiles_ne : ocs_Profiles (oc_Spec config) ≠ [];
  vc_profiles : Forall (λ p, pr_Name p ≠ "" ∧ IsDNS1123Label (pr_Name p) = [] ∧
    pr_Backends p ≠ [] ∧ Forall valid_backend (pr_Backends p)) (ocs_Profiles (oc_Spec config));
  vc_names : NoDup (profile_names config);
  vc_ids : NoDup (backend_ids (ocs_Profiles (oc_Spec config)));
  vc_provisioners : Forall valid_provisioner (ocs_Provisioners (oc_Spec config));
  vc_types : NoDup (pv_Type <$> ocs_Provisioners (oc_Spec config));
  vc_default : ds_Profile (ocs_Defaults (oc_Spec config)) ∈ profile_names config;
  vc_default_ne : ds_Profile (ocs_Defaults (oc_Spec config)) ≠ "";
  vc_selectors : Forall (valid_selector (profile_names config))
    (ds_Selectors (ocs_Defaults (oc_Spec config)));
}.

(** ** Lemmas on the error lists *)

Lemma err_if_nil c e : err_if c e = [] ↔ c = false.
Proof. by destruct c. Qed.

Lemma empty_false s : empty s = false ↔ s ≠ "".
Proof. apply bool_decide_eq_false. Qed.

Lemma negb_decide_false P `{!Decision P} : negb (bool_decide P) = false ↔ P.
Proof. by rewrite negb_false_iff, bool_decide_eq_true. Qed.

Lemma unless_empty_nil (s : string) e (l : list FieldError) :
  (if empty s then [e] else l) = [] ↔ s ≠ "" ∧ l = [].
Proof. unfold empty. case_bool_decide; naive_solver. Qed.

Create Rewrite HintDb errs.
#[local] Hint Rewrite @app_nil err_if_nil empty_false unless_empty_nil : errs.

Lemma for_range_all {A} (body : nat → A → () → list FieldError * ()) (P : A → Prop) :
  (∀ i a s, (body i a s).1 = [] ↔ P a) →
  ∀ l i s, (for_range body i l s).1 = [] ↔ Forall P l.
Proof.
  intros Hb. induction l as [|a l IH]; intros i s; simpl; [by rewrite Forall_nil|].
  specialize (Hb i a s). destruct (body i a s) as [errs []]. specialize (IH (S i) ()).
  destruct (for_range _ _ _ _) as [errs' []]. simpl in *.
  by rewrite app_nil, Forall_cons, Hb, IH.
Qed.

(** A loop whose body refuses the keys it has seen. *)
Lemma for_range_unique {A} (body : nat → A → gset string → list FieldError * gset string)
    (P : A → Prop) (key : A → string) :
  (∀ i a s, (body i a s).1 = [] ↔ P a ∧ key a ∉ s) →
  (∀ i a s, (body i a s).1 = [] → (body i a s).2 = {[key a]} ∪ s) →
  ∀ l i s,
    ((for_range body i l s).1 = [] ↔
       Forall P l ∧ NoDup (key <$> l) ∧ ∀ k, k ∈ key <$> l → k ∉ s) ∧
    ((for_range body i l s).1 = [] → (for_range body i l s).2 = list_to_set (key <$> l) ∪ s).
Proof.
  intros Herr Hst. induction l as [|a l IH]; intros i s; simpl.
  { split; [|intros _; by rewrite (left_id_L ∅ _)]. split; [|done].
    intros _. split_and!; [by apply Forall_nil|by constructor|set_solver]. }
  specialize (Herr i a s). specialize (Hst i a s). destruct (body i a s) as [errs s1].
  specialize (IH (S i) s1). destruct (for_range _ _ _ _) as [errs' s2]. simpl in *.
  destruct IH as [IHe IHs]. rewrite app_nil, Forall_cons, NoDup_cons. split.
  - rewrite IHe, Herr. split.
    + intros ((Ha & Hk) & Hl & Hnd & Hs1). rewrite Hst in Hs1 by by apply Herr.
      split_and!; [done..| |done|]; set_solver.
    + intros ((Ha & Hl) & (Hk & Hnd) & Hs). rewrite Hst by (apply Herr; set_solver).
      split_and!; [done| |done..|]; set_solver.
  - intros [He He']. rewrite IHs, Hst by done. set_solver.
Qed.

Lemma for_range_unique_nil {A} (body : nat → A → gset string → list FieldError * gset string)
    (P : A → Prop) (key : A → string) l :
  (∀ i a s, (body i a s).1 = [] ↔ P a ∧ key a ∉ s) →
  (∀ i a s, (body i a s).1 = [] → (body i a s).2 = {[key a]} ∪ s) →
  (for_range body 0 l ∅).1 = [] ↔ Forall P l ∧ NoDup (key <$> l).
Proof.
  intros Herr Hst. destruct (for_range_unique body P key Herr Hst l 0 ∅) as [-> _]. set_solver.
Qed.

(** ** The parts *)

Lemma match_digits_letters_iff s :
  match_digits_letters s = true ↔
  ∃ d l, s = d +:+ l ∧ str_forall is_digit d = true ∧ str_forall is_letter l = true.
Proof.
  induction s as [|a s IH]; cbn [match_digits_letters].
  - split; [intros _; by exists "", ""|done].
  - destruct (is_digit a) eqn:Ha.
    + rewrite IH. split.
      * intros (d & l & -> & Hd & Hl). exists (String a d), l. split; [done|].
        cbn [str_forall]. by rewrite Ha.
      * intros ([|b d] & l & Heq & Hd & Hl); simpl in Heq.
        -- subst l. exists "", s. split; [done|]. split; [done|].
           by apply andb_true_iff in Hl as [_ Hl].
        -- injection Heq as -> ->. apply andb_true_iff in Hd as [_ Hd]. eauto.
    + split; [intros Hl; by exists "", (String a s)|].
      intros ([|b d] & l & Heq & Hd & Hl); simpl in Heq; [by subst l|].
      injection Heq as -> ->. apply andb_true_iff in Hd as [Hd _]. congruence.
Qed.

Lemma match_quantity_iff s : match_quantity s = true ↔ quantity s.
Proof.
  unfold quantity. destruct s as [|a s]; cbn [match_quantity].
  - split; [done|]. by intros ([|] & l & Heq & Hne & _).
  - rewrite andb_true_iff, match_digits_letters_iff. split.
    + intros [Ha (d & l & -> & Hd & Hl)]. exists (String a d), l. split; [done|].
      split; [done|]. cbn [str_forall]. by rewrite Ha.
    + intros ([|b d] & l & Heq & Hne & Hd & Hl); [done|]. injection Heq as -> ->.
      apply andb_true_iff in Hd as [Ha Hd]. eauto 6.
Qed.

(** A quantity is made of digits and letters, so it has no dash. *)
Definition is_alnum (a : ascii) : bool := is_digit a || is_letter a.

Lemma quantity_alnum s : quantity s → str_forall is_alnum s = true.
Proof.
  intros (d & l & -> & _ & Hd & Hl). rewrite str_forall_app, andb_true_iff.
  split; [eapply str_forall_impl; [|exact Hd]|eapply str_forall_impl; [|exact Hl]];
    intros a Ha; unfold is_alnum; rewrite Ha; [done|by rewrite orb_true_r].
Qed.

Lemma constraintPattern_iff s : constraintPattern s = true ↔ quantity_range s.
Proof.
  assert (∀ q, str_forall is_alnum q = true → Split q "-" = [q]) as Hone.
  { intros q Hq. by eapply Split_single. }
  unfold constraintPattern, quantity_range. split.
  - pose proof (Split_concat s "-") as Hs.
    destruct (Split s "-") as [|lo [|hi [|]]]; [done| | |done]; simpl in Hs.
    + rewrite match_quantity_iff. subst s. by left.
    + unfold empty. rewrite !orb_true_iff, !andb_true_iff, !match_quantity_iff, !bool_decide_eq_true.
      intros H. right. exists lo, hi. split; [by rewrite <- Hs|]. tauto.
  - assert (∀ lo hi, str_forall is_alnum lo = true → str_forall is_alnum hi = true →
      Split (lo +:+ "-" +:+ hi) "-" = [lo; hi]) as Htwo.
    { intros lo hi Hlo Hhi. change ("-" +:+ hi) with (String "-" hi).
      rewrite (Split_app is_alnum) by done. by rewrite Hone. }
    unfold empty. intros [Hq|(lo & hi & -> & [[Hlo Hhi]|[[-> Hhi]|[Hlo ->]]])].
    + rewrite (Hone s) by by apply quantity_alnum. by apply match_quantity_iff.
    + rewrite Htwo by by apply quantity_alnum.
      apply match_quantity_iff in Hlo, Hhi. by rewrite Hlo, Hhi.
    + rewrite Htwo by first [done | by apply quantity_alnum].
      apply match_quantity_iff in Hhi. by rewrite Hhi.
    + rewrite Htwo by first [done | by apply quantity_alnum].
      apply match_quantity_iff in Hlo. by rewrite Hlo, orb_true_r.
Qed.

Lemma quantity_nil q e :
  err_if (negb (empty q) && negb (constraintPattern q)) e = [] ↔ quantity_ok q.
Proof.
  rewrite err_if_nil. unfold quantity_ok, empty. rewrite <- constraintPattern_iff.
  case_bool_decide; simpl; [naive_solver|]. rewrite negb_false_iff. naive_solver.
Qed.

Lemma constraints_nil c p : validateOptConstraints c p = [] ↔ constraints_ok c.
Proof.
  unfold validateOptConstraints, validateConstraints, constraints_ok.
  destruct c as [c|]; [|naive_solver]. destruct (cns_Resources c) as [r|] eqn:Hr; [|naive_solver].
  unfold validateResourceConstraints. rewrite !app_nil, !quantity_nil. naive_solver.
Qed.

Lemma empty_not_supported : ("" ∉ validTemplateKinds) ∧ ("" ∉ validRuntimeClasses).
Proof. refine (bool_decide_unpack _ _). vm_compute. exact I. Qed.

Lemma supported_kinds k :
  k ∈ validTemplateKinds ↔ k = "manifests" ∨ k = "helm" ∨ k = "kustomize".
Proof. unfold validTemplateKinds. set_solver. Qed.

Lemma supported_classes c :
  c ∈ validRuntimeClasses ↔ c = "kubernetes" ∨ c = "ecs" ∨ c = "nomad".
Proof. unfold validRuntimeClasses. set_solver. Qed.

Lemma template_nil t p :
  validateTemplate t p = [] ↔
  (ts_Kind t = "manifests" ∨ ts_Kind t = "helm" ∨ ts_Kind t = "kustomize") ∧ ts_Ref t ≠ "".
Proof.
  rewrite <- supported_kinds. unfold validateTemplate. rewrite app_nil, unless_empty_nil, !err_if_nil, empty_false,
    negb_decide_false. split; [naive_solver|]. intros [Hk Hr]. split_and!; [|done..].
  intros Hempty. rewrite Hempty in Hk. by apply empty_not_supported in Hk.
Qed.

Lemma validateBackend_nil b p ids :
  (validateBackend b p ids).1 = [] ↔ valid_backend b ∧ be_BackendId b ∉ ids.
Proof.
  unfold validateBackend, empty at 1. case_bool_decide as Hid; simpl.
  { split; [done|]. intros [[] _]. done. }
  rewrite !app_nil, unless_empty_nil, !err_if_nil, empty_false, negb_decide_false,
    supported_classes, template_nil, constraints_nil, bool_decide_eq_false, Z.ltb_ge.
  split; [intros (? & [? ?] & [? ?] & ? & ? & ?); split; [by constructor|done]|].
  intros [[Hid' Hrt] ?]. split_and!; try done. intros Hempty. rewrite Hempty in Hrt. naive_solver.
Qed.

Lemma validateBackend_ids b p ids :
  (validateBackend b p ids).1 = [] → (validateBackend b p ids).2 = {[be_BackendId b]} ∪ ids.
Proof.
  rewrite validateBackend_nil. intros [[Hid] _]. unfold validateBackend, empty at 1.
  by rewrite bool_decide_false.
Qed.

Lemma validateClasses_nil `{!DNS1123} classes p :
  validateClasses classes p = [] ↔
  Forall (λ c, cls_Name c ≠ "" ∧ constraints_ok (cls_Constraints c)) classes ∧
  NoDup (cls_Name <$> classes).
Proof.
  unfold validateClasses.
  apply (for_range_unique_nil _ (λ c, cls_Name c ≠ "" ∧ _)).
  - intros i c s. unfold validateClass, empty. case_bool_decide; simpl; [naive_solver|].
    rewrite app_nil, err_if_nil, constraints_nil, bool_decide_eq_false. tauto.
  - intros i c s. unfold validateClass, empty. by case_bool_decide.
Qed.

Lemma validateProvisioners_nil `{!DNS1123} provisioners p :
  validateProvisioners provisioners p = [] ↔
  Forall (λ p, pv_Type p ≠ "" ∧ pv_Provisioner p ≠ "" ∧
    Forall (λ c, cls_Name c ≠ "" ∧ constraints_ok (cls_Constraints c)) (pv_Classes p) ∧
    NoDup (cls_Name <$> pv_Classes p)) provisioners ∧
  NoDup (pv_Type <$> provisioners).
Proof.
  unfold validateProvisioners.
  apply (for_range_unique_nil _ (λ p, pv_Type p ≠ "" ∧ _)).
  - intros i c s. unfold validateProvisioner, empty at 1. case_bool_decide; simpl; [naive_solver|].
    rewrite !app_nil, !err_if_nil, empty_false, validateClasses_nil, bool_decide_eq_false. tauto.
  - intros i c s. unfold validateProvisioner. by destruct (empty (pv_Type c)).
Qed.

Lemma validateDefaults_nil `{!DNS1123} defaults p :
  validateDefaults defaults p = [] ↔
  ds_Profile defaults ≠ "" ∧
  Forall (λ s, (sel_MatchLabels s ≠ ∅ ∨ sel_MatchExpressions s ≠ []) ∧
               constraints_ok (sel_Constraints s)) (ds_Selectors defaults).
Proof.
  unfold validateDefaults. rewrite app_nil, err_if_nil, empty_false.
  rewrite (for_range_all _ (λ s, (sel_MatchLabels s ≠ ∅ ∨ sel_MatchExpressions s ≠ []) ∧
    constraints_ok (sel_Constraints s))); [done|].
  intros i s []. simpl. rewrite app_nil, err_if_nil, constraints_nil, andb_false_iff,
    !bool_decide_eq_false, map_size_empty_iff, length_zero_iff_nil. done.
Qed.

Section valid.
Context `{!DNS1123}.

Definition valid_profile (p : ProfileSpec) : Prop :=
  pr_Name p ≠ "" ∧ IsDNS1123Label (pr_Name p) = [] ∧
  pr_Backends p ≠ [] ∧ Forall valid_backend (pr_Backends p).

Lemma validateBackends_nil bs p ids :
  let r := for_range (λ j b, validateBackend b (p ++ [Child "backends"; Index j])) 0 bs ids in
  (r.1 = [] ↔ Forall valid_backend bs ∧ NoDup (be_BackendId <$> bs) ∧
              ∀ k, k ∈ be_BackendId <$> bs → k ∉ ids) ∧
  (r.1 = [] → r.2 = list_to_set (be_BackendId <$> bs) ∪ ids).
Proof.
  apply (for_range_unique _ valid_backend be_BackendId); intros i b s.
  - apply validateBackend_nil.
  - apply validateBackend_ids.
Qed.

Lemma validateProfile_nil path i p names ids :
  ((validateProfile path i p (names, ids)).1 = [] ↔
     valid_profile p ∧ (pr_Name p ∉ names) ∧ NoDup (be_BackendId <$> pr_Backends p) ∧
     ∀ k, k ∈ be_BackendId <$> pr_Backends p → k ∉ ids) ∧
  ((validateProfile path i p (names, ids)).1 = [] →
     (validateProfile path i p (names, ids)).2 =
       ({[pr_Name p]} ∪ names, list_to_set (be_BackendId <$> pr_Backends p) ∪ ids)).
Proof.
  unfold validateProfile, valid_profile.
  destruct (validateBackends_nil (pr_Backends p) (path ++ [Index i]) ids) as [Hb Hs].
  destruct (for_range _ _ _ _) as [errs ids1]. simpl in Hb, Hs.
  destruct (empty (pr_Name p)) eqn:He; simpl.
  { apply bool_decide_eq_true in He. naive_solver. }
  apply empty_false in He. rewrite !app_nil, !err_if_nil, negb_decide_false,
    !bool_decide_eq_false, !length_zero_iff_nil, Hb.
  split; [tauto|]. intros (_ & _ & Hn). rewrite Hs; [done|]. by apply Hb.
Qed.

#[local] Arguments validateProfile : simpl never.

Lemma validateProfiles_loop path ps i names ids :
  (for_range (validateProfile path) i ps (names, ids)).1 = [] ↔
  Forall valid_profile ps ∧ NoDup (pr_Name <$> ps) ∧ NoDup (backend_ids ps) ∧
  (∀ k, k ∈ pr_Name <$> ps → k ∉ names) ∧ (∀ k, k ∈ backend_ids ps → k ∉ ids).
Proof.
  revert i names ids. induction ps as [|p ps IH]; intros i names ids; simpl.
  { split; [intros _|done]. rewrite Forall_nil. split_and!; [done|constructor..| |]; set_solver. }
  destruct (validateProfile_nil path i p names ids) as [He Hs].
  destruct (validateProfile path i p (names, ids)) as [errs [names1 ids1]]. simpl in He, Hs.
  specialize (IH (S i) names1 ids1). destruct (for_range _ _ _ _) as [errs' s'].
  simpl in *. unfold backend_ids at 1 2. simpl. fold (backend_ids ps).
  rewrite app_nil, IH, Forall_cons, NoDup_cons, NoDup_app. split.
  - intros [He0 (Hps & Hn & Hi & Hdn & Hdi)]. apply He in He0 as Hp. specialize (Hs He0).
    injection Hs as -> ->. destruct Hp as (? & ? & ? & ?).
    split_and!; try done; set_solver.
  - intros ([Hp Hps] & [Hnin Hn] & (Hi & Hdisj & Hi') & Hdn & Hdi).
    assert (errs = []) as He0 by (apply He; split_and!; try done; set_solver).
    specialize (Hs He0). injection Hs as -> ->. split_and!; try done; set_solver.
Qed.

Lemma validateProfiles_nil ps path :
  validateProfiles ps path = [] ↔
  ps ≠ [] ∧ Forall valid_profile ps ∧ NoDup (pr_Name <$> ps) ∧ NoDup (backend_ids ps).
Proof.
  unfold validateProfiles. case_bool_decide as Hl; rewrite length_zero_iff_nil in Hl;
    [naive_solver|]. rewrite validateProfiles_loop. set_solver.
Qed.

Lemma crossReferences_nil config :
  validateCrossReferences config = [] ↔
  (ds_Profile (ocs_Defaults (oc_Spec config)) ≠ "" →
     ds_Profile (ocs_Defaults (oc_Spec config)) ∈ profile_names config) ∧
  Forall (λ s, sel_Profile s ≠ "" → sel_Profile s ∈ profile_names config)
    (ds_Selectors (ocs_Defaults (oc_Spec config))) ∧
  Forall (λ p, ∀ d, pv_Defaults p = Some d → pd_Class d ≠ "" →
            pd_Class d ∈ cls_Name <$> pv_Classes p) (ocs_Provisioners (oc_Spec config)).
Proof.
  assert (∀ (s : string) (l : list string) e,
    err_if (negb (empty s) && negb (bool_decide (s ∈@{gset string} list_to_set l))) e = [] ↔
    (s ≠ "" → s ∈ l)) as Hin.
  { intros s l e. rewrite err_if_nil. unfold empty. case_bool_decide; simpl; [naive_solver|].
    rewrite negb_decide_false, elem_of_list_to_set. naive_solver. }
  unfold validateCrossReferences. rewrite !app_nil, Hin. apply and_iff_compat_l.
  f_equiv; [apply for_range_all; intros i s []; apply Hin|].
  apply for_range_all. intros i x []. simpl.
  destruct (pv_Defaults x) as [d|]; [|naive_solver]. rewrite err_if_nil. unfold empty.
  case_bool_decide; simpl; [naive_solver|]. rewrite negb_false_iff, existsb_exists.
  setoid_rewrite bool_decide_eq_true. setoid_rewrite <- list_elem_of_In.
  setoid_rewrite list_elem_of_fmap. naive_solver.
Qed.

Lemma Validate_iff config : Validate config = None ↔ valid_config config.
Proof.
  assert (∀ l : list FieldError,
    (if bool_decide (0 < length l) then Some l else None) = None ↔ l = []) as Hnone.
  { intros l. destruct l; naive_solver. }
  unfold Validate. rewrite Hnone, !app_nil, !err_if_nil, empty_false, !negb_decide_false,
    validateProfiles_nil, validateProvisioners_nil, validateDefaults_nil, crossReferences_nil.
  split.
  - intros (? & ? & ? & (? & ? & ? & ?) & (Hprov & ?) & (? & Hsel) & (? & Hsel' & Hprov')).
    rewrite !Forall_forall in *.
    constructor; rewrite ?Forall_forall; auto.
    + intros p Hp. destruct (Hprov p Hp) as (? & ? & ? & ?). constructor; auto.
    + intros s Hs. destruct (Hsel s Hs). constructor; auto.
  - intros [? ? ? ? ? ? ? Hprov ? ? ? Hsel]. split_and!; auto.
    + eapply Forall_impl; [exact Hprov|]. by intros ? [].
    + eapply Forall_impl; [exact Hsel|]. by intros ? [].
    + eapply Forall_impl; [exact Hsel|]. by intros ? [].
    + eapply Forall_impl; [exact Hprov|]. by intros ? [].
Qed.

(** C16: [Validate] accepts exactly the valid configurations: the API version and
    kind are the supported ones, profile names are distinct DNS labels and backend
    identifiers are distinct across the whole file, runtime classes and template
    kinds are the supported ones, every resource constraint is a quantity (digits, then
    letters) or a range of two with a dash between them, of which one may be missing,
    provisioner types and the class names of each provisioner are distinct, and the
    default profile, the profiles of the default selectors and the default classes
    of the provisioners refer to entries that exist. *)
Theorem Validate_correct config : Validate config = None ↔ valid_config config.
Proof. apply Validate_iff. Qed.

(** ** Selection under a valid configuration *)

Context `{!Semver} `{!LabelSelectors}.

Lemma find_profile_name_in P ps :
  find_profile_name P ps ≠ "" → find_profile_name P ps ∈ pr_Name <$> ps.
Proof.
  unfold find_profile_name. destruct (List.find _ ps) as [p|] eqn:Hf; [|done].
  intros _. apply find_some in Hf as [Hin _]. apply list_elem_of_In in Hin.
  simpl. by apply list_elem_of_fmap_2.
Qed.

Lemma derived_in config workload :
  deriveProfileFromWorkload config workload ≠ "" →
  deriveProfileFromWorkload config workload ∈ profile_names config.
Proof. unfold deriveProfileFromWorkload. case_match; apply find_profile_name_in. Qed.

Lemma selected_profile_in config workload :
  valid_config config → selectProfileFromSelectors config workload ≠ "" →
  selectProfileFromSelectors config workload ∈ profile_names config.
Proof.
  intros Hv. unfold selectProfileFromSelectors.
  destruct (List.find _ _) as [s|] eqn:Hf; [|done]. intros Hne.
  apply find_some in Hf as [Hin _]. apply list_elem_of_In in Hin.
  pose proof (proj1 (Forall_forall _ _) (vc_selectors _ Hv) s Hin) as Hs. by apply vs_profile in Hs.
Qed.

Lemma has_profile_in config name :
  has_profile config name = true ↔ name ∈ profile_names config.
Proof.
  unfold has_profile, profile_names. rewrite existsb_exists, list_elem_of_fmap.
  setoid_rewrite bool_decide_eq_true. setoid_rewrite <- list_elem_of_In. naive_solver.
Qed.

(** The only way in which the profile selection fails is a hint that names no
    profile. *)
Lemma selectProfile_valid config workload :
  valid_config config →
  match selectProfile config workload with
  | Ok name => name ∈ profile_names config
  | Err e => ∃ hint,
      map_get (om_Annotations (wl_ObjectMeta workload)) "score.dev/profile" = Some hint ∧
      hint ≠ "" ∧ (hint ∉ profile_names config) ∧
      e = ENew ("hinted profile " +:+ quote hint +:+ " does not exist")
  end.
Proof.
  intros Hv. unfold selectProfile.
  assert (match
    (if negb (bool_decide (deriveProfileFromWorkload config workload = ""))
     then Ok (deriveProfileFromWorkload config workload)
     else if negb (bool_decide (selectProfileFromSelectors config workload = ""))
     then Ok (selectProfileFromSelectors config workload)
     else if negb (bool_decide (ds_Profile (ocs_Defaults (oc_Spec config)) = ""))
     then Ok (ds_Profile (ocs_Defaults (oc_Spec config)))
     else Err (ENew "no profile could be determined and no default profile is configured"))
    with Ok name => name ∈ profile_names config | Err e => False end) as Hrest.
  { pose proof (vc_default _ Hv). pose proof (vc_default_ne _ Hv).
    repeat case_bool_decide; simpl;
      first [done | by apply derived_in | by apply selected_profile_in]. }
  destruct (map_get _ _) as [[|a hint]|] eqn:Hm.
  - by destruct (if negb _ then _ else _).
  - destruct (has_profile config _) eqn:Hh; [by apply has_profile_in|].
    eexists. split_and!; [done..| |done]. rewrite <- has_profile_in. by rewrite Hh.
  - by destruct (if negb _ then _ else _).
Qed.

Lemma valid_unique_ids config p :
  valid_config config → p ∈ ocs_Profiles (oc_Spec config) → unique_ids (pr_Backends p).
Proof.
  intros Hv. pose proof (vc_ids _ Hv) as Hnd. unfold unique_ids. revert Hnd.
  generalize (ocs_Profiles (oc_Spec config)) as ps.
  induction ps as [|q ps IH]; [set_solver|]. unfold backend_ids. simpl.
  rewrite NoDup_app, elem_of_cons. intros (Hq & _ & Hps) [->|Hp]; [done|by apply IH].
Qed.

Lemma SelectBackend_valid config workload `{!SemverLaws} :
  Validate config = None →
  match SelectBackend config workload with
  | Ok sb => ∃ p b, p ∈ ocs_Profiles (oc_Spec config) ∧
      best_backend workload (pr_Backends p) b ∧ sb = selected_of b
  | Err e =>
      (∃ hint, map_get (om_Annotations (wl_ObjectMeta workload)) "score.dev/profile" = Some hint ∧
         hint ≠ "" ∧ (hint ∉ profile_names config)) ∨
      (∃ p, p ∈ ocs_Profiles (oc_Spec config) ∧ e = no_candidates (pr_Name p) ∧
         ∀ b, b ∈ pr_Backends p → backend_accepted workload b = false)
  end.
Proof.
  rewrite Validate_iff. intros Hv. pose proof (selectProfile_valid config workload Hv) as Hname.
  unfold SelectBackend. destruct (selectProfile config workload) as [name|e]; [|naive_solver].
  apply has_profile_in, find_profile_has in Hname as [p Hp]. rewrite Hp.
  apply find_profile_Some in Hp as [Hin <-]. pose proof (valid_unique_ids _ _ Hv Hin) as Hids.
  destruct (selectBackend _) as [b|] eqn:Hb.
  - exists p, b. split_and!; [done| |done]. by apply selectBackend_best.
  - right. exists p. split_and!; [done..|]. by apply selectBackend_None.
Qed.
(** A configuration that passes validation leaves only two ways for the
    selection to fail: the workload names a profile that does not exist, or every
    backend of the selected profile refuses the workload.  In particular the
    configuration is never reported to lack the selected profile or a default, and
    every other workload gets the best accepted backend of an existing profile. *)
Theorem validated_selection config workload `{!SemverLaws} :
  Validate config = None →
  match SelectBackend config workload with
  | Ok sb => ∃ p b, p ∈ ocs_Profiles (oc_Spec config) ∧
      best_backend workload (pr_Backends p) b ∧ sb = selected_of b
  | Err e =>
      (∃ hint, map_get (om_Annotations (wl_ObjectMeta workload)) "score.dev/profile" = Some hint ∧
         hint ≠ "" ∧ (hint ∉ profile_names config)) ∨
      (∃ p, p ∈ ocs_Profiles (oc_Spec config) ∧ e = no_candidates (pr_Name p) ∧
         ∀ b, b ∈ pr_Backends p → backend_accepted workload b = false)
  end.
Proof. exact (SelectBackend_valid config workload). Qed.
End valid.

(** ** A concrete instance, for the witness *)

Module ValidationDemo.
Definition is_label_char (a : ascii) : bool :=
  let n := N_of_ascii a in is_digit a || ((97 <=? n) && (n <=? 122))%N.

Fixpoint ends_in_label_char (s : string) : bool :=
  match s with
  | "" => false
  | String a "" => is_label_char a
  | String _ t => ends_in_label_char t
  end.

(** At most 63 lower-case alphanumeric characters or dashes, no dash at either end. *)
#[local] Instance dns1123 : DNS1123 :=
  {| IsDNS1123Label s :=
       if (String.length s <=? 63) &&
          str_forall (λ a, is_label_char a || bool_decide (a = "-"%char)) s &&
          match s with String a _ => is_label_char a | "" => false end && ends_in_label_char s
       then [] else ["a lowercase RFC 1123 label must consist of ..."] |}.

Definition config : OrchestratorConfig := Demo.config [Demo.low; Demo.old; Demo.new; Demo.small].
End ValidationDemo.
#[local] Existing Instances ValidationDemo.dns1123 Demo.semver Demo.semver_laws Demo.selectors.

Lemma validated_selection_witness :
  Validate ValidationDemo.config = None ∧
  ∃ p b, p ∈ ocs_Profiles (oc_Spec ValidationDemo.config) ∧
    best_backend Demo.workload (pr_Backends p) b ∧
    selected_of Demo.new = selected_of b.
Proof.
  assert (Validate ValidationDemo.config = None) as Hv by (vm_compute; reflexivity).
  split; [exact Hv|].
  assert (SelectBackend ValidationDemo.config Demo.workload = Ok (selected_of Demo.new)) as Hs
    by (vm_compute; reflexivity).
  pose proof (validated_selection ValidationDemo.config Demo.workload Hv) as Hsel.
  rewrite Hs in Hsel. exact Hsel.
Defined.
