(* ===== verification/GoURL.v ===== *)
(** * GoURL: the part of [net/url] the sources use

    [url.Parse], [URL.String], [URL.Hostname] and [URL.Port] of the Go standard
    library, as of the Go version of [go.mod] (1.24).  The text of an error quotes
    the input with [quote], that is without escaping its special characters. *)
From S2P Require Import Prelude GoStrings Json K8s Api Client.

(** [strings.Cut] at a byte. *)
Definition Cut (sep : ascii) (s : string) : string * string :=
  match cut_at sep s with Some x => x | None => (s, "") end.

(** The parts around the last occurrence of the byte. *)
Fixpoint cut_last (sep : ascii) (s : string) : option (string * string) :=
  match s with
  | "" => None
  | String a t =>
      match cut_last sep t with
      | Some (p, r) => Some (String a p, r)
      | None => if bool_decide (a = sep) then Some ("", t) else None
      end
  end.

Record URL := {
  u_Scheme : string;
  u_Opaque : string;
  (** The user and the password. *)
  u_User : option (string * option string);
  u_Host : string;
  u_Path : string;
  u_RawPath : string;
  u_OmitHost : bool;
  u_ForceQuery : bool;
  u_RawQuery : string;
  u_Fragment : string;
  u_RawFragment : string;
}.

#[export] Instance URL_eq_dec : EqDecision URL.
Proof. solve_decision. Defined.

Definition URL_zero : URL :=
  {| u_Scheme := ""; u_Opaque := ""; u_User := None; u_Host := ""; u_Path := "";
     u_RawPath := ""; u_OmitHost := false; u_ForceQuery := false; u_RawQuery := "";
     u_Fragment := ""; u_RawFragment := "" |}.

Inductive encoding :=
| encodePath | encodeUserPassword | encodeHost | encodeZone | encodeFragment.

(** ** Characters *)

Definition is_alpha (a : ascii) : bool :=
  let n := N_of_ascii a in
  (97 <=? n)%N && (n <=? 122)%N || (65 <=? n)%N && (n <=? 90)%N.

Definition is_alnum (a : ascii) : bool := is_alpha a || is_digit a.

(** [a] is one of the bytes of [s]. *)
Definition one_of (s : string) (a : ascii) : bool :=
  bool_decide (a ∈ String.list_ascii_of_string s).

Definition dquote : string := String "034" "".

Definition is_host_mode (mode : encoding) : bool :=
  match mode with encodeHost | encodeZone => true | _ => false end.

Definition shouldEscape (c : ascii) (mode : encoding) : bool :=
  if is_alnum c then false
  else if is_host_mode mode && one_of ("!$&'()*+,;=:[]<>" +:+ dquote) c then false
  else if one_of "-_.~" c then false
  else if one_of "$&+,/:;=?@" c && negb (is_host_mode mode) then
    match mode with
    | encodePath => one_of "?" c
    | encodeUserPassword => one_of "@/?:" c
    | _ => false
    end
  else match mode with
       | encodeFragment => negb (one_of "!()*" c)
       | _ => true
       end.

(** The value of a hexadecimal digit. *)
Definition unhex (a : ascii) : option N :=
  let n := N_of_ascii a in
  if is_digit a then Some (n - 48)%N
  else if (97 <=? n)%N && (n <=? 102)%N then Some (n - 87)%N
  else if (65 <=? n)%N && (n <=? 70)%N then Some (n - 55)%N
  else None.

(** The byte of a well-formed escape at the beginning of the rest, after the [%]. *)
Definition escape_here (rest : string) : option (N * N * string) :=
  match rest with
  | String a (String b t) =>
      match unhex a, unhex b with
      | Some x, Some y => Some (x, y, t)
      | _, _ => None
      end
  | _ => None
  end.

Definition EscapeError (s : string) : goerror := ENew ("invalid URL escape " +:+ quote s).
Definition InvalidHostError (s : string) : goerror :=
  ENew ("invalid character " +:+ quote s +:+ " in host name").

(** Go checks the whole string first and decodes it then; both passes read the
    string from the left in the same way. *)
Fixpoint unescape_go (mode : encoding) (s : string) (skip : nat) : res string :=
  match s, skip with
  | "", _ => Ok ""
  | String _ t, S n => unescape_go mode t n
  | String "%" t, 0 =>
      match escape_here t with
      | None => Err (EscapeError (String.substring 0 3 s))
      | Some (x, y, _) =>
          let v := ascii_of_N (16 * x + y) in
          let is25 := (x =? 2)%N && (y =? 5)%N in
          let refused :=
            match mode with
            | encodeHost => (x <? 8)%N && negb is25
            | encodeZone => negb is25 && negb (bool_decide (v = " "%char)) &&
                            shouldEscape v encodeHost
            | _ => false
            end in
          if refused then Err (EscapeError (String.substring 0 3 s))
          else match unescape_go mode t 2 with
               | Ok r => Ok (String v r)
               | Err e => Err e
               end
      end
  | String c t, 0 =>
      if is_host_mode mode && (N_of_ascii c <? 128)%N && shouldEscape c mode
      then Err (InvalidHostError (String c ""))
      else match unescape_go mode t 0 with
           | Ok r => Ok (String c r)
           | Err e => Err e
           end
  end.

Definition unescape (s : string) (mode : encoding) : res string := unescape_go mode s 0.

Definition hex_digit (n : N) : ascii :=
  ascii_of_N (if (n <? 10)%N then n + 48 else n + 55).

Fixpoint escape (s : string) (mode : encoding) : string :=
  match s with
  | "" => ""
  | String c t =>
      if shouldEscape c mode
      then String "%" (String (hex_digit (N_of_ascii c / 16))
                         (String (hex_digit (N_of_ascii c mod 16)) (escape t mode)))
      else String c (escape t mode)
  end.

(** ** Parse *)

(** [stringContainsCTLByte] *)
Fixpoint has_ctl (s : string) : bool :=
  match s with
  | "" => false
  | String c t => (N_of_ascii c <? 32)%N || (N_of_ascii c =? 127)%N || has_ctl t
  end.

(** The scheme and what follows it; [seen] is the part already read. *)
Fixpoint getScheme_go (seen s : string) : res (string * string) :=
  match s with
  | "" => Ok ("", seen)
  | String c t =>
      if is_alpha c then getScheme_go (seen +:+ String c "") t
      else if is_digit c || one_of "+-." c then
        if bool_decide (seen = "") then Ok ("", s) else getScheme_go (seen +:+ String c "") t
      else if bool_decide (c = ":"%char) then
        if bool_decide (seen = "") then Err (ENew "missing protocol scheme") else Ok (seen, t)
      else Ok ("", seen +:+ s)
  end.

Definition getScheme (rawURL : string) : res (string * string) := getScheme_go "" rawURL.

Definition validUserinfo (s : string) : bool :=
  str_forall (λ c, is_alnum c || one_of "-._:~!$&'()*+,;=%@" c) s.

(** Empty, or a colon and digits. *)
Definition validOptionalPort (port : string) : bool :=
  match port with
  | "" => true
  | String c t => bool_decide (c = ":"%char) && str_forall is_digit t
  end.

Definition bad_port (colonPort : string) : goerror :=
  ENew ("invalid port " +:+ quote colonPort +:+ " after host").

(** The position of the first [sub], as the parts before it and from it on. *)
Fixpoint split_at (sub s : string) : option (string * string) :=
  if HasPrefix s sub then Some ("", s)
  else match s with
       | "" => None
       | String a t => '(p, r) ← split_at sub t; Some (String a p, r)
       end.

Definition res_bind {A B} (r : res A) (f : A → res B) : res B :=
  match r with Ok a => f a | Err e => Err e end.

Definition parseHost (host : string) : res string :=
  if HasPrefix host "[" then
    match cut_last "]" host with
    | None => Err (ENew "missing ']' in host")
    | Some (literal, colonPort) =>
        if negb (validOptionalPort colonPort) then Err (bad_port colonPort)
        else match split_at "%25" literal with
             | Some (address, zone) =>
                 res_bind (unescape address encodeHost) (λ host1,
                 res_bind (unescape zone encodeZone) (λ host2,
                 res_bind (unescape (String "]" colonPort) encodeHost) (λ host3,
                 Ok (host1 +:+ host2 +:+ host3))))
             | None => unescape host encodeHost
             end
    end
  else
    match cut_last ":" host with
    | Some (_, port) =>
        if negb (validOptionalPort (String ":" port)) then Err (bad_port (String ":" port))
        else unescape host encodeHost
    | None => unescape host encodeHost
    end.

Definition parseAuthority (authority : string) :
    res (option (string * option string) * string) :=
  match cut_last "@" authority with
  | None => res_bind (parseHost authority) (λ host, Ok (None, host))
  | Some (userinfo, rest) =>
      res_bind (parseHost rest) (λ host,
      if negb (validUserinfo userinfo) then Err (ENew "net/url: invalid userinfo")
      else match cut_at ":" userinfo with
           | None =>
               res_bind (unescape userinfo encodeUserPassword) (λ user,
               Ok (Some (user, None), host))
           | Some (username, password) =>
               res_bind (unescape username encodeUserPassword) (λ username,
               res_bind (unescape password encodeUserPassword) (λ password,
               Ok (Some (username, Some password), host)))
           end)
  end.

Definition setPath (u : URL) (p : string) : res URL :=
  res_bind (unescape p encodePath) (λ path,
  Ok {| u with u_Path := path;
        u_RawPath := if bool_decide (p = escape path encodePath) then "" else p |}).

Definition setFragment (u : URL) (f : string) : res URL :=
  res_bind (unescape f encodeFragment) (λ frag,
  Ok {| u with u_Fragment := frag;
        u_RawFragment := if bool_decide (f = escape frag encodeFragment) then "" else f |}).

(** [strings.HasSuffix(rest, "?") && strings.Count(rest, "?") == 1], and the rest
    without the query. *)
Definition split_query (rest : string) : bool * string * string :=
  match cut_at "?" rest with
  | Some (p, "") => (true, p, "")
  | Some (p, q) => (false, p, q)
  | None => (false, rest, "")
  end.

Definition set_authority (u : URL) (rest : string) : res URL :=
  match strip "//" rest with
  | Some authority =>
      if bool_decide (u_Scheme u = "") && HasPrefix rest "///" then setPath u rest
      else
        let '(authority, rest) := default (authority, "") (split_at "/" authority) in
        res_bind (parseAuthority authority) (λ '(user, host),
        setPath {| u with u_User := user; u_Host := host |} rest)
  | None =>
      setPath {| u with u_OmitHost := negb (bool_decide (u_Scheme u = "")) && HasPrefix rest "/" |}
        rest
  end.

(** [parse(rawURL, false)] *)
Definition parse (rawURL : string) : res URL :=
  if has_ctl rawURL then Err (ENew "net/url: invalid control character in URL")
  else if bool_decide (rawURL = "*") then Ok {| URL_zero with u_Path := "*" |}
  else
    res_bind (getScheme rawURL) (λ '(scheme, rest),
    let scheme := ToLower scheme in
    let '(forced, rest, query) := split_query rest in
    let u := {| URL_zero with u_Scheme := scheme; u_ForceQuery := forced;
                u_RawQuery := query |} in
    if HasPrefix rest "/" then set_authority u rest
    else if negb (bool_decide (scheme = "")) then Ok {| u with u_Opaque := rest |}
    else if Contains (fst (Cut "/" rest)) ":"
    then Err (ENew "first path segment in URL cannot contain colon")
    else set_authority u rest).

Definition url_error (input : string) (err : goerror) : goerror :=
  EWrap ("parse " +:+ quote input) err.

(** [url.Parse] *)
Definition Parse (rawURL : string) : res URL :=
  let '(u, frag) := Cut "#" rawURL in
  match parse u with
  | Err err => Err (url_error u err)
  | Ok url =>
      if bool_decide (frag = "") then Ok url
      else match setFragment url frag with
           | Err err => Err (url_error rawURL err)
           | Ok url => Ok url
           end
  end.

(** ** The parts of a URL *)

Definition splitHostPort (hostPort : string) : string * string :=
  let '(host, port) :=
    match cut_last ":" hostPort with
    | Some (h, p) => if validOptionalPort (String ":" p) then (h, p) else (hostPort, "")
    | None => (hostPort, "")
    end in
  (if HasPrefix host "[" && HasSuffix host "]"
   then String.substring 1 (String.length host - 2) host else host, port).

Definition Hostname (u : URL) : string := fst (splitHostPort (u_Host u)).
Definition Port (u : URL) : string := snd (splitHostPort (u_Host u)).

Definition validEncoded (s : string) (mode : encoding) : bool :=
  str_forall (λ c, one_of "!$&'()*+,;=:@[]%" c || negb (shouldEscape c mode)) s.

(** The raw form when it is a valid encoding of the decoded one. *)
Definition escaped_part (raw decoded : string) (mode : encoding) : option string :=
  if negb (bool_decide (raw = "")) && validEncoded raw mode then
    match unescape raw mode with
    | Ok p => if bool_decide (p = decoded) then Some raw else None
    | Err _ => None
    end
  else None.

Definition EscapedPath (u : URL) : string :=
  match escaped_part (u_RawPath u) (u_Path u) encodePath with
  | Some raw => raw
  | None => if bool_decide (u_Path u = "*") then "*" else escape (u_Path u) encodePath
  end.

Definition EscapedFragment (u : URL) : string :=
  match escaped_part (u_RawFragment u) (u_Fragment u) encodeFragment with
  | Some raw => raw
  | None => escape (u_Fragment u) encodeFragment
  end.

Definition userinfo_string (user : string * option string) : string :=
  match user with
  | (name, Some password) =>
      escape name encodeUserPassword +:+ ":" +:+ escape password encodeUserPassword
  | (name, None) => escape name encodeUserPassword
  end.

Definition is_empty (s : string) : bool := bool_decide (s = "").

(** The scheme and the authority. *)
Definition url_head (u : URL) : string :=
  (if is_empty (u_Scheme u) then "" else u_Scheme u +:+ ":") +:+
  if is_empty (u_Scheme u) && is_empty (u_Host u) && bool_decide (u_User u = None) then ""
  else if u_OmitHost u && is_empty (u_Host u) && bool_decide (u_User u = None) then ""
  else
    (if is_empty (u_Host u) && is_empty (u_Path u) && bool_decide (u_User u = None)
     then "" else "//") +:+
    match u_User u with Some user => userinfo_string user +:+ "@" | None => "" end +:+
    escape (u_Host u) encodeHost.

(** [URL.String] *)
Definition url_string (u : URL) : string :=
  (if negb (is_empty (u_Opaque u))
   then (if is_empty (u_Scheme u) then "" else u_Scheme u +:+ ":") +:+ u_Opaque u
   else
     let head := url_head u in
     let path := EscapedPath u in
     let slash := if negb (is_empty path) && negb (HasPrefix path "/") &&
                     negb (is_empty (u_Host u)) then "/" else "" in
     let dot := if is_empty (head +:+ slash) && Contains (fst (Cut "/" path)) ":"
                then "./" else "" in
     head +:+ slash +:+ dot +:+ path) +:+
  (if u_ForceQuery u || negb (is_empty (u_RawQuery u)) then "?" +:+ u_RawQuery u else "") +:+
  (if is_empty (u_Fragment u) then "" else "#" +:+ EscapedFragment u).

(** ** Addresses of plain characters

    The URLs the sources build are a scheme, a host name and perhaps a port: none of
    their characters is special in the authority. *)

Definition host_char (a : ascii) : bool := is_alnum a || one_of "-." a.
Definition plain_char (a : ascii) : bool := host_char a || one_of ":" a.

Section plain.
Context (P : ascii → bool).

Lemma cut_at_None sep s : str_forall P s = true → P sep = false → cut_at sep s = None.
Proof.
  intros Hs Hsep. induction s as [|a s IH]; simpl in *; [done|].
  apply andb_true_iff in Hs as [Ha Hs]. rewrite IH by done.
  rewrite bool_decide_false; [done|]. intros ->. congruence.
Qed.

Lemma cut_last_None sep s : str_forall P s = true → P sep = false → cut_last sep s = None.
Proof.
  intros Hs Hsep. induction s as [|a s IH]; simpl in *; [done|].
  apply andb_true_iff in Hs as [Ha Hs]. rewrite IH by done.
  rewrite bool_decide_false; [done|]. intros ->. congruence.
Qed.

Lemma cut_last_app sep p r :
  str_forall P r = true → P sep = false → cut_last sep (p +:+ String sep r) = Some (p, r).
Proof.
  intros Hr Hsep. induction p as [|a p IH]; simpl; [|by rewrite IH].
  by rewrite cut_last_None, bool_decide_true.
Qed.

Lemma HasPrefix_outside a s : str_forall P s = true → P a = false → HasPrefix s (String a "") = false.
Proof.
  intros Hs Ha. destruct s as [|b s]; [done|]. simpl in *. apply andb_true_iff in Hs as [Hb _].
  unfold HasPrefix. simpl. destruct (ascii_dec a b) as [->|]; [congruence|done].
Qed.

Lemma split_at_None a s : str_forall P s = true → P a = false → split_at (String a "") s = None.
Proof.
  intros Hs Ha. induction s as [|b s IH]; [done|]. cbn [split_at].
  rewrite HasPrefix_outside by done. simpl in Hs. apply andb_true_iff in Hs as [_ Hs].
  by rewrite IH.
Qed.

Lemma has_ctl_none s :
  (∀ a, P a = true → (32 <= N_of_ascii a < 127)%N) → str_forall P s = true → has_ctl s = false.
Proof.
  intros HP Hs. induction s as [|a s IH]; simpl in *; [done|].
  apply andb_true_iff in Hs as [Ha Hs]. rewrite IH by done. specialize (HP a Ha).
  rewrite !orb_false_iff. split; [|done]. split; [apply N.ltb_ge|apply N.eqb_neq]; lia.
Qed.

Lemma unescape_plain mode s :
  P "%"%char = false → (∀ a, P a = true → is_host_mode mode = true → shouldEscape a mode = false) →
  str_forall P s = true → unescape s mode = Ok s.
Proof.
  intros Hp HP Hs. unfold unescape. induction s as [|a s IH]; simpl in *; [done|].
  apply andb_true_iff in Hs as [Ha Hs]. rewrite IH by done.
  assert (is_host_mode mode && (N_of_ascii a <? 128)%N && shouldEscape a mode = false) as Hesc.
  { destruct (is_host_mode mode) eqn:Hm; [|done]. rewrite (HP a Ha eq_refl). by rewrite andb_false_r. }
  rewrite Hesc. destruct (ascii_dec a "%") as [->|Hne]; [congruence|].
  clear -Hne. destruct a as [[] [] [] [] [] [] [] []]; try done.
Qed.

Lemma escape_plain mode s :
  (∀ a, P a = true → shouldEscape a mode = false) → str_forall P s = true → escape s mode = s.
Proof.
  intros HP Hs. induction s as [|a s IH]; simpl in *; [done|].
  apply andb_true_iff in Hs as [Ha Hs]. by rewrite HP, IH.
Qed.
End plain.

(** Decide a property of all 256 bytes. *)
Definition all_bytes : list ascii := ascii_of_nat <$> seq 0 256.

Lemma all_bytes_spec (P : ascii → bool) : forallb P all_bytes = true → ∀ a, P a = true.
Proof.
  intros Hall a. rewrite forallb_forall in Hall. apply Hall, list_elem_of_In.
  apply list_elem_of_fmap. exists (nat_of_ascii a). rewrite ascii_nat_embedding.
  split; [done|]. apply elem_of_seq. pose proof (nat_ascii_bounded a). lia.
Qed.

Lemma plain_char_range a : plain_char a = true → (32 <= N_of_ascii a < 127)%N.
Proof.
  pose proof (all_bytes_spec (λ a, negb (plain_char a) || ((32 <=? N_of_ascii a)%N &&
    (N_of_ascii a <? 127)%N)) eq_refl a) as Ha. simpl in Ha.
  destruct (plain_char a); [|done]. cbn [negb orb] in Ha.
  by apply andb_true_iff in Ha as [?%N.leb_le ?%N.ltb_lt].
Qed.

Lemma plain_char_host a : plain_char a = true → shouldEscape a encodeHost = false.
Proof.
  pose proof (all_bytes_spec (λ a, negb (plain_char a) || negb (shouldEscape a encodeHost))
    eq_refl a) as Ha. simpl in Ha. destruct (plain_char a); [|done]. simpl in Ha.
  intros _. by apply negb_true_iff.
Qed.

Lemma plain_host h : str_forall host_char h = true → str_forall plain_char h = true.
Proof. apply str_forall_impl. intros a Ha. unfold plain_char. by rewrite Ha. Qed.

Lemma plain_digits s : str_forall is_digit s = true → str_forall host_char s = true.
Proof.
  apply str_forall_impl. intros a Ha. unfold host_char, is_alnum.
  by rewrite Ha, orb_true_r.
Qed.

(** A port suffix: nothing, or a colon and digits. *)
Definition port_suffix (port : string) : string := if is_empty port then "" else ":" +:+ port.

Lemma plain_authority host port :
  str_forall host_char host = true → str_forall is_digit port = true →
  str_forall plain_char (host +:+ port_suffix port) = true.
Proof.
  intros Hh Hp. rewrite str_forall_app, plain_host by done. unfold port_suffix, is_empty.
  case_bool_decide; [done|]. simpl. by rewrite plain_host by by apply plain_digits.
Qed.

Lemma cut_port host port :
  str_forall host_char host = true → str_forall is_digit port = true →
  cut_last ":" (host +:+ port_suffix port) = if is_empty port then None else Some (host, port).
Proof.
  intros Hh Hp. unfold port_suffix. destruct (is_empty port).
  - rewrite string_app_nil_r. by apply (cut_last_None host_char).
  - apply (cut_last_app is_digit); done.
Qed.

Lemma parseHost_plain host port :
  str_forall host_char host = true → str_forall is_digit port = true →
  parseHost (host +:+ port_suffix port) = Ok (host +:+ port_suffix port).
Proof.
  intros Hh Hp. pose proof (plain_authority _ _ Hh Hp) as Hpl. unfold parseHost.
  rewrite (HasPrefix_outside plain_char) by done. rewrite cut_port by done.
  rewrite (unescape_plain plain_char) by eauto using plain_char_host.
  destruct (is_empty port); [done|]. unfold validOptionalPort. by rewrite Hp.
Qed.

(** The URL of a scheme and an authority. *)
Definition plain_url (scheme authority : string) : URL :=
  {| URL_zero with u_Scheme := scheme; u_Host := authority |}.

Definition http_scheme (scheme : string) : Prop := scheme = "http" ∨ scheme = "https".

(** Only the authority decides. *)
Lemma Parse_authority scheme auth :
  http_scheme scheme → str_forall plain_char auth = true →
  Parse (scheme +:+ "://" +:+ auth) =
  match parseHost auth with
  | Ok host => Ok (plain_url scheme host)
  | Err err => Err (url_error (scheme +:+ "://" +:+ auth) err)
  end.
Proof.
  intros Hs Hpl. set (Q := λ a, plain_char a || one_of "/" a).
  assert (str_forall Q auth = true) as HQ.
  { eapply str_forall_impl; [|exact Hpl]. intros a Ha. unfold Q. by rewrite Ha. }
  assert (str_forall Q (scheme +:+ "://" +:+ auth) = true) as HQs.
  { rewrite !str_forall_app. rewrite HQ, !andb_true_r. by destruct Hs as [-> | ->]. }
  assert (split_query ("//" +:+ auth) = (false, "//" +:+ auth, "")) as Hq.
  { unfold split_query. by rewrite (cut_at_None Q). }
  unfold Parse, Cut. rewrite (cut_at_None Q) by done. unfold parse.
  rewrite (has_ctl_none Q); [|intros a Ha|done].
  2:{ unfold Q in Ha. apply orb_true_iff in Ha as [Ha|Ha]; [by apply plain_char_range|].
      unfold one_of in Ha. apply bool_decide_eq_true, list_elem_of_singleton in Ha as ->. done. }
  rewrite bool_decide_false by by destruct Hs as [-> | ->].
  assert (getScheme (scheme +:+ "://" +:+ auth) = Ok (scheme, "//" +:+ auth)) as ->
    by by destruct Hs as [-> | ->].
  assert (ToLower scheme = scheme) as Hl by by destruct Hs as [-> | ->].
  cbn [res_bind]. rewrite Hq, Hl. cbn iota beta.
  assert (HasPrefix ("//" +:+ auth) "/" = true) as -> by done.
  unfold set_authority. rewrite strip_app.
  rewrite bool_decide_false by by destruct Hs as [-> | ->]. cbn [andb].
  rewrite (split_at_None plain_char) by done. cbn [default from_option].
  unfold parseAuthority. rewrite (cut_last_None plain_char) by done. by destruct (parseHost auth).
Qed.

Lemma Parse_plain scheme host port :
  http_scheme scheme → str_forall host_char host = true → str_forall is_digit port = true →
  Parse (scheme +:+ "://" +:+ host +:+ port_suffix port) =
  Ok (plain_url scheme (host +:+ port_suffix port)).
Proof.
  intros Hs Hh Hp. by rewrite Parse_authority, parseHost_plain by (done || apply (plain_authority _ _ Hh Hp)).
Qed.

(** What follows the colon is not a port. *)
Lemma Parse_bad_port scheme host tail :
  http_scheme scheme → str_forall host_char host = true → str_forall host_char tail = true →
  str_forall is_digit tail = false →
  Parse (scheme +:+ "://" +:+ host +:+ ":" +:+ tail) =
  Err (url_error (scheme +:+ "://" +:+ host +:+ ":" +:+ tail) (bad_port (":" +:+ tail))).
Proof.
  intros Hs Hh Ht Hd.
  assert (str_forall plain_char (host +:+ ":" +:+ tail) = true) as Hpl.
  { rewrite !str_forall_app. rewrite (plain_host host), (plain_host tail) by done. reflexivity. }
  rewrite Parse_authority by done. unfold parseHost.
  rewrite (HasPrefix_outside plain_char) by done.
  assert (cut_last ":" (host +:+ ":" +:+ tail) = Some (host, tail)) as ->
    by by apply (cut_last_app host_char).
  unfold validOptionalPort. by rewrite Hd, andb_false_r.
Qed.

Lemma splitHostPort_plain host port :
  str_forall host_char host = true → str_forall is_digit port = true →
  splitHostPort (host +:+ port_suffix port) = (host, port).
Proof.
  intros Hh Hp. unfold splitHostPort. rewrite cut_port by done.
  assert (HasPrefix host "[" = false) as Hb by by apply (HasPrefix_outside host_char).
  unfold port_suffix, is_empty. case_bool_decide as Hport.
  - rewrite string_app_nil_r, Hb. by subst.
  - unfold validOptionalPort. rewrite bool_decide_true, Hp by done. cbn [andb]. by rewrite Hb.
Qed.

Lemma splitHostPort_bad host tail :
  str_forall host_char host = true → str_forall host_char tail = true →
  str_forall is_digit tail = false →
  snd (splitHostPort (host +:+ ":" +:+ tail)) = "".
Proof.
  intros Hh Ht Hd. unfold splitHostPort.
  assert (cut_last ":" (host +:+ ":" +:+ tail) = Some (host, tail)) as ->
    by by apply (cut_last_app host_char).
  unfold validOptionalPort. by rewrite Hd, andb_false_r.
Qed.

(** Printing it gives the text back. *)
Lemma url_string_authority scheme auth :
  http_scheme scheme → auth ≠ "" → str_forall plain_char auth = true →
  url_string (plain_url scheme auth) = scheme +:+ "://" +:+ auth.
Proof.
  intros Hs Hne Hpl. unfold url_string, url_head, plain_url. cbn [u_Scheme u_Opaque u_Host
    u_User u_Path u_RawPath u_OmitHost u_ForceQuery u_RawQuery u_Fragment URL_zero].
  assert (is_empty auth = false) as -> by by apply bool_decide_eq_false.
  rewrite (escape_plain plain_char) by eauto using plain_char_host.
  destruct Hs as [-> | ->]; simpl; by rewrite !string_app_nil_r.
Qed.

Lemma url_string_plain scheme host port :
  http_scheme scheme → host ≠ "" → str_forall host_char host = true →
  str_forall is_digit port = true →
  url_string (plain_url scheme (host +:+ port_suffix port)) =
  scheme +:+ "://" +:+ host +:+ port_suffix port.
Proof.
  intros Hs Hne Hh Hp. apply url_string_authority; [done|by destruct host|].
  by apply plain_authority.
Qed.
