(* ===== verification/ConfigCache.v ===== *)
(** * ConfigCache: [internal/config/cache.go]

    The time-limited cache of the orchestrator configuration, whose operations run
    under its mutex and are therefore atomic here.  Durations and times are in
    nanoseconds. *)
From S2P Require Import Prelude GoStrings Json K8s Api Client Sort Selection Validation.

(** [time.Since(t)] at time [now]: a duration saturates. *)
Definition Since (now t : Time) : Z := Z.max (- 2 ^ 63) (Z.min (2 ^ 63 - 1) (now - t)).

(** ** Deep copies

    [len(x) > 0] only decides between a nil and an empty slice, which the lists do
    not tell apart. *)

Definition deepCopyTemplate (original : TemplateSpec) : TemplateSpec :=
  {| ts_Kind := ts_Kind original; ts_Ref := ts_Ref original; ts_Values := ts_Values original |}.

Definition copy_expression (expr : LabelSelectorRequirement) : LabelSelectorRequirement :=
  {| lsr_Key := lsr_Key expr; lsr_Operator := lsr_Operator expr; lsr_Values := lsr_Values expr |}.

Fixpoint deepCopyConstraints (original : ConstraintsSpec) : ConstraintsSpec :=
  {| cns_Selectors := map deepCopySelector (cns_Selectors original);
     cns_Features := cns_Features original;
     cns_Regions := cns_Regions original;
     cns_Resources :=
       match cns_Resources original with
       | Some r => Some {| rcn_CPU := rcn_CPU r; rcn_Memory := rcn_Memory r;
                           rcn_Storage := rcn_Storage r |}
       | None => None
       end |}
with deepCopySelector (original : SelectorSpec) : SelectorSpec :=
  {| sel_MatchLabels := sel_MatchLabels original;
     sel_MatchExpressions := map copy_expression (sel_MatchExpressions original);
     sel_Profile := sel_Profile original;
     sel_Constraints :=
       match sel_Constraints original with
       | Some c => Some (deepCopyConstraints c)
       | None => None
       end |}.

Definition deepCopyBackend (original : BackendSpec) : BackendSpec :=
  {| be_BackendId := be_BackendId original; be_RuntimeClass := be_RuntimeClass original;
     be_Template := deepCopyTemplate (be_Template original);
     be_Priority := be_Priority original; be_Version := be_Version original;
     be_Constraints := deepCopyConstraints <$> be_Constraints original |}.

Definition deepCopyProfile (original : ProfileSpec) : ProfileSpec :=
  {| pr_Name := pr_Name original; pr_Description := pr_Description original;
     pr_Backends := deepCopyBackend <$> pr_Backends original |}.

Definition deepCopyClass (original : ClassSpec) : ClassSpec :=
  {| cls_Name := cls_Name original; cls_Description := cls_Description original;
     cls_Parameters := cls_Parameters original;
     cls_Constraints := deepCopyConstraints <$> cls_Constraints original |}.

Definition deepCopyProvisioner (original : ProvisionerSpec) : ProvisionerSpec :=
  {| pv_Type := pv_Type original; pv_Provisioner := pv_Provisioner original;
     pv_Classes := deepCopyClass <$> pv_Classes original;
     pv_Defaults :=
       (λ d, {| pd_Class := pd_Class d; pd_Params := pd_Params d |}) <$> pv_Defaults original |}.

Definition deepCopyDefaults (original : DefaultsSpec) : DefaultsSpec :=
  {| ds_Profile := ds_Profile original;
     ds_Selectors := deepCopySelector <$> ds_Selectors original |}.

(** The [Reconciler] section is not among the copied fields. *)
Definition deepCopyConfig (original : OrchestratorConfig) : OrchestratorConfig :=
  {| oc_APIVersion := oc_APIVersion original;
     oc_Kind := oc_Kind original;
     oc_Metadata := oc_Metadata original;
     oc_Spec :=
       {| ocs_Profiles := deepCopyProfile <$> ocs_Profiles (oc_Spec original);
          ocs_Provisioners := deepCopyProvisioner <$> ocs_Provisioners (oc_Spec original);
          ocs_Defaults := deepCopyDefaults (ocs_Defaults (oc_Spec original)) |};
     oc_Reconciler := None |}.

(** ** The cache *)

Record configCache := {
  cc_config : option OrchestratorConfig;
  cc_cachedAt : Time;
  cc_ttl : Z;
}.

Definition newConfigCache (ttl : Z) : configCache :=
  {| cc_config := None; cc_cachedAt := 0; cc_ttl := ttl |}.

Definition cache_get (now : Time) (c : configCache) : option OrchestratorConfig :=
  match cc_config c with
  | None => None
  | Some config =>
      if (cc_ttl c <? Since now (cc_cachedAt c))%Z then None else Some (deepCopyConfig config)
  end.

Definition cache_set (now : Time) (config : OrchestratorConfig) (c : configCache) : configCache :=
  {| cc_config := Some (deepCopyConfig config); cc_cachedAt := now; cc_ttl := cc_ttl c |}.

Definition cache_invalidate (c : configCache) : configCache :=
  {| cc_config := None; cc_cachedAt := 0; cc_ttl := cc_ttl c |}.

Definition cache_isValid (now : Time) (c : configCache) : bool :=
  match cc_config c with
  | None => false
  | Some _ => (Since now (cc_cachedAt c) <=? cc_ttl c)%Z
  end.

(** ** Theorems on the cache *)

Lemma map_id_on {A} (f : A → A) (l : list A) : (∀ x, x ∈ l → f x = x) → f <$> l = l.
Proof. intros Hf. induction l; simpl; f_equal; [apply Hf | apply IHl; intros]; set_solver. Qed.

Lemma copy_expressions_id l : map copy_expression l = l.
Proof. induction l as [|[] l IH]; simpl; [done|]. by rewrite IH. Qed.

Fixpoint deepCopyConstraints_id (c : ConstraintsSpec) : deepCopyConstraints c = c
with deepCopySelector_id (s : SelectorSpec) : deepCopySelector s = s.
Proof.
  - destruct c as [selectors features regions resources]. cbn. f_equal.
    + induction selectors as [|s l IH]; [done|]. cbn. f_equal; [apply deepCopySelector_id|done].
    + by destruct resources as [[]|].
  - destruct s as [labels exprs profile [c|]]; cbn; rewrite copy_expressions_id; [|done].
    by rewrite deepCopyConstraints_id.
Qed.

Lemma deepCopyOpt_id (o : option ConstraintsSpec) : deepCopyConstraints <$> o = o.
Proof. destruct o; simpl; [|done]. by rewrite deepCopyConstraints_id. Qed.

Lemma deepCopyProfile_id p : deepCopyProfile p = p.
Proof.
  destruct p as [n d bs]. unfold deepCopyProfile. simpl. f_equal. apply map_id_on.
  intros [? ? [] ? ? ?] _. unfold deepCopyBackend. simpl. by rewrite deepCopyOpt_id.
Qed.

Lemma deepCopyProvisioner_id p : deepCopyProvisioner p = p.
Proof.
  destruct p as [t p cs d]. unfold deepCopyProvisioner. simpl. f_equal.
  - apply map_id_on. intros [] _. unfold deepCopyClass. simpl. by rewrite deepCopyOpt_id.
  - by destruct d as [[]|].
Qed.

Lemma deepCopyConfig_id config : deepCopyConfig config = {| config with oc_Reconciler := None |}.
Proof.
  destruct config as [v k m [ps pvs [dp dss]] r]. unfold deepCopyConfig, deepCopyDefaults. simpl.
  rewrite !map_id_on; [done|..]; intros; auto using deepCopySelector_id, deepCopyProfile_id,
    deepCopyProvisioner_id.
Qed.

(** The cache returns what was stored last, for exactly its time to live: after
    [cache_set] at time t0 a read at time t returns the stored configuration while
    t - t0 is at most the limit and nothing afterwards, and nothing after
    [cache_invalidate].  The stored and returned copies are complete except for
    the Reconciler section, which is lost; [cache_isValid] agrees with the read. *)
Theorem cache_correct c config t0 t :
  (- 2 ^ 63 <= t - t0 < 2 ^ 63)%Z →
  cache_get t (cache_set t0 config c) =
    (if decide (t - t0 <= cc_ttl c)%Z then Some {| config with oc_Reconciler := None |} else None) ∧
  cache_get t (cache_invalidate c) = None ∧
  (∀ c', cache_isValid t c' = true ↔ is_Some (cache_get t c')).
Proof.
  intros Ht. split_and!; [| done |].
  - unfold cache_get, cache_set, Since. simpl. rewrite !deepCopyConfig_id.
    case_decide; destruct (Z.ltb_spec (cc_ttl c) (Z.max (- 2 ^ 63) (Z.min (2 ^ 63 - 1) (t - t0))));
      try done; lia.
  - intros c'. unfold cache_isValid, cache_get. destruct (cc_config c') as [cfg|].
    + rewrite Z.leb_le. case_match eqn:Hlt; [apply Z.ltb_lt in Hlt|apply Z.ltb_ge in Hlt].
      * split; [lia|]. by intros [].
      * split; [eauto|done].
    + split; [done|]. by intros [].
Qed.

Lemma cache_correct_witness :
  let c := newConfigCache (300 * Second) in
  let cfg := {| ValidationDemo.config with oc_Reconciler := Some RawEmpty |} in
  oc_Reconciler <$> cache_get (250 * Second) (cache_set 0 cfg c) = Some None ∧
  cache_get (301 * Second) (cache_set 0 cfg c) = None.
Proof.
  intros c cfg. split.
  - rewrite (proj1 (cache_correct c cfg 0 (250 * Second) ltac:(unfold Second; lia))). reflexivity.
  - rewrite (proj1 (cache_correct c cfg 0 (301 * Second) ltac:(unfold Second; lia))). reflexivity.
Defined.
