(* ===== verification/ReconcilerConfig.v ===== *)
(** * ReconcilerConfig: [internal/config/reconciler_config.go]

    The settings of the reconciler and their correction.  Durations are [int64]
    nanoseconds; a [float64] is one of the special values or a rational. *)
From Stdlib Require Import QArith.
From S2P Require Import Prelude K8s Client.
Open Scope nat_scope.

Inductive float64 := Finite (q : Q) | PosInf | NegInf | NaN.

(** [a <= b] on floats, false when one is not a number. *)
Definition float_leb (a b : float64) : bool :=
  match a, b with
  | NaN, _ | _, NaN => false
  | NegInf, _ | _, PosInf => true
  | _, NegInf | PosInf, _ => false
  | Finite p, Finite q => Qle_bool p q
  end.

Record RetryConfig := {
  rt_DefaultRequeueDelay : Z;
  rt_ConflictRequeueDelay : Z;
  rt_MaxRetries : Z;
  rt_BackoffMultiplier : float64;
}.

Record TimeoutConfig := {
  to_ClaimTimeout : Z;
  to_PlanTimeout : Z;
  to_StatusTimeout : Z;
  to_DeletionTimeout : Z;
}.

Record FeatureConfig := {
  ft_EnableDetailedLogging : bool;
  ft_EnableMetrics : bool;
  ft_EnableTracing : bool;
  ft_EnableExperimentalFeatures : bool;
}.

Record ReconcilerConfig := {
  rcf_Retry : RetryConfig;
  rcf_Timeouts : TimeoutConfig;
  rcf_Features : FeatureConfig;
}.

Definition DefaultReconcilerConfig : ReconcilerConfig :=
  {| rcf_Retry :=
       {| rt_DefaultRequeueDelay := 30 * Second; rt_ConflictRequeueDelay := 1 * Second;
          rt_MaxRetries := 3; rt_BackoffMultiplier := Finite (2 # 1) |};
     rcf_Timeouts :=
       {| to_ClaimTimeout := 5 * Minute; to_PlanTimeout := 3 * Minute;
          to_StatusTimeout := 30 * Second; to_DeletionTimeout := 10 * Minute |};
     rcf_Features :=
       {| ft_EnableDetailedLogging := false; ft_EnableMetrics := true;
          ft_EnableTracing := false; ft_EnableExperimentalFeatures := false |} |}.

(** [Validate] corrects the receiver in place and always returns nil. *)
Definition Validate (c : ReconcilerConfig) : ReconcilerConfig :=
  let r := rcf_Retry c in let t := rcf_Timeouts c in
  {| rcf_Retry :=
       {| rt_DefaultRequeueDelay :=
            if (rt_DefaultRequeueDelay r <=? 0)%Z then 30 * Second else rt_DefaultRequeueDelay r;
          rt_ConflictRequeueDelay :=
            if (rt_ConflictRequeueDelay r <=? 0)%Z then 1 * Second else rt_ConflictRequeueDelay r;
          rt_MaxRetries := if (rt_MaxRetries r <? 0)%Z then 3 else rt_MaxRetries r;
          rt_BackoffMultiplier :=
            if float_leb (rt_BackoffMultiplier r) (Finite (1 # 1)) then Finite (2 # 1)
            else rt_BackoffMultiplier r |};
     rcf_Timeouts :=
       {| to_ClaimTimeout := if (to_ClaimTimeout t <=? 0)%Z then 5 * Minute else to_ClaimTimeout t;
          to_PlanTimeout := if (to_PlanTimeout t <=? 0)%Z then 3 * Minute else to_PlanTimeout t;
          to_StatusTimeout :=
            if (to_StatusTimeout t <=? 0)%Z then 30 * Second else to_StatusTimeout t;
          to_DeletionTimeout :=
            if (to_DeletionTimeout t <=? 0)%Z then 10 * Minute else to_DeletionTimeout t |};
     rcf_Features := rcf_Features c |}.

(** Every wait is positive and the backoff does not shrink. *)
Definition usable (c : ReconcilerConfig) : Prop :=
  (0 < rt_DefaultRequeueDelay (rcf_Retry c))%Z ∧ (0 < rt_ConflictRequeueDelay (rcf_Retry c))%Z ∧
  (0 <= rt_MaxRetries (rcf_Retry c))%Z ∧
  float_leb (rt_BackoffMultiplier (rcf_Retry c)) (Finite (1 # 1)) = false ∧
  (0 < to_ClaimTimeout (rcf_Timeouts c))%Z ∧ (0 < to_PlanTimeout (rcf_Timeouts c))%Z ∧
  (0 < to_StatusTimeout (rcf_Timeouts c))%Z ∧ (0 < to_DeletionTimeout (rcf_Timeouts c))%Z.

Lemma usable_Validate c : usable (Validate c).
Proof.
  destruct c as [[? ? ? m] [] ?]. unfold usable, Validate, Minute, Second. simpl.
  split_and!; try (case_match; lia).
  by destruct (float_leb m (Finite (1 # 1))) eqn:Hm.
Qed.

Lemma Validate_id c : usable c → Validate c = c.
Proof.
  destruct c as [[] [] ?]. unfold usable, Validate. simpl. intros (? & ? & ? & -> & ? & ? & ? & ?).
  do 2 f_equal; case_match; lia.
Qed.

Lemma usable_default : usable DefaultReconcilerConfig.
Proof. by vm_compute. Qed.

(** [after] is the default where [before] was bad, and [before] otherwise. *)
Definition repaired {A} (bad : A → Prop) (default before after : A) : Prop :=
  (bad before → after = default) ∧ (¬ bad before → after = before).

Lemma repaired_if {A} (bad : A → Prop) (test : A → bool) (default before : A) :
  (test before = true ↔ bad before) →
  repaired bad default before (if test before then default else before).
Proof. unfold repaired. destruct (test before); naive_solver. Qed.

(** A multiplier at most one; one that is not a number passes. *)
Definition not_growing (m : float64) : Prop :=
  m = NegInf ∨ ∃ q, m = Finite q ∧ (q <= 1)%Q.

Lemma float_leb_one m : float_leb m (Finite (1 # 1)) = true ↔ not_growing m.
Proof.
  unfold not_growing. destruct m as [q| | |]; simpl; [rewrite Qle_bool_iff|..]; naive_solver.
Qed.

(** C34: The correction looks at each setting on its own.  A delay or a timeout that is not
    positive, a negative number of retries, or a multiplier at most one is replaced by its
    default (30s, 1s, 3 and 2; 5m, 3m, 30s and 10m; durations in nanoseconds); every other
    setting, and the feature flags, are kept.  So the result is usable, a usable
    configuration is left as it is, and a second correction has no effect. *)
Theorem Validate_usable c :
  let r := rcf_Retry c in let r' := rcf_Retry (Validate c) in
  let t := rcf_Timeouts c in let t' := rcf_Timeouts (Validate c) in
  repaired (λ z, (z <= 0)%Z) 30000000000%Z (rt_DefaultRequeueDelay r) (rt_DefaultRequeueDelay r') ∧
  repaired (λ z, (z <= 0)%Z) 1000000000%Z (rt_ConflictRequeueDelay r) (rt_ConflictRequeueDelay r') ∧
  repaired (λ z, (z < 0)%Z) 3%Z (rt_MaxRetries r) (rt_MaxRetries r') ∧
  repaired not_growing (Finite 2) (rt_BackoffMultiplier r) (rt_BackoffMultiplier r') ∧
  repaired (λ z, (z <= 0)%Z) 300000000000%Z (to_ClaimTimeout t) (to_ClaimTimeout t') ∧
  repaired (λ z, (z <= 0)%Z) 180000000000%Z (to_PlanTimeout t) (to_PlanTimeout t') ∧
  repaired (λ z, (z <= 0)%Z) 30000000000%Z (to_StatusTimeout t) (to_StatusTimeout t') ∧
  repaired (λ z, (z <= 0)%Z) 600000000000%Z (to_DeletionTimeout t) (to_DeletionTimeout t') ∧
  rcf_Features (Validate c) = rcf_Features c ∧
  usable (Validate c) ∧ (usable c ↔ Validate c = c) ∧ Validate (Validate c) = Validate c.
Proof.
  cbv zeta. unfold Validate at 1 2 3 4 5 6 7 8. cbn [rcf_Retry rcf_Timeouts rt_DefaultRequeueDelay
    rt_ConflictRequeueDelay rt_MaxRetries rt_BackoffMultiplier to_ClaimTimeout to_PlanTimeout
    to_StatusTimeout to_DeletionTimeout].
  do 2 (split; [apply (repaired_if _ (λ z, (z <=? 0)%Z)), Z.leb_le|]).
  split; [apply (repaired_if _ (λ z, (z <? 0)%Z)), Z.ltb_lt|].
  split; [apply (repaired_if _ (λ m, float_leb m (Finite (1 # 1)))), float_leb_one|].
  do 4 (split; [apply (repaired_if _ (λ z, (z <=? 0)%Z)), Z.leb_le|]).
  split; [done|]. split; [apply usable_Validate|].
  split; [|apply Validate_id, usable_Validate].
  split; [apply Validate_id|]. intros <-. apply usable_Validate.
Qed.
