(* ===== verification/ConfigLoader.v ===== *)
(** * ConfigLoader: [internal/config/{configmap,reconciler_loader,loader}.go]

    The loader that reads the orchestrator configuration from a ConfigMap, with its
    cache and its watchers, and the loader of the reconciler settings built on it.
    The YAML library and the printing of an error list are parameters, as is
    [time.ParseDuration].  The operations that take the watch mutex are atomic. *)
From S2P Require Import Prelude GoStrings Json K8s Api Client Sort Selection Validation.
From S2P Require Import ConfigCache.
From S2P Require ReconcilerConfig.

Definition ErrConfigNotFound := "orchestrator configuration not found".
Definition ErrConfigInvalid := "orchestrator configuration is invalid".
Definition ErrConfigMalformed := "orchestrator configuration is malformed".

Inductive ConfigEventType :=
| ConfigEventAdded | ConfigEventModified | ConfigEventDeleted | ConfigEventError.

#[export] Instance ConfigEventType_eq_dec : EqDecision ConfigEventType.
Proof. solve_decision. Defined.

Record ConfigEvent := {
  ce_Type : ConfigEventType;
  ce_Config : option OrchestratorConfig;
  ce_Error : option goerror;
}.

Record LoaderOptions := {
  lo_Namespace : string;
  lo_ConfigMapName : string;
  lo_ConfigMapKey : string;
  lo_EnableCache : bool;
  lo_CacheTTL : string;
}.

Definition DefaultLoaderOptions : LoaderOptions :=
  {| lo_Namespace := "score-system"; lo_ConfigMapName := "orchestrator-config";
     lo_ConfigMapKey := "config.yaml"; lo_EnableCache := true; lo_CacheTTL := "5m" |}.

(** A buffered channel of capacity 10. *)
Record Channel := {
  ch_buffer : list ConfigEvent;
  ch_closed : bool;
}.

(** [cml_channels] are the channels made so far, [cml_watchers] refers to them by
    position, [cml_cleanups] are the goroutines that wait for a watcher's context,
    and [cml_running] says whether the informer is delivering events. *)
Record ConfigMapLoader := {
  cml_options : LoaderOptions;
  cml_cache : option configCache;
  cml_watchers : gmap string nat;
  cml_channels : list Channel;
  cml_cleanups : list (string * nat);
  cml_informer : bool;
  cml_running : bool;
}.

Class ConfigYAML := {
  UnmarshalConfig : string → res OrchestratorConfig;
  ParseDuration : string → option Z;
  AggregateError : list FieldError → string;
}.

Section loader.
Context `{!DNS1123} `{!ConfigYAML}.

Definition or_default (s default : string) : string := if bool_decide (s = "") then default else s.

Definition NewConfigMapLoader (options : LoaderOptions) : ConfigMapLoader :=
  {| cml_options :=
       {| lo_Namespace := or_default (lo_Namespace options) "score-system";
          lo_ConfigMapName := or_default (lo_ConfigMapName options) "orchestrator-config";
          lo_ConfigMapKey := or_default (lo_ConfigMapKey options) "config.yaml";
          lo_EnableCache := lo_EnableCache options; lo_CacheTTL := lo_CacheTTL options |};
     cml_cache :=
       if lo_EnableCache options
       then Some (newConfigCache (default (5 * Minute)%Z (ParseDuration (lo_CacheTTL options))))
       else None;
     cml_watchers := ∅; cml_channels := []; cml_cleanups := [];
     cml_informer := false; cml_running := false |}.

Definition parseConfig (yamlContent : string) : res OrchestratorConfig :=
  res_wrap "failed to unmarshal YAML" (UnmarshalConfig yamlContent).

Definition with_cache (l : ConfigMapLoader) (c : option configCache) : ConfigMapLoader :=
  {| l with cml_cache := c |}.

(** [client.CoreV1().ConfigMaps(ns).Get] through the same interface as the other
    objects. *)
Definition LoadConfig (l : ConfigMapLoader) : prog (ConfigMapLoader * res OrchestratorConfig) :=
  let o := cml_options l in
  let where_ := lo_Namespace o +:+ "/" +:+ lo_ConfigMapName o in
  let load : prog (ConfigMapLoader * res OrchestratorConfig) :=
    r ← ask (Get KConfigMap (lo_Namespace o, lo_ConfigMapName o));
    match (r : res ConfigMap) with
    | Err err =>
        if IsNotFound err
        then mret (l, Err (EWrapFirst (ENew ErrConfigNotFound)
                             ("ConfigMap " +:+ where_ +:+ " not found")))
        else mret (l, Err (EWrap ("failed to get ConfigMap " +:+ where_) err))
    | Ok configMap =>
        match cm_Data configMap !! lo_ConfigMapKey o with
        | None => mret (l, Err (EWrapFirst (ENew ErrConfigMalformed)
            ("key " +:+ lo_ConfigMapKey o +:+ " not found in ConfigMap " +:+ where_)))
        | Some yamlContent =>
            match parseConfig yamlContent with
            | Err err => mret (l, Err (EWrapFirst (ENew ErrConfigMalformed) (Error err)))
            | Ok config =>
                match Validate config with
                | Some errs =>
                    mret (l, Err (EWrapFirst (ENew ErrConfigInvalid) (AggregateError errs)))
                | None =>
                    match cml_cache l with
                    | None => mret (l, Ok config)
                    | Some c =>
                        now ← ask Now;
                        mret (with_cache l (Some (cache_set now config c)), Ok config)
                    end
                end
            end
        end
    end in
  match cml_cache l with
  | None => load
  | Some c =>
      now ← ask Now;
      match cache_get now c with
      | Some config => mret (l, Ok config)
      | None => load
      end
  end.

(** ** Watchers

    An operation returns [None] when it panics: sending on a closed channel or
    closing a channel twice. *)

Definition chan_open (l : ConfigMapLoader) (ch : nat) : bool :=
  match cml_channels l !! ch with Some c => negb (ch_closed c) | None => false end.

Definition send (event : ConfigEvent) (c : Channel) : Channel :=
  if length (ch_buffer c) <? 10
  then {| ch_buffer := ch_buffer c ++ [event]; ch_closed := ch_closed c |} else c.

Definition close_chan (c : Channel) : Channel :=
  {| ch_buffer := ch_buffer c; ch_closed := true |}.

Definition registered_open (l : ConfigMapLoader) : bool :=
  forallb (λ '(_, ch), chan_open l ch) (map_to_list (cml_watchers l)).

Definition broadcastEvent (event : ConfigEvent) (l : ConfigMapLoader) : option ConfigMapLoader :=
  if registered_open l
  then Some {| l with cml_channels :=
         map_fold (λ _ ch, alter (send event) ch) (cml_channels l) (cml_watchers l) |}
  else None.

(** [Watch] with the identifier it draws; [started] says whether [startInformer],
    which is called when there is no informer yet, succeeds.  It sets the informer
    before it can fail, and the new watcher stays registered. *)
Definition Watch (id : string) (started : bool) (l : ConfigMapLoader) :
    ConfigMapLoader * res nat :=
  let ch := length (cml_channels l) in
  let l := {| l with
    cml_channels := cml_channels l ++ [{| ch_buffer := []; ch_closed := false |}];
    cml_watchers := <[id := ch]> (cml_watchers l) |} in
  if cml_informer l
  then ({| l with cml_cleanups := (id, ch) :: cml_cleanups l |}, Ok ch)
  else if started
  then ({| l with cml_informer := true; cml_running := true;
                  cml_cleanups := (id, ch) :: cml_cleanups l |}, Ok ch)
  else ({| l with cml_informer := true;
                  cml_channels := alter close_chan ch (cml_channels l) |},
        Err (EWrap "failed to start configuration watcher"
               (ENew "failed to add event handler"))).

(** The goroutine of a watcher, once its context is done. *)
Definition cleanup (id : string) (ch : nat) (l : ConfigMapLoader) : option ConfigMapLoader :=
  if chan_open l ch
  then Some {| l with cml_watchers := delete id (cml_watchers l);
                      cml_channels := alter close_chan ch (cml_channels l);
                      cml_cleanups := filter (λ w, w ≠ (id, ch)) (cml_cleanups l) |}
  else None.

Definition Close (l : ConfigMapLoader) : option ConfigMapLoader :=
  if registered_open l
  then Some {| l with
         cml_channels := map_fold (λ _ ch, alter close_chan ch) (cml_channels l) (cml_watchers l);
         cml_watchers := ∅; cml_running := false |}
  else None.

Definition error_event (e : goerror) : ConfigEvent :=
  {| ce_Type := ConfigEventError; ce_Config := None; ce_Error := Some e |}.

Definition config_event (t : ConfigEventType) (c : option OrchestratorConfig) : ConfigEvent :=
  {| ce_Type := t; ce_Config := c; ce_Error := None |}.

(** What the handler does to the cache and what it broadcasts.  [obj] is [None] when
    the object is not a ConfigMap. *)
Definition event_effect (now : Time) (eventType : ConfigEventType) (obj : option ConfigMap)
    (l : ConfigMapLoader) : option configCache * ConfigEvent :=
  match obj with
  | None => (cml_cache l, error_event (ENew "unexpected object type"))
  | Some configMap =>
      if bool_decide (eventType = ConfigEventDeleted)
      then (cache_invalidate <$> cml_cache l, config_event eventType None)
      else match cm_Data configMap !! lo_ConfigMapKey (cml_options l) with
           | None => (cml_cache l,
               error_event (ENew ("key " +:+ lo_ConfigMapKey (cml_options l) +:+
                                  " not found in ConfigMap")))
           | Some yamlContent =>
               match parseConfig yamlContent with
               | Err err => (cml_cache l,
                   error_event (EWrap "failed to parse configuration" err))
               | Ok config =>
                   match Validate config with
                   | Some errs => (cml_cache l,
                       error_event (EWrap "configuration validation failed"
                                      (ENew (AggregateError errs))))
                   | None => (cache_set now config <$> cml_cache l,
                              config_event eventType (Some config))
                   end
               end
           end
  end.

Definition handleConfigMapEvent (now : Time) (eventType : ConfigEventType)
    (obj : option ConfigMap) (l : ConfigMapLoader) : option ConfigMapLoader :=
  let '(c, event) := event_effect now eventType obj l in
  broadcastEvent event (with_cache l c).

(** ** Executions of the watch machinery *)

Inductive action :=
| AWatch (id : string) (started : bool)
| AContextDone (id : string) (ch : nat)
| AClose
| AEvent (now : Time) (eventType : ConfigEventType) (obj : option ConfigMap)
| AReceive (ch : nat).

Definition receive (c : Channel) : Channel :=
  {| ch_buffer := tail (ch_buffer c); ch_closed := ch_closed c |}.

(** An action can happen: a cleanup for a goroutine that waits, an event while the
    informer runs. *)
Definition enabled (a : action) (l : ConfigMapLoader) : Prop :=
  match a with
  | AContextDone id ch => (id, ch) ∈ cml_cleanups l
  | AEvent _ _ _ => cml_running l = true
  | _ => True
  end.

Definition perform (a : action) (l : ConfigMapLoader) : option ConfigMapLoader :=
  match a with
  | AWatch id started => Some (Watch id started l).1
  | AContextDone id ch => cleanup id ch l
  | AClose => Close l
  | AEvent now t obj => handleConfigMapEvent now t obj l
  | AReceive ch => Some {| l with cml_channels := alter receive ch (cml_channels l) |}
  end.

(** Executions all of whose actions satisfy [allowed] in the state they start in. *)
Inductive reachable (allowed : action → ConfigMapLoader → Prop) (l0 : ConfigMapLoader) :
    ConfigMapLoader → Prop :=
| reach_refl : reachable allowed l0 l0
| reach_step l a l' :
    reachable allowed l0 l → enabled a l → allowed a l → perform a l = Some l' →
    reachable allowed l0 l'.

(** What the callers must respect: the informer starts, and the loader is closed
    only after every watcher's context is done. *)
Definition orderly (a : action) (l : ConfigMapLoader) : Prop :=
  match a with
  | AWatch _ started => started = true
  | AClose => cml_cleanups l = []
  | _ => True
  end.

(** ** Only validated configurations *)

Definition cached_valid (c : option configCache) : Prop :=
  ∀ cache config, c = Some cache → cc_config cache = Some config → Validate config = None.

Lemma Validate_copy config : Validate (deepCopyConfig config) = Validate config.
Proof. rewrite deepCopyConfig_id. by destruct config. Qed.

Lemma cached_valid_set now config c :
  Validate config = None → cached_valid (Some (cache_set now config c)).
Proof. intros Hv cache cfg [= <-] [= <-]. by rewrite Validate_copy. Qed.

Lemma event_effect_valid now t obj l :
  cached_valid (cml_cache l) →
  cached_valid (event_effect now t obj l).1 ∧
  (∀ config, ce_Config (event_effect now t obj l).2 = Some config → Validate config = None).
Proof.
  intros Hc. unfold event_effect. destruct obj as [cm|]; [|by split].
  case_bool_decide. { split; [|done]. intros cache config. by destruct (cml_cache l); intros [= <-]. }
  destruct (cm_Data cm !! _) as [y|]; [|by split].
  destruct (parseConfig y) as [config|]; [|by split].
  destruct (Validate config) eqn:Hv; [by split|]. split; [|by intros ? [= <-]].
  destruct (cml_cache l); [by apply cached_valid_set|done].
Qed.

Lemma LoadConfig_valid l :
  cached_valid (cml_cache l) →
  every_result (λ '(l', r), cached_valid (cml_cache l') ∧
                            ∀ config, r = Ok config → Validate config = None) (LoadConfig l).
Proof.
  intros Hl. unfold LoadConfig. set (load := _ ≫= _).
  assert (every_result (λ '(l', r), cached_valid (cml_cache l') ∧
            ∀ config, r = Ok config → Validate config = None) load) as Hload.
  { intros [cm|err]; simpl; [|by destruct (IsNotFound err)].
    destruct (cm_Data cm !! _) as [y|]; [|done]. destruct (parseConfig y) as [config|]; [|done].
    destruct (Validate config) eqn:Hv; [done|].
    destruct (cml_cache l) as [c|] eqn:Hc; simpl.
    - intros now. split; [by apply cached_valid_set|]. by intros ? [= <-].
    - rewrite Hc. split; [done|]. by intros ? [= <-]. }
  destruct (cml_cache l) as [c|] eqn:Hc; [|exact Hload]. simpl. intros now.
  destruct (cache_get now c) as [config|] eqn:Hg; [|exact Hload]. simpl. rewrite Hc.
  split; [done|]. intros ? [= <-]. unfold cache_get in Hg.
  destruct (cc_config c) as [cfg|] eqn:Hcfg; [|done]. case_match; [done|].
  injection Hg as <-. rewrite Validate_copy. by eapply Hl.
Qed.

Lemma LoadConfig_total E l past : wp E (LoadConfig l) past (λ _ _, True).
Proof.
  unfold LoadConfig. set (load := _ ≫= _).
  assert (∀ past, wp E load past (λ _ _, True)) as Hload.
  { intros past'. subst load. rewrite wp_bind. intros [cm|err] _; cbn [wp].
    - destruct (cm_Data cm !! _) as [y|]; [|done]. destruct (parseConfig y) as [config|]; [|done].
      destruct (Validate config); [done|]. destruct (cml_cache l); [|done]. by intros now _.
    - by destruct (IsNotFound err). }
  destruct (cml_cache l) as [c|]; [|apply Hload]. rewrite wp_bind. intros now _. cbn [wp].
  destruct (cache_get now c); [done|apply Hload].
Qed.

Lemma LoadConfig_fetches l : every_call fetches (LoadConfig l).
Proof.
  unfold LoadConfig. cbv zeta. calls; done.
Qed.

(** C32: The loader only hands out validated configurations: whatever the API
    server, the clock and the YAML parser answer, [LoadConfig] returns a
    configuration that passes validation or an error, and keeps in its cache only a
    configuration that passes validation; so does every event of the informer, also
    for the configuration it broadcasts. *)
Theorem LoadConfig_validated l :
  cached_valid (cml_cache l) →
  every_result (λ '(l', r), cached_valid (cml_cache l') ∧
                            ∀ config, r = Ok config → Validate config = None) (LoadConfig l) ∧
  (∀ now t obj l', handleConfigMapEvent now t obj l = Some l' → cached_valid (cml_cache l')) ∧
  (∀ now t obj config, ce_Config (event_effect now t obj l).2 = Some config →
                       Validate config = None).
Proof.
  intros Hl. split_and!.
  - by apply LoadConfig_valid.
  - intros now t obj l'. unfold handleConfigMapEvent.
    destruct (event_effect_valid now t obj l Hl) as [Hv _].
    destruct (event_effect now t obj l) as [c ev]. simpl in Hv. unfold broadcastEvent.
    case_match; [|done]. by intros [= <-].
  - intros now t obj config. by apply event_effect_valid.
Qed.

(** ** The watchers of an orderly execution *)

Record watch_inv (l : ConfigMapLoader) : Prop := {
  wi_registered id ch : cml_watchers l !! id = Some ch → (id, ch) ∈ cml_cleanups l;
  wi_open id ch : (id, ch) ∈ cml_cleanups l →
    ∃ c, cml_channels l !! ch = Some c ∧ ch_closed c = false;
  wi_nodup : NoDup (cml_cleanups l).*2;
  wi_bound : Forall (λ c, length (ch_buffer c) <= 10) (cml_channels l);
}.

Lemma chan_open_iff l ch :
  chan_open l ch = true ↔ ∃ c, cml_channels l !! ch = Some c ∧ ch_closed c = false.
Proof.
  unfold chan_open. destruct (cml_channels l !! ch) as [c|]; [|naive_solver].
  rewrite negb_true_iff. naive_solver.
Qed.

Lemma registered_open_iff l :
  registered_open l = true ↔
  ∀ id ch, cml_watchers l !! id = Some ch → chan_open l ch = true.
Proof.
  unfold registered_open. rewrite forallb_forall. split.
  - intros Hall id ch Hw. apply (Hall (id, ch)). by apply list_elem_of_In, elem_of_map_to_list.
  - intros Hall [id ch] Hin. apply list_elem_of_In, elem_of_map_to_list in Hin. by eapply Hall.
Qed.

Lemma watch_inv_registered l : watch_inv l → registered_open l = true.
Proof.
  intros []. apply registered_open_iff. intros id ch Hw. apply chan_open_iff. eauto.
Qed.

Lemma cleanups_inj l id1 id2 ch :
  NoDup (cml_cleanups l).*2 → (id1, ch) ∈ cml_cleanups l → (id2, ch) ∈ cml_cleanups l →
  id1 = id2.
Proof.
  generalize (cml_cleanups l) as ws. induction ws as [|[i c] ws IH]; simpl; [set_solver|].
  rewrite NoDup_cons, !elem_of_cons. intros [Hc Hnd] [Heq1|Hin1] [Heq2|Hin2];
    simplify_eq; [done| | |by apply IH]; destruct Hc; apply list_elem_of_fmap;
    [by exists (id2, c)|by exists (id1, c)].
Qed.

(** A map over the channels that neither closes nor overfills them. *)
Lemma watch_inv_channels l cs :
  watch_inv l →
  (∀ ch c, cml_channels l !! ch = Some c → ch_closed c = false →
     ∃ c', cs !! ch = Some c' ∧ ch_closed c' = false) →
  Forall (λ c, length (ch_buffer c) <= 10) cs →
  watch_inv {| l with cml_channels := cs |}.
Proof.
  intros [] Hopen Hb. split; simpl; [done| |done|done]. intros id ch Hin.
  destruct (wi_open0 id ch Hin) as (c & Hc & Hcl). eauto.
Qed.

Lemma alter_ok (f : Channel → Channel) ch cs :
  (∀ c, ch_closed (f c) = ch_closed c) →
  (∀ c, length (ch_buffer c) <= 10 → length (ch_buffer (f c)) <= 10) →
  (∀ i c, cs !! i = Some c → ch_closed c = false →
     ∃ c', alter f ch cs !! i = Some c' ∧ ch_closed c' = false) ∧
  (Forall (λ c, length (ch_buffer c) <= 10) cs →
   Forall (λ c, length (ch_buffer c) <= 10) (alter f ch cs)).
Proof.
  intros Hcl Hlen. split.
  - intros i c Hi Hc. destruct (decide (i = ch)) as [->|Hne].
    + exists (f c). rewrite list_lookup_alter_eq, Hi, Hcl. done.
    + exists c. by rewrite list_lookup_alter_ne.
  - intros Hall. apply Forall_alter; [done|]. auto.
Qed.

Lemma send_ok event c :
  ch_closed (send event c) = ch_closed c ∧
  (length (ch_buffer c) <= 10 → length (ch_buffer (send event c)) <= 10).
Proof.
  unfold send. destruct (length (ch_buffer c) <? 10) eqn:Hlt; [|done].
  apply Nat.ltb_lt in Hlt. simpl. rewrite length_app. simpl. split; [done|lia].
Qed.

Definition send_alter_ok event ch cs :=
  alter_ok (send event) ch cs (λ c, proj1 (send_ok event c)) (λ c, proj2 (send_ok event c)).

Lemma broadcast_inv event l l' :
  watch_inv l → broadcastEvent event l = Some l' → watch_inv l'.
Proof.
  intros Hinv. unfold broadcastEvent. rewrite (watch_inv_registered l Hinv). intros [= <-].
  apply watch_inv_channels; [done| |].
  - intros ch c Hc Hcl.
    apply (map_fold_weak_ind (λ cs _, ∃ c', cs !! ch = Some c' ∧ ch_closed c' = false)); [eauto|].
    intros id ch' m cs _ (c' & Hc' & Hcl').
    by eapply send_alter_ok.
  - apply (map_fold_weak_ind (λ cs _, Forall (λ c, length (ch_buffer c) <= 10) cs));
      [apply Hinv|]. intros id ch' m cs _ Hall.
    by apply send_alter_ok.
Qed.

Lemma with_cache_inv l c : watch_inv l → watch_inv (with_cache l c).
Proof. by intros []. Qed.

Lemma Watch_inv id l : watch_inv l → watch_inv (Watch id true l).1.
Proof.
  intros [Hreg Hopen Hnd Hb].
  assert (watch_inv {| l with
    cml_channels := cml_channels l ++ [{| ch_buffer := []; ch_closed := false |}];
    cml_watchers := <[id := length (cml_channels l)]> (cml_watchers l);
    cml_cleanups := (id, length (cml_channels l)) :: cml_cleanups l |}) as Hinv.
  { split; simpl.
    - intros id' ch. rewrite elem_of_cons. destruct (decide (id' = id)) as [->|Hne].
      + rewrite lookup_insert_eq. intros [= <-]. by left.
      + rewrite lookup_insert_ne by done. eauto.
    - intros id' ch. rewrite elem_of_cons. intros [[= -> ->]|Hin].
      + rewrite list_lookup_middle by done. eauto.
      + destruct (Hopen id' ch Hin) as (c & Hc & Hcl). exists c. split; [|done].
        by apply lookup_app_l_Some.
    - apply NoDup_cons. split; [|done]. intros ([id' ch] & Heq & Hin)%list_elem_of_fmap.
      simpl in Heq. subst. destruct (Hopen _ _ Hin) as (c & Hc & _).
      apply lookup_lt_Some in Hc. lia.
    - apply Forall_app_2; [done|]. constructor; [simpl; lia|done]. }
  unfold Watch. cbn [cml_informer]. destruct (cml_informer l); [exact Hinv|].
  destruct Hinv. by split.
Qed.

Lemma cleanup_inv id ch l l' :
  watch_inv l → (id, ch) ∈ cml_cleanups l → cleanup id ch l = Some l' → watch_inv l'.
Proof.
  intros [Hreg Hopen Hnd Hb] Hin. unfold cleanup. case_match; [|done]. intros [= <-].
  split; simpl.
  - intros id' ch'. rewrite lookup_delete_Some. intros [Hne Hw].
    apply list_elem_of_filter. split; [|by apply Hreg]. by intros [= -> ->].
  - intros id' ch'. rewrite list_elem_of_filter. intros [Hne Hin'].
    destruct (Hopen id' ch' Hin') as (c & Hc & Hcl). exists c. split; [|done].
    rewrite list_lookup_alter_ne; [done|]. intros <-. apply Hne.
    by rewrite (cleanups_inj l id id' ch).
  - eapply sublist_NoDup; [exact Hnd|]. apply fmap_sublist, sublist_filter.
  - apply Forall_alter; [done|]. auto.
Qed.

Lemma perform_inv a l l' :
  watch_inv l → enabled a l → orderly a l → perform a l = Some l' → watch_inv l'.
Proof.
  intros Hinv Hen Hord. destruct a as [id started|id ch| |now t obj|ch]; simpl in *.
  - subst started. intros [= <-]. by apply Watch_inv.
  - by apply cleanup_inv.
  - unfold Close. rewrite (watch_inv_registered l Hinv). intros [= <-].
    assert (cml_watchers l = ∅) as ->.
    { apply map_eq. intros id. rewrite lookup_empty. destruct (cml_watchers l !! id) as [ch|] eqn:Hw;
        [|done]. apply Hinv in Hw. rewrite Hord in Hw. set_solver. }
    rewrite map_fold_empty. destruct Hinv. by split.
  - unfold handleConfigMapEvent. destruct (event_effect now t obj l) as [c ev].
    by apply broadcast_inv, with_cache_inv.
  - intros [= <-]. assert (∀ c, length (ch_buffer c) <= 10 → length (ch_buffer (receive c)) <= 10) as Hrec.
    { intros c. simpl. destruct (ch_buffer c); simpl; lia. }
    destruct (alter_ok receive ch (cml_channels l) (λ c, eq_refl) Hrec) as [Hopen Hlen].
    apply watch_inv_channels; [done|done|]. apply Hlen, Hinv.
Qed.

Lemma perform_some a l :
  watch_inv l → enabled a l → is_Some (perform a l).
Proof.
  intros Hinv Hen. destruct a as [id started|id ch| |now t obj|ch]; simpl in *; [done| | | |done].
  - unfold cleanup. apply Hinv, chan_open_iff in Hen. by rewrite Hen.
  - unfold Close. by rewrite watch_inv_registered.
  - unfold handleConfigMapEvent. destruct (event_effect now t obj l) as [c ev].
    unfold broadcastEvent. by rewrite (watch_inv_registered (with_cache l c)) by by apply with_cache_inv.
Qed.

(** C33: No operation of the loader panics on a closed channel, and no watcher holds
    more than its ten buffered events, in every execution in which the informer
    starts and the loader is closed only after the contexts of its watchers are
    done, in whatever order watches, events, reads and cancellations come. *)
Theorem watchers_safe options l a :
  reachable orderly (NewConfigMapLoader options) l → enabled a l →
  is_Some (perform a l) ∧ Forall (λ c, length (ch_buffer c) <= 10) (cml_channels l).
Proof.
  intros Hr Hen. assert (watch_inv l) as Hinv.
  { clear Hen. induction Hr as [|l a' l' Hr IH Hen' Hord Hp].
    - split; simpl; [intros ??; by rewrite lookup_empty|set_solver|constructor|constructor].
    - by eapply perform_inv. }
  split; [by apply perform_some|apply Hinv].
Qed.

(** Outside of such executions the loader does panic.  Closing it while a
    watcher's context is live makes the cleanup of that watcher close the channel a
    second time, and a watch whose informer does not start leaves its closed channel
    registered, so that the next broadcast, and the next close, panic. *)
Theorem watchers_panic options id event :
  let l0 := NewConfigMapLoader options in
  (∃ l, (Watch id true l0).2 = Ok 0 ∧ Close (Watch id true l0).1 = Some l ∧
        (id, 0) ∈ cml_cleanups l ∧ cleanup id 0 l = None) ∧
  (∃ e, (Watch id false l0).2 = Err e) ∧
  broadcastEvent event (Watch id false l0).1 = None ∧ Close (Watch id false l0).1 = None.
Proof.
  cbn zeta. assert (∀ (m : gmap string nat) l ch,
    cml_watchers l !! id = Some ch → chan_open l ch = false → registered_open l = false) as Hbad.
  { intros _ l ch Hw Hc. apply not_true_iff_false. intros Ho.
    apply (proj1 (registered_open_iff l) Ho) in Hw. congruence. }
  assert (registered_open (Watch id false (NewConfigMapLoader options)).1 = false) as Hclosed.
  { apply (Hbad ∅ _ 0); [apply lookup_insert_eq|done]. }
  assert (registered_open (Watch id true (NewConfigMapLoader options)).1 = true) as Hopen.
  { apply registered_open_iff. intros id' ch. simpl. rewrite lookup_insert_Some.
    intros [[_ <-]|[_ Hl]]; [done|]. by rewrite lookup_empty in Hl. }
  split_and!.
  - eexists. split; [done|]. unfold Close. rewrite Hopen. split; [done|]. simpl.
    split; [set_solver|]. unfold cleanup, chan_open. simpl.
    rewrite insert_empty, map_fold_singleton. done.
  - by eexists.
  - unfold broadcastEvent. by rewrite Hclosed.
  - unfold Close. by rewrite Hclosed.
Qed.
End loader.

(** ** The interface [ConfigLoader] as the managers use it *)

Class ConfigSource := { load_config : prog (res OrchestratorConfig) }.

(** What a loader promises to its clients. *)
Class ConfigSourceLaws `{!DNS1123} `{!ConfigSource} : Prop := {
  load_valid : every_result (λ r, ∀ config, r = Ok config → Validate config = None) load_config;
  load_fetches : every_call fetches load_config;
  load_total E past : wp E load_config past (λ _ _, True);
}.

Lemma load_reads `{ConfigSourceLaws} : read_only load_config.
Proof. apply fetches_reads, load_fetches. Qed.

Definition source_of `{!DNS1123} `{!ConfigYAML} (l : ConfigMapLoader) : ConfigSource :=
  {| load_config := x ← LoadConfig l; mret x.2 |}.

(** The ConfigMap loader keeps the promise in every state it reaches. *)
Lemma source_of_laws `{!DNS1123} `{!ConfigYAML} (l : ConfigMapLoader) :
  cached_valid (cml_cache l) → @ConfigSourceLaws _ (source_of l).
Proof.
  intros Hl. split; simpl.
  - apply every_result_bind. eapply every_result_mono; [|by apply LoadConfig_valid].
    by intros [l' r] [_ Hr].
  - apply every_call_bind; [apply LoadConfig_fetches|done].
  - intros E past. rewrite wp_bind. eapply wp_mono; [done| |apply LoadConfig_total]. done.
Qed.

(** ** The loader of the tests

    [mock_loader.go]: a double that returns what it was given.  Its watch channel is
    closed before anybody receives from it. *)

Record MockLoader := {
  ml_config : option OrchestratorConfig;
  ml_err : option goerror;
}.

Definition NewMockLoader : MockLoader :=
  {| ml_config := Some
       {| oc_APIVersion := ""; oc_Kind := ""; oc_Metadata := {| ocm_Name := ""; ocm_Version := "" |};
          oc_Spec :=
            {| ocs_Profiles := [];
               ocs_Provisioners :=
                 [{| pv_Type := "test"; pv_Provisioner := "mock"; pv_Classes := [];
                     pv_Defaults := None |}];
               ocs_Defaults := {| ds_Profile := ""; ds_Selectors := [] |} |};
          oc_Reconciler := None |};
     ml_err := None |}.

Definition mock_LoadConfig (m : MockLoader) : res (option OrchestratorConfig) :=
  match ml_err m with Some err => Err err | None => Ok (ml_config m) end.

Definition SetConfig (m : MockLoader) (config : option OrchestratorConfig) : MockLoader :=
  {| m with ml_config := config |}.

Definition SetError (m : MockLoader) (err : option goerror) : MockLoader :=
  {| m with ml_err := err |}.

Definition mock_Watch (m : MockLoader) : Channel * res () :=
  ({| ch_buffer := []; ch_closed := true |}, Ok ()).

Definition mock_Close (m : MockLoader) : res () := Ok ().

(** Unlike the ConfigMap loader the double hands out configurations that were never
    validated: its own initial one does not pass. *)
Lemma mock_not_validated `{!DNS1123} config :
  mock_LoadConfig NewMockLoader = Ok (Some config) → Validate config ≠ None.
Proof. by intros [= <-]. Qed.

(** An error that was set hides the configuration until it is cleared. *)
Lemma mock_LoadConfig_set m config err :
  mock_LoadConfig (SetError (SetConfig m config) err) =
  match err with Some err => Err err | None => Ok config end.
Proof. done. Qed.

(** ** The loader of the reconciler settings *)

(** [yaml.Unmarshal] into a map and over a [ReconcilerConfig], from the same
    library. *)
Class ReconcilerYAML := {
  UnmarshalMap : RawJSON → res (gmap string value);
  Overlay : gmap string value → ReconcilerConfig.ReconcilerConfig →
            res ReconcilerConfig.ReconcilerConfig;
}.

Section reconciler_loader.
Context `{!DNS1123} `{!ConfigYAML} `{!ReconcilerYAML}.
Import ReconcilerConfig.

Record ReconcilerConfigLoader := {
  rcl_configMapLoader : ConfigMapLoader;
  rcl_cache : ReconcilerConfig;
}.

Definition NewReconcilerConfigLoader (namespace name key : string) : ReconcilerConfigLoader :=
  {| rcl_configMapLoader := NewConfigMapLoader
       {| lo_Namespace := namespace; lo_ConfigMapName := name; lo_ConfigMapKey := key;
          lo_EnableCache := false; lo_CacheTTL := "" |};
     rcl_cache := DefaultReconcilerConfig |}.

(** The branch for a [*OrchestratorConfig], the only type its callers pass. *)
Definition extractReconcilerConfig (config : OrchestratorConfig) : res ReconcilerConfig :=
  match oc_Reconciler config with
  | None => Ok DefaultReconcilerConfig
  | Some raw =>
      if raw_len_zero raw then Ok DefaultReconcilerConfig
      else match UnmarshalMap raw with
           | Err err => Err (EWrap "failed to unmarshal reconciler raw data" err)
           | Ok section =>
               match Overlay section DefaultReconcilerConfig with
               | Err err => Err (EWrap "failed to unmarshal reconciler config" err)
               | Ok c => Ok c
               end
           end
  end.

Definition LoadReconcilerConfig (r : ReconcilerConfigLoader) :
    prog (ReconcilerConfigLoader * res ReconcilerConfig) :=
  x ← LoadConfig (rcl_configMapLoader r);
  let r := {| r with rcl_configMapLoader := x.1 |} in
  match x.2 with
  | Err err =>
      if ErrorsIs err ErrConfigNotFound then mret (r, Ok DefaultReconcilerConfig)
      else mret (r, Err (EWrap "failed to load orchestrator config" err))
  | Ok orchestratorConfig =>
      match extractReconcilerConfig orchestratorConfig with
      | Err err => mret (r, Err (EWrap "failed to extract reconciler config" err))
      | Ok c => let c := Validate c in mret ({| r with rcl_cache := c |}, Ok c)
      end
  end.

Definition GetCachedConfig (r : ReconcilerConfigLoader) : ReconcilerConfig := rcl_cache r.

(** One turn of the goroutine started by [Watch]: the new cache and the arguments of
    the callback, or [None] for the dereference of a nil configuration. *)
Definition watch_event (event : ConfigEvent) (cache : ReconcilerConfig) :
    option (ReconcilerConfig * res ReconcilerConfig) :=
  match ce_Type event, ce_Config event with
  | ConfigEventError, _ => Some (cache, Err (default (ENew "") (ce_Error event)))
  | ConfigEventDeleted, _ => Some (DefaultReconcilerConfig, Ok DefaultReconcilerConfig)
  | _, None => None
  | _, Some config =>
      match extractReconcilerConfig config with
      | Err err =>
          Some (cache, Err (EWrap "failed to extract reconciler config from updated config" err))
      | Ok c => let c := Validate c in Some (c, Ok c)
      end
  end.

(** The reconciler only ever runs with usable settings.  Whatever the ConfigMap
    contains, [LoadConfig] returns usable settings or an error and the defaults when
    there is no ConfigMap, and the cache stays usable; the same holds for every
    event of the watch, none of which makes the goroutine dereference nil. *)
Theorem reconciler_settings_usable r :
  usable (rcl_cache r) →
  every_result (λ '(r', c), usable (rcl_cache r') ∧ ∀ c', c = Ok c' → usable c')
    (LoadReconcilerConfig r) ∧
  (∀ now t obj,
     t ≠ ConfigEventError →
     ∃ cache' c, watch_event (event_effect now t obj (rcl_configMapLoader r)).2 (rcl_cache r) =
                 Some (cache', c) ∧ usable cache' ∧ ∀ c', c = Ok c' → usable c').
Proof.
  intros Hr. split.
  - unfold LoadReconcilerConfig. apply every_result_bind.
    eapply every_result_mono; [|apply every_result_top]. intros [l c] _. simpl.
    destruct c as [config|err]; simpl.
    + destruct (extractReconcilerConfig config) as [c|err]; simpl; [|by split].
      split; [apply usable_Validate|]. intros ? [= <-]. apply usable_Validate.
    + destruct (ErrorsIs err _); simpl; [|by split].
      split; [done|]. intros ? [= <-]. apply usable_default.
  - intros now t obj Ht. set (l := rcl_configMapLoader r). clearbody l.
    assert (ce_Type (event_effect now t obj l).2 = ConfigEventError ∨
            t = ConfigEventDeleted ∧ ce_Type (event_effect now t obj l).2 = t ∨
            ce_Type (event_effect now t obj l).2 = t ∧
            ∃ config, ce_Config (event_effect now t obj l).2 = Some config) as Hev.
    { unfold event_effect. destruct obj as [cm|]; [|by left]. case_bool_decide; [by right; left|].
      destruct (cm_Data cm !! _) as [y|]; [|by left]. destruct (parseConfig y) as [cfg|]; [|by left].
      case_match; [by left|]. right. right. split; [done|]. by exists cfg. }
    unfold watch_event. destruct Hev as [->|[[-> ->]|[-> [config ->]]]].
    + eexists _, _. by split_and!.
    + eexists _, _. split_and!; [done|apply usable_default|]. intros ? [= <-].
      apply usable_default.
    + destruct t; try done;
        destruct (extractReconcilerConfig config) as [c|err]; eexists _, _;
        split_and!; try done; try apply usable_Validate; try apply usable_default;
        intros ? [= <-]; apply usable_Validate || apply usable_default.
Qed.
End reconciler_loader.

(** ** A concrete instance, for the witnesses *)

Module LoaderDemo.
(** Two documents and one duration are known. *)
#[local] Instance yaml : ConfigYAML :=
  {| UnmarshalConfig y := if bool_decide (y = "profiles: ...") then Ok ValidationDemo.config
                          else Err (ENew "error converting YAML to JSON");
     ParseDuration d := if bool_decide (d = "5m") then Some (5 * Minute)%Z else None;
     AggregateError errs := FormatInt (Z.of_nat (length errs)) +:+ " errors" |}.

#[local] Instance reconciler_yaml : ReconcilerYAML :=
  {| UnmarshalMap raw := match Unmarshal raw with
                         | Some (VMap m) => Ok m
                         | Some VNull => Ok ∅
                         | _ => Err (ENew "cannot unmarshal")
                         end;
     Overlay m c := Ok c |}.
End LoaderDemo.
#[local] Existing Instances ValidationDemo.dns1123 LoaderDemo.yaml LoaderDemo.reconciler_yaml.

Lemma LoadConfig_validated_witness :
  let l := NewConfigMapLoader DefaultLoaderOptions in
  is_Some (cml_cache l) ∧
  every_result (λ '(l', r), cached_valid (cml_cache l') ∧
                            ∀ config, r = Ok config → Validate config = None) (LoadConfig l).
Proof.
  intros l. split; [by eexists|]. apply (LoadConfig_validated l).
  intros cache config [= <-]. discriminate.
Defined.

Lemma watchers_safe_witness :
  let l := (Watch "watcher-1" true (NewConfigMapLoader DefaultLoaderOptions)).1 in
  is_Some (perform (AEvent 0 ConfigEventDeleted None) l).
Proof.
  intros l. apply (watchers_safe DefaultLoaderOptions l (AEvent 0 ConfigEventDeleted None)).
  - eapply (reach_step orderly _ _ (AWatch "watcher-1" true)); [apply reach_refl|done..].
  - done.
Defined.

Lemma reconciler_settings_usable_witness :
  let r := NewReconcilerConfigLoader "score-system" "reconciler" "config.yaml" in
  every_result (λ '(r', c), ReconcilerConfig.usable (rcl_cache r') ∧
                            ∀ c', c = Ok c' → ReconcilerConfig.usable c')
    (LoadReconcilerConfig r).
Proof.
  intros r. apply (reconciler_settings_usable r). apply ReconcilerConfig.usable_default.
Defined.
