(* ===== verification/Placeholders.v ===== *)
(** * Placeholders: [internal/projection/placeholder.go] and
    [internal/reconcile/resolver.go]

    Detection and substitution of the placeholders in the environment of a
    workload.  The three regular expressions are matched leftmost first; in all of
    them a repetition is followed by the very character it excludes, so each has at
    most one match at a position and the matcher needs no backtracking. *)
From S2P Require Import Prelude GoStrings Json K8s Api Client.

(** ** placeholder.go *)

(** A match of [\$\{[^}]+\}] at the beginning of [s]. *)
Definition placeholder_here (s : string) : bool :=
  match strip "${" s with
  | Some r => match cut_at "}" r with Some (String _ _, _) => true | _ => false end
  | None => false
  end.

(** [placeholderRe.MatchString] *)
Fixpoint MatchString (s : string) : bool :=
  placeholder_here s || match s with "" => false | String _ t => MatchString t end.

Fixpoint scan (v : value) : bool :=
  match v with
  | VStr x => MatchString x
  | VArr x => existsb scan x
  | VMap x => map_fold (λ _ it found, scan it || found) false x
  | _ => false
  end.

(** The error only says that the bytes do not parse. *)
Definition HasUnresolvedPlaceholders (raw : RawJSON) : bool * bool :=
  if raw_len_zero raw then (false, false)
  else match Unmarshal raw with
       | None => (true, true)
       | Some v => (scan v, false)
       end.

(** ** resolver.go *)

(** A match of [\$\{resources\.([^.]+)\.<infix>([^}]+)\}] at the beginning of [s]:
    the two groups and the rest. *)
Definition reference_here (infix s : string) : option (string * string * string) :=
  r ← strip "${resources." s;
  '(key, r) ← cut_at "." r;
  r ← strip infix r;
  '(out, r) ← cut_at "}" r;
  if bool_decide (key = "") || bool_decide (out = "") then None else Some (key, out, r).

(** [FindAllStringSubmatch(value, -1)]: [skip] counts the bytes of the current match
    that are still to be passed over. *)
Fixpoint find_all (infix s : string) (skip : nat) : list (string * string) :=
  match s with
  | "" => []
  | String _ t =>
      match skip with
      | S k => find_all infix t k
      | 0 => match reference_here infix s with
             | Some (key, out, r) =>
                 (key, out) :: find_all infix t (pred (String.length s - String.length r))
             | None => find_all infix t 0
             end
      end
  end.

Definition templateVar (infix key out : string) : string :=
  "${resources." +:+ key +:+ "." +:+ infix +:+ out +:+ "}".

(** The loop over the matches; [result] is the value with the matches so far
    substituted. *)
Fixpoint substitute (infix : string) (availableOutputs : gmap string (gmap string string))
    (matches : list (string * string)) (result : string) : res string :=
  match matches with
  | [] => Ok result
  | (resourceKey, outputKey) :: rest =>
      match availableOutputs !! resourceKey with
      | None => Err (ENew ("resource '" +:+ resourceKey +:+ "' has no outputs available"))
      | Some outputs =>
          match outputs !! outputKey with
          | None => Err (ENew ("resource '" +:+ resourceKey +:+ "' missing output '" +:+
                               outputKey +:+ "'"))
          | Some resolvedValue =>
              substitute infix availableOutputs rest
                (ReplaceAll result (templateVar infix resourceKey outputKey) resolvedValue)
          end
      end
  end.

Definition resolveValue (val : string) (availableOutputs : gmap string (gmap string string)) :
    res string :=
  match find_all "outputs." val 0 with
  | [] => substitute "" availableOutputs (find_all "" val 0) val
  | outputsMatches => substitute "outputs." availableOutputs outputsMatches val
  end.

(** The values the code falls back on when the Secret of a claim cannot be read. *)
Definition fallback_outputs (claim : ResourceClaim) (outputs : gmap string string) :
    gmap string string :=
  if bool_decide (rcs_Type (rc_Spec claim) = "postgres")
  then
    let name := om_Name (rc_ObjectMeta claim) in
    let outputs := <["database" := "db_" +:+ name]> (<["port" := "5432"]>
      (<["host" := name +:+ "-postgres"]> (<["password" := "password-" +:+ name]>
        (<["username" := "postgres-" +:+ name]> outputs)))) in
    <["uri" := "postgresql://" +:+ "postgres-" +:+ name +:+ ":" +:+ "password-" +:+ name +:+
               "@" +:+ name +:+ "-postgres" +:+ ":5432/" +:+ "db_" +:+ name]> outputs
  else outputs.

Definition add_optional (k : string) (v : option string) (m : gmap string string) :
    gmap string string :=
  match v with Some s => <[k := s]> m | None => m end.

(** The body of the loop over the claims.  A claim that says its outputs are
    available but has none makes the code dereference nil. *)
Definition claim_outputs (claim : ResourceClaim) : prog (gmap string string) :=
  o ← deref (rst_Outputs (rc_Status claim));
  let outputs := add_optional "uri" (rco_URI o) ∅ in
  outputs ←
    match rco_SecretRef o with
    | None => mret outputs
    | Some ref =>
        r ← ask (Get KSecret (om_Namespace (rc_ObjectMeta claim), lor_Name ref));
        mret match (r : res Secret) with
             | Ok secret => map_fold (λ key v m, <[key := v]> m) outputs (sec_Data secret)
             | Err _ => fallback_outputs claim outputs
             end
    end;
  let outputs := add_optional "image" (rco_Image o) outputs in
  mret match rco_Cert o with
       | Some cert => add_optional "cert" (co_SecretName cert) outputs
       | None => outputs
       end.

Fixpoint buildResolvedOutputsMap (claims : list ResourceClaim)
    (availableOutputs : gmap string (gmap string string)) :
    prog (gmap string (gmap string string)) :=
  match claims with
  | [] => mret availableOutputs
  | claim :: claims =>
      if rst_OutputsAvailable (rc_Status claim)
      then outputs ← claim_outputs claim;
           buildResolvedOutputsMap claims (<[rcs_Key (rc_Spec claim) := outputs]> availableOutputs)
      else buildResolvedOutputsMap claims availableOutputs
  end.

(** The environment of one container, in the order [vars] in which the map is
    traversed. *)
Fixpoint resolve_env (containerName : string) (vars : list (string * string))
    (availableOutputs : gmap string (gmap string string)) (env : gmap string value) :
    res (gmap string value) :=
  match vars with
  | [] => Ok env
  | (envName, envValue) :: vars =>
      match resolveValue envValue availableOutputs with
      | Err err => Err (EWrap ("failed to resolve env var " +:+ envName +:+ " in container " +:+
                               containerName) err)
      | Ok r => resolve_env containerName vars availableOutputs (<[envName := VStr r]> env)
      end
  end.

(** The containers, in the order [cs] in which the map is traversed. *)
Fixpoint resolve_containers (cs : list (string * ContainerSpec))
    (availableOutputs : gmap string (gmap string string)) (containers : gmap string value) :
    res (gmap string value) :=
  match cs with
  | [] => Ok containers
  | (containerName, containerSpec) :: cs =>
      match cs_Variables containerSpec with
      | None =>
          resolve_containers cs availableOutputs (<[containerName := VMap ∅]> containers)
      | Some vars =>
          match resolve_env containerName (map_to_list vars) availableOutputs ∅ with
          | Err err => Err err
          | Ok env =>
              resolve_containers cs availableOutputs
                (<[containerName := VMap {["env" := VMap env]}]> containers)
          end
      end
  end.

Definition resolveAllPlaceholders (workload : Workload) (claims : list ResourceClaim) :
    prog (res RawJSON) :=
  availableOutputs ← buildResolvedOutputsMap claims ∅;
  mret match resolve_containers (map_to_list (ws_Containers (wl_Spec workload)))
               availableOutputs ∅ with
       | Err err => Err err
       | Ok containers => Ok (Marshal (VMap {["containers" := VMap containers]}))
       end.

(** ** What the detection finds *)

(** [s] is one of the strings of the value that [scan] looks at. *)
Inductive string_in (s : string) : value → Prop :=
| in_str : string_in s (VStr s)
| in_arr l v : v ∈ l → string_in s v → string_in s (VArr l)
| in_map m k v : m !! k = Some v → string_in s v → string_in s (VMap m).

(** A placeholder: a non-empty body between the braces. *)
Definition has_placeholder (s : string) : Prop :=
  ∃ pre body post, s = pre +:+ "${" +:+ body +:+ "}" +:+ post ∧ body ≠ "" ∧ no_char "}" body.

Lemma placeholder_here_iff s :
  placeholder_here s = true ↔
  ∃ body post, s = "${" +:+ body +:+ "}" +:+ post ∧ body ≠ "" ∧ no_char "}" body.
Proof.
  unfold placeholder_here. split.
  - destruct (strip "${" s) as [r|] eqn:Hs; [|done]. apply strip_Some in Hs.
    destruct (cut_at "}" r) as [[body post]|] eqn:Hc; [|done]. apply cut_at_Some in Hc as [-> Hb].
    intros Hne. exists body, post. split_and!; [done| |done]. by destruct body.
  - intros (body & post & -> & Hne & Hb). rewrite strip_app.
    change ("}" +:+ post) with (String "}" post). rewrite cut_at_app by done. by destruct body.
Qed.

Lemma MatchString_iff s : MatchString s = true ↔ has_placeholder s.
Proof.
  unfold has_placeholder. induction s as [|a s IH]; simpl.
  - split; [done|]. intros (pre & body & post & Heq & _). by destruct pre.
  - rewrite orb_true_iff, IH, placeholder_here_iff. split.
    + intros [(b & p & ? & ? & ?)|(pre & b & p & -> & ? & ?)];
        [by exists "", b, p | by exists (String a pre), b, p].
    + intros (pre & b & p & Heq & ? & ?). destruct pre as [|c pre]; simpl in Heq.
      * left. by exists b, p.
      * injection Heq as -> ->. right. by exists pre, b, p.
Qed.

Lemma map_fold_or {A} (f : A → bool) (m : gmap string A) :
  map_fold (λ _ x found, f x || found) false m = true ↔ ∃ k x, m !! k = Some x ∧ f x = true.
Proof.
  induction m as [|k x m Hk Hfirst IH] using map_first_key_ind.
  - rewrite map_fold_empty. split; [done|]. intros (? & ? & Hl & _). by rewrite lookup_empty in Hl.
  - rewrite map_fold_insert_first_key, orb_true_iff, IH by done. split.
    + intros [Hx|(k' & x' & Hl & Hx)]; [exists k, x; by rewrite lookup_insert_eq|].
      exists k', x'. rewrite lookup_insert_ne; [done|]. intros ->. congruence.
    + intros (k' & x' & [[-> ->]|[? ?]]%lookup_insert_Some & Hx); [by left|]. right. eauto.
Qed.

Lemma scan_iff v : scan v = true ↔ ∃ s, string_in s v ∧ has_placeholder s.
Proof.
  induction v as [| | |s|l IH|m IH|v IH] using value_nested_ind; simpl.
  1-3,7: split; [done|]; intros (? & Hin & _); inversion Hin.
  - rewrite MatchString_iff. split; [exists s; split; [constructor|done]|].
    intros (? & Hin & ?). by inversion Hin; subst.
  - rewrite existsb_exists. split.
    + intros (x & Hx%list_elem_of_In & Hs). apply IH in Hs as (s & ? & ?); [|done].
      exists s. split; [by econstructor|done].
    + intros (s & Hin & Hs). inversion Hin as [|? x Hx Hsx|]; subst. exists x.
      rewrite <- list_elem_of_In. split; [done|]. apply IH; eauto.
  - rewrite map_fold_or. split.
    + intros (k & x & Hx & Hs). apply (IH k x Hx) in Hs as (s & ? & ?).
      exists s. split; [by econstructor|done].
    + intros (s & Hin & Hs). inversion Hin as [| |? k x Hx Hsx]; subst. exists k, x.
      split; [done|]. apply (IH k x Hx). eauto.
Qed.

(** C35: The detection is exact on parsed values and fails safe: it reports a
    placeholder in the bytes of a value exactly when some string in it, at any depth
    below arrays and maps, contains a non-empty "${...}"; bytes that do not parse
    count as unresolved and absent ones as resolved. *)
Theorem HasUnresolvedPlaceholders_correct raw :
  (HasUnresolvedPlaceholders raw).1 = true ↔
    (∃ v s, raw = RawValue v ∧ string_in s v ∧ has_placeholder s) ∨
    (∃ b, raw = RawMalformed b ∧ b ≠ "").
Proof.
  unfold HasUnresolvedPlaceholders. destruct raw as [|b|v]; simpl.
  - naive_solver.
  - case_bool_decide; simpl; naive_solver.
  - rewrite scan_iff. naive_solver.
Qed.

(** ** What the substitution computes

    A template is a sequence of literal texts and references; [render] writes it in
    one of the two formats of the code ([infix] is "" or "outputs."). *)

Inductive token := Lit (s : string) | Ref (key out : string).

#[export] Instance token_eq_dec : EqDecision token.
Proof. solve_decision. Defined.

Definition concat_str (l : list string) : string := foldr String.append "" l.

Definition render_token (infix : string) (t : token) : string :=
  match t with Lit s => s | Ref key out => templateVar infix key out end.

Definition render (infix : string) (ts : list token) : string :=
  concat_str (render_token infix <$> ts).

Definition refs (ts : list token) : list (string * string) :=
  omap (λ t, match t with Ref k o => Some (k, o) | Lit _ => None end) ts.

Definition output_of (av : gmap string (gmap string string)) (k o : string) : option string :=
  m ← av !! k; m !! o.

Definition resolve_token (av : gmap string (gmap string string)) (t : token) : option string :=
  match t with Lit s => Some s | Ref k o => output_of av k o end.

(** No text of the template contains a dollar, and a reference can be told from the
    text around it. *)
Definition well_formed (infix : string) (t : token) : Prop :=
  match t with
  | Lit s => no_char "$" s
  | Ref k o => k ≠ "" ∧ o ≠ "" ∧ no_char "." k ∧ no_char "}" o ∧ no_char "$" (k +:+ o) ∧
               (infix = "" → strip "outputs." o = None)
  end.

Definition known_infix (infix : string) : Prop := infix = "" ∨ infix = "outputs.".

#[local] Arguments templateVar : simpl never.

Lemma templateVar_cut infix k o t :
  templateVar infix k o +:+ t = "${resources." +:+ k +:+ String "." (infix +:+ o +:+ String "}" t).
Proof.
  unfold templateVar. by rewrite !string_app_assoc.
Qed.

Lemma reference_here_ref infix k o t :
  well_formed infix (Ref k o) →
  reference_here infix (templateVar infix k o +:+ t) = Some (k, o, t).
Proof.
  intros (Hk & Ho & Hdot & Hbrace & _). rewrite templateVar_cut. unfold reference_here.
  rewrite strip_app. simpl. rewrite cut_at_app by done. simpl.
  rewrite strip_app. simpl. rewrite cut_at_app by done. simpl.
  by rewrite !bool_decide_false.
Qed.

Lemma strip_app_None p o a t :
  strip p o = None → no_char a p → strip p (o +:+ String a t) = None.
Proof.
  revert o. induction p as [|b p IH]; intros o; simpl; [done|].
  intros Ho [Hb Hp]%no_char_cons. destruct o as [|c o]; simpl.
  - by rewrite bool_decide_false.
  - case_bool_decide; [|done]. by apply IH.
Qed.

#[local] Arguments strip : simpl never.

(** The more specific pattern does not match a reference of the other format. *)
Lemma reference_here_other k o t :
  well_formed "" (Ref k o) → reference_here "outputs." (templateVar "" k o +:+ t) = None.
Proof.
  intros (Hk & Ho & Hdot & Hbrace & _ & Hout). rewrite templateVar_cut. unfold reference_here.
  rewrite strip_app. simpl. rewrite cut_at_app by done. simpl.
  by rewrite (strip_app_None "outputs." o "}" t (Hout eq_refl) eq_refl).
Qed.

Lemma reference_here_lit infix a s : a ≠ "$"%char → reference_here infix (String a s) = None.
Proof.
  intros Ha. unfold reference_here, strip. rewrite bool_decide_false; [done|]. by intros <-.
Qed.

Lemma find_all_skip infix s t : find_all infix (s +:+ t) (String.length s) = find_all infix t 0.
Proof. by induction s as [|a s IH]. Qed.

Lemma find_all_lit infix s t :
  no_char "$" s → find_all infix (s +:+ t) 0 = find_all infix t 0.
Proof.
  induction s as [|a s IH]; [done|]. intros [Ha Hs]%no_char_cons.
  cbn [find_all String.append]. rewrite reference_here_lit by done. by apply IH.
Qed.

(** Everything of a reference after its dollar. *)
Definition ref_tail (infix k o : string) : string :=
  "{resources." +:+ k +:+ "." +:+ infix +:+ o +:+ "}".

Lemma templateVar_tail infix k o t :
  templateVar infix k o +:+ t = String "$" (ref_tail infix k o +:+ t).
Proof. reflexivity. Qed.

Lemma ref_tail_no_dollar infix k o :
  known_infix infix → well_formed infix (Ref k o) → no_char "$" (ref_tail infix k o).
Proof.
  intros Hi (_ & _ & _ & _ & [Hk Ho]%no_char_app & _). unfold ref_tail.
  rewrite !no_char_app. by destruct Hi as [-> | ->].
Qed.

Lemma find_all_ref infix k o t :
  well_formed infix (Ref k o) →
  find_all infix (templateVar infix k o +:+ t) 0 = (k, o) :: find_all infix t 0.
Proof.
  intros Hwf. pose proof (reference_here_ref infix k o t Hwf) as Hr.
  rewrite templateVar_tail in *. cbn [find_all]. rewrite Hr. f_equal.
  replace (pred _) with (String.length (ref_tail infix k o)); [apply find_all_skip|].
  cbn [String.length]. rewrite string_length_app. lia.
Qed.

Lemma find_all_other k o t :
  well_formed "" (Ref k o) →
  find_all "outputs." (templateVar "" k o +:+ t) 0 = find_all "outputs." t 0.
Proof.
  intros Hwf. pose proof (reference_here_other k o t Hwf) as Hr.
  rewrite templateVar_tail in *. cbn [find_all]. rewrite Hr. apply find_all_lit, ref_tail_no_dollar; [by left|done].
Qed.

#[local] Arguments find_all : simpl never.

Lemma render_cons infix t ts : render infix (t :: ts) = render_token infix t +:+ render infix ts.
Proof. done. Qed.

Lemma find_all_render infix ts :
  Forall (well_formed infix) ts → find_all infix (render infix ts) 0 = refs ts.
Proof.
  induction 1 as [|t ts Ht Hts IH]; [done|]. rewrite render_cons.
  destruct t as [s|k o]; cbn [render_token];
    [by rewrite find_all_lit|by rewrite find_all_ref, IH].
Qed.

Lemma find_all_render_other ts :
  Forall (well_formed "") ts → find_all "outputs." (render "" ts) 0 = [].
Proof.
  induction 1 as [|t ts Ht Hts IH]; [done|]. rewrite render_cons.
  destruct t as [s|k o]; cbn [render_token]; [by rewrite find_all_lit|by rewrite find_all_other].
Qed.

(** *** Replacement of one reference *)

Lemma templateVar_inj infix k o k' o' r t :
  well_formed infix (Ref k o) → well_formed infix (Ref k' o') →
  templateVar infix k o +:+ r = templateVar infix k' o' +:+ t → k = k' ∧ o = o'.
Proof.
  intros Hwf Hwf' Heq. pose proof (reference_here_ref infix k o r Hwf) as Hr.
  rewrite Heq, reference_here_ref in Hr by done. by injection Hr.
Qed.

Lemma replace_go_skip s t old new :
  replace_go (s +:+ t) old new (String.length s) = replace_go t old new 0.
Proof. by induction s as [|a s IH]. Qed.

Lemma replace_lit infix k o v s t :
  no_char "$" s →
  ReplaceAll (s +:+ t) (templateVar infix k o) v = s +:+ ReplaceAll t (templateVar infix k o) v.
Proof.
  unfold ReplaceAll. induction s as [|a s IH]; [done|]. intros [Ha Hs]%no_char_cons.
  change (templateVar infix k o) with (String "$" (ref_tail infix k o)) in *.
  cbn [replace_go String.append String.prefix].
  destruct (ascii_dec "$" a) as [<-|_]; [done|]. by rewrite IH.
Qed.

Lemma replace_same infix k o v t :
  ReplaceAll (templateVar infix k o +:+ t) (templateVar infix k o) v =
  v +:+ ReplaceAll t (templateVar infix k o) v.
Proof.
  unfold ReplaceAll.
  assert (String.prefix (templateVar infix k o) (templateVar infix k o +:+ t) = true) as Hp
    by (apply prefix_iff; eauto).
  change (templateVar infix k o) with (String "$" (ref_tail infix k o)) in *.
  change (String "$" (ref_tail infix k o) +:+ t) with (String "$" (ref_tail infix k o +:+ t)) in *.
  cbn [replace_go]. rewrite Hp. f_equal. apply replace_go_skip.
Qed.

Lemma replace_other infix k o k' o' v t :
  known_infix infix → well_formed infix (Ref k o) → well_formed infix (Ref k' o') →
  (k, o) ≠ (k', o') →
  ReplaceAll (templateVar infix k' o' +:+ t) (templateVar infix k o) v =
  templateVar infix k' o' +:+ ReplaceAll t (templateVar infix k o) v.
Proof.
  intros Hi Hwf Hwf' Hne.
  assert (String.prefix (templateVar infix k o) (templateVar infix k' o' +:+ t) = false) as Hp.
  { apply not_true_iff_false. rewrite prefix_iff. intros [r Hr]. symmetry in Hr.
    apply templateVar_inj in Hr as [-> ->]; done. }
  pose proof (replace_lit infix k o v (ref_tail infix k' o') t (ref_tail_no_dollar _ _ _ Hi Hwf'))
    as Hlit. unfold ReplaceAll in *.
  change (templateVar infix k' o' +:+ t) with (String "$" (ref_tail infix k' o' +:+ t)) in *.
  cbn [replace_go]. rewrite Hp, Hlit. done.
Qed.

Definition put (k o v : string) (t : token) : token :=
  if bool_decide (t = Ref k o) then Lit v else t.

Lemma replace_render infix k o v ts :
  known_infix infix → well_formed infix (Ref k o) → Forall (well_formed infix) ts →
  ReplaceAll (render infix ts) (templateVar infix k o) v = render infix (put k o v <$> ts).
Proof.
  intros Hi Hwf. induction 1 as [|t ts Ht Hts IH]; [done|].
  rewrite fmap_cons, !render_cons, <- IH. destruct t as [s|k' o']; cbn [render_token put].
  - by apply replace_lit.
  - unfold put. case_bool_decide as Heq; cbn [render_token].
    + injection Heq as -> ->. apply replace_same.
    + apply replace_other; try done. congruence.
Qed.

(** *** The whole template *)

Lemma put_well_formed infix k o v ts :
  no_char "$" v → Forall (well_formed infix) ts → Forall (well_formed infix) (put k o v <$> ts).
Proof.
  intros Hv Hts. apply Forall_fmap. eapply Forall_impl; [exact Hts|]. intros t Ht. simpl.
  unfold put. by case_bool_decide.
Qed.

Lemma put_resolve av k o v ts :
  output_of av k o = Some v →
  mapM (resolve_token av) (put k o v <$> ts) = mapM (resolve_token av) ts.
Proof.
  intros Hv. induction ts as [|t ts IH]; [done|]. cbn. rewrite IH.
  unfold put. case_bool_decide; [subst; simpl; by rewrite Hv|done].
Qed.

Lemma put_refs k o v ts p : p ∈ refs (put k o v <$> ts) → p ∈ refs ts ∧ p ≠ (k, o).
Proof.
  unfold refs. rewrite !list_elem_of_omap. intros (t & (t' & -> & Ht')%list_elem_of_fmap & Hp).
  unfold put in Hp. case_bool_decide as Heq; [done|]. destruct t' as [|k' o']; [done|].
  injection Hp as <-. split; [by exists (Ref k' o')|]. intros [= -> ->]. by apply Heq.
Qed.

Lemma refs_nil_render av infix ts :
  refs ts = [] → mapM (resolve_token av) ts = Some (render_token infix <$> ts).
Proof.
  induction ts as [|[s|k o] ts IH]; [done| |done]. intros Hr. cbn. by rewrite IH.
Qed.

(** The values of the referenced outputs contain no dollar. *)
Definition plain_outputs (av : gmap string (gmap string string)) : Prop :=
  ∀ k o v, output_of av k o = Some v → no_char "$" v.

Lemma substitute_ok infix av ms ts :
  known_infix infix → plain_outputs av → Forall (well_formed infix) ts →
  (∀ p, p ∈ refs ts → p ∈ ms) →
  (∀ k o, (k, o) ∈ ms → well_formed infix (Ref k o) ∧ is_Some (output_of av k o)) →
  ∃ parts, mapM (resolve_token av) ts = Some parts ∧
           substitute infix av ms (render infix ts) = Ok (concat_str parts).
Proof.
  intros Hi Hav. revert ts. induction ms as [|[k o] ms IH]; intros ts Hwf Hrefs Hms.
  - exists (render_token infix <$> ts). split; [|done]. apply refs_nil_render.
    destruct (refs ts) as [|p ps]; [done|]. specialize (Hrefs p). set_solver.
  - destruct (Hms k o) as [Hko [v Hv]]; [by left|].
    destruct (IH (put k o v <$> ts)) as (parts & Hparts & Hsub).
    + apply put_well_formed; [by eapply Hav|done].
    + intros p [Hp Hne]%put_refs. apply Hrefs in Hp. set_solver.
    + intros k' o' Hin. apply Hms. by right.
    + exists parts. rewrite put_resolve in Hparts by done. split; [done|].
      simpl. unfold output_of in Hv. destruct (av !! k) as [m|]; [|done]. simpl in Hv. rewrite Hv.
      by rewrite replace_render.
Qed.

Lemma substitute_missing infix av ms r k o :
  (k, o) ∈ ms → output_of av k o = None → ∃ e, substitute infix av ms r = Err e.
Proof.
  intros Hin Hno. revert r. induction ms as [|[k' o'] ms IH]; intros r; [set_solver|].
  simpl. apply elem_of_cons in Hin as [[= <- <-]|Hin].
  - unfold output_of in Hno. destruct (av !! k) as [m|]; [|eauto]. simpl in Hno. rewrite Hno. eauto.
  - destruct (av !! k') as [m|]; [|eauto]. destruct (m !! o'); eauto.
Qed.

Lemma resolve_refs infix av ts :
  Forall (well_formed infix) ts →
  (∀ k o, (k, o) ∈ refs ts → well_formed infix (Ref k o)) ∧
  match mapM (resolve_token av) ts with
  | Some _ => ∀ k o, (k, o) ∈ refs ts → is_Some (output_of av k o)
  | None => ∃ k o, (k, o) ∈ refs ts ∧ output_of av k o = None
  end.
Proof.
  induction 1 as [|t ts Ht Hts [IHw IH]]; [split; [set_solver|]; simpl; set_solver|].
  destruct t as [s|k o]; cbn.
  - split; [done|]. by destruct (mapM (resolve_token av) ts).
  - split. { intros k' o'. rewrite elem_of_cons. intros [[= -> ->]|?]; [exact Ht|by apply IHw]. }
    destruct (output_of av k o) as [v|] eqn:Hv; cbn.
    + destruct (mapM (resolve_token av) ts); cbn.
      * intros k' o'. rewrite elem_of_cons. intros [[= -> ->]|?]; [eauto|auto].
      * destruct IH as (k' & o' & ? & ?). exists k', o'. split; [by right|done].
    + exists k, o. split; [by left|done].
Qed.

(** Resolving a rendered template. *)
Lemma resolve_render infix av ts :
  known_infix infix → plain_outputs av → Forall (well_formed infix) ts →
  match mapM (resolve_token av) ts with
  | Some parts => resolveValue (render infix ts) av = Ok (concat_str parts)
  | None => ∃ e, resolveValue (render infix ts) av = Err e
  end.
Proof.
  intros Hi Hav Hwf. destruct (resolve_refs infix av ts Hwf) as [Hrw Hr].
  assert (resolveValue (render infix ts) av = substitute infix av (refs ts) (render infix ts)) as ->.
  { unfold resolveValue. destruct Hi as [-> | ->].
    - by rewrite find_all_render_other, find_all_render.
    - rewrite find_all_render by done. destruct (refs ts) as [|p ps] eqn:Hrefs; [|done].
      assert (Forall (well_formed "") ts) as Hwf'.
      { clear - Hwf Hrefs. induction Hwf as [|[s|k o] ts Ht Hts IH]; [done| |done].
        constructor; [done|by apply IH]. }
      assert (render "outputs." ts = render "" ts) as ->.
      { clear - Hrefs. induction ts as [|[s|k o] ts IH]; [done| |done].
        rewrite !render_cons. cbn. by rewrite IH. }
      by rewrite find_all_render, Hrefs. }
  destruct (mapM (resolve_token av) ts) as [parts|] eqn:Hm.
  - destruct (substitute_ok infix av (refs ts) ts) as (parts' & Hp & Hs); auto.
    rewrite Hm in Hp. by injection Hp as <-.
  - destruct Hr as (k & o & Hin & Hno). by eapply substitute_missing.
Qed.

(** C40: Substitution is the concatenation it means to be.  For a template of texts
    and references, all in one of the two formats, whose texts, names and output
    values contain no dollar, [resolveValue] returns the texts with every reference
    replaced by the value of its output, and an error as soon as one output is not
    available; a template without references comes back unchanged. *)
Theorem resolveValue_template infix av ts :
  known_infix infix → plain_outputs av → Forall (well_formed infix) ts →
  match mapM (resolve_token av) ts with
  | Some parts => resolveValue (render infix ts) av = Ok (concat_str parts)
  | None => ∃ e, resolveValue (render infix ts) av = Err e
  end.
Proof. apply resolve_render. Qed.

Lemma resolveValue_template_witness :
  let av := {["db" := {["host" := "db-postgres"; "port" := "5432"]}]} in
  resolveValue "tcp://${resources.db.outputs.host}:${resources.db.outputs.port}/" av
    = Ok "tcp://db-postgres:5432/".
Proof.
  intros av.
  apply (resolveValue_template "outputs." av
    [Lit "tcp://"; Ref "db" "host"; Lit ":"; Ref "db" "port"; Lit "/"]).
  - by right.
  - intros k o v Hv. unfold output_of, av in Hv. rewrite lookup_singleton in Hv.
    case_decide; [|done]. simpl in Hv. apply lookup_insert_Some in Hv as [[_ <-]|[_ Hv]]; [done|].
    apply lookup_singleton_Some in Hv as [_ <-]. done.
  - repeat (constructor; [repeat split; done|]). constructor.
Defined.

(** ** Values that keep a placeholder *)

Lemma MatchString_app_r s t : MatchString t = true → MatchString (s +:+ t) = true.
Proof.
  rewrite !MatchString_iff. intros (pre & b & p & -> & ? & ?). exists (s +:+ pre), b, p.
  by rewrite string_app_assoc.
Qed.

(** A value that uses both formats is only half resolved: once one reference is
    written with ".outputs.", those written without it are left in place even when
    their outputs are available, and the detection then holds the plan back.  The
    same holds for every placeholder that does not refer to a resource. *)
Theorem mixed_formats_unresolved av host :
  output_of av "db" "host" = Some host →
  resolveValue "${resources.db.outputs.host}:${resources.cache.port}" av =
    Ok (host +:+ ":${resources.cache.port}") ∧
  resolveValue "${metadata.name}" av = Ok "${metadata.name}" ∧
  scan (VStr (host +:+ ":${resources.cache.port}")) = true ∧ scan (VStr "${metadata.name}") = true.
Proof.
  intros Hv. unfold output_of in Hv. split_and!; [|reflexivity| |reflexivity].
  - unfold resolveValue.
    change (find_all "outputs." _ 0) with [("db", "host")]. cbv iota beta. simpl.
    destruct (av !! "db") as [m|]; [|done]. simpl in Hv. rewrite Hv. reflexivity.
  - simpl. by apply MatchString_app_r.
Qed.

Lemma mixed_formats_unresolved_witness :
  let av := {["db" := {["host" := "h"]}; "cache" := {["port" := "6379"]}]} in
  resolveValue "${resources.db.outputs.host}:${resources.cache.port}" av =
    Ok "h:${resources.cache.port}".
Proof.
  intros av. apply (mixed_formats_unresolved av "h"). reflexivity.
Defined.

(** ** The resolved environment of a workload *)

(** [env] holds the resolution of every variable of [vars] and nothing else. *)
Definition env_resolved (av : gmap string (gmap string string)) (vars : gmap string string)
    (env : gmap string value) : Prop :=
  ∀ n, match vars !! n with
       | Some v => ∃ r, resolveValue v av = Ok r ∧ env !! n = Some (VStr r)
       | None => env !! n = None
       end.

Definition container_resolved (av : gmap string (gmap string string)) (spec : ContainerSpec)
    (v : value) : Prop :=
  match cs_Variables spec with
  | None => v = VMap ∅
  | Some vars => ∃ env, v = VMap {["env" := VMap env]} ∧ env_resolved av vars env
  end.

Lemma resolve_env_spec name vars av env :
  NoDup vars.*1 →
  match resolve_env name vars av env with
  | Ok env' => ∀ n, match (list_to_map vars : gmap string string) !! n with
                    | Some v => ∃ r, resolveValue v av = Ok r ∧ env' !! n = Some (VStr r)
                    | None => env' !! n = env !! n
                    end
  | Err e => ∃ n v e', (n, v) ∈ vars ∧ resolveValue v av = Err e' ∧
               e = EWrap ("failed to resolve env var " +:+ n +:+ " in container " +:+ name) e'
  end.
Proof.
  revert env. induction vars as [|[n v] vars IH]; intros env; [done|].
  rewrite fmap_cons, NoDup_cons. intros [Hn Hnd]. cbn [resolve_env list_to_map].
  destruct (resolveValue v av) as [r|e'] eqn:Hv; [|exists n, v, e'; split; [by left|done]].
  specialize (IH (<[n := VStr r]> env) Hnd). destruct (resolve_env _ _ _ _) as [env'|e].
  - intros n'. specialize (IH n'). cbn. destruct (decide (n = n')) as [->|Hne].
    + rewrite lookup_insert_eq. rewrite not_elem_of_list_to_map_1 in IH by done.
      rewrite lookup_insert_eq in IH. eauto.
    + rewrite lookup_insert_ne by done. by rewrite lookup_insert_ne in IH by done.
  - destruct IH as (n' & v' & e' & Hin & ?). exists n', v', e'. split; [by right|done].
Qed.

Lemma resolve_env_map name m av :
  match resolve_env name (map_to_list m) av ∅ with
  | Ok env => env_resolved av m env
  | Err e => ∃ n v e', m !! n = Some v ∧ resolveValue v av = Err e' ∧
               e = EWrap ("failed to resolve env var " +:+ n +:+ " in container " +:+ name) e'
  end.
Proof.
  pose proof (resolve_env_spec name (map_to_list m) av ∅ (NoDup_fst_map_to_list m)) as Hs.
  destruct (resolve_env _ _ _ _) as [env|e].
  - intros n. specialize (Hs n). by rewrite list_to_map_to_list, lookup_empty in Hs.
  - destruct Hs as (n & v & e' & Hin & Hr). apply elem_of_map_to_list in Hin. by exists n, v, e'.
Qed.

Lemma resolve_containers_spec cs av acc :
  NoDup cs.*1 →
  match resolve_containers cs av acc with
  | Ok out => ∀ c, match (list_to_map cs : gmap string ContainerSpec) !! c with
                   | Some spec => ∃ v, out !! c = Some v ∧ container_resolved av spec v
                   | None => out !! c = acc !! c
                   end
  | Err e => ∃ c spec vars n v e', (c, spec) ∈ cs ∧ cs_Variables spec = Some vars ∧
               vars !! n = Some v ∧ resolveValue v av = Err e' ∧
               e = EWrap ("failed to resolve env var " +:+ n +:+ " in container " +:+ c) e'
  end.
Proof.
  revert acc. induction cs as [|[c spec] cs IH]; intros acc; [done|].
  rewrite fmap_cons, NoDup_cons. intros [Hc Hnd]. cbn [resolve_containers list_to_map].
  assert (∀ w, container_resolved av spec w →
    match resolve_containers cs av (<[c := w]> acc) with
    | Ok out => ∀ c', match ((<[c := spec]> (list_to_map cs) : gmap string ContainerSpec)) !! c' with
                      | Some spec => ∃ v, out !! c' = Some v ∧ container_resolved av spec v
                      | None => out !! c' = acc !! c'
                      end
    | Err e => ∃ c' spec' vars n v e', (c', spec') ∈ (c, spec) :: cs ∧
        cs_Variables spec' = Some vars ∧ vars !! n = Some v ∧ resolveValue v av = Err e' ∧
        e = EWrap ("failed to resolve env var " +:+ n +:+ " in container " +:+ c') e'
    end) as Hrest.
  { intros w Hw. specialize (IH (<[c := w]> acc) Hnd).
    destruct (resolve_containers _ _ _) as [out|e].
    - intros c'. specialize (IH c'). destruct (decide (c = c')) as [->|Hne].
      + rewrite lookup_insert_eq. rewrite not_elem_of_list_to_map_1 in IH by done.
        rewrite lookup_insert_eq in IH. eauto.
      + rewrite lookup_insert_ne by done. by rewrite lookup_insert_ne in IH by done.
    - destruct IH as (c' & s & vars & n & v & e' & Hin & ?).
      exists c', s, vars, n, v, e'. split; [by right|done]. }
  destruct (cs_Variables spec) as [vars|] eqn:Hvars;
    [|apply Hrest; unfold container_resolved; by rewrite Hvars].
  pose proof (resolve_env_map c vars av) as Henv. destruct (resolve_env _ _ _ _) as [env|e].
  - apply Hrest. unfold container_resolved. rewrite Hvars. eauto.
  - destruct Henv as (n & v & e' & ? & ? & ->). exists c, spec, vars, n, v, e'.
    split; [by left|done].
Qed.

(** The resolved values of a workload are the resolution of its environment,
    in whatever order the containers are visited: on success there is exactly one
    entry per container, whose env (present exactly when the container declares
    variables) maps every variable to its resolution; it fails exactly because some
    variable does not resolve, and the error names that variable and container. *)
Theorem resolve_containers_correct m cs av :
  cs ≡ₚ map_to_list m →
  match resolve_containers cs av ∅ with
  | Ok out => ∀ c, match m !! c with
                   | Some spec => ∃ v, out !! c = Some v ∧ container_resolved av spec v
                   | None => out !! c = None
                   end
  | Err e => ∃ c spec vars n v e', m !! c = Some spec ∧ cs_Variables spec = Some vars ∧
               vars !! n = Some v ∧ resolveValue v av = Err e' ∧
               e = EWrap ("failed to resolve env var " +:+ n +:+ " in container " +:+ c) e'
  end.
Proof.
  intros Hcs. assert (NoDup cs.*1) as Hnd by (rewrite Hcs; apply NoDup_fst_map_to_list).
  pose proof (resolve_containers_spec cs av ∅ Hnd) as Hs.
  assert (list_to_map cs = m) as Hm.
  { rewrite (list_to_map_proper cs (map_to_list m)) by done. apply list_to_map_to_list. }
  destruct (resolve_containers _ _ _) as [out|e].
  - intros c. specialize (Hs c). by rewrite Hm, lookup_empty in Hs.
  - destruct Hs as (c & spec & vars & n & v & e' & Hin & ?). exists c, spec, vars, n, v, e'.
    split; [|done]. apply elem_of_map_to_list. by rewrite <- Hcs.
Qed.

Lemma resolve_containers_correct_witness :
  ∃ e, resolve_containers
    [("main", {| cs_Image := "i"; cs_Command := []; cs_Args := [];
                 cs_Variables := Some {["URL" := "${resources.db.uri}"]}; cs_Files := [];
                 cs_LivenessProbe := None; cs_ReadinessProbe := None; cs_Resources := None |})]
    ∅ ∅ = Err (EWrap "failed to resolve env var URL in container main" e).
Proof.
  set (spec := {| cs_Image := "i" |}).
  pose proof (resolve_containers_correct {["main" := spec]} [("main", spec)] ∅) as Hc.
  rewrite map_to_list_singleton in Hc. specialize (Hc (reflexivity _)).
  assert (∃ e, resolve_containers [("main", spec)] ∅ ∅ = Err e) as [e He] by (by eexists).
  rewrite He in Hc |- *. destruct Hc as (c & sp & vars & n & v & e' & Hm & Hvars & Hn & _ & ->).
  apply lookup_singleton_Some in Hm as [<- <-]. injection Hvars as <-.
  apply lookup_singleton_Some in Hn as [<- <-]. by exists e'.
Defined.

(** A claim that announces outputs has them. *)
Definition outputs_present (claim : ResourceClaim) : Prop :=
  rst_OutputsAvailable (rc_Status claim) = true → is_Some (rst_Outputs (rc_Status claim)).

(** Then building the outputs does not dereference nil. *)
Lemma claim_outputs_wp E claim past :
  is_Some (rst_Outputs (rc_Status claim)) → wp E (claim_outputs claim) past (λ _ _, True).
Proof.
  intros [o Ho]. unfold claim_outputs. rewrite Ho. simpl.
  destruct (rco_SecretRef o); [|done]. by intros r _.
Qed.

Lemma buildResolvedOutputsMap_wp E claims av past :
  Forall outputs_present claims →
  wp E (buildResolvedOutputsMap claims av) past (λ _ _, True).
Proof.
  intros Hall. revert av past. induction Hall as [|c cs Hc Hcs IH]; intros av past; [done|].
  cbn [buildResolvedOutputsMap]. destruct (rst_OutputsAvailable (rc_Status c)) eqn:Hav; [|done].
  rewrite wp_bind. eapply wp_mono; [done| |by apply claim_outputs_wp, Hc]. auto.
Qed.

Lemma resolveAllPlaceholders_wp E workload claims past :
  Forall outputs_present claims →
  wp E (resolveAllPlaceholders workload claims) past (λ _ _, True).
Proof.
  intros Hall. unfold resolveAllPlaceholders. rewrite wp_bind.
  eapply wp_mono; [done| |by apply buildResolvedOutputsMap_wp]. done.
Qed.

(** Building the outputs reads Secrets and nothing else. *)
Lemma buildResolvedOutputsMap_fetches claims av :
  every_call fetches (buildResolvedOutputsMap claims av).
Proof.
  revert av. induction claims as [|claim claims IH]; intros av; simpl; [done|].
  case_match; [|by apply IH]. apply every_call_bind; [|intros; apply IH].
  unfold claim_outputs. calls. done.
Qed.

Lemma resolveAllPlaceholders_fetches workload claims :
  every_call fetches (resolveAllPlaceholders workload claims).
Proof.
  unfold resolveAllPlaceholders. calls. apply buildResolvedOutputsMap_fetches.
Qed.

Lemma resolveAllPlaceholders_reads workload claims :
  read_only (resolveAllPlaceholders workload claims).
Proof. apply fetches_reads, resolveAllPlaceholders_fetches. Qed.
