(* ===== verification/Values.v ===== *)
(** * Values: [internal/reconcile/values.go]

    The composition rule of the template values: defaults, then the normalised
    workload, then the outputs of the claims, merged with right-hand precedence.
    A [map[string]string], a [[]string] and the other typed containers are not
    [map[string]interface{}] and are therefore [VTyped]. *)
From S2P Require Import Prelude GoStrings Json K8s Api Client Placeholders.

Definition VInt (z : Z) : value := VNum (FormatInt z).
Definition VStrings (m : gmap string string) : value := VTyped (VMap (VStr <$> m)).

(** ** mergeMaps *)

(** What the loop of [mergeMaps] stores for a key: [existing] is the value the
    result has for it so far.  [mergeMaps(existingMap, valueMap)] first copies
    [existingMap] into an empty map and then runs the loop over [valueMap]. *)
Fixpoint merge_value (val : value) (existing : option value) : value :=
  match val, existing with
  | VMap valueMap, Some (VMap existingMap) =>
      VMap (map_fold (λ key v result, <[key := merge_value v (result !! key)]> result)
              existingMap valueMap)
  | _, _ => val
  end.

Definition merge_into (result m : gmap string value) : gmap string value :=
  map_fold (λ key v result, <[key := merge_value v (result !! key)]> result) result m.

Definition mergeMaps (maps : list (gmap string value)) : gmap string value :=
  foldl merge_into ∅ maps.

(** ** normalizeWorkload *)

Definition put_if (c : bool) (k : string) (v : value) (m : gmap string value) :
    gmap string value := if c then <[k := v]> m else m.

Definition put_opt {A} (f : A → value) (k : string) (o : option A) (m : gmap string value) :
    gmap string value := match o with Some a => <[k := f a]> m | None => m end.

(** A [FileSpec] as its JSON tags encode it. *)
Definition file_value (f : FileSpec) : value :=
  VTyped (VMap
    (put_opt VStr "binaryContent" (fs_BinaryContent f)
    (put_opt VStr "content" (fs_Content f)
    (put_opt (λ s, VMap {["uri" := VStr (fss_URI s)]}) "source" (fs_Source f)
    (put_opt VStr "mode" (fs_Mode f) {["target" := VStr (fs_Target f)]}))))).

Definition normalize_container (container : ContainerSpec) : value :=
  VMap
    (put_if (negb (bool_decide (length (cs_Files container) = 0))) "files"
       (VTyped (VArr (file_value <$> cs_Files container)))
    (put_if (negb (bool_decide (size (default ∅ (cs_Variables container)) = 0))) "env"
       (VStrings (default ∅ (cs_Variables container)))
    (put_if (negb (bool_decide (length (cs_Args container) = 0))) "args"
       (VTyped (VArr (VStr <$> cs_Args container)))
    (put_if (negb (bool_decide (length (cs_Command container) = 0))) "command"
       (VTyped (VArr (VStr <$> cs_Command container)))
       {["image" := VStr (cs_Image container)]})))).

Definition normalize_port (port : ServicePort) : value :=
  VMap (put_opt VInt "targetPort" (sp_TargetPort port)
       (put_if (negb (bool_decide (sp_Protocol port = ""))) "protocol" (VStr (sp_Protocol port))
          {["port" := VInt (sp_Port port)]})).

Definition normalize_service (service : ServiceSpec) : value :=
  VMap (put_if (negb (bool_decide (length (ss_Ports service) = 0))) "ports"
          (VTyped (VArr (normalize_port <$> ss_Ports service))) ∅).

Definition normalize_resource (resource : ResourceSpec) : value :=
  VMap (put_opt (λ v, v) "params" (rs_Params resource ≫= Unmarshal)
       (put_opt VStr "class" (rs_Class resource) {["type" := VStr (rs_Type resource)]})).

Definition normalizeWorkload (workload : Workload) : gmap string value :=
  let spec := wl_Spec workload in
  let meta := wl_ObjectMeta workload in
  put_opt VStrings "annotations" (om_Annotations meta)
  (put_opt VStrings "labels" (om_Labels meta)
  (<["namespace" := VStr (om_Namespace meta)]>
  (<["name" := VStr (om_Name meta)]>
  (put_if (negb (bool_decide (size (ws_Resources spec) = 0))) "resources"
     (VMap (normalize_resource <$> ws_Resources spec))
  (put_opt normalize_service "service" (ws_Service spec)
  (put_if (negb (bool_decide (size (ws_Containers spec) = 0))) "containers"
     (VMap (normalize_container <$> ws_Containers spec)) ∅)))))).

(** ** extractOutputs *)

Definition named_ref (r : LocalObjectReference) : value := VMap {["name" := VStr (lor_Name r)]}.

(** A [map[string][]byte] is encoded with base64 strings. *)
Definition cert_value (cert : CertificateOutput) : value :=
  VMap (put_opt (λ d, VTyped (VMap ((λ b, VStr (base64 false b)) <$> d))) "data" (co_Data cert)
       (put_opt VStr "secretName" (co_SecretName cert) ∅)).

Definition output_values (o : ResourceClaimOutputs) : gmap string value :=
  put_opt cert_value "cert" (rco_Cert o)
  (put_opt VStr "image" (rco_Image o)
  (put_opt VStr "uri" (rco_URI o)
  (put_opt named_ref "configMapRef" (rco_ConfigMapRef o)
  (put_opt named_ref "secretRef" (rco_SecretRef o) ∅)))).

(** [None] is the dereference of nil outputs. *)
Fixpoint extract_resources (claims : list ResourceClaim) (resources : gmap string value) :
    option (gmap string value) :=
  match claims with
  | [] => Some resources
  | claim :: claims =>
      if rst_OutputsAvailable (rc_Status claim)
      then o ← rst_Outputs (rc_Status claim);
           let resourceOutputs := output_values o in
           extract_resources claims
             (if negb (bool_decide (size resourceOutputs = 0))
              then <[rcs_Key (rc_Spec claim) := VMap {["outputs" := VMap resourceOutputs]}]>
                     resources
              else resources)
      else extract_resources claims resources
  end.

Definition extractOutputs (claims : list ResourceClaim) : option (gmap string value) :=
  if bool_decide (length claims = 0) then Some ∅
  else resources ← extract_resources claims ∅;
       Some (put_if (negb (bool_decide (size resources = 0))) "resources" (VMap resources) ∅).

(** ** composeValues *)

(** [Raw] is nil, or is parsed into a map: [null] leaves the map empty, and any other
    value is an error. *)
Definition defaults_map (defaults : option RawJSON) : res (gmap string value) :=
  match defaults with
  | None | Some RawEmpty => Ok ∅
  | Some raw =>
      match Unmarshal raw with
      | Some (VMap m) => Ok m
      | Some VNull => Ok ∅
      | _ => Err (EWrap "failed to unmarshal defaults" (ENew "cannot unmarshal"))
      end
  end.

Definition composeValues (defaults : option RawJSON) (workload : Workload)
    (claims : list ResourceClaim) : option (res RawJSON) :=
  match defaults_map defaults with
  | Err e => Some (Err e)
  | Ok defaultsMap =>
      outputsMap ← extractOutputs claims;
      Some (Ok (Marshal (VMap (mergeMaps [defaultsMap; normalizeWorkload workload; outputsMap]))))
  end.

(** ** Theorems on the merge *)

Lemma merge_into_lookup r m k :
  merge_into r m !! k = match m !! k with
                        | Some v => Some (merge_value v (r !! k))
                        | None => r !! k
                        end.
Proof.
  unfold merge_into. induction m as [|i x m Hi Hfirst IH] using map_first_key_ind.
  - by rewrite map_fold_empty, lookup_empty.
  - rewrite map_fold_insert_first_key by done.
    destruct (decide (i = k)) as [->|Hne].
    + rewrite !lookup_insert_eq. by rewrite IH, Hi.
    + by rewrite !lookup_insert_ne by done.
Qed.

Lemma merge_value_map m e : merge_value (VMap m) (Some (VMap e)) = VMap (merge_into e m).
Proof. done. Qed.

Lemma merge_into_empty m : merge_into ∅ m = m.
Proof.
  apply map_eq. intros k. rewrite merge_into_lookup, lookup_empty.
  destruct (m !! k) as [[]|]; done.
Qed.

Lemma mergeMaps_three a b c : mergeMaps [a; b; c] = merge_into (merge_into a b) c.
Proof. unfold mergeMaps. simpl. by rewrite merge_into_empty. Qed.

(** The value at a path of keys; an empty path is the value itself. *)
Fixpoint at_path (v : value) (p : list string) : option value :=
  match p with
  | [] => Some v
  | k :: p => match v with VMap m => x ← m !! k; at_path x p | _ => None end
  end.

Definition is_map (v : value) : bool := match v with VMap _ => true | _ => false end.

(** [p] leads through maps of [v] to a key that is absent from the last one. *)
Fixpoint misses (v : value) (p : list string) : Prop :=
  match p with
  | [] => False
  | k :: p => match v with
              | VMap m => match m !! k with Some x => misses x p | None => True end
              | _ => False
              end
  end.

Lemma merge_right v e p x :
  at_path v p = Some x → is_map x = false → at_path (merge_value v e) p = Some x.
Proof.
  revert v e. induction p as [|k p IH]; intros v e.
  - intros [= ->] Hx. by destruct x, e as [[]|].
  - destruct v as [| | | | |m|]; try done. intros Hp Hx.
    destruct e as [[| | | | |m'|]|]; try done. rewrite merge_value_map.
    cbn [at_path] in *. rewrite merge_into_lookup. destruct (m !! k) as [y|]; [|done].
    by apply IH.
Qed.

Lemma merge_left v e p x :
  misses v p → at_path e p = Some x → at_path (merge_value v (Some e)) p = Some x.
Proof.
  revert v e. induction p as [|k p IH]; intros v e; [done|].
  destruct v as [| | | | |m|]; try done. destruct e as [| | | | |m'|]; try done.
  rewrite merge_value_map. cbn [at_path misses]. rewrite merge_into_lookup.
  destruct (m !! k) as [y|]; [|done]. intros Hmiss.
  destruct (m' !! k) as [z|]; [|done]. cbn. by apply IH.
Qed.

(** The composition gives precedence to the right at every depth: a value that
    is not a map is the one of the outputs if they have it at that path, else the
    one of the workload, else the one of the defaults. *)
Theorem mergeMaps_precedence d w o p x :
  is_map x = false →
  (at_path (VMap o) p = Some x → at_path (VMap (mergeMaps [d; w; o])) p = Some x) ∧
  (misses (VMap o) p → at_path (VMap w) p = Some x →
     at_path (VMap (mergeMaps [d; w; o])) p = Some x) ∧
  (misses (VMap o) p → misses (VMap w) p → at_path (VMap d) p = Some x →
     at_path (VMap (mergeMaps [d; w; o])) p = Some x).
Proof.
  intros Hx. rewrite mergeMaps_three. rewrite <- !merge_value_map. split_and!.
  - intros Ho. by apply merge_right.
  - intros Ho Hw. apply merge_left; [done|]. by apply merge_right.
  - intros Ho Hw Hd. apply merge_left; [done|]. by apply merge_left.
Qed.

Lemma mergeMaps_precedence_witness :
  let d := {["main" := VMap {["image" := VStr "old"; "replicas" := VInt 2]}]} in
  let w := {["main" := VMap {["image" := VStr "new"]}]} in
  at_path (VMap (mergeMaps [d; w; ∅])) ["main"; "image"] = Some (VStr "new") ∧
  at_path (VMap (mergeMaps [d; w; ∅])) ["main"; "replicas"] = Some (VInt 2).
Proof.
  intros d w. split.
  - apply (proj1 (proj2 (mergeMaps_precedence d w ∅ ["main"; "image"] (VStr "new") eq_refl)));
      [exact I|reflexivity].
  - apply (proj2 (proj2 (mergeMaps_precedence d w ∅ ["main"; "replicas"] (VInt 2) eq_refl)));
      [exact I|exact I|reflexivity].
Defined.

(** ** What the composed values contain *)

(** Reading JSON back keeps every ASCII path. *)
Lemma at_path_erase v p x :
  Forall (λ k, str_forall is_ascii k = true) p →
  at_path v p = Some x → at_path (json_erase v) p = Some (json_erase x).
Proof.
  intros Hp. revert v. induction Hp as [|k p Hk _ IH]; intros v; cbn [at_path]; [by intros [= ->]|].
  destruct v as [| | | | |m|]; try done. cbn [json_erase]. rewrite json_keys_ascii, lookup_fmap by done.
  destruct (m !! k) as [y|]; [|done]. apply IH.
Qed.

Lemma extract_resources_some claims acc :
  is_Some (extract_resources claims acc) ↔ Forall outputs_present claims.
Proof.
  revert acc. induction claims as [|c cs IH]; intros acc; simpl; [rewrite Forall_nil; naive_solver|].
  rewrite Forall_cons. unfold outputs_present at 1.
  destruct (rst_OutputsAvailable (rc_Status c)); [|rewrite IH; naive_solver].
  destruct (rst_Outputs (rc_Status c)); simpl; [rewrite IH; naive_solver|].
  split; [by intros []|]. intros [Ho _]. by destruct Ho.
Qed.

Lemma extractOutputs_some claims :
  is_Some (extractOutputs claims) ↔ Forall outputs_present claims.
Proof.
  rewrite <- (extract_resources_some claims ∅). unfold extractOutputs.
  destruct claims as [|c cs]; [done|]. cbn [length]. rewrite bool_decide_false by done.
  destruct (extract_resources (c :: cs) ∅); simpl; [done|]. by split; intros [].
Qed.

Lemma extractOutputs_keys claims o k :
  extractOutputs claims = Some o → k ≠ "resources" → o !! k = None.
Proof.
  unfold extractOutputs. case_bool_decide; [intros [= <-] _; apply lookup_empty|].
  destruct (extract_resources claims ∅) as [r|]; [|done]. intros [= <-] Hk. unfold put_if.
  case_match; [by rewrite lookup_insert_ne|apply lookup_empty].
Qed.

Lemma lookup_put_if_ne c k k' v m : k ≠ k' → put_if c k v m !! k' = m !! k'.
Proof. intros. unfold put_if. destruct c; [by rewrite lookup_insert_ne|done]. Qed.

Lemma lookup_put_opt_ne {A} (f : A → value) k k' o m : k ≠ k' → put_opt f k o m !! k' = m !! k'.
Proof. intros. destruct o; simpl; [by rewrite lookup_insert_ne|done]. Qed.

Lemma normalize_name workload :
  normalizeWorkload workload !! "name" = Some (VStr (om_Name (wl_ObjectMeta workload))) ∧
  normalizeWorkload workload !! "namespace" = Some (VStr (om_Namespace (wl_ObjectMeta workload))).
Proof.
  unfold normalizeWorkload. split; rewrite !lookup_put_opt_ne by done.
  - rewrite lookup_insert_ne by done. apply lookup_insert_eq.
  - apply lookup_insert_eq.
Qed.

Lemma normalize_containers workload c spec :
  ws_Containers (wl_Spec workload) !! c = Some spec →
  at_path (VMap (normalizeWorkload workload)) ["containers"; c] = Some (normalize_container spec).
Proof.
  intros Hc. unfold normalizeWorkload. cbn [at_path].
  rewrite !lookup_put_opt_ne, !lookup_insert_ne, lookup_put_if_ne, lookup_put_opt_ne by done.
  unfold put_if. rewrite bool_decide_false.
  - cbn [negb]. rewrite lookup_insert_eq. cbn. by rewrite lookup_fmap, Hc.
  - rewrite map_size_empty_iff. intros Hempty. by rewrite Hempty, lookup_empty in Hc.
Qed.

Lemma normalize_container_image spec :
  at_path (normalize_container spec) ["image"] = Some (VStr (cs_Image spec)).
Proof.
  unfold normalize_container. cbn [at_path]. rewrite !lookup_put_if_ne by done.
  by rewrite lookup_singleton_eq.
Qed.

Lemma normalize_container_env spec vars :
  cs_Variables spec = Some vars → vars ≠ ∅ →
  at_path (normalize_container spec) ["env"] = Some (VStrings vars).
Proof.
  intros Hv Hne. unfold normalize_container. cbn [at_path]. rewrite lookup_put_if_ne by done.
  rewrite Hv. unfold put_if at 1. simpl. rewrite bool_decide_false; [|by rewrite map_size_empty_iff].
  simpl. by rewrite lookup_insert_eq.
Qed.

Lemma at_path_app v p q : at_path v (p ++ q) = (x ← at_path v p; at_path x q).
Proof.
  revert v. induction p as [|k p IH]; intros v; [done|]. simpl. destruct v; try done.
  destruct (m !! k); simpl; [apply IH|done].
Qed.

(** Composing the values succeeds for every workload whose claims carry the
    outputs they announce and whose defaults parse as an object, and the result, read
    back as JSON text, has the name and the namespace of the workload, and for every
    container with an ASCII name its image and, when it declares variables, exactly
    those variables: the env of the defaults is replaced as a whole, not merged, unlike
    the other maps. *)
Theorem composeValues_content defaults workload claims d :
  defaults_map defaults = Ok d → Forall outputs_present claims →
  ∃ raw r, composeValues defaults workload claims = Some (Ok raw) ∧ Unmarshal raw = Some r ∧
    at_path r ["name"] = Some (json_erase (VStr (om_Name (wl_ObjectMeta workload)))) ∧
    at_path r ["namespace"] = Some (json_erase (VStr (om_Namespace (wl_ObjectMeta workload)))) ∧
    ∀ c spec, ws_Containers (wl_Spec workload) !! c = Some spec → str_forall is_ascii c = true →
      at_path r ["containers"; c; "image"] = Some (json_erase (VStr (cs_Image spec))) ∧
      (∀ vars, cs_Variables spec = Some vars → vars ≠ ∅ →
         at_path r ["containers"; c; "env"] = Some (json_erase (VStrings vars))).
Proof.
  intros Hd Hcl. apply extractOutputs_some in Hcl as [o Ho].
  set (w := normalizeWorkload workload).
  assert (∀ k p x, Forall (λ k, str_forall is_ascii k = true) (k :: p) → k ≠ "resources" → is_map x = false → at_path (VMap w) (k :: p) = Some x →
    at_path (json_erase (VMap (mergeMaps [d; w; o]))) (k :: p) = Some (json_erase x)) as Hat.
  { intros k p x Hp Hk Hx Hw. apply at_path_erase; [done|]. rewrite mergeMaps_three, <- !merge_value_map.
    apply merge_left; [|by apply merge_right]. cbn. by rewrite (extractOutputs_keys _ _ _ Ho Hk). }
  exists (Marshal (VMap (mergeMaps [d; w; o]))), (json_erase (VMap (mergeMaps [d; w; o]))).
  split_and!.
  - unfold composeValues. by rewrite Hd, Ho.
  - apply Unmarshal_Marshal.
  - apply (Hat "name" [] (VStr _)); [by repeat constructor|done..|]. unfold w. cbn [at_path].
    by rewrite (proj1 (normalize_name workload)).
  - apply (Hat "namespace" [] (VStr _)); [by repeat constructor|done..|]. unfold w. cbn [at_path].
    by rewrite (proj2 (normalize_name workload)).
  - intros c spec Hc Hascii. pose proof (normalize_containers _ _ _ Hc) as Hn.
    assert (∀ k x, str_forall is_ascii k = true → is_map x = false → at_path (normalize_container spec) [k] = Some x →
      at_path (json_erase (VMap (mergeMaps [d; w; o]))) ["containers"; c; k] = Some (json_erase x))
      as Hin.
    { intros k x Hka Hx Hk. apply Hat; [by repeat constructor|done..|]. change ["containers"; c; k] with (["containers"; c] ++ [k]).
      rewrite at_path_app. unfold w. rewrite Hn. exact Hk. }
    split.
    + apply (Hin "image" (VStr _)); [done..|apply normalize_container_image].
    + intros vars Hv Hne. apply (Hin "env" (VStrings vars)); [done..|].
      by apply normalize_container_env.
Qed.

Lemma composeValues_content_witness :
  let container := {| cs_Image := "nginx"; cs_Command := []; cs_Args := [];
    cs_Variables := Some {["PORT" := "80"]}; cs_Files := []; cs_LivenessProbe := None;
    cs_ReadinessProbe := None; cs_Resources := None |} in
  let workload := {| wl_ObjectMeta := ObjectMeta_zero;
    wl_Spec := {| ws_Profile := None; ws_Containers := {["main" := container]};
                  ws_Service := None; ws_Resources := ∅ |};
    wl_Status := {| wst_Endpoint := None; wst_Conditions := []; wst_Claims := [] |} |} in
  let d := {["containers" := VMap {["main" := VMap {["env" := VMap {["DEBUG" := VStr "1"]}]}]}]} in
  ∃ raw r, composeValues (Some (RawValue (VMap d))) workload [] = Some (Ok raw) ∧
    Unmarshal raw = Some r ∧
    at_path r ["containers"; "main"; "env"] = Some (VMap {["PORT" := VStr "80"]}).
Proof.
  intros container workload d.
  destruct (composeValues_content (Some (RawValue (VMap d))) workload [] d eq_refl)
    as (raw & r & Hraw & Hr & _ & _ & Hc); [constructor|].
  exists raw, r. split_and!; [done..|].
  destruct (Hc "main" container eq_refl eq_refl) as [_ Henv].
  by rewrite (Henv {["PORT" := "80"]} eq_refl).
Defined.
