(* ===== verification/Claims.v ===== *)
(** * Claims: [internal/controller/managers/claim_manager.go] and
    [internal/reconcile/claim.go]

    One ResourceClaim per resource of a workload.  The order in which Go visits the
    map of resources is the argument [order]. *)
From S2P Require Import Prelude GoStrings Json K8s Api Client Conditions.

Definition IndexResourceClaimByWorkload := "resourceclaim.workloadRef".
Definition IndexWorkloadPlanByWorkload := "workloadplan.workloadRef".

Definition claim_name (workload : Workload) (key : string) : string :=
  om_Name (wl_ObjectMeta workload) +:+ "-" +:+ key.

Definition workload_ns (workload : Workload) : string := om_Namespace (wl_ObjectMeta workload).

Definition desired_claim_spec (workload : Workload) (key : string) (resource : ResourceSpec) :
    ResourceClaimSpec :=
  {| rcs_WorkloadRef := {| nn_Name := om_Name (wl_ObjectMeta workload);
                           nn_Namespace := workload_ns workload |};
     rcs_Key := key; rcs_Type := rs_Type resource; rcs_Class := rs_Class resource;
     rcs_ID := None; rcs_Params := rs_Params resource; rcs_DeprovisionPolicy := None |}.

(** Two optional strings: both absent, or both present with the same text. *)
Definition opt_string_equal (a b : option string) : bool :=
  match a, b with
  | None, None => true
  | Some x, Some y => bool_decide (x = y)
  | _, _ => false
  end.

Definition resourceClaimSpecEqual (a b : ResourceClaimSpec) : bool :=
  if negb (bool_decide (rcs_WorkloadRef a = rcs_WorkloadRef b)) ||
     negb (bool_decide (rcs_Key a = rcs_Key b)) || negb (bool_decide (rcs_Type a = rcs_Type b))
  then false
  else if negb (opt_string_equal (rcs_Class a) (rcs_Class b)) then false
  else if negb (opt_string_equal (rcs_ID a) (rcs_ID b)) then false
  else match rcs_Params a, rcs_Params b with
       | None, None | Some _, Some _ => true
       | _, _ => false
       end.

Definition ResourceClaimStatus_zero : ResourceClaimStatus :=
  {| rst_Phase := ResourceClaimPhaseEmpty; rst_Reason := ""; rst_Message := "";
     rst_Outputs := None; rst_OutputsAvailable := false; rst_ObservedGeneration := 0;
     rst_LastTransitionTime := None |}.

Definition new_claim (workload : Workload) (key : string) (resource : ResourceSpec) :
    ResourceClaim :=
  {| rc_ObjectMeta := {| ObjectMeta_zero with
       om_Name := claim_name workload key;
       om_Namespace := workload_ns workload;
       om_Labels := Some {["score.dev/workload" := om_Name (wl_ObjectMeta workload);
                           "score.dev/key" := key]} |};
     rc_Spec := desired_claim_spec workload key resource;
     rc_Status := ResourceClaimStatus_zero |}.

Section claims.
Context `{!Scheme}.

(** The two variants of the upsert differ in how they set the owner. *)
Definition upsert_with (set_owner : ResourceClaim → res ResourceClaim)
    (workload : Workload) (key : string) (resource : ResourceSpec) : prog (res ()) :=
  let claimName := claim_name workload key in
  r ← ask (Get KResourceClaim (workload_ns workload, claimName));
  match (r : res ResourceClaim) with
  | Err err =>
      if negb (IsNotFound err)
      then mret (Err (EWrap ("failed to get ResourceClaim " +:+ claimName) err))
      else match set_owner (new_claim workload key resource) with
           | Err err => mret (Err err)
           | Ok claim =>
               r ← ask (Create KResourceClaim claim);
               match (r : res ResourceClaim) with
               | Err err => mret (Err (EWrap "failed to create ResourceClaim" err))
               | Ok _ => mret (Ok ())
               end
           end
  | Ok claim =>
      let desiredSpec := desired_claim_spec workload key resource in
      if negb (resourceClaimSpecEqual (rc_Spec claim) desiredSpec)
      then
        r ← ask (Update KResourceClaim {| claim with rc_Spec := desiredSpec |});
        match (r : res ResourceClaim) with
        | Err err => mret (Err (EWrap "failed to update ResourceClaim" err))
        | Ok _ => mret (Ok ())
        end
      else mret (Ok ())
  end.

Definition set_claim_owner (workload : Workload) (claim : ResourceClaim) : res ResourceClaim :=
  match GVKForObject KWorkload with
  | Err err => Err (EWrap "failed to get GVK for workload" err)
  | Ok (apiVersion, kind) =>
      Ok {| claim with rc_ObjectMeta := {| (rc_ObjectMeta claim) with om_OwnerReferences :=
        [{| or_APIVersion := apiVersion; or_Kind := kind;
            or_Name := om_Name (wl_ObjectMeta workload);
            or_UID := om_UID (wl_ObjectMeta workload);
            or_Controller := Some true; or_BlockOwnerDeletion := Some false |}] |} |}
  end.

(** [ClaimManager.upsertResourceClaim] *)
Definition upsertResourceClaim (workload : Workload) :
    string → ResourceSpec → prog (res ()) :=
  upsert_with (set_claim_owner workload) workload.

Fixpoint ensure_claims (upsert : string → ResourceSpec → prog (res ()))
    (order : list (string * ResourceSpec)) : prog (res ()) :=
  match order with
  | [] => mret (Ok ())
  | (key, resource) :: order =>
      wrap ("failed to upsert ResourceClaim for key " +:+ quote key) (upsert key resource) ;;?
      ensure_claims upsert order
  end.

Definition EnsureClaims (order : list (string * ResourceSpec)) (workload : Workload) :
    prog (res ()) :=
  ensure_claims (upsertResourceClaim workload) order.

Definition getResourceClaimsWithoutIndex (workload : Workload) : prog (res (list ResourceClaim)) :=
  ask (ListByLabel KResourceClaim (workload_ns workload) "score.dev/workload"
         (om_Name (wl_ObjectMeta workload))).

Definition index_missing (index : string) (err : goerror) : bool :=
  bool_decide (Error err = "field label not supported: " +:+ index) ||
  Contains (Error err) ("no index with name " +:+ index +:+ " has been registered").

Definition GetClaims (workload : Workload) : prog (res (list ResourceClaim)) :=
  let key := workload_ns workload +:+ "/" +:+ om_Name (wl_ObjectMeta workload) in
  r ← ask (ListByField KResourceClaim IndexResourceClaimByWorkload key);
  match (r : res (list ResourceClaim)) with
  | Err err => if index_missing IndexResourceClaimByWorkload err
               then getResourceClaimsWithoutIndex workload else mret (Err err)
  | Ok items => mret (Ok items)
  end.

(** [ClaimManager.AggregateStatus] repeats the body of
    [status.AggregateClaimStatuses]. *)
Definition AggregateStatus (claims : list ResourceClaim) : ClaimAggregation :=
  AggregateClaimStatuses claims.

(** [internal/reconcile/claim.go], with [SetControllerReference] for the owner. *)
Definition set_controller_owner (workload : Workload) (claim : ResourceClaim) :
    res ResourceClaim :=
  match SetControllerReference KWorkload (wl_ObjectMeta workload) (rc_ObjectMeta claim) with
  | Err err => Err (EWrap "failed to set owner reference" err)
  | Ok meta => Ok {| claim with rc_ObjectMeta := meta |}
  end.

(** The [upsertResourceClaim] of [internal/reconcile/claim.go]. *)
Definition upsertControlledClaim (workload : Workload) : string → ResourceSpec → prog (res ()) :=
  upsert_with (set_controller_owner workload) workload.

Definition UpsertResourceClaims (order : list (string * ResourceSpec)) (workload : Workload) :
    prog (res ()) :=
  ensure_claims (upsertControlledClaim workload) order.

(** ** What the comparison compares *)

(** Two specifications agree for the claim manager: everything but the content of
    the parameters and the deprovision policy. *)
Definition same_claim (a b : ResourceClaimSpec) : Prop :=
  rcs_WorkloadRef a = rcs_WorkloadRef b ∧ rcs_Key a = rcs_Key b ∧ rcs_Type a = rcs_Type b ∧
  rcs_Class a = rcs_Class b ∧ rcs_ID a = rcs_ID b ∧
  (rcs_Params a = None ↔ rcs_Params b = None).

Lemma opt_string_equal_iff a b : opt_string_equal a b = true ↔ a = b.
Proof.
  destruct a, b; simpl; rewrite ?bool_decide_eq_true; naive_solver.
Qed.

Lemma resourceClaimSpecEqual_iff a b : resourceClaimSpecEqual a b = true ↔ same_claim a b.
Proof.
  unfold resourceClaimSpecEqual, same_claim.
  do 3 (case_bool_decide; [|split; [done|]; by intros (? & ? & ? & _)]). cbn [negb orb].
  rewrite <- (opt_string_equal_iff (rcs_Class a)), <- (opt_string_equal_iff (rcs_ID a)).
  destruct (opt_string_equal (rcs_Class a) _); [|split; [done|]; by intros (_ & _ & _ & ? & _)].
  destruct (opt_string_equal (rcs_ID a) _); [|split; [done|]; by intros (_ & _ & _ & _ & ? & _)].
  cbn [negb]. destruct (rcs_Params a), (rcs_Params b); split; try done.
  - intros (_ & _ & _ & _ & _ & [_ Hp]). by specialize (Hp eq_refl).
  - intros (_ & _ & _ & _ & _ & [Hp _]). by specialize (Hp eq_refl).
Qed.

(** ** What an upsert guarantees *)

(** The calls show that the claim of [key] is as desired: it was created, it was
    updated to the desired specification, or it was found to agree with it. *)
Definition claim_ensured (workload : Workload) (tr : list event) (key : string)
    (resource : ResourceSpec) : Prop :=
  let k := (workload_ns workload, claim_name workload key) in
  let spec := desired_claim_spec workload key resource in
  (∃ c r, Ev (Create KResourceClaim c) (Ok r) ∈ tr ∧ obj_key (K:=KResourceClaim) c = k ∧
          rc_Spec c = spec) ∨
  (∃ c0 r, Ev (Get KResourceClaim k) (Ok c0) ∈ tr ∧
     Ev (Update KResourceClaim {| c0 with rc_Spec := spec |}) (Ok r) ∈ tr) ∨
  (∃ c0, Ev (Get KResourceClaim k) (Ok c0) ∈ tr ∧ same_claim (rc_Spec c0) spec).

Lemma claim_ensured_mono workload tr l key resource :
  claim_ensured workload tr key resource → claim_ensured workload (tr ++ l) key resource.
Proof.
  intros [(c & r & ? & ?)|[(c0 & r & ? & ?)|(c0 & ? & ?)]].
  - left. exists c, r. rewrite elem_of_app. auto.
  - right. left. exists c0, r. rewrite !elem_of_app. auto.
  - right. right. exists c0. rewrite elem_of_app. auto.
Qed.

Lemma upsert_ensures set_owner workload key resource past :
  (∀ c c', set_owner c = Ok c' → rc_Spec c' = rc_Spec c ∧
           obj_key (K:=KResourceClaim) c' = obj_key (K:=KResourceClaim) c) →
  wp any (upsert_with set_owner workload key resource) past (λ r tr,
    extends past tr ∧ (r = Ok () → claim_ensured workload tr key resource)).
Proof.
  intros Hown. simpl. intros [claim|err] _.
  - destruct (resourceClaimSpecEqual _ _) eqn:Heq; simpl.
    + split; [auto with prog|]. intros _. right. right. exists claim.
      rewrite elem_of_app, list_elem_of_singleton. split; [by right|].
      by apply resourceClaimSpecEqual_iff.
    + intros [c|err] _; simpl; (split; [auto with prog|]); [|done].
      intros _. right. left. exists claim, c.
      rewrite !elem_of_app, !list_elem_of_singleton. auto.
  - destruct (IsNotFound err); simpl; [|split; [auto with prog|done]].
    destruct (set_owner _) as [c|e] eqn:Ho; simpl; [|split; [auto with prog|done]].
    intros [c'|e'] _; simpl; (split; [auto with prog|]); [|done].
    intros _. left. exists c, c'. apply Hown in Ho as [Hs Hk].
    rewrite !elem_of_app, !list_elem_of_singleton. split_and!; [by right|by rewrite Hk|done].
Qed.

Lemma ensure_claims_ensures set_owner workload order past :
  (∀ c c', set_owner c = Ok c' → rc_Spec c' = rc_Spec c ∧
           obj_key (K:=KResourceClaim) c' = obj_key (K:=KResourceClaim) c) →
  wp any (ensure_claims (upsert_with set_owner workload) order) past (λ r tr,
    extends past tr ∧
    (r = Ok () → ∀ key resource, (key, resource) ∈ order →
                 claim_ensured workload tr key resource)).
Proof.
  intros Hown. revert past. induction order as [|[key resource] order IH]; intros past.
  - simpl. split; [auto with prog|]. set_solver.
  - cbn [ensure_claims]. rewrite wp_bind_res. unfold wrap. rewrite wp_bind.
    eapply wp_mono; [done| |by apply upsert_ensures].
    intros [[]|e] tr [Hext Hens]; simpl; [|by split].
    eapply wp_mono; [done| |apply IH]. intros r tr' [[l ->] Hrest]. split; [auto with prog|].
    intros Hr k res. rewrite elem_of_cons. intros [[= -> ->]|Hin]; [|by apply Hrest].
    by apply claim_ensured_mono, Hens.
Qed.

Lemma set_claim_owner_keeps workload c c' :
  set_claim_owner workload c = Ok c' →
  rc_Spec c' = rc_Spec c ∧ obj_key (K:=KResourceClaim) c' = obj_key (K:=KResourceClaim) c.
Proof. unfold set_claim_owner. by destruct (GVKForObject KWorkload) as [[]|]; intros [= <-]. Qed.

(** The claims a workload may write: its own, one per resource, as desired. *)
Definition claim_write_ok (workload : Workload) (order : list (string * ResourceSpec))
    (c : call) : Prop :=
  match c with
  | Create KResourceClaim o | Update KResourceClaim o =>
      ∃ key resource, (key, resource) ∈ order ∧ rc_Spec o = desired_claim_spec workload key resource
  | Get KResourceClaim k => ∃ key resource, (key, resource) ∈ order ∧
      k = (workload_ns workload, claim_name workload key)
  | _ => False
  end.

Lemma upsert_writes workload order key resource :
  (key, resource) ∈ order →
  every_call (claim_write_ok workload order) (upsertResourceClaim workload key resource).
Proof.
  intros Hin. unfold upsertResourceClaim, upsert_with. calls; simpl.
  - eauto.
  - eauto.
  - exists key, resource. split; [done|].
    match goal with H : set_claim_owner _ _ = _ |- _ => by apply set_claim_owner_keeps in H as [-> _] end.
Qed.


(** A claim that differs from the desired one only in the content of its
    parameters (or in its deprovision policy) is left as it is: nothing is written
    and the upsert succeeds.  An update that is made for another reason clears the
    deprovision policy and the identifier that the claim had. *)
Theorem stale_params_kept workload key resource (claim : ResourceClaim) :
  let spec := desired_claim_spec workload key resource in
  let E := reads KResourceClaim (workload_ns workload, claim_name workload key) claim in
  (same_claim (rc_Spec claim) spec →
   wp E (upsertResourceClaim workload key resource) [] (λ r tr,
     r = Ok () ∧ Forall (λ e, is_write (ev_call e) = false) tr)) ∧
  (¬ same_claim (rc_Spec claim) spec →
   wp E (upsertResourceClaim workload key resource) [] (λ r tr,
     ∃ claim' r', Ev (Update KResourceClaim claim') r' ∈ tr ∧
       rcs_ID (rc_Spec claim') = None ∧ rcs_DeprovisionPolicy (rc_Spec claim') = None ∧
       rcs_Params (rc_Spec claim') = rs_Params resource)).
Proof.
  intros spec E. split; intros Hsame; simpl; intros r Hr; rewrite (Hr r eq_refl).
  - apply resourceClaimSpecEqual_iff in Hsame. fold spec. rewrite Hsame. simpl.
    split; [done|]. by constructor.
  - destruct (resourceClaimSpecEqual (rc_Spec claim) _) eqn:Heq;
      [by apply resourceClaimSpecEqual_iff in Heq|].
    simpl. intros r' _. destruct r'; simpl; eexists _, _; (split; [by right; left|done]).
Qed.

(** Two workloads of a namespace can share a claim: [a] with the resource [b-c]
    and [a-b] with the resource [c] both name it [a-b-c].  The workload that is
    reconciled second finds the claim of the first, points it to itself and replaces
    its key, type and parameters, and leaves the metadata, with the first workload as
    the owner. *)
Theorem colliding_claim_taken_over (first second : Workload) (b c : string)
    (resource1 resource2 : ResourceSpec) (claim : ResourceClaim) :
  workload_ns first = workload_ns second →
  om_Name (wl_ObjectMeta second) = om_Name (wl_ObjectMeta first) +:+ "-" +:+ b →
  rc_Spec claim = desired_claim_spec first (b +:+ "-" +:+ c) resource1 →
  claim_name first (b +:+ "-" +:+ c) = claim_name second c ∧
  wp (reads KResourceClaim (workload_ns second, claim_name second c) claim)
    (upsertResourceClaim second c resource2) [] (λ r tr,
      ∃ claim' reply, Ev (Update KResourceClaim claim') reply ∈ tr ∧
        rc_Spec claim' = desired_claim_spec second c resource2 ∧
        rc_ObjectMeta claim' = rc_ObjectMeta claim).
Proof.
  intros Hns Hname Hspec. split.
  { unfold claim_name. by rewrite Hname, !string_app_assoc. }
  intros r Hr. rewrite (Hr r eq_refl).
  assert (resourceClaimSpecEqual (rc_Spec claim) (desired_claim_spec second c resource2) = false)
    as Heq.
  { apply not_true_iff_false. rewrite resourceClaimSpecEqual_iff, Hspec. intros [Href _].
    injection Href as Hn _. apply (f_equal String.length) in Hn. rewrite Hname in Hn.
    rewrite !string_length_app in Hn. simpl in Hn. lia. }
  simpl. rewrite Heq. intros r' _. destruct r'; simpl; eexists _, _; (split; [by right; left|done]).
Qed.
End claims.

(** ** Witnesses *)

Module ClaimsDemo.
#[local] Instance scheme : Scheme := SchemeDemo.scheme.
#[local] Instance scheme_laws : SchemeLaws := SchemeDemo.scheme_laws.

Definition postgres : ResourceSpec :=
  {| rs_Type := "postgres"; rs_Class := None; rs_Params := Some (RawValue (VStr "16")) |}.

Definition workload : Workload :=
  {| wl_ObjectMeta := {| ObjectMeta_zero with om_Name := "app"; om_Namespace := "default" |};
     wl_Spec := {| ws_Profile := None; ws_Containers := ∅; ws_Service := None;
                   ws_Resources := {["db" := postgres]} |};
     wl_Status := {| wst_Endpoint := None; wst_Conditions := []; wst_Claims := [] |} |}.

(** A claim whose parameters are out of date. *)
Definition stale : ResourceClaim :=
  let c := new_claim workload "db" postgres in
  {| c with rc_Spec := {| (rc_Spec c) with rcs_Params := Some (RawValue (VStr "15")) |} |}.
End ClaimsDemo.
#[local] Existing Instances ClaimsDemo.scheme ClaimsDemo.scheme_laws.


Lemma stale_params_kept_witness :
  rc_Spec ClaimsDemo.stale ≠ desired_claim_spec ClaimsDemo.workload "db" ClaimsDemo.postgres ∧
  wp (reads KResourceClaim ("default", "app-db") ClaimsDemo.stale)
    (upsertResourceClaim ClaimsDemo.workload "db" ClaimsDemo.postgres) []
    (λ r tr, r = Ok () ∧ Forall (λ e, is_write (ev_call e) = false) tr).
Proof.
  split; [discriminate|].
  apply (proj1 (stale_params_kept ClaimsDemo.workload "db" ClaimsDemo.postgres ClaimsDemo.stale)).
  by repeat split.
Defined.

Lemma colliding_claim_taken_over_witness :
  let first := ClaimsDemo.workload in
  let second := {| first with wl_ObjectMeta :=
    {| (wl_ObjectMeta first) with om_Name := "app-blue" |} |} in
  let claim := new_claim first "blue-db" ClaimsDemo.postgres in
  claim_name first "blue-db" = claim_name second "db" ∧
  wp (reads KResourceClaim ("default", "app-blue-db") claim)
    (upsertResourceClaim second "db" ClaimsDemo.postgres) [] (λ r tr,
      ∃ claim' reply, Ev (Update KResourceClaim claim') reply ∈ tr ∧
        rc_Spec claim' = desired_claim_spec second "db" ClaimsDemo.postgres ∧
        rc_ObjectMeta claim' = rc_ObjectMeta claim).
Proof.
  intros first second claim.
  exact (colliding_claim_taken_over first second "blue" "db" ClaimsDemo.postgres
           ClaimsDemo.postgres claim eq_refl eq_refl eq_refl).
Defined.
