(* ===== verification/StatusManager.v ===== *)
(** * StatusManager: [internal/controller/managers/status_manager.go]

    The in-memory status of a workload and its final computation.  A method that
    changes the workload it is given returns the new one. *)
From S2P Require Import Prelude GoStrings Json K8s Api Client Conditions.

Definition with_conditions (workload : Workload) (cs : list Condition) : Workload :=
  {| workload with wl_Status := {| (wl_Status workload) with wst_Conditions := cs |} |}.

Definition conditions_of (workload : Workload) : list Condition :=
  wst_Conditions (wl_Status workload).

Definition workload_key (workload : Workload) : ObjectKey := meta_key (wl_ObjectMeta workload).

(** [conditions.SetCondition(&workload.Status.Conditions, ...)], which reads the
    clock. *)
Definition set_condition (conditionType : string) (status : ConditionStatus)
    (reason message : string) (workload : Workload) : prog Workload :=
  now ← ask Now;
  mret (with_conditions workload
          (SetCondition now (conditions_of workload) conditionType status reason message)).

Definition SetInputsValidCondition (workload : Workload) (valid : bool)
    (reason message : string) : prog Workload :=
  set_condition ConditionInputsValid (bool_status valid) reason message workload.

Definition SetClaimsReadyCondition (workload : Workload) (ready : bool)
    (reason message : string) : prog Workload :=
  set_condition ConditionClaimsReady (bool_status ready) reason message workload.

Definition SetRuntimeReadyCondition (workload : Workload) (ready : bool)
    (reason message : string) : prog Workload :=
  set_condition ConditionRuntimeReady (bool_status ready) reason message workload.

(** [Status().Update] decodes the stored object into the workload. *)
Definition UpdateStatus (workload : Workload) : prog (Workload * res ()) :=
  r ← ask (StatusUpdate KWorkload workload);
  mret match (r : res Workload) with
       | Ok stored => (stored, Ok ())
       | Err err => (workload, Err (EWrap "failed to update workload status" err))
       end.

Definition or_message (message default : string) : string :=
  if bool_decide (message = "") then default else message.

Definition checkRuntimeStatusFromPlan (plan : option WorkloadPlan) : bool * string * string :=
  match plan with
  | None => (false, ReasonRuntimeSelecting, "Runtime controller is being selected")
  | Some plan =>
      let message := wpst_Message (wp_Status plan) in
      match wpst_Phase (wp_Status plan) with
      | WorkloadPlanPhaseReady => (true, ReasonSucceeded, "Runtime provisioned successfully")
      | WorkloadPlanPhaseFailed =>
          (false, ReasonRuntimeDegraded, or_message message "Runtime provisioning failed")
      | WorkloadPlanPhaseProvisioning =>
          (false, ReasonRuntimeProvisioning,
           or_message message "Runtime resources are being provisioned")
      | _ => (false, ReasonRuntimeSelecting, "Runtime provisioning pending")
      end
  end.

Definition updateRuntimeStatusFromPlan (workload : Workload) (plan : option WorkloadPlan) :
    prog Workload :=
  match plan with
  | None => SetRuntimeReadyCondition workload false ReasonRuntimeSelecting
              "Runtime controller is being selected"
  | Some _ =>
      let '(runtimeReady, reason, message) := checkRuntimeStatusFromPlan plan in
      SetRuntimeReadyCondition workload runtimeReady reason message
  end.

(** It always returns a nil error. *)
Definition ComputeFinalStatus (workload : Workload) (plan : option WorkloadPlan) :
    prog Workload :=
  workload ← updateRuntimeStatusFromPlan workload plan;
  let '(readyStatus, readyReason, readyMessage) :=
    ComputeReadyCondition (conditions_of workload) in
  workload ← set_condition ConditionReady readyStatus readyReason readyMessage workload;
  if bool_decide (readyStatus = ConditionTrue)
  then ask (Event (workload_key workload) "Normal" "Ready" "Workload is ready and operational");;
       mret workload
  else mret workload.

(** ** The final status *)

(** What the plan says of the runtime. *)
Definition plan_ready (plan : option WorkloadPlan) : bool :=
  match plan with
  | Some p => bool_decide (wpst_Phase (wp_Status p) = WorkloadPlanPhaseReady)
  | None => false
  end.

Lemma checkRuntimeStatus_ready plan : (checkRuntimeStatusFromPlan plan).1.1 = plan_ready plan.
Proof. destruct plan as [p|]; [|done]. simpl. by destruct (wpst_Phase (wp_Status p)). Qed.

Lemma ComputeReady_true cs :
  (ComputeReadyCondition cs).1.1 = ConditionTrue ↔
  IsConditionTrue cs ConditionInputsValid = true ∧
  IsConditionTrue cs ConditionClaimsReady = true ∧
  IsConditionTrue cs ConditionRuntimeReady = true.
Proof.
  unfold ComputeReadyCondition.
  destruct (IsConditionTrue cs ConditionInputsValid); simpl;
    [|destruct (GetCondition _ _); [case_bool_decide|]; naive_solver].
  destruct (IsConditionTrue cs ConditionClaimsReady); simpl;
    [|destruct (GetCondition _ _); [case_bool_decide|]; naive_solver].
  destruct (IsConditionTrue cs ConditionRuntimeReady); simpl; [naive_solver|].
  destruct (GetCondition _ _); [case_bool_decide|]; naive_solver.
Qed.

(** The runtime condition that the plan stands for, set at some time. *)
Definition runtime_set (now : Time) (plan : option WorkloadPlan) (cs : list Condition) :
    list Condition :=
  let '(ready, reason, message) := checkRuntimeStatusFromPlan plan in
  SetCondition now cs ConditionRuntimeReady (bool_status ready) reason message.

Lemma updateRuntimeStatusFromPlan_eq workload plan :
  updateRuntimeStatusFromPlan workload plan =
  Call Now (λ now, Ret (with_conditions workload (runtime_set now plan (conditions_of workload)))).
Proof.
  unfold updateRuntimeStatusFromPlan, runtime_set, SetRuntimeReadyCondition, set_condition.
  destruct plan as [p|]; [|done]. by destruct (checkRuntimeStatusFromPlan (Some p)) as [[] ?].
Qed.

Lemma runtime_set_true now plan cs t :
  IsConditionTrue (runtime_set now plan cs) t =
  if bool_decide (t = ConditionRuntimeReady) then plan_ready plan else IsConditionTrue cs t.
Proof.
  unfold runtime_set. rewrite <- checkRuntimeStatus_ready.
  destruct (checkRuntimeStatusFromPlan plan) as [[ready reason] message]. simpl.
  case_bool_decide as Ht; [subst|by rewrite IsConditionTrue_Set_other].
  rewrite IsConditionTrue_Set_same. by destruct ready.
Qed.

Definition ready_event (workload : Workload) : call :=
  Event (workload_key workload) "Normal" "Ready" "Workload is ready and operational".

(** The inputs and the claims are ready in the conditions, and the runtime in the
    plan. *)
Definition all_ready (workload : Workload) (plan : option WorkloadPlan) : bool :=
  IsConditionTrue (conditions_of workload) ConditionInputsValid &&
  IsConditionTrue (conditions_of workload) ConditionClaimsReady && plan_ready plan.

Lemma Ready_iff now plan workload :
  bool_decide ((ComputeReadyCondition (runtime_set now plan (conditions_of workload))).1.1 =
               ConditionTrue) = all_ready workload plan.
Proof.
  apply eq_true_iff_eq. rewrite bool_decide_eq_true, ComputeReady_true, !runtime_set_true.
  unfold all_ready. rewrite !andb_true_iff.
  rewrite !bool_decide_false, bool_decide_true by done. tauto.
Qed.

(** The final status, as a fact about the program from which its theorems and those
    of its callers follow. *)
Lemma ComputeFinalStatus_wp workload plan past :
  wp any (ComputeFinalStatus workload plan) past (λ w' tr,
    ∃ t1 t2 l, tr = past ++ Ev Now t1 :: Ev Now t2 :: l ∧
      l = (if all_ready workload plan then [Ev (ready_event workload) ()] else []) ∧
      let cs := runtime_set t1 plan (conditions_of workload) in
      let c := ComputeReadyCondition cs in
      w' = with_conditions workload (SetCondition t2 cs ConditionReady c.1.1 c.1.2 c.2)).
Proof.
  unfold ComputeFinalStatus. rewrite wp_bind, updateRuntimeStatusFromPlan_eq.
  intros t1 _. cbn [wp]. pose proof (Ready_iff t1 plan workload) as Hready.
  change (conditions_of (with_conditions _ ?cs)) with cs.
  destruct (ComputeReadyCondition (runtime_set t1 plan (conditions_of workload)))
    as [[s r] m] eqn:Hc.
  rewrite wp_bind. intros t2 _. cbn [wp]. cbn [fst] in Hready. rewrite Hready.
  destruct (all_ready workload plan).
  - intros [] _. exists t1, t2, [Ev (ready_event workload) ()]. rewrite Hc.
    split_and!; [by rewrite <- !app_assoc|done|done].
  - exists t1, t2, []. rewrite Hc. split_and!; [by rewrite <- !app_assoc|done|done].
Qed.

(** The final status of a workload is the documented conjunction: RuntimeReady
    says whether the plan is in phase Ready (a missing plan is not), Ready is true
    exactly when InputsValid and ClaimsReady are true and the plan is Ready, the
    event "Ready" is emitted in exactly that case, and no other condition and nothing
    else of the workload changes. *)
Theorem ComputeFinalStatus_correct workload plan :
  wp any (ComputeFinalStatus workload plan) [] (λ w' tr,
    IsConditionTrue (conditions_of w') ConditionRuntimeReady = plan_ready plan ∧
    IsConditionTrue (conditions_of w') ConditionReady = all_ready workload plan ∧
    (Exists (λ e, ev_call e = ready_event workload) tr ↔ all_ready workload plan = true) ∧
    (∀ t, t ≠ ConditionReady → t ≠ ConditionRuntimeReady →
       GetCondition (conditions_of w') t = GetCondition (conditions_of workload) t) ∧
    w' = with_conditions workload (conditions_of w')).
Proof.
  eapply wp_mono; [done| |apply ComputeFinalStatus_wp].
  intros w' tr (t1 & t2 & l & -> & Hl & ->).
  change (conditions_of (with_conditions _ ?cs)) with cs. split_and!.
  - rewrite IsConditionTrue_Set_other, runtime_set_true by done. by rewrite bool_decide_true.
  - rewrite IsConditionTrue_Set_same. apply Ready_iff.
  - rewrite Hl. destruct (all_ready workload plan); simpl.
    + split; [done|]. intros _. do 2 right. by left.
    + rewrite !Exists_cons, Exists_nil. split; [|done]. by intros [?|[?|?]].
  - intros t Ht Ht'. rewrite SetCondition_other by done. unfold runtime_set.
    destruct (checkRuntimeStatusFromPlan plan) as [[? ?] ?]. by rewrite SetCondition_other.
  - done.
Qed.
