(* ===== verification/Plan.v ===== *)
(** * Plan: [internal/reconcile/plan.go] and
    [internal/controller/managers/plan_manager.go]

    The plan of a workload: what is written to the API server once the claims are
    ready. *)
From S2P Require Import Prelude GoStrings Json K8s Api Client Sort Conditions Selection.
From S2P Require Import Validation ConfigCache ConfigLoader Placeholders Claims StatusManager.

Definition build_plan_claim (claim : ResourceClaim) : PlanClaim :=
  {| pc_Key := rcs_Key (rc_Spec claim); pc_Type := rcs_Type (rc_Spec claim);
     pc_Class := rcs_Class (rc_Spec claim); pc_Params := None |}.

Definition buildPlanClaims (claims : list ResourceClaim) : list PlanClaim :=
  build_plan_claim <$> claims.

Definition workloadPlanSpecEqual (a b : WorkloadPlanSpec) : bool :=
  if negb (bool_decide (wps_WorkloadRef a = wps_WorkloadRef b)) then false
  else if negb (wps_ObservedWorkloadGeneration a =? wps_ObservedWorkloadGeneration b)%Z then false
  else if negb (bool_decide (wps_RuntimeClass a = wps_RuntimeClass b)) then false
  else if negb (bool_decide (length (wps_Claims a) = length (wps_Claims b))) then false
  else true.

Definition desired_plan_spec (workload : Workload) (claims : list ResourceClaim)
    (selectedBackend : SelectedBackend) (resolvedValues : RawJSON) : WorkloadPlanSpec :=
  {| wps_WorkloadRef := {| wpr_Name := om_Name (wl_ObjectMeta workload);
                           wpr_Namespace := om_Namespace (wl_ObjectMeta workload) |};
     wps_ObservedWorkloadGeneration := om_Generation (wl_ObjectMeta workload);
     wps_RuntimeClass := sb_RuntimeClass selectedBackend;
     wps_Template := Some (sb_Template selectedBackend);
     wps_ResolvedValues := Some resolvedValues;
     wps_Claims := buildPlanClaims claims |}.

Definition WorkloadPlanStatus_zero : WorkloadPlanStatus :=
  {| wpst_Phase := WorkloadPlanPhaseEmpty; wpst_Conditions := []; wpst_Message := "" |}.

Definition new_plan_meta (workload : Workload) : ObjectMeta :=
  {| ObjectMeta_zero with
     om_Name := om_Name (wl_ObjectMeta workload);
     om_Namespace := om_Namespace (wl_ObjectMeta workload);
     om_Labels := Some {["score.dev/workload" := om_Name (wl_ObjectMeta workload)]} |}.

Definition unresolved : goerror := ENew "unresolved placeholders found in workload projection".

Section plan.
Context `{!Scheme}.

(** Write the specification into a plan that was read, unless it agrees. *)
Definition update_plan (prefix : string) (plan : WorkloadPlan) (desiredSpec : WorkloadPlanSpec) :
    prog (res ()) :=
  if negb (workloadPlanSpecEqual (wp_Spec plan) desiredSpec)
  then
    r ← ask (Update KWorkloadPlan {| plan with wp_Spec := desiredSpec |});
    match (r : res WorkloadPlan) with
    | Err err => mret (Err (EWrap prefix err))
    | Ok _ => mret (Ok ())
    end
  else mret (Ok ()).

Definition create_plan (workload : Workload) (desiredSpec : WorkloadPlanSpec) : prog (res ()) :=
  match SetControllerReference KWorkload (wl_ObjectMeta workload) (new_plan_meta workload) with
  | Err err => mret (Err (EWrap "failed to set owner reference" err))
  | Ok meta =>
      r ← ask (Create KWorkloadPlan
             {| wp_ObjectMeta := meta; wp_Spec := desiredSpec; wp_Status := WorkloadPlanStatus_zero |});
      match (r : res WorkloadPlan) with
      | Ok _ => mret (Ok ())
      | Err err =>
          if IsAlreadyExists err
          then
            r ← ask (Get KWorkloadPlan (workload_key workload));
            match (r : res WorkloadPlan) with
            | Err getErr => mret (Err (EWrap
                "failed to get existing WorkloadPlan after create conflict" getErr))
            | Ok existingPlan =>
                update_plan "failed to update existing WorkloadPlan" existingPlan desiredSpec
            end
          else mret (Err (EWrap "failed to create WorkloadPlan" err))
      end
  end.

(** The second test for an empty name can never succeed. *)
Definition UpsertWorkloadPlan (workload : Workload) (claims : list ResourceClaim)
    (selectedBackend : SelectedBackend) : prog (res ()) :=
  let planName := om_Name (wl_ObjectMeta workload) in
  if bool_decide (planName = "") then mret (Err (ENew "workload name cannot be empty"))
  else
    got ← ask (Get KWorkloadPlan (workload_key workload));
    match (got : res WorkloadPlan) with
    | Err getErr =>
        if negb (IsNotFound getErr)
        then mret (Err (EWrap ("failed to get WorkloadPlan " +:+ planName) getErr))
        else
          resolvedValues ←? wrap "failed to resolve placeholders"
            (resolveAllPlaceholders workload claims);
          match HasUnresolvedPlaceholders resolvedValues with
          | (true, true) =>
              mret (Err (EWrap "unresolved placeholders (parse error)" (ENew "invalid JSON")))
          | (true, false) => mret (Err unresolved)
          | (false, _) =>
              create_plan workload
                (desired_plan_spec workload claims selectedBackend resolvedValues)
          end
    | Ok plan =>
        resolvedValues ←? wrap "failed to resolve placeholders"
          (resolveAllPlaceholders workload claims);
        match HasUnresolvedPlaceholders resolvedValues with
        | (true, true) =>
            mret (Err (EWrap "unresolved placeholders (parse error)" (ENew "invalid JSON")))
        | (true, false) => mret (Err unresolved)
        | (false, _) =>
            update_plan "failed to update WorkloadPlan" plan
              (desired_plan_spec workload claims selectedBackend resolvedValues)
        end
    end.

(** ** plan_manager.go *)

Context `{!Semver} `{!LabelSelectors} `{!ConfigSource}.

(** [PlanManager.SelectBackend] *)
Definition pm_SelectBackend (workload : Workload) : prog (res SelectedBackend) :=
  orchestratorConfig ←? wrap "failed to load orchestrator config" load_config;
  mret (res_wrap "failed to select backend" (SelectBackend orchestratorConfig workload)).

Definition EventTypeNormal := "Normal".
Definition EventTypeWarning := "Warning".

Definition emit (workload : Workload) (eventtype reason message : string) : prog () :=
  ask (Event (workload_key workload) eventtype reason message).

Definition is_projection_error (err : goerror) : bool :=
  Contains (Error err) "missing required outputs for projection" ||
  Contains (Error err) "unresolved placeholders".

Definition EnsurePlan (workload : Workload) (claims : list ResourceClaim)
    (agg : ClaimAggregation) : prog (Workload * res ()) :=
  if ca_Ready agg
  then
    selected ← pm_SelectBackend workload;
    match selected with
    | Err err =>
        workload ← SetRuntimeReadyCondition workload false ReasonRuntimeSelecting
                     ("Backend selection failed: " +:+ Error err);
        mret (workload, Err err)
    | Ok selectedBackend =>
        r ← UpsertWorkloadPlan workload claims selectedBackend;
        match r with
        | Err err =>
            if is_projection_error err
            then
              workload ← SetRuntimeReadyCondition workload false ReasonProjectionError
                           MessageProjectionError;
              emit workload EventTypeWarning "ProjectionError" MessageProjectionError;;
              mret (workload, Err err)
            else
              emit workload EventTypeWarning "PlanError"
                ("Failed to create workload plan: " +:+ Error err);;
              mret (workload, Err err)
        | Ok _ =>
            emit workload EventTypeNormal "PlanCreated" "WorkloadPlan created successfully";;
            mret (workload, Ok ())
        end
    end
  else mret (workload, Ok ()).

Definition GetPlan (workload : Workload) : prog (res WorkloadPlan) :=
  let name := om_Name (wl_ObjectMeta workload) in
  let key := om_Namespace (wl_ObjectMeta workload) +:+ "/" +:+ name in
  r ← ask (ListByField KWorkloadPlan IndexWorkloadPlanByWorkload key);
  r ← match (r : res (list WorkloadPlan)) with
      | Err err =>
          if Contains (Error err) "no index with name"
          then ask (ListByLabel KWorkloadPlan (om_Namespace (wl_ObjectMeta workload))
                      "score.dev/workload" name)
          else mret (Err err)
      | Ok items => mret (Ok items)
      end;
  mret match r with
       | Err err => Err (EWrap "failed to list WorkloadPlans" err)
       | Ok [] => Err (EStatus NotFound
                         ("workloadplans.score.dev " +:+ quote name +:+ " not found"))
       | Ok [plan] => Ok plan
       | Ok _ => Err (ENew ("multiple WorkloadPlans found for Workload " +:+ key))
       end.


(** ** What is written *)

Lemma pm_SelectBackend_reads `{!DNS1123} `{!ConfigSourceLaws} workload :
  read_only (pm_SelectBackend workload).
Proof.
  unfold read_only, pm_SelectBackend. apply every_call_bind_res; [|done].
  apply every_call_wrap, load_reads.
Qed.

(** Making a plan lists nothing: the plan is read by its name. *)
Lemma UpsertWorkloadPlan_lists_nothing workload claims sb :
  every_call (λ c, is_list c = false) (UpsertWorkloadPlan workload claims sb).
Proof.
  assert (every_call (λ c, is_list c = false) (resolveAllPlaceholders workload claims)) as Hres.
  { eapply every_call_mono; [|apply resolveAllPlaceholders_fetches]. by intros c [_ Hc]. }
  unfold UpsertWorkloadPlan, create_plan, update_plan. calls; done.
Qed.

(** The backend that is selected after the calls [l]: the best one of the selected profile
    of the configuration that is loaded. *)
Lemma pm_SelectBackend_returns `{!DNS1123} `{!ConfigSourceLaws} `{!SemverLaws} workload l sb :
  returns (pm_SelectBackend workload) l (Ok sb) →
  ∃ config name p b, returns load_config l (Ok config) ∧ Validate config = None ∧
    selectProfile config workload = Ok name ∧
    p ∈ ocs_Profiles (oc_Spec config) ∧ pr_Name p = name ∧
    best_backend workload (pr_Backends p) b ∧ sb = selected_of b.
Proof.
  unfold pm_SelectBackend, bind_res.
  intros (l1 & r & l2 & -> & Hload & Hret)%returns_bind_inv.
  destruct r as [config|e]; [|by apply returns_ret_inv in Hret as [_ ?]].
  apply returns_wrap_ok in Hload. apply returns_ret_inv in Hret as [-> Hsb]. rewrite app_nil_r. pose proof (returns_result _ _ _ _ load_valid Hload config eq_refl) as Hv.
  apply Validate_iff in Hv as Hvalid.
  pose proof (SelectBackend_spec config workload (λ p, valid_unique_ids config p Hvalid)) as Hsel.
  destruct (SelectBackend config workload) as [sb'|]; [|done]. injection Hsb as ->.
  destruct Hsel as (name & p & b & Hname & [Hp Hn]%find_profile_Some & Hbest & ->).
  by exists config, name, p, b.
Qed.

(** A plan that may be written: resolved values without placeholders. *)
Definition plan_write (workload : Workload) (claims : list ResourceClaim) (sb : SelectedBackend)
    (c : call) : Prop :=
  is_write c = true →
  ∃ plan raw, (c = Create KWorkloadPlan plan ∨ c = Update KWorkloadPlan plan) ∧
    wp_Spec plan = desired_plan_spec workload claims sb raw ∧
    (HasUnresolvedPlaceholders raw).1 = false.

Lemma update_plan_writes workload claims sb prefix plan raw :
  (HasUnresolvedPlaceholders raw).1 = false →
  every_call (plan_write workload claims sb)
    (update_plan prefix plan (desired_plan_spec workload claims sb raw)).
Proof.
  intros Hraw. unfold update_plan. calls. intros _. eexists _, raw. by split; [right|].
Qed.

Lemma create_plan_writes workload claims sb raw :
  (HasUnresolvedPlaceholders raw).1 = false →
  every_call (plan_write workload claims sb)
    (create_plan workload (desired_plan_spec workload claims sb raw)).
Proof.
  intros Hraw. unfold create_plan. calls; try (by apply update_plan_writes); [|done].
  intros _. eexists _, raw. by split; [left|].
Qed.

Lemma UpsertWorkloadPlan_writes workload claims sb :
  every_call (plan_write workload claims sb) (UpsertWorkloadPlan workload claims sb).
Proof.
  assert (∀ (k : RawJSON → prog (res ())),
    (∀ raw, (HasUnresolvedPlaceholders raw).1 = false →
            every_call (plan_write workload claims sb) (k raw)) →
    every_call (plan_write workload claims sb)
      (raw ←? wrap "failed to resolve placeholders" (resolveAllPlaceholders workload claims);
       match HasUnresolvedPlaceholders raw with
       | (true, true) =>
           mret (Err (EWrap "unresolved placeholders (parse error)" (ENew "invalid JSON")))
       | (true, false) => mret (Err unresolved)
       | (false, _) => k raw
       end)) as Hresolve.
  { intros k Hk. apply every_call_bind_res.
    - apply every_call_wrap. eapply every_call_mono; [|apply resolveAllPlaceholders_reads].
      intros c Hc Hw. congruence.
    - intros raw. destruct (HasUnresolvedPlaceholders raw) as [[] []] eqn:Hu; try done;
        apply Hk; by rewrite Hu. }
  unfold UpsertWorkloadPlan. case_bool_decide; [done|]. apply every_call_bind; [done|].
  intros [plan|err].
  - apply Hresolve. intros raw Hraw. by apply update_plan_writes.
  - case_match; [done|]. apply Hresolve. intros raw Hraw. by apply create_plan_writes.
Qed.

(** The values that are written: the resolution, in which no string has a placeholder. *)
Definition resolved_values (workload : Workload) (claims : list ResourceClaim) (l : list event)
    (raw : RawJSON) : Prop :=
  returns (resolveAllPlaceholders workload claims) l (Ok raw) ∧
  ∃ v, raw = RawValue v ∧ ∀ s, string_in s v → ¬ has_placeholder s.

Lemma resolve_returns_value workload claims :
  every_result (λ r, ∀ raw, r = Ok raw → ∃ v, raw = RawValue v)
    (resolveAllPlaceholders workload claims).
Proof.
  unfold resolveAllPlaceholders. apply every_result_bind.
  eapply every_result_mono; [|apply every_result_top]. intros av _. simpl.
  destruct (resolve_containers _ _ _); intros raw [= <-]. by eexists.
Qed.

(** A new plan controlled by the workload, or the plan that was read with another
    specification. *)
Definition plan_stored (workload : Workload) (spec : WorkloadPlanSpec) (l : list event)
    (c : call) : Prop :=
  (∃ m, SetControllerReference KWorkload (wl_ObjectMeta workload) (new_plan_meta workload) = Ok m ∧
     c = Create KWorkloadPlan
           {| wp_ObjectMeta := m; wp_Spec := spec; wp_Status := WorkloadPlanStatus_zero |}) ∨
  ∃ old, Ev (Get KWorkloadPlan (workload_key workload)) (Ok old) ∈ l ∧
    c = Update KWorkloadPlan {| old with wp_Spec := spec |}.

Lemma update_plan_makes prefix plan spec l c :
  makes (update_plan prefix plan spec) l c → is_write c = true →
  c = Update KWorkloadPlan {| plan with wp_Spec := spec |}.
Proof.
  intros Hm Hw. refine (makes_none _ (λ c, c = _) _ _ _ Hm). unfold update_plan. by calls.
Qed.

Lemma create_plan_makes workload spec l c :
  makes (create_plan workload spec) l c → is_write c = true → plan_stored workload spec l c.
Proof.
  unfold create_plan.
  destruct (SetControllerReference _ _ _) as [m|e] eqn:Hm; [|by intros ?%makes_ret_inv].
  intros [[-> ->]|(r & l' & -> & Hr)]%makes_ask_inv Hw; [left; by exists m|].
  destruct r as [o|err]; [by apply makes_ret_inv in Hr|].
  destruct (IsAlreadyExists err); [|by apply makes_ret_inv in Hr].
  apply makes_ask_inv in Hr as [[_ ->]|([old|e] & l & -> & Hr)]; [done| |by apply makes_ret_inv in Hr].
  apply update_plan_makes in Hr as ->; [|done]. right. exists old. split; [|done].
  by right; left.
Qed.

Lemma UpsertWorkloadPlan_makes workload claims sb l c :
  makes (UpsertWorkloadPlan workload claims sb) l c → is_write c = true →
  ∃ got l1 raw l2, l = [Ev (Get KWorkloadPlan (workload_key workload)) got] ++ l1 ++ l2 ∧
    resolved_values workload claims l1 raw ∧
    plan_stored workload (desired_plan_spec workload claims sb raw) l c.
Proof.
  assert (∀ (k : RawJSON → prog (res ())) l,
    makes (raw ←? wrap "failed to resolve placeholders" (resolveAllPlaceholders workload claims);
       match HasUnresolvedPlaceholders raw with
       | (true, true) =>
           mret (Err (EWrap "unresolved placeholders (parse error)" (ENew "invalid JSON")))
       | (true, false) => mret (Err unresolved)
       | (false, _) => k raw
       end) l c → is_write c = true →
    ∃ l1 raw l2, l = l1 ++ l2 ∧ resolved_values workload claims l1 raw ∧ makes (k raw) l2 c)
    as Hresolve.
  { intros k l' Hm Hw. apply write_after_ok in Hm; [|apply every_call_wrap, resolveAllPlaceholders_reads|done].
    destruct Hm as (l1 & raw & l2 & -> & Hraw%returns_wrap_ok & Hk).
    destruct (returns_result _ _ _ _ (resolve_returns_value workload claims) Hraw raw eq_refl) as [v ->].
    exists l1, (RawValue v), l2. split; [done|]. cbn in Hk. destruct (scan v) eqn:Hscan.
    { by apply makes_ret_inv in Hk. }
    split; [|done]. split; [done|]. exists v. split; [done|]. intros s Hs Hp.
    apply not_true_iff_false in Hscan. apply Hscan, scan_iff. eauto. }
  unfold UpsertWorkloadPlan. case_bool_decide; [by intros ?%makes_ret_inv|].
  intros [[-> ->]|(got & l' & -> & Hm)]%makes_ask_inv Hw; [done|]. exists got.
  destruct got as [plan|err].
  - apply Hresolve in Hm as (l1 & raw & l2 & -> & Hraw & Hk); [|done].
    exists l1, raw, l2. split; [done|]. split; [done|].
    apply update_plan_makes in Hk as ->; [|done]. right. exists plan. split; [by left|done].
  - destruct (IsNotFound err); [|by apply makes_ret_inv in Hm].
    apply Hresolve in Hm as (l1 & raw & l2 & -> & Hraw & Hk); [|done].
    exists l1, raw, l2. split; [done|]. split; [done|].
    apply create_plan_makes in Hk as [?|(old & Hin & ->)]; [by left| |done].
    right. exists old. split; [|done]. right. apply elem_of_app. by right.
Qed.

(** C9: [EnsurePlan] writes at most plans, and only when the claims are ready.  Before it
    writes one it has loaded a configuration, which passes validation, read the plan and
    resolved the values of the workload: the plan it writes is a new one controlled by
    the workload, or the one it read, with the reference and the generation of the
    workload, an entry per claim, exactly the values of that resolution, in which no
    string has a placeholder, and the runtime class and the template of the best backend
    for the workload in the selected profile of that configuration. *)
Theorem EnsurePlan_writes `{!DNS1123} `{!ConfigSourceLaws} `{!SemverLaws} workload claims agg l c :
  makes (EnsurePlan workload claims agg) l c → is_write c = true →
  ca_Ready agg = true ∧
  ∃ l1 config p b got l2 raw l3,
    l = l1 ++ [Ev (Get KWorkloadPlan (workload_key workload)) got] ++ l2 ++ l3 ∧
    (returns load_config l1 (Ok config) ∧ Validate config = None ∧
     p ∈ ocs_Profiles (oc_Spec config) ∧ selectProfile config workload = Ok (pr_Name p) ∧
     best_backend workload (pr_Backends p) b) ∧
    (returns (resolveAllPlaceholders workload claims) l2 (Ok raw) ∧
     ∃ v, raw = RawValue v ∧ ∀ s, string_in s v → ¬ has_placeholder s) ∧
    let spec :=
      {| wps_WorkloadRef := {| wpr_Name := om_Name (wl_ObjectMeta workload);
                               wpr_Namespace := om_Namespace (wl_ObjectMeta workload) |};
         wps_ObservedWorkloadGeneration := om_Generation (wl_ObjectMeta workload);
         wps_RuntimeClass := be_RuntimeClass b; wps_Template := Some (be_Template b);
         wps_ResolvedValues := Some raw;
         wps_Claims := (λ claim, {| pc_Key := rcs_Key (rc_Spec claim);
                                    pc_Type := rcs_Type (rc_Spec claim);
                                    pc_Class := rcs_Class (rc_Spec claim);
                                    pc_Params := None |}) <$> claims |} in
    (∃ m, SetControllerReference KWorkload (wl_ObjectMeta workload) (new_plan_meta workload) = Ok m ∧
       c = Create KWorkloadPlan
             {| wp_ObjectMeta := m; wp_Spec := spec; wp_Status := WorkloadPlanStatus_zero |}) ∨
    (∃ old, Ev (Get KWorkloadPlan (workload_key workload)) (Ok old) ∈ l ∧
       c = Update KWorkloadPlan {| old with wp_Spec := spec |}).
Proof.
  unfold EnsurePlan. intros Hm Hw. destruct (ca_Ready agg); [|by apply makes_ret_inv in Hm].
  split; [done|]. apply write_after_reads in Hm; [|apply pm_SelectBackend_reads|done].
  destruct Hm as (l1 & [sb|err] & l' & -> & Hsel & Hm).
  2: { apply read_only_makes in Hm; [congruence|].
       unfold read_only, SetRuntimeReadyCondition, set_condition. by calls. }
  apply write_before_reads in Hm; [|intros [[]|e]; unfold read_only, emit, SetRuntimeReadyCondition,
    set_condition; by calls|done].
  apply pm_SelectBackend_returns in Hsel as (config & name & p & b & Hload & Hv & Hname & Hp & <- & Hb & ->).
  apply UpsertWorkloadPlan_makes in Hm as (got & l2 & raw & l3 & -> & Hraw & Hst); [|done].
  exists l1, config, p, b, got, l2, raw, l3. split; [done|]. split; [done|]. split; [done|].
  destruct Hst as [?|(old & Hin & ->)]; [by left|]. right. exists old. split; [|done].
  apply elem_of_app. by right.
Qed.

(** ** When an existing plan is rewritten *)

(** The comparison looks at the reference, the generation, the runtime class and the
    number of claims. *)
Definition same_plan (a b : WorkloadPlanSpec) : Prop :=
  wps_WorkloadRef a = wps_WorkloadRef b ∧
  wps_ObservedWorkloadGeneration a = wps_ObservedWorkloadGeneration b ∧
  wps_RuntimeClass a = wps_RuntimeClass b ∧ length (wps_Claims a) = length (wps_Claims b).

Lemma workloadPlanSpecEqual_iff a b : workloadPlanSpecEqual a b = true ↔ same_plan a b.
Proof.
  unfold workloadPlanSpecEqual, same_plan. case_bool_decide; [|split; [done|naive_solver]].
  destruct (Z.eqb_spec (wps_ObservedWorkloadGeneration a) (wps_ObservedWorkloadGeneration b));
    [|split; [done|naive_solver]].
  do 2 (case_bool_decide; [|split; [done|naive_solver]]). simpl. naive_solver.
Qed.

Lemma update_plan_wp E prefix plan spec past :
  wp E (update_plan prefix plan spec) past (λ _ tr,
    (same_plan (wp_Spec plan) spec ∧ tr = past) ∨
    (¬ same_plan (wp_Spec plan) spec ∧
     ∃ r, tr = past ++ [Ev (Update KWorkloadPlan {| plan with wp_Spec := spec |}) r])).
Proof.
  unfold update_plan. destruct (workloadPlanSpecEqual (wp_Spec plan) spec) eqn:Heq; simpl.
  - left. by apply workloadPlanSpecEqual_iff in Heq.
  - intros r _. assert (¬ same_plan (wp_Spec plan) spec) by (by rewrite <- workloadPlanSpecEqual_iff, Heq).
    destruct r; simpl; right; eauto.
Qed.

(** An existing plan is rewritten exactly when its reference, generation,
    runtime class or number of claims differ from the desired ones: as long as these
    four agree nothing is written, even if the template of the selected backend, the
    resolved values or the claims themselves have changed. *)
Theorem existing_plan_update workload claims sb plan :
  om_Name (wl_ObjectMeta workload) ≠ "" → Forall outputs_present claims →
  wp (reads KWorkloadPlan (workload_key workload) plan) (UpsertWorkloadPlan workload claims sb) []
    (λ r tr, r = Ok () →
       (Exists (λ e, is_write (ev_call e) = true) tr ↔
        ¬ same_plan (wp_Spec plan) (desired_plan_spec workload claims sb RawEmpty))).
Proof.
  intros Hname Hout. unfold UpsertWorkloadPlan. rewrite bool_decide_false by done.
  rewrite wp_bind. intros got Hgot. rewrite (Hgot got eq_refl). cbn [wp].
  rewrite wp_bind_res. unfold wrap. rewrite wp_bind.
  eapply wp_mono; [done| |apply (wp_of_every _ (λ c, is_write c = false) (λ _, True))];
    [|by apply resolveAllPlaceholders_wp|apply resolveAllPlaceholders_reads|apply every_result_top].
  intros [raw|e] tr [_ (l & -> & Hl)]; simpl; [|done].
  assert (¬ Exists (λ e, is_write (ev_call e) = true)
    ([Ev (Get KWorkloadPlan (workload_key workload)) (Ok plan)] ++ l)) as Hno.
  { rewrite Exists_app, Exists_cons, Exists_nil. intros [[?|?]|Hex]; [done..|].
    apply Exists_exists in Hex as (e & He & Hw). rewrite Forall_forall in Hl.
    destruct (Hl e He). congruence. }
  destruct (HasUnresolvedPlaceholders raw) as [[] []]; try done;
    (eapply wp_mono; [done| |apply update_plan_wp]; intros r tr Htr _;
     change (same_plan (wp_Spec plan) (desired_plan_spec workload claims sb RawEmpty))
       with (same_plan (wp_Spec plan) (desired_plan_spec workload claims sb raw));
     destruct Htr as [[Hsame ->]|[Hdiff [r' ->]]]; [tauto|];
     split; [done|]; intros _; apply Exists_app; right; by constructor).
Qed.
End plan.

(** ** Witnesses *)

Module PlanDemo.
(** A loader that always returns the demonstration configuration. *)
#[local] Instance source : ConfigSource := {| load_config := mret (Ok ValidationDemo.config) |}.

#[local] Instance source_laws : @ConfigSourceLaws ValidationDemo.dns1123 source.
Proof.
  split; simpl; [|done|done]. intros config [= <-]. vm_compute. reflexivity.
Qed.

Definition workload : Workload :=
  {| ClaimsDemo.workload with wl_Spec :=
     {| ws_Profile := None; ws_Containers := {["main" := Demo.container]};
        ws_Service := None; ws_Resources := ∅ |} |}.

Definition plan : WorkloadPlan :=
  {| wp_ObjectMeta := new_plan_meta workload;
     wp_Spec := desired_plan_spec workload [] (selected_of Demo.old) RawEmpty;
     wp_Status := WorkloadPlanStatus_zero |}.
End PlanDemo.
#[local] Existing Instances ClaimsDemo.scheme ValidationDemo.dns1123 PlanDemo.source
  PlanDemo.source_laws Demo.semver Demo.semver_laws Demo.selectors.

(** There is no plan yet: the first write creates one from the demonstration
    configuration. *)
Lemma EnsurePlan_writes_witness :
  ∃ plan p b, makes (EnsurePlan PlanDemo.workload [] (AggregateStatus []))
      [Ev (Get KWorkloadPlan ("default", "app")) (Err (EStatus NotFound "no"))]
      (Create KWorkloadPlan plan) ∧
    p ∈ ocs_Profiles (oc_Spec ValidationDemo.config) ∧
    best_backend PlanDemo.workload (pr_Backends p) b ∧
    wps_Template (wp_Spec plan) = Some (be_Template b).
Proof.
  set (l := [Ev (Get KWorkloadPlan ("default", "app")) (Err (EStatus NotFound "no"))]).
  assert (SelectBackend ValidationDemo.config PlanDemo.workload = Ok (selected_of Demo.new)) as Hs
    by (vm_compute; reflexivity).
  assert (∃ plan, makes (EnsurePlan PlanDemo.workload [] (AggregateStatus [])) l
    (Create KWorkloadPlan plan)) as [plan Hm].
  { eexists. eexists. unfold EnsurePlan. change (ca_Ready (AggregateStatus [])) with true.
    unfold pm_SelectBackend. cbn [load_config PlanDemo.source]. cbn -[SelectBackend]. rewrite Hs.
    eexists. split; reflexivity. }
  destruct (EnsurePlan_writes PlanDemo.workload [] (AggregateStatus []) l (Create KWorkloadPlan plan) Hm
    eq_refl) as (_ & l1 & config & p & b & got & l2 & raw & l3 & Heq & Hsel & Hraw & Hst).
  destruct Hsel as (Hload & _ & Hp & _ & Hb).
  assert (config = ValidationDemo.config) as ->.
  { apply (returns_ret_inv (Ok ValidationDemo.config)) in Hload as [_ Hc].
    exact (f_equal (λ r, match r with Ok c => c | Err _ => config end) Hc). }
  exists plan, p, b. split; [exact Hm|]. split; [exact Hp|]. split; [exact Hb|].
  destruct Hst as [(m & _ & Hc)|(old & _ & Hc)]; [|discriminate Hc].
  apply (f_equal (λ c, match c with Create KWorkloadPlan o => wps_Template (wp_Spec o) | _ => None end)) in Hc.
  exact Hc.
Defined.

Lemma existing_plan_update_witness :
  wp (reads KWorkloadPlan ("default", "app") PlanDemo.plan)
    (UpsertWorkloadPlan PlanDemo.workload [] (selected_of Demo.new)) []
    (λ r tr, r = Ok () →
       (Exists (λ e, is_write (ev_call e) = true) tr ↔
        ¬ same_plan (wp_Spec PlanDemo.plan)
            (desired_plan_spec PlanDemo.workload [] (selected_of Demo.new) RawEmpty))).
Proof.
  apply (existing_plan_update PlanDemo.workload [] (selected_of Demo.new) PlanDemo.plan);
    [discriminate|constructor].
Defined.
