(* ===== verification/Pipeline.v ===== *)
(** * Pipeline: [internal/controller/{phases,reconciler}], [internal/reconcile/finalizer.go],
    [internal/controller/workload_controller.go], [reconcile_flow.go], [watches.go] and
    [indexers.go]

    The reconciliation of a workload: the phases, the normal and the deletion
    pipeline, and the reconciler around them.  A phase takes the shared context and
    returns it with its result. *)
From S2P Require Import Prelude GoStrings Json K8s Api Client Sort Conditions Selection.
From S2P Require Import Validation ConfigCache ReconcilerConfig ConfigLoader Placeholders.
From S2P Require Import Claims StatusManager Plan.

Definition WorkloadFinalizer := "workloads.score.dev/finalizer".

(** ** The interface of a phase *)

Record PhaseResult := {
  phr_Skip : bool;
  phr_Requeue : bool;
  phr_RequeueAfter : Z;
  phr_Error : option goerror;
}.

Definition PhaseResult_zero : PhaseResult :=
  {| phr_Skip := false; phr_Requeue := false; phr_RequeueAfter := 0; phr_Error := None |}.

Definition phase_error (e : goerror) : PhaseResult :=
  {| PhaseResult_zero with phr_Error := Some e |}.

Record PhaseContext := {
  pctx_Workload : Workload;
  pctx_ReconcilerConfig : ReconcilerConfig;
  pctx_Claims : list ResourceClaim;
  pctx_ClaimAgg : ClaimAggregation;
  pctx_Plan : option WorkloadPlan;
  pctx_InputsValid : bool;
  pctx_ValidationReason : string;
  pctx_ValidationMessage : string;
}.

Record Phase := {
  ph_Name : string;
  ph_Execute : PhaseContext → prog (PhaseContext * PhaseResult);
  ph_ShouldSkip : PhaseContext → bool;
}.

Definition new_context (config : ReconcilerConfig) (workload : Workload) : PhaseContext :=
  {| pctx_Workload := workload; pctx_ReconcilerConfig := config; pctx_Claims := [];
     pctx_ClaimAgg := {| ca_Ready := false; ca_Reason := ""; ca_Message := ""; ca_Claims := [] |};
     pctx_Plan := None; pctx_InputsValid := false; pctx_ValidationReason := "";
     pctx_ValidationMessage := "" |}.

Definition with_workload (ctx : PhaseContext) (workload : Workload) : PhaseContext :=
  {| ctx with pctx_Workload := workload |}.

(** [!Workload.DeletionTimestamp.IsZero()] *)
Definition being_deleted (workload : Workload) : bool :=
  negb (time_is_zero (om_DeletionTimestamp (wl_ObjectMeta workload))).

Section pipeline.
Context `{!Scheme} `{!Finalizers} `{!MapOrder} `{!Semver} `{!LabelSelectors} `{!ConfigSource}.

(** ** finalizer.go *)

Definition HasFinalizer (workload : Workload) : bool :=
  ContainsFinalizer (wl_ObjectMeta workload) WorkloadFinalizer.

(** The client decodes the stored object into the workload. *)
Definition update_workload (workload : Workload) : prog (Workload * res ()) :=
  r ← ask (Update KWorkload workload);
  mret match (r : res Workload) with
       | Ok stored => (stored, Ok ())
       | Err err => (workload, Err err)
       end.

Definition EnsureFinalizer (workload : Workload) : prog (Workload * res ()) :=
  if HasFinalizer workload then mret (workload, Ok ())
  else update_workload {| workload with wl_ObjectMeta :=
         AddFinalizer (wl_ObjectMeta workload) WorkloadFinalizer |}.

Definition RemoveWorkloadFinalizer (workload : Workload) : prog (Workload * res ()) :=
  if negb (HasFinalizer workload) then mret (workload, Ok ())
  else update_workload {| workload with wl_ObjectMeta :=
         RemoveFinalizer (wl_ObjectMeta workload) WorkloadFinalizer |}.

(** ** validation.go *)

Definition validateInputsAndPolicy (_ : PhaseContext) : bool * string * string :=
  (true, ReasonSucceeded, "Workload specification is valid").

Definition ValidationPhase : Phase := {|
  ph_Name := "Validation";
  ph_Execute ctx :=
    let '(inputsValid, reason, message) := validateInputsAndPolicy ctx in
    let ctx := {| ctx with pctx_InputsValid := inputsValid;
                  pctx_ValidationReason := reason; pctx_ValidationMessage := message |} in
    workload ← SetInputsValidCondition (pctx_Workload ctx) inputsValid reason message;
    let ctx := with_workload ctx workload in
    if negb inputsValid then mret (ctx, {| PhaseResult_zero with phr_Skip := true |})
    else mret (ctx, PhaseResult_zero);
  ph_ShouldSkip ctx := being_deleted (pctx_Workload ctx)
|}.

(** ** claim.go *)

Definition ClaimPhase : Phase := {|
  ph_Name := "Claim";
  ph_Execute ctx :=
    let workload := pctx_Workload ctx in
    r ← EnsureClaims (visit (ws_Resources (wl_Spec workload))) workload;
    match r with
    | Err err =>
        emit workload EventTypeWarning "ClaimError"
          ("Failed to create resource claims: " +:+ Error err);;
        mret (ctx, phase_error err)
    | Ok _ =>
        r ← GetClaims workload;
        match r with
        | Err err => mret (ctx, phase_error err)
        | Ok claims =>
            let agg := AggregateStatus claims in
            now ← ask Now;
            mret ({| ctx with pctx_Claims := claims; pctx_ClaimAgg := agg;
                     pctx_Workload := UpdateWorkloadStatusFromAggregation now workload agg |},
                  PhaseResult_zero)
        end
    end;
  ph_ShouldSkip ctx := being_deleted (pctx_Workload ctx)
|}.

(** ** plan.go *)

Definition PlanPhase : Phase := {|
  ph_Name := "Plan";
  ph_Execute ctx :=
    x ← EnsurePlan (pctx_Workload ctx) (pctx_Claims ctx) (pctx_ClaimAgg ctx);
    let ctx := with_workload ctx x.1 in
    match x.2 with
    | Err err =>
        if Contains (Error err) "missing required outputs for projection"
        then mret (ctx, {| PhaseResult_zero with phr_Skip := true |})
        else mret (ctx, phase_error err)
    | Ok _ =>
        plan ← GetPlan (pctx_Workload ctx);
        mret ({| ctx with pctx_Plan := match plan with Ok p => Some p | Err _ => None end |},
              PhaseResult_zero)
    end;
  ph_ShouldSkip ctx := being_deleted (pctx_Workload ctx)
|}.

(** ** status.go *)

Definition StatusPhase : Phase := {|
  ph_Name := "Status";
  ph_Execute ctx :=
    workload ← ComputeFinalStatus (pctx_Workload ctx) (pctx_Plan ctx);
    x ← UpdateStatus workload;
    let ctx := with_workload ctx x.1 in
    match x.2 with
    | Err err =>
        if IsConflict err
        then mret (ctx, {| PhaseResult_zero with phr_Requeue := true;
               phr_RequeueAfter :=
                 rt_ConflictRequeueDelay (rcf_Retry (pctx_ReconcilerConfig ctx)) |})
        else mret (ctx, phase_error err)
    | Ok _ => mret (ctx, PhaseResult_zero)
    end;
  ph_ShouldSkip ctx := being_deleted (pctx_Workload ctx)
|}.

(** ** deletion.go *)

Definition getDeprovisionPolicy (claim : ResourceClaim) : DeprovisionPolicy :=
  default DeprovisionDelete (rcs_DeprovisionPolicy (rc_Spec claim)).

Definition keeps_owner (workload : Workload) (ownerRef : OwnerReference) : bool :=
  negb (bool_decide (or_Kind ownerRef = "Workload")) ||
  negb (bool_decide (or_Name ownerRef = om_Name (wl_ObjectMeta workload))).

Definition detached (workload : Workload) (claim : ResourceClaim) : ResourceClaim :=
  {| claim with rc_ObjectMeta := {| (rc_ObjectMeta claim) with om_OwnerReferences :=
       List.filter (keeps_owner workload) (om_OwnerReferences (rc_ObjectMeta claim)) |} |}.

Definition removeOwnerReference (workload : Workload) (claim : ResourceClaim) : prog (res ()) :=
  r ← ask (Update KResourceClaim (detached workload claim));
  mret match (r : res ResourceClaim) with Ok _ => Ok () | Err err => Err err end.

Definition deleteResourceClaim (claim : ResourceClaim) : prog (res ()) :=
  if negb (time_is_zero (om_DeletionTimestamp (rc_ObjectMeta claim))) then mret (Ok ())
  else ask (Delete KResourceClaim (meta_key (rc_ObjectMeta claim))).

Definition processDeprovisionPolicy (workload : Workload) (claim : ResourceClaim) :
    prog (res ()) :=
  match getDeprovisionPolicy claim with
  | DeprovisionDelete => deleteResourceClaim claim
  | DeprovisionRetain | DeprovisionOrphan => removeOwnerReference workload claim
  | DeprovisionOther _ => deleteResourceClaim claim
  end.

Fixpoint process_claims (workload : Workload) (claims : list ResourceClaim) : prog (res ()) :=
  match claims with
  | [] => mret (Ok ())
  | claim :: claims =>
      processDeprovisionPolicy workload claim ;;? process_claims workload claims
  end.

Definition waits_for (claim : ResourceClaim) : bool :=
  bool_decide (getDeprovisionPolicy claim = DeprovisionDelete).

Definition DeletionPhase : Phase := {|
  ph_Name := "Deletion";
  ph_Execute ctx :=
    let workload := pctx_Workload ctx in
    if negb (HasFinalizer workload) then mret (ctx, PhaseResult_zero)
    else
      r ← (claims ←? GetClaims workload; process_claims workload claims;;?
           GetClaims workload);
      match r with
      | Err err => mret (ctx, phase_error err)
      | Ok remainingClaims =>
          let claimsToWaitFor := length (List.filter waits_for remainingClaims) in
          if 0 <? claimsToWaitFor
          then mret (ctx, {| PhaseResult_zero with phr_Requeue := true;
                 phr_RequeueAfter :=
                   rt_DefaultRequeueDelay (rcf_Retry (pctx_ReconcilerConfig ctx)) |})
          else
            x ← RemoveWorkloadFinalizer workload;
            let ctx := with_workload ctx x.1 in
            match x.2 with
            | Err err => mret (ctx, phase_error err)
            | Ok _ =>
                emit (pctx_Workload ctx) EventTypeNormal "Deleted" "Workload cleanup completed";;
                mret (ctx, PhaseResult_zero)
            end
      end;
  ph_ShouldSkip ctx := negb (being_deleted (pctx_Workload ctx))
|}.

(** ** pipeline.go *)

Definition requeue (after : Z) : Result := {| res_Requeue := true; res_RequeueAfter := after |}.

Fixpoint run_phases (phases : list Phase) (ctx : PhaseContext) : prog (res Result) :=
  match phases with
  | [] => mret (Ok Result_zero)
  | phase :: phases =>
      if ph_ShouldSkip phase ctx then run_phases phases ctx
      else
        x ← ph_Execute phase ctx;
        let '(ctx, result) := x in
        match phr_Error result with
        | Some err => mret (Err err)
        | None =>
            if phr_Requeue result then mret (Ok (requeue (phr_RequeueAfter result)))
            else if phr_Skip result then mret (Ok Result_zero)
            else run_phases phases ctx
        end
  end.

Definition normalPhases : list Phase := [ValidationPhase; ClaimPhase; PlanPhase; StatusPhase].

Definition executeDeletionPipeline (ctx : PhaseContext) : prog (res Result) :=
  if ph_ShouldSkip DeletionPhase ctx then mret (Ok Result_zero)
  else
    x ← ph_Execute DeletionPhase ctx;
    match phr_Error x.2 with
    | Some err => mret (Err err)
    | None => if phr_Requeue x.2 then mret (Ok (requeue (phr_RequeueAfter x.2)))
              else mret (Ok Result_zero)
    end.

(** [WorkloadPipeline.Execute] *)
Definition Execute (config : ReconcilerConfig) (workload : Workload) : prog (res Result) :=
  if being_deleted workload then executeDeletionPipeline (new_context config workload)
  else
    x ← EnsureFinalizer workload;
    match x.2 with
    | Err err => mret (Err err)
    | Ok _ => run_phases normalPhases (new_context config x.1)
    end.

(** ** workload_controller.go *)

(** The reconciler keeps the settings its pipeline was made with: [None] before the
    first workload is found. *)
Definition Reconcile (pipeline : option ReconcilerConfig) (cached : option ReconcilerConfig)
    (req : ObjectKey) : prog (option ReconcilerConfig * res Result) :=
  r ← ask (Get KWorkload req);
  match (r : res Workload) with
  | Err err => if IsNotFound err then mret (pipeline, Ok Result_zero)
               else mret (pipeline, Err err)
  | Ok workload =>
      let reconcilerConfig := default DefaultReconcilerConfig cached in
      let config := default reconcilerConfig pipeline in
      r ← Execute config workload;
      mret (Some config, r)
  end.

(** ** watches.go and indexers.go *)

Inductive watched :=
| WatchedClaim (claim : ResourceClaim)
| WatchedPlan (plan : WorkloadPlan)
| WatchedOther.

Definition EnqueueRequestForOwningWorkload (o : watched) : list ObjectKey :=
  match o with
  | WatchedClaim claim =>
      let ref := rcs_WorkloadRef (rc_Spec claim) in [(nn_Namespace ref, nn_Name ref)]
  | WatchedPlan plan =>
      let ref := wps_WorkloadRef (wp_Spec plan) in [(wpr_Namespace ref, wpr_Name ref)]
  | WatchedOther => []
  end.

Definition index_claim (claim : ResourceClaim) : list string :=
  [nn_Namespace (rcs_WorkloadRef (rc_Spec claim)) +:+ "/" +:+
   nn_Name (rcs_WorkloadRef (rc_Spec claim))].

Definition index_plan (plan : WorkloadPlan) : list string :=
  [wpr_Namespace (wps_WorkloadRef (wp_Spec plan)) +:+ "/" +:+
   wpr_Name (wps_WorkloadRef (wp_Spec plan))].

(** The same as [GetClaims], with a narrower test for the missing index. *)
Definition GetResourceClaimsForWorkload (workload : Workload) : prog (res (list ResourceClaim)) :=
  let key := workload_ns workload +:+ "/" +:+ om_Name (wl_ObjectMeta workload) in
  r ← ask (ListByField KResourceClaim IndexResourceClaimByWorkload key);
  match (r : res (list ResourceClaim)) with
  | Err err =>
      if bool_decide (Error err = "field label not supported: " +:+ IndexResourceClaimByWorkload)
      then getResourceClaimsWithoutIndex workload else mret (Err err)
  | Ok items => mret (Ok items)
  end.
End pipeline.

(** ** reconcile_flow.go *)

Inductive ReconcileErrorCategory :=
| ErrorCategoryValidation | ErrorCategoryClaim | ErrorCategoryProjection
| ErrorCategoryRuntime | ErrorCategoryConfig | ErrorCategoryStatus.

Definition category_name (c : ReconcileErrorCategory) : string :=
  match c with
  | ErrorCategoryValidation => "Validation" | ErrorCategoryClaim => "Claim"
  | ErrorCategoryProjection => "Projection" | ErrorCategoryRuntime => "Runtime"
  | ErrorCategoryConfig => "Config" | ErrorCategoryStatus => "Status"
  end.

Record ReconcileError := {
  rer_Category : ReconcileErrorCategory;
  rer_EventReason : string;
  rer_EventType : string;
  rer_Message : string;
  rer_Cause : option goerror;
}.

(** The error value itself: its text, and its cause for [errors.As]. *)
Definition reconcile_error (e : ReconcileError) : goerror :=
  let prefix := category_name (rer_Category e) +:+ ": " +:+ rer_Message e in
  match rer_Cause e with Some cause => EWrap prefix cause | None => ENew prefix end.

Definition HandleReconcileError (workload : Workload) (err : ReconcileError) :
    prog (res Result) :=
  emit workload (rer_EventType err) (rer_EventReason err) (rer_Message err);;
  mret match rer_Category err with
       | ErrorCategoryStatus =>
           if match rer_Cause err with Some c => IsConflict c | None => false end
           then Ok {| res_Requeue := false; res_RequeueAfter := 1 * Second |}
           else Err (reconcile_error err)
       | ErrorCategoryConfig | ErrorCategoryRuntime =>
           Ok {| res_Requeue := false; res_RequeueAfter := 30 * Second |}
       | _ => Err (reconcile_error err)
       end.

(** ** What the phases guarantee *)

(** The call reads the claims of the workload and its reply lists [claims]. *)
Definition lists_claims (e : event) (claims : list ResourceClaim) : Prop :=
  (∃ i v, e = Ev (ListByField KResourceClaim i v) (Ok claims)) ∨
  (∃ ns l v, e = Ev (ListByLabel KResourceClaim ns l v) (Ok claims)).

(** The reply to a list of the claims, of the plans. *)
Definition claims_reply (e : event) : option (res (list ResourceClaim)) :=
  match e with
  | Ev (ListByField KResourceClaim _ _) r | Ev (ListByLabel KResourceClaim _ _ _) r => Some r
  | _ => None
  end.

Definition plans_reply (e : event) : option (res (list WorkloadPlan)) :=
  match e with
  | Ev (ListByField KWorkloadPlan _ _) r | Ev (ListByLabel KWorkloadPlan _ _ _) r => Some r
  | _ => None
  end.

(** The last reply of a kind. *)
Definition latest {A} (reply : event → option A) (tr : list event) : option A :=
  last (omap reply tr).

Lemma latest_snoc {A} (f : event → option A) tr e :
  latest f (tr ++ [e]) = match f e with Some x => Some x | None => latest f tr end.
Proof.
  unfold latest. rewrite omap_app. cbn [omap list_omap]. destruct (f e).
  - apply last_snoc.
  - by rewrite app_nil_r.
Qed.

Lemma latest_app {A} (f : event → option A) tr l :
  Forall (λ e, f e = None) l → latest f (tr ++ l) = latest f tr.
Proof.
  intros Hl. unfold latest. rewrite omap_app.
  assert (omap f l = []) as ->; [|by rewrite app_nil_r].
  induction Hl as [|e l He Hl IH]; [done|]. cbn [omap list_omap]. by rewrite He.
Qed.

Lemma no_claims_reply e : is_list (ev_call e) = false → claims_reply e = None.
Proof. by destruct e as [[] r]. Qed.
Lemma no_plans_reply e : is_list (ev_call e) = false → plans_reply e = None.
Proof. by destruct e as [[] r]. Qed.

(** The API server lists only claims that have the outputs they announce. *)
Definition well_formed_claims (e : event) : Prop :=
  ∀ claims, lists_claims e claims → Forall outputs_present claims.

Definition status_write (c : call) : Prop :=
  match c with StatusUpdate _ _ | StatusPatch _ _ _ => True | _ => False end.

(** [tr] is [past] and further calls none of which writes a status. *)
Definition no_status_since (past tr : list event) : Prop :=
  ∃ l, tr = past ++ l ∧ Forall (λ e, ¬ status_write (ev_call e)) l.

Lemma no_status_refl past : no_status_since past past.
Proof. exists []. by rewrite app_nil_r. Qed.

Lemma no_status_trans a b c : no_status_since a b → no_status_since b c → no_status_since a c.
Proof.
  intros (l & -> & Hl) (l' & -> & Hl'). exists (l ++ l'). rewrite app_assoc.
  split; [done|]. by apply Forall_app_2.
Qed.

Lemma no_status_snoc past tr c r :
  no_status_since past tr → ¬ status_write c → no_status_since past (tr ++ [Ev c r]).
Proof.
  intros H Hc. eapply no_status_trans; [exact H|]. exists [Ev c r]. by repeat constructor.
Qed.

#[export] Hint Resolve no_status_refl no_status_snoc : prog.

Lemma wp_no_status {A} E (Q : A → Prop) (p : prog A) past :
  wp E p past (λ _ _, True) → every_call (λ c, ¬ status_write c) p → every_result Q p →
  wp E p past (λ a tr, Q a ∧ no_status_since past tr).
Proof.
  intros Hwp Hc HQ. eapply wp_mono; [done| |by apply wp_of_every].
  intros a tr [Ha (l & -> & Hl)]. split; [done|]. exists l. split; [done|].
  eapply Forall_impl; [exact Hl|]. by intros e [? _].
Qed.

(** The metadata and every condition but RuntimeReady are kept. *)
Definition only_runtime (w w' : Workload) : Prop :=
  wl_ObjectMeta w' = wl_ObjectMeta w ∧
  ∀ t, t ≠ ConditionRuntimeReady →
    IsConditionTrue (conditions_of w') t = IsConditionTrue (conditions_of w) t.

Section guarantees.
Context `{!Scheme} `{!Finalizers} `{!MapOrder} `{!Semver} `{!LabelSelectors} `{!DNS1123}
  `{!ConfigSource} `{!ConfigSourceLaws}.

(** *** EnsurePlan and GetPlan *)

(** The call neither writes a status nor lists anything. *)
Definition quiet (c : call) : Prop := ¬ status_write c ∧ is_list c = false.

Lemma EnsurePlan_quiet workload claims agg : every_call quiet (EnsurePlan workload claims agg).
Proof.
  unfold EnsurePlan. destruct (ca_Ready agg); [|done]. apply every_call_bind.
  - unfold pm_SelectBackend. apply every_call_bind_res; [|done]. apply every_call_wrap.
    eapply every_call_mono; [|apply load_fetches]. intros c [Hw Hl]. split; [|done].
    intros Hst. by destruct c.
  - intros [sb|err]; [|by unfold SetRuntimeReadyCondition, set_condition; calls; (split; [tauto|])].
    apply every_call_bind.
    + eapply every_call_mono; [|apply every_call_and;
        [apply (UpsertWorkloadPlan_writes workload claims sb)|
         apply (UpsertWorkloadPlan_lists_nothing workload claims sb)]].
      intros c [Hc Hl]. split; [|done]. intros Hst.
      assert (is_write c = true) as Hw by (by destruct c).
      by destruct (Hc Hw) as (plan & raw & [-> | ->] & _).
    + by intros [[]|e]; unfold emit, SetRuntimeReadyCondition, set_condition; calls; (split; [tauto|]).
Qed.

Lemma EnsurePlan_no_status workload claims agg :
  every_call (λ c, ¬ status_write c) (EnsurePlan workload claims agg).
Proof. eapply every_call_mono; [|apply EnsurePlan_quiet]. by intros c [? _]. Qed.

Lemma update_plan_total E prefix plan spec past :
  wp E (update_plan prefix plan spec) past (λ _ _, True).
Proof. eapply wp_mono; [done| |apply update_plan_wp]. done. Qed.

Lemma create_plan_total E workload spec past :
  wp E (create_plan workload spec) past (λ _ _, True).
Proof.
  unfold create_plan. destruct (SetControllerReference _ _ _) as [meta|err]; [|done].
  rewrite wp_bind. intros [c|err] _; cbn [wp]; [done|].
  destruct (IsAlreadyExists err); [|done]. rewrite wp_bind. intros [p|e] _; cbn [wp]; [|done].
  apply update_plan_total.
Qed.

(** Resolving the values and going on with them. *)
Lemma resolved_total {A} E workload claims (f : RawJSON → prog (res A)) past :
  Forall outputs_present claims → (∀ raw tr, wp E (f raw) tr (λ _ _, True)) →
  wp E (raw ←? wrap "failed to resolve placeholders" (resolveAllPlaceholders workload claims);
        f raw) past (λ _ _, True).
Proof.
  intros Hc Hf. rewrite wp_bind_res. unfold wrap. rewrite wp_bind.
  eapply wp_mono; [done| |by apply resolveAllPlaceholders_wp].
  intros [raw|e] tr _; cbn [wp res_wrap]; [apply Hf|done].
Qed.

Lemma UpsertWorkloadPlan_total E workload claims sb past :
  Forall outputs_present claims → wp E (UpsertWorkloadPlan workload claims sb) past (λ _ _, True).
Proof.
  intros Hc. unfold UpsertWorkloadPlan. case_bool_decide; [done|].
  rewrite wp_bind. intros [plan|err] _; cbn [wp]; [|destruct (IsNotFound err); [|done]; cbn [negb]];
    (apply resolved_total; [done|]; intros raw tr;
     destruct (HasUnresolvedPlaceholders raw) as [[] []]; try done;
     [apply update_plan_total || apply create_plan_total..]).
Qed.

Lemma EnsurePlan_total E workload claims agg past :
  Forall outputs_present claims → wp E (EnsurePlan workload claims agg) past (λ _ _, True).
Proof.
  intros Hc. unfold EnsurePlan. destruct (ca_Ready agg); [|done].
  unfold pm_SelectBackend. rewrite wp_bind, wp_bind_res. unfold wrap. rewrite wp_bind.
  eapply wp_mono; [done| |apply load_total]. intros [config|e] tr _; cbn; [|done].
  destruct (SelectBackend config workload) as [sb|e]; cbn; [|done].
  rewrite wp_bind. eapply wp_mono; [done| |by apply UpsertWorkloadPlan_total].
  intros [[]|e] tr' _; [done|]. by destruct (is_projection_error e).
Qed.

Lemma set_runtime_only workload ready reason message :
  every_result (λ w', only_runtime workload w')
    (SetRuntimeReadyCondition workload ready reason message).
Proof.
  intros now. split; [done|]. intros t Ht. apply IsConditionTrue_Set_other. done.
Qed.

Lemma EnsurePlan_only_runtime workload claims agg :
  every_result (λ '(w', r), only_runtime workload w' ∧ (r = Ok () → w' = workload))
    (EnsurePlan workload claims agg).
Proof.
  assert (only_runtime workload workload) as Hrefl by (by split).
  unfold EnsurePlan. destruct (ca_Ready agg); [|done].
  apply every_result_bind. eapply every_result_mono; [|apply every_result_top].
  intros [sb|err] _.
  - apply every_result_bind. eapply every_result_mono; [|apply every_result_top].
    intros [[]|e] _; [done|]. destruct (is_projection_error e); [|done].
    apply every_result_bind. eapply every_result_mono; [|apply set_runtime_only].
    intros w' Hw' []. by split.
  - apply every_result_bind. eapply every_result_mono; [|apply set_runtime_only].
    intros w' Hw'. by split.
Qed.

(** Only a list of exactly one plan gives a plan. *)
Lemma one_plan (items : list WorkloadPlan) (none several : goerror) p :
  match items with [] => Err none | [plan] => Ok plan | _ => Err several end = Ok p ↔
  Some (Ok items) = Some (Ok [p]) :> option (res (list WorkloadPlan)).
Proof. destruct items as [|x [|]]; split; intros; simplify_eq; done. Qed.

Lemma GetPlan_wp E workload past :
  wp E (GetPlan workload) past (λ r tr, no_status_since past tr ∧
    latest claims_reply tr = latest claims_reply past ∧
    ∀ p, r = Ok p ↔ latest plans_reply tr = Some (Ok [p])).
Proof.
  unfold GetPlan. rewrite wp_bind. intros [items|err] _; cbn [wp]; rewrite wp_bind.
  - cbn [wp]. split; [auto with prog|]. split; [by rewrite latest_snoc|].
    intros p. rewrite latest_snoc. apply one_plan.
  - destruct (Contains (Error err) "no index with name").
    + intros [items|err'] _; cbn [wp]; (split; [auto with prog|]);
        (split; [by rewrite !latest_snoc|]); intros p; rewrite latest_snoc; [apply one_plan|done].
    + cbn [wp]. split; [auto with prog|]. split; [by rewrite latest_snoc|].
      intros p. by rewrite latest_snoc.
Qed.

(** *** The claims *)

Lemma GetClaims_wp workload past :
  wp well_formed_claims (GetClaims workload) past (λ r tr, no_status_since past tr ∧
    ∀ claims, r = Ok claims →
      latest claims_reply tr = Some (Ok claims) ∧ Forall outputs_present claims).
Proof.
  unfold GetClaims. rewrite wp_bind. intros [items|err] Hwf; cbn [wp].
  - split; [auto with prog|]. intros claims [= <-].
    assert (lists_claims (Ev (ListByField KResourceClaim IndexResourceClaimByWorkload
      (workload_ns workload +:+ "/" +:+ om_Name (wl_ObjectMeta workload))) (Ok items)) items)
      as Hl by (left; by eexists _, _).
    split; [|by apply Hwf]. by rewrite latest_snoc.
  - destruct (index_missing IndexResourceClaimByWorkload err); [|cbn [wp]; split; [auto with prog|done]].
    intros [items|err'] Hwf'; cbn [wp]; (split; [auto with prog|]); [|done]. intros claims [= <-].
    assert (lists_claims (Ev (ListByLabel KResourceClaim (workload_ns workload)
      "score.dev/workload" (om_Name (wl_ObjectMeta workload))) (Ok items)) items)
      as Hl by (right; by eexists _, _, _).
    split; [|by apply Hwf']. by rewrite latest_snoc.
Qed.

Lemma EnsureClaims_no_status order workload :
  every_call (λ c, ¬ status_write c) (EnsureClaims order workload).
Proof.
  unfold EnsureClaims. induction order as [|[key res] order IH]; [done|]. cbn [ensure_claims].
  apply every_call_bind_res; [|done]. apply every_call_wrap.
  unfold upsertResourceClaim, upsert_with. calls; tauto.
Qed.

Lemma EnsureClaims_total E order workload past :
  wp E (EnsureClaims order workload) past (λ _ _, True).
Proof.
  eapply (wp_mono any); [done| |apply ensure_claims_ensures, set_claim_owner_keeps]. done.
Qed.
(** *** The phases *)

Definition same_meta (ctx ctx' : PhaseContext) : Prop :=
  wl_ObjectMeta (pctx_Workload ctx') = wl_ObjectMeta (pctx_Workload ctx).

Lemma ValidationPhase_wp E ctx past :
  wp E (ph_Execute ValidationPhase ctx) past (λ '(ctx', result) tr,
    no_status_since past tr ∧ same_meta ctx ctx' ∧ result = PhaseResult_zero ∧
    IsConditionTrue (conditions_of (pctx_Workload ctx')) ConditionInputsValid = true).
Proof.
  intros now _. split; [auto with prog|]. split; [done|]. split; [done|].
  by apply IsConditionTrue_Set_same.
Qed.

(** The claims of the context are those of the last list, and decide ClaimsReady. *)
Definition claims_known (ctx : PhaseContext) (tr : list event) : Prop :=
  let claims := pctx_Claims ctx in
  latest claims_reply tr = Some (Ok claims) ∧ Forall outputs_present claims ∧
  (IsConditionTrue (conditions_of (pctx_Workload ctx)) ConditionClaimsReady = true ↔
   Forall claim_bound claims).

Definition inputs_valid (ctx : PhaseContext) : Prop :=
  IsConditionTrue (conditions_of (pctx_Workload ctx)) ConditionInputsValid = true.

Lemma no_status_extends past tr : no_status_since past tr → extends past tr.
Proof. intros (l & -> & _). by exists l. Qed.

Lemma ClaimPhase_wp ctx past :
  inputs_valid ctx →
  wp well_formed_claims (ph_Execute ClaimPhase ctx) past (λ '(ctx', result) tr,
    no_status_since past tr ∧
    (phr_Error result = None →
     result = PhaseResult_zero ∧ same_meta ctx ctx' ∧ inputs_valid ctx' ∧ claims_known ctx' tr)).
Proof.
  intros Hin. cbn [ph_Execute ClaimPhase]. rewrite wp_bind.
  eapply wp_mono; [done| |apply (wp_no_status _ (λ _, True));
    [apply EnsureClaims_total|apply EnsureClaims_no_status|apply every_result_top]].
  intros [[]|err] tr [_ Htr]; [|by intros [] _; split; [auto with prog|]].
  rewrite wp_bind. eapply wp_mono; [done| |apply GetClaims_wp].
  intros [claims|err] tr' [Htr' Hlist]; [|by split; [eauto using no_status_trans|]].
  destruct (Hlist claims eq_refl) as [He Hout]. rewrite wp_bind. intros now _. cbn [wp].
  split; [eauto using no_status_trans with prog|]. intros _. split; [done|]. split; [done|].
  split; [|split; [|split]].
  - unfold inputs_valid. cbn. by rewrite IsConditionTrue_Set_other.
  - by rewrite latest_snoc.
  - done.
  - cbn. rewrite IsConditionTrue_Set_same.
    destruct (AggregateClaimStatuses_spec claims) as (Hready & _).
    rewrite <- Hready. unfold AggregateStatus. by destruct (ca_Ready _).
Qed.

(** The context has a plan exactly when the last list of plans has this one alone. *)
Definition plan_known (ctx : PhaseContext) (tr : list event) : Prop :=
  ∀ p, pctx_Plan ctx = Some p ↔ latest plans_reply tr = Some (Ok [p]).

Lemma PlanPhase_wp ctx past :
  inputs_valid ctx → claims_known ctx past →
  wp well_formed_claims (ph_Execute PlanPhase ctx) past (λ '(ctx', result) tr,
    no_status_since past tr ∧
    (phr_Error result = None → phr_Requeue result = false ∧
     (phr_Skip result = false →
      same_meta ctx ctx' ∧ inputs_valid ctx' ∧ claims_known ctx' tr ∧ plan_known ctx' tr))).
Proof.
  intros Hin Hcl. cbn [ph_Execute PlanPhase]. rewrite wp_bind.
  eapply wp_mono; [done| |apply wp_of_every;
    [apply EnsurePlan_total, Hcl|apply EnsurePlan_quiet|apply EnsurePlan_only_runtime]].
  intros [w' r] tr [[[Hmeta Hconds] _] (l & -> & Hl)]. cbn [fst snd].
  assert (no_status_since past (past ++ l)) as Htr.
  { exists l. split; [done|]. eapply Forall_impl; [exact Hl|]. by intros e [[? _] _]. }
  assert (latest claims_reply (past ++ l) = latest claims_reply past) as Hlatest.
  { apply latest_app. eapply Forall_impl; [exact Hl|]. intros e [[_ ?] _]. by apply no_claims_reply. }
  destruct r as [[]|err]; [|by case_match; cbn [wp]; split; try done].
  rewrite wp_bind. eapply wp_mono; [done| |apply GetPlan_wp].
  intros plan tr' (Htr' & Hlatest' & Hplan). cbn [wp]. assert (no_status_since past tr') as Hall
    by eauto using no_status_trans.
  split; [done|]. intros _. split; [done|]. intros _. split; [done|]. split; [|split].
  - unfold inputs_valid. cbn. by rewrite Hconds.
  - destruct Hcl as (Hlast & ? & Hiff). split; [by rewrite Hlatest', Hlatest|]. split; [done|].
    cbn. by rewrite Hconds.
  - intros p. rewrite <- Hplan. cbn. destruct plan; split; congruence.
Qed.

(** The status that is written agrees with what was read last: ClaimsReady holds if and
    only if each of the claims of the last list is Bound with outputs, RuntimeReady if
    and only if the last list of plans has a single plan, in phase Ready, and Ready if
    and only if both hold. *)
Definition status_sound (workload : Workload) (tr : list event) : Prop :=
  let holds := IsConditionTrue (conditions_of workload) in
  let bound claim := rst_Phase (rc_Status claim) = ResourceClaimPhaseBound ∧
                     rst_OutputsAvailable (rc_Status claim) = true in
  ∃ claims, latest claims_reply tr = Some (Ok claims) ∧
    let claims_ready := Forall bound claims in
    let runtime_ready := ∃ p, latest plans_reply tr = Some (Ok [p]) ∧
                              wpst_Phase (wp_Status p) = WorkloadPlanPhaseReady in
    holds ConditionInputsValid = true ∧
    (holds ConditionClaimsReady = true ↔ claims_ready) ∧
    (holds ConditionRuntimeReady = true ↔ runtime_ready) ∧
    (holds ConditionReady = true ↔ claims_ready ∧ runtime_ready).

(** [tr] ends with the one status write, which is sound. *)
Definition writes_status (past tr : list event) (r : option goerror) : Prop :=
  ∃ tr' workload reply, tr = tr' ++ [Ev (StatusUpdate KWorkload workload) reply] ∧
    no_status_since past tr' ∧ status_sound workload tr' ∧
    match (reply : res Workload) with
    | Ok _ => r = None
    | Err err => r = None ↔ IsConflict err = true
    end.

Lemma IsConflict_wrap prefix err : IsConflict (EWrap prefix err) = IsConflict err.
Proof. done. Qed.

Lemma plan_ready_known ctx tr :
  plan_known ctx tr →
  plan_ready (pctx_Plan ctx) = true ↔
  ∃ p, latest plans_reply tr = Some (Ok [p]) ∧ wpst_Phase (wp_Status p) = WorkloadPlanPhaseReady.
Proof.
  intros Hp. unfold plan_known in Hp. split.
  - destruct (pctx_Plan ctx) as [p|] eqn:Hpl; [|done]. intros Hr%bool_decide_eq_true. exists p.
    split; [by apply Hp|done].
  - intros (p & Hl & Hr). apply Hp in Hl as ->. by apply bool_decide_eq_true.
Qed.

Lemma final_status_sound ctx past t1 t2 l :
  inputs_valid ctx → claims_known ctx past → plan_known ctx past →
  Forall (λ e, is_list (ev_call e) = false) l →
  let cs := runtime_set t1 (pctx_Plan ctx) (conditions_of (pctx_Workload ctx)) in
  let c := ComputeReadyCondition cs in
  status_sound (with_conditions (pctx_Workload ctx)
                  (SetCondition t2 cs ConditionReady c.1.1 c.1.2 c.2)) (past ++ l).
Proof.
  intros Hin (He & _ & Hiff) Hp Hl cs c. unfold status_sound.
  assert (latest claims_reply (past ++ l) = latest claims_reply past) as ->.
  { apply latest_app. eapply Forall_impl; [exact Hl|]. apply no_claims_reply. }
  assert (latest plans_reply (past ++ l) = latest plans_reply past) as ->.
  { apply latest_app. eapply Forall_impl; [exact Hl|]. apply no_plans_reply. }
  exists (pctx_Claims ctx). split; [done|]. cbv zeta. rewrite <- plan_ready_known by done.
  change (conditions_of (with_conditions _ ?x)) with x.
  rewrite !IsConditionTrue_Set_other, IsConditionTrue_Set_same by done.
  unfold c, cs. rewrite Ready_iff, !runtime_set_true.
  rewrite !bool_decide_false, bool_decide_true by done.
  split; [done|]. split; [done|]. split; [done|]. unfold all_ready.
  unfold claim_bound in Hiff. rewrite <- Hiff, !andb_true_iff, Hin. tauto.
Qed.

Lemma StatusPhase_wp ctx past :
  inputs_valid ctx → claims_known ctx past → plan_known ctx past →
  wp well_formed_claims (ph_Execute StatusPhase ctx) past (λ '(_, result) tr,
    writes_status past tr (phr_Error result)).
Proof.
  intros Hin Hcl Hp. cbn [ph_Execute StatusPhase]. rewrite wp_bind.
  eapply (wp_mono any); [done| |apply ComputeFinalStatus_wp].
  intros w tr (t1 & t2 & l & -> & Hl & ->). unfold UpdateStatus.
  rewrite wp_bind, wp_bind. intros reply _.
  assert (∀ r, match (reply : res Workload) with
      Ok _ => r = None | Err err => r = None ↔ IsConflict err = true end →
    writes_status past ((past ++ Ev Now t1 :: Ev Now t2 :: l) ++
      [Ev (StatusUpdate KWorkload
        (let cs := runtime_set t1 (pctx_Plan ctx) (conditions_of (pctx_Workload ctx)) in
         let c := ComputeReadyCondition cs in
         with_conditions (pctx_Workload ctx)
           (SetCondition t2 cs ConditionReady c.1.1 c.1.2 c.2))) reply]) r) as Hw.
  { intros r Hr. eexists _, _, reply. split; [done|]. split; [|split; [|done]].
    - exists (Ev Now t1 :: Ev Now t2 :: l). split; [done|]. rewrite Hl.
      by destruct (all_ready _ _); repeat constructor; intros [].
    - apply final_status_sound; try done. rewrite Hl.
      by destruct (all_ready _ _); repeat constructor. }
  destruct reply as [stored|err]; cbn [wp mret prog_ret fst snd].
  - by apply Hw.
  - rewrite IsConflict_wrap. destruct (IsConflict err); by apply Hw.
Qed.

(** *** The normal pipeline *)

Lemma run_phases_cons E phase phases ctx past Q :
  wp E (run_phases (phase :: phases) ctx) past Q ↔
  if ph_ShouldSkip phase ctx then wp E (run_phases phases ctx) past Q
  else wp E (ph_Execute phase ctx) past (λ '(ctx', result) tr,
    match phr_Error result with
    | Some err => Q (Err err) tr
    | None =>
        if phr_Requeue result then Q (Ok (requeue (phr_RequeueAfter result))) tr
        else if phr_Skip result then Q (Ok Result_zero) tr
        else wp E (run_phases phases ctx') tr Q
    end).
Proof.
  cbn [run_phases]. destruct (ph_ShouldSkip phase ctx); [done|]. rewrite wp_bind.
  split; apply wp_mono; try done; intros [ctx' result] tr;
    (destruct (phr_Error result); [done|]); (destruct (phr_Requeue result); [done|]);
    by destruct (phr_Skip result).
Qed.

(** Either no status is written, or one is, as the last call. *)
Definition status_outcome (past : list event) (r : res Result) (tr : list event) : Prop :=
  no_status_since past tr ∨ writes_status past tr (err_of r).

Lemma status_outcome_trans past tr r tr' :
  no_status_since past tr → status_outcome tr r tr' → status_outcome past r tr'.
Proof.
  intros Hp [Hn|(tr0 & w & reply & -> & Hn & Hs)]; [left|right]; [eauto using no_status_trans|].
  exists tr0, w, reply. split; [done|]. split; [|done]. eauto using no_status_trans.
Qed.

Lemma same_meta_skip ctx ctx' :
  same_meta ctx ctx' → being_deleted (pctx_Workload ctx) = false →
  being_deleted (pctx_Workload ctx') = false.
Proof. unfold being_deleted. by intros ->. Qed.

Lemma status_phase_outcome ctx past :
  inputs_valid ctx → claims_known ctx past → plan_known ctx past →
  wp well_formed_claims (run_phases [StatusPhase] ctx) past (status_outcome past).
Proof.
  intros Hin Hcl Hp. rewrite run_phases_cons.
  destruct (ph_ShouldSkip StatusPhase ctx); [left; auto with prog|].
  eapply wp_mono; [done| |by apply StatusPhase_wp]. intros [ctx' result] tr Hw.
  cbn beta iota in Hw |- *.
  destruct (phr_Error result); [by right|].
  destruct (phr_Requeue result); [by right|]. by destruct (phr_Skip result); right.
Qed.

Lemma plan_phase_outcome ctx past :
  being_deleted (pctx_Workload ctx) = false → inputs_valid ctx → claims_known ctx past →
  wp well_formed_claims (run_phases [PlanPhase; StatusPhase] ctx) past (status_outcome past).
Proof.
  intros Hd Hin Hcl. rewrite run_phases_cons. cbn [ph_ShouldSkip PlanPhase]. rewrite Hd.
  eapply wp_mono; [done| |by apply PlanPhase_wp]. intros [ctx' result] tr [Hn Hres].
  cbn beta iota.
  destruct (phr_Error result); [by left|]. destruct (Hres eq_refl) as [-> Hskip].
  destruct (phr_Skip result); [by left|]. destruct (Hskip eq_refl) as (_ & Hin' & Hcl' & Hp').
  eapply wp_mono; [done| |by apply status_phase_outcome].
  intros r tr'. by apply status_outcome_trans.
Qed.

Lemma normal_outcome ctx past :
  wp well_formed_claims (run_phases normalPhases ctx) past (status_outcome past).
Proof.
  destruct (being_deleted (pctx_Workload ctx)) eqn:Hd.
  { unfold normalPhases. do 4 (rewrite run_phases_cons; cbn [ph_ShouldSkip ValidationPhase
      ClaimPhase PlanPhase StatusPhase]; rewrite Hd). left. auto with prog. }
  unfold normalPhases. rewrite run_phases_cons. cbn [ph_ShouldSkip ValidationPhase]. rewrite Hd.
  eapply wp_mono; [done| |apply ValidationPhase_wp].
  intros [ctx1 result] tr (Hn & Hm & -> & Hin). cbn [phr_Error phr_Requeue phr_Skip PhaseResult_zero].
  apply (same_meta_skip _ _ Hm) in Hd. rewrite run_phases_cons.
  cbn [ph_ShouldSkip ClaimPhase]. rewrite Hd.
  eapply wp_mono; [done| |by apply ClaimPhase_wp]. intros [ctx2 result] tr2 [Hn2 Hres].
  cbn beta iota.
  assert (no_status_since past tr2) as Hn' by eauto using no_status_trans.
  destruct (phr_Error result); [by left|]. destruct (Hres eq_refl) as (-> & Hm2 & Hin2 & Hcl).
  apply (same_meta_skip _ _ Hm2) in Hd.
  eapply wp_mono; [done| |by apply plan_phase_outcome].
  intros r tr'. by apply status_outcome_trans.
Qed.

(** *** The deletion pipeline *)

(** What its policy asks for has been done to the claim. *)
Definition claim_processed (workload : Workload) (tr : list event) (claim : ResourceClaim) :
    Prop :=
  match getDeprovisionPolicy claim with
  | DeprovisionRetain | DeprovisionOrphan =>
      ∃ stored, Ev (Update KResourceClaim (detached workload claim)) (Ok stored) ∈ tr
  | _ =>
      time_is_zero (om_DeletionTimestamp (rc_ObjectMeta claim)) = false ∨
      Ev (Delete KResourceClaim (meta_key (rc_ObjectMeta claim))) (Ok ()) ∈ tr
  end.

Definition deletable (claim : ResourceClaim) : Prop :=
  getDeprovisionPolicy claim ≠ DeprovisionRetain ∧
  getDeprovisionPolicy claim ≠ DeprovisionOrphan ∧
  time_is_zero (om_DeletionTimestamp (rc_ObjectMeta claim)) = true.

(** The calls that the policies of [claims] allow. *)
Definition policy_call (workload : Workload) (claims : list ResourceClaim) (c : call) : Prop :=
  ∃ claim, claim ∈ claims ∧
    ((c = Delete KResourceClaim (meta_key (rc_ObjectMeta claim)) ∧ deletable claim) ∨
     (c = Update KResourceClaim (detached workload claim) ∧
      (getDeprovisionPolicy claim = DeprovisionRetain ∨
       getDeprovisionPolicy claim = DeprovisionOrphan))).

Lemma claim_processed_mono workload tr tr' claim :
  (∀ e, e ∈ tr → e ∈ tr') → claim_processed workload tr claim → claim_processed workload tr' claim.
Proof. intros Hsub. unfold claim_processed. destruct (getDeprovisionPolicy claim); naive_solver. Qed.

Lemma processDeprovisionPolicy_wp workload claims claim past :
  claim ∈ claims →
  wp any (processDeprovisionPolicy workload claim) past (λ r tr, ∃ l, tr = past ++ l ∧
    Forall (λ e, policy_call workload claims (ev_call e)) l ∧
    (r = Ok () → claim_processed workload l claim)).
Proof.
  intros Hin. unfold processDeprovisionPolicy, deleteResourceClaim, removeOwnerReference.
  destruct (getDeprovisionPolicy claim) eqn:Hp.
  1,4: destruct (time_is_zero _) eqn:Hz; cbn [negb];
    [intros r _; exists [Ev (Delete KResourceClaim (meta_key (rc_ObjectMeta claim))) r];
     split; [done|]; split;
       [repeat constructor; exists claim; split; [done|]; left;
        split; [done|]; unfold deletable; by rewrite Hp
       |intros ->; unfold claim_processed; rewrite Hp; right; by left]
    |exists []; rewrite app_nil_r; split; [done|]; split; [done|];
     intros _; unfold claim_processed; rewrite Hp; by left].
  all: intros r _; exists [Ev (Update KResourceClaim (detached workload claim)) r];
    split; [done|]; split;
      [repeat constructor; exists claim; split; [done|]; right; split; [done|];
       by rewrite Hp; (left + right)
      |destruct r as [stored|]; [|done]; intros _; unfold claim_processed; rewrite Hp;
       exists stored; by left].
Qed.

Lemma process_claims_wp workload all claims past :
  (∀ c, c ∈ claims → c ∈ all) →
  wp any (process_claims workload claims) past (λ r tr, ∃ l, tr = past ++ l ∧
    Forall (λ e, policy_call workload all (ev_call e)) l ∧
    (r = Ok () → Forall (claim_processed workload l) claims)).
Proof.
  revert past. induction claims as [|claim claims IH]; intros past Hsub.
  { exists []. by rewrite app_nil_r. }
  cbn [process_claims]. rewrite wp_bind_res.
  eapply wp_mono; [done| |apply (processDeprovisionPolicy_wp _ all), Hsub; by left].
  intros [[]|err] tr (l & -> & Hl & Hok); [|by exists l].
  eapply wp_mono; [done| |apply IH; intros c Hc; apply Hsub; by right].
  intros r tr' (l' & -> & Hl' & Hok'). exists (l ++ l'). rewrite app_assoc.
  split; [done|]. split; [by apply Forall_app_2|]. intros Hr. constructor.
  - eapply claim_processed_mono; [|by apply Hok]. intros e He. apply elem_of_app. by left.
  - eapply Forall_impl; [by apply Hok'|]. intros c. apply claim_processed_mono.
    intros e He. apply elem_of_app. by right.
Qed.

Definition is_read (e : event) : Prop := is_write (ev_call e) = false.

Lemma GetClaims_lists E workload past :
  wp E (GetClaims workload) past (λ r tr, ∃ l, tr = past ++ l ∧ Forall is_read l ∧
    ∀ claims, r = Ok claims → Exists (λ e, lists_claims e claims) l).
Proof.
  assert (∀ c (r : reply c), is_write c = false → Forall is_read [Ev c r]) as Hr
    by (by repeat constructor).
  unfold GetClaims. rewrite wp_bind. intros [items|err] _; cbn [wp].
  - eexists. split; [done|]. split; [by apply Hr|]. intros claims [= <-]. constructor.
    left. by eexists _, _.
  - destruct (index_missing IndexResourceClaimByWorkload err);
      [|cbn [wp]; eexists; split; [done|]; split; [by apply Hr|done]].
    intros r _. cbn [wp]. eexists [_; _]. rewrite <- app_assoc. split; [done|].
    split; [by repeat constructor|]. intros claims ->. right. constructor. right.
    by eexists _, _, _.
Qed.

Definition without_finalizer (workload : Workload) : Workload :=
  {| workload with wl_ObjectMeta := RemoveFinalizer (wl_ObjectMeta workload) WorkloadFinalizer |}.

(** The calls of the clean-up list claims and then do what the policies of the
    listed claims allow. *)
Definition cleaning (workload : Workload) (l : list event) : Prop :=
  Forall is_read l ∨
  ∃ claims l1 l2 l3, l = l1 ++ l2 ++ l3 ∧ Forall is_read l1 ∧ Forall is_read l3 ∧
    Exists (λ e, lists_claims e claims) l1 ∧
    Forall (λ e, policy_call workload claims (ev_call e)) l2.

(** The clean-up is complete: the policy of every listed claim was carried out, and
    a second list has no claim to wait for. *)
Definition cleaned (workload : Workload) (l : list event) : Prop :=
  ∃ claims remaining l1 l2 l3, l = l1 ++ l2 ++ l3 ∧
    Exists (λ e, lists_claims e claims) l1 ∧
    Forall (claim_processed workload l2) claims ∧
    Exists (λ e, lists_claims e remaining) l3 ∧
    Forall (λ claim, waits_for claim = false) remaining.

Lemma clean_up_wp workload past :
  wp any (claims ←? GetClaims workload; process_claims workload claims;;? GetClaims workload) past
    (λ r tr, ∃ l, tr = past ++ l ∧ cleaning workload l ∧
       ∀ remaining, r = Ok remaining →
         Exists (λ e, lists_claims e remaining) l ∧
         (Forall (λ claim, waits_for claim = false) remaining → cleaned workload l)).
Proof.
  rewrite wp_bind_res. eapply wp_mono; [done| |apply GetClaims_lists].
  intros [claims|err] tr (l1 & -> & Hr1 & Hlist); [|exists l1; split; [done|]; split; [by left|done]].
  specialize (Hlist claims eq_refl). rewrite wp_bind_res.
  eapply wp_mono; [done| |by apply (process_claims_wp _ claims)].
  intros [[]|err] tr (l2 & -> & Hl2 & Hproc).
  - eapply wp_mono; [done| |apply GetClaims_lists].
    intros r tr (l3 & -> & Hr3 & Hlist3). exists (l1 ++ l2 ++ l3). rewrite <- !app_assoc.
    split; [done|]. split; [right; by exists claims, l1, l2, l3|].
    intros remaining Hr. specialize (Hlist3 remaining Hr). specialize (Hproc eq_refl).
    split; [rewrite !Exists_app; auto|]. intros Hw. by exists claims, remaining, l1, l2, l3.
  - exists (l1 ++ l2). rewrite <- app_assoc. split; [done|]. split; [|done].
    right. exists claims, l1, l2, []. by rewrite app_nil_r.
Qed.

(** How the clean-up ends: with an error, with a claim to wait for, or with the
    finalizer removed. *)
Definition deletion_end (workload : Workload) (l0 l' : list event) (result : PhaseResult) :
    Prop :=
  (l' = [] ∧ match phr_Error result with
             | Some _ => True
             | None => phr_Requeue result = true ∧
                 ∃ remaining, Exists (λ e, lists_claims e remaining) l0 ∧
                              Exists (λ claim, waits_for claim = true) remaining
             end) ∨
  ∃ reply l'', l' = Ev (Update KWorkload (without_finalizer workload)) reply :: l'' ∧
    cleaned workload l0 ∧ Forall is_read l'' ∧
    match (reply : res Workload) with
    | Ok _ => result = PhaseResult_zero
    | Err _ => is_Some (phr_Error result)
    end.

Lemma waiting_claims remaining :
  if 0 <? length (List.filter waits_for remaining)
  then Exists (λ claim, waits_for claim = true) remaining
  else Forall (λ claim, waits_for claim = false) remaining.
Proof.
  induction remaining as [|c cs IH]; simpl; [constructor|].
  destruct (waits_for c) eqn:Hc; simpl; [by left|].
  destruct (0 <? length _); [by right|by constructor].
Qed.

Lemma DeletionPhase_wp ctx past :
  HasFinalizer (pctx_Workload ctx) = true →
  wp any (ph_Execute DeletionPhase ctx) past (λ '(ctx', result) tr,
    ∃ l0 l', tr = past ++ l0 ++ l' ∧ cleaning (pctx_Workload ctx) l0 ∧
             deletion_end (pctx_Workload ctx) l0 l' result).
Proof.
  intros Hfin. cbn [ph_Execute DeletionPhase]. rewrite Hfin. cbn [negb]. rewrite wp_bind.
  eapply wp_mono; [done| |apply clean_up_wp].
  intros r tr (l0 & -> & Hl0 & Hr). destruct r as [remaining|err]; cbn [wp];
    [|exists l0, []; rewrite app_nil_r; split; [done|]; split; [done|]; by left].
  destruct (Hr remaining eq_refl) as [Hlist Hclean].
  pose proof (waiting_claims remaining) as Hwait.
  destruct (0 <? length (List.filter waits_for remaining)).
  { exists l0, []. rewrite app_nil_r. split; [done|]. split; [done|]. left.
    split; [done|]. split; [done|]. by exists remaining. }
  unfold RemoveWorkloadFinalizer. rewrite Hfin. cbn [negb]. unfold update_workload.
  rewrite wp_bind, wp_bind. intros reply _. specialize (Hclean Hwait).
  destruct reply as [stored|err]; cbn [wp mret prog_ret fst snd].
  - rewrite wp_bind. intros [] _. cbn [wp mret prog_ret].
    eexists l0, [_; _]. rewrite <- !app_assoc. split; [done|]. split; [done|]. right.
    eexists (Ok stored), [_]. split; [done|]. split; [done|]. by repeat constructor.
  - eexists l0, [_]. rewrite <- !app_assoc. split; [done|]. split; [done|]. right.
    eexists (Err err), []. split; [done|]. split; [done|]. by split; [|eauto].
Qed.

Lemma is_read_app_write l1 l2 (e : event) :
  Forall is_read l1 → is_write (ev_call e) = true → e ∈ l1 ++ l2 → e ∈ l2.
Proof.
  intros Hl Hw [Hin|Hin]%elem_of_app; [|done]. rewrite Forall_forall in Hl.
  specialize (Hl e Hin). unfold is_read in Hl. congruence.
Qed.

(** Every write of a clean-up is a policy call for a claim that was listed. *)
Lemma cleaning_write workload l e :
  cleaning workload l → e ∈ l → is_write (ev_call e) = true →
  ∃ claims, Exists (λ e, lists_claims e claims) l ∧ policy_call workload claims (ev_call e).
Proof.
  intros Hl He Hw. destruct Hl as [Hr|(claims & l1 & l2 & l3 & -> & Hr1 & Hr3 & Hlist & Hpol)].
  { rewrite Forall_forall in Hr. specialize (Hr e He). unfold is_read in Hr. congruence. }
  apply is_read_app_write in He; [|done..]. apply elem_of_app in He as [He|He].
  - exists claims. rewrite Forall_forall in Hpol. rewrite !Exists_app. auto.
  - rewrite Forall_forall in Hr3. specialize (Hr3 e He). unfold is_read in Hr3. congruence.
Qed.

(** *** Execute and Reconcile *)

Definition result_of (result : PhaseResult) : res Result :=
  match phr_Error result with
  | Some err => Err err
  | None => if phr_Requeue result then Ok (requeue (phr_RequeueAfter result)) else Ok Result_zero
  end.

Lemma Execute_deletion_wp config workload past :
  being_deleted workload = true →
  wp any (Execute config workload) past (λ r tr,
    (HasFinalizer workload = false ∧ tr = past ∧ r = Ok Result_zero) ∨
    ∃ l0 l' result, tr = past ++ l0 ++ l' ∧ HasFinalizer workload = true ∧
      cleaning workload l0 ∧ deletion_end workload l0 l' result ∧ r = result_of result).
Proof.
  intros Hd. unfold Execute. rewrite Hd. unfold executeDeletionPipeline.
  assert (ph_ShouldSkip DeletionPhase (new_context config workload) = false) as ->
    by (simpl; by rewrite Hd).
  rewrite wp_bind. destruct (HasFinalizer workload) eqn:Hfin.
  - eapply wp_mono; [done| |by apply DeletionPhase_wp].
    intros [ctx' result] tr (l0 & l' & -> & Hl0 & Hend). cbn [snd].
    assert (∀ r, r = result_of result → ∃ l0' l'' result', past ++ l0 ++ l' = past ++ l0' ++ l'' ∧
      true = true ∧ cleaning workload l0' ∧ deletion_end workload l0' l'' result' ∧
      r = result_of result') as Hr by (intros r ->; by exists l0, l', result).
    unfold result_of at 1 in Hr. destruct (phr_Error result); [right; by apply Hr|].
    by destruct (phr_Requeue result); right; apply Hr.
  - cbn [ph_Execute DeletionPhase new_context pctx_Workload]. rewrite Hfin.
    cbn [negb wp mret prog_ret]. by left.
Qed.

Definition updated_workload (c : call) : option Workload :=
  match c with Update KWorkload w => Some w | _ => None end.

(** A decomposition of the trace around the only update of the workload. *)
Lemma deletion_update workload l0 l' result w' reply :
  cleaning workload l0 → deletion_end workload l0 l' result →
  Ev (Update KWorkload w') reply ∈ l0 ++ l' →
  w' = without_finalizer workload ∧
  ∃ l'', l' = Ev (Update KWorkload w') reply :: l'' ∧ cleaned workload l0.
Proof.
  intros Hl0 Hend [Hin|Hin]%elem_of_app.
  { destruct (cleaning_write _ _ _ Hl0 Hin eq_refl) as (claims & _ & claim & _ & [[? _]|[? _]]);
      discriminate. }
  destruct Hend as [[-> _]|(reply' & l'' & -> & Hc & Hr & _)]; [by apply elem_of_nil in Hin|].
  apply elem_of_cons in Hin as [Heq|Hin]; [|rewrite Forall_forall in Hr; by apply Hr in Hin].
  pose proof (f_equal (updated_workload ∘ ev_call) Heq) as Hw. simpl in Hw. injection Hw as ->.
  rewrite Heq. eauto.
Qed.

Lemma deletion_delete workload l0 l' result k (reply : reply (Delete KResourceClaim k)) :
  cleaning workload l0 → deletion_end workload l0 l' result →
  Ev (Delete KResourceClaim k) reply ∈ l0 ++ l' →
  ∃ claims claim, Exists (λ e, lists_claims e claims) (l0 ++ l') ∧ claim ∈ claims ∧
    k = meta_key (rc_ObjectMeta claim) ∧ deletable claim.
Proof.
  intros Hl0 Hend [Hin|Hin]%elem_of_app.
  - destruct (cleaning_write _ _ _ Hl0 Hin eq_refl)
      as (claims & Hlist & claim & Hclaim & [[Hk Hdel]|[? _]]); [|discriminate].
    injection Hk as ->. exists claims, claim. rewrite Exists_app. auto.
  - destruct Hend as [[-> _]|(reply' & l'' & -> & _ & Hr & _)]; [by apply elem_of_nil in Hin|].
    apply elem_of_cons in Hin as [Heq|Hin]; [|rewrite Forall_forall in Hr; by apply Hr in Hin].
    by pose proof (f_equal ev_call Heq) as Hcall.
Qed.


Lemma Execute_outcome config workload past :
  wp well_formed_claims (Execute config workload) past (status_outcome past).
Proof.
  destruct (being_deleted workload) eqn:Hd.
  - eapply (wp_mono any); [done| |by apply Execute_deletion_wp]. intros r tr Htr. left.
    destruct Htr as [(_ & -> & _)|(l0 & l' & result & -> & _ & Hl0 & Hend & _)];
      [auto with prog|].
    exists (l0 ++ l'). split; [done|]. apply Forall_forall. intros e He Hst.
    assert (is_write (ev_call e) = true) as Hw by (by destruct (ev_call e)).
    apply elem_of_app in He as [He|He].
    + by destruct (cleaning_write _ _ _ Hl0 He Hw) as (cs & _ & claim & _ & [[Hc _]|[Hc _]]);
        rewrite Hc in Hst.
    + destruct Hend as [[-> _]|(reply' & l'' & -> & _ & Hr & _)]; [by apply elem_of_nil in He|].
      apply elem_of_cons in He as [->|He]; [done|]. rewrite Forall_forall in Hr.
      specialize (Hr e He). unfold is_read in Hr. congruence.
  - unfold Execute. rewrite Hd, wp_bind. unfold EnsureFinalizer, update_workload.
    destruct (HasFinalizer workload); [cbn [wp mret prog_ret fst snd]; apply normal_outcome|].
    rewrite wp_bind. intros [stored|err] _; cbn [wp mret prog_ret fst snd];
      [|left; auto with prog].
    eapply wp_mono; [done| |apply normal_outcome]. intros r tr.
    apply status_outcome_trans. auto with prog.
Qed.

Lemma status_outcome_extends past r tr : status_outcome past r tr → extends past tr.
Proof.
  intros [Hn|(tr' & w & reply & -> & Hn & _)]; [by apply no_status_extends|].
  by apply extends_app, no_status_extends.
Qed.

Lemma Reconcile_outcome pipeline cached req :
  wp well_formed_claims (Reconcile pipeline cached req) [] (λ '(pipeline', r) tr,
    status_outcome [] r tr ∧
    ∃ got rest, tr = Ev (Get KWorkload req) got :: rest ∧
      match (got : res Workload) with
      | Err err => rest = [] ∧ pipeline' = pipeline ∧
                   r = if IsNotFound err then Ok Result_zero else Err err
      | Ok _ => pipeline' = Some (default (default DefaultReconcilerConfig cached) pipeline)
      end).
Proof.
  unfold Reconcile. rewrite wp_bind. intros [workload|err] _; cbn [wp].
  - rewrite wp_bind. eapply wp_mono; [done| |apply Execute_outcome].
    intros r tr Hout. cbn [wp mret prog_ret]. split.
    + eapply status_outcome_trans; [|exact Hout]. auto with prog.
    + apply status_outcome_extends in Hout as [l ->]. by eexists (Ok workload), l.
  - assert (no_status_since [] [Ev (Get KWorkload req) (Err err)]) as Hn by
      (by apply (no_status_snoc [] []); auto with prog).
    destruct (IsNotFound err) eqn:Hnf; cbn [wp mret prog_ret]; (split; [by left|]);
      eexists (Err err), []; by rewrite Hnf.
Qed.

(** C1: As long as the server lists only claims that have the outputs they announce, one
    reconcile of a workload does not panic and writes a status at most once, as its last
    call, and what it writes agrees with what it read last: ClaimsReady holds if and only
    if each claim of the last list is Bound with outputs, RuntimeReady if and only if the
    last list of plans has a single plan, in phase Ready, and Ready if and only if both
    hold. *)
Theorem reconcile_status_sound pipeline cached req :
  wp well_formed_claims (Reconcile pipeline cached req) [] (λ '(_, r) tr,
    Forall (λ e, ¬ status_write (ev_call e)) tr ∨
    ∃ before workload reply, tr = before ++ [Ev (StatusUpdate KWorkload workload) reply] ∧
      Forall (λ e, ¬ status_write (ev_call e)) before ∧ status_sound workload before).
Proof.
  eapply wp_mono; [done| |apply Reconcile_outcome].
  intros [pipeline' r] tr [[(l & -> & Hl)|(tr' & w & reply & -> & (l & -> & Hl) & Hs & _)] _];
    [by left|right]. by exists l, w, reply.
Qed.

Definition written_status (e : event) : option (res Workload) :=
  match e with Ev (StatusUpdate KWorkload _) reply => Some reply | _ => None end.

(** C31: A reconcile that returns an error has not stored a status: the conditions
    that its phases computed before the error, such as the reason of a failed backend
    selection or projection, stay in memory. *)
Theorem failed_reconcile_keeps_status pipeline cached req :
  wp well_formed_claims (Reconcile pipeline cached req) [] (λ '(_, r) tr,
    ∀ err, r = Err err →
    ∀ workload stored, Ev (StatusUpdate KWorkload workload) (Ok stored) ∉ tr).
Proof.
  eapply wp_mono; [done| |apply Reconcile_outcome].
  intros [pipeline' r] tr [Hout _] err -> workload stored Hin.
  destruct Hout as [(l & -> & Hl)|(tr' & w & reply & -> & (l & -> & Hl) & _ & Hr)];
    rewrite Forall_forall in Hl; [by apply (Hl _ Hin)|].
  apply elem_of_app in Hin as [Hin|Hin]; [by apply (Hl _ Hin)|].
  apply list_elem_of_singleton in Hin.
  pose proof (f_equal (λ e, written_status e) Hin) as Heq. simpl in Heq.
  destruct reply; naive_solver.
Qed.

(** A reconcile begins by reading its workload.  A missing workload ends it
    without error and any other failure with it, with no further call; otherwise the
    pipeline runs with the settings it was made with when the first workload was
    found, and settings that are loaded later have no effect. *)
Theorem pipeline_settings_fixed pipeline cached req :
  wp well_formed_claims (Reconcile pipeline cached req) [] (λ '(pipeline', r) tr,
    ∃ got rest, tr = Ev (Get KWorkload req) got :: rest ∧
      match (got : res Workload) with
      | Err err => rest = [] ∧ pipeline' = pipeline ∧
                   r = if IsNotFound err then Ok Result_zero else Err err
      | Ok _ => pipeline' = Some (default (default DefaultReconcilerConfig cached) pipeline)
      end).
Proof.
  eapply wp_mono; [done| |apply Reconcile_outcome]. by intros [pipeline' r] tr [_ H'].
Qed.

(** C27: For a workload that is not being deleted and has no finalizer the first call
    stores the finalizer (keeping the others), and if that fails the reconcile ends
    with the error and nothing else has been done. *)
Theorem finalizer_before_work `{!FinalizersLaws} config workload :
  being_deleted workload = false →
  (WorkloadFinalizer ∉ om_Finalizers (wl_ObjectMeta workload)) →
  wp well_formed_claims (Execute config workload) [] (λ r tr,
    ∃ w0 reply rest, tr = Ev (Update KWorkload w0) reply :: rest ∧
      (∀ f, f ∈ om_Finalizers (wl_ObjectMeta w0) ↔
            f = WorkloadFinalizer ∨ f ∈ om_Finalizers (wl_ObjectMeta workload)) ∧
      (∀ err, reply = Err err → rest = [] ∧ r = Err err)).
Proof.
  intros Hd Hfin. unfold Execute. rewrite Hd, wp_bind. unfold EnsureFinalizer, HasFinalizer.
  destruct (ContainsFinalizer _ _) eqn:Hc; [by apply ContainsFinalizer_spec in Hc|].
  destruct (AddFinalizer_spec (wl_ObjectMeta workload) WorkloadFinalizer) as (fs & Heq & Hfs).
  unfold update_workload. rewrite wp_bind. intros [stored|err] _; cbn [wp mret prog_ret fst snd].
  - eapply wp_mono; [done| |apply normal_outcome].
    intros r tr [l ->]%status_outcome_extends. eexists _, (Ok stored), l. split; [done|].
    split; [|done]. simpl. by rewrite Heq.
  - eexists _, (Err err), []. split; [done|]. split; [|by intros ? [= ->]]. simpl. by rewrite Heq.
Qed.
End guarantees.

(** *** Watches and indexes *)

(** The key under which the claims and the plan of a workload are looked up. *)
Definition index_value (workload : Workload) : string :=
  om_Namespace (wl_ObjectMeta workload) +:+ "/" +:+ om_Name (wl_ObjectMeta workload).

(** In the namespace and with the label by which the fallback looks it up. *)
Definition labelled (workload : Workload) (m : ObjectMeta) : Prop :=
  om_Namespace m = om_Namespace (wl_ObjectMeta workload) ∧
  ∃ labels, om_Labels m = Some labels ∧
    labels !! "score.dev/workload" = Some (om_Name (wl_ObjectMeta workload)).

(** A written claim or plan wakes its workload and is found under its key; a created
    one is found by its label too. *)
Definition found_by (workload : Workload) (c : call) : Prop :=
  let claim o := EnqueueRequestForOwningWorkload (WatchedClaim o) = [workload_key workload] ∧
                 index_claim o = [index_value workload] in
  let plan o := EnqueueRequestForOwningWorkload (WatchedPlan o) = [workload_key workload] ∧
                index_plan o = [index_value workload] in
  match c with
  | Create KResourceClaim o => claim o ∧ labelled workload (rc_ObjectMeta o)
  | Update KResourceClaim o => claim o
  | Create KWorkloadPlan o => plan o ∧ labelled workload (wp_ObjectMeta o)
  | Update KWorkloadPlan o => plan o
  | _ => True
  end.

(** Where a list looks. *)
Definition looks_for (workload : Workload) (c : call) : Prop :=
  match c with
  | ListByField KResourceClaim index v =>
      index = IndexResourceClaimByWorkload ∧ v = index_value workload
  | ListByField KWorkloadPlan index v =>
      index = IndexWorkloadPlanByWorkload ∧ v = index_value workload
  | ListByLabel _ ns label v =>
      ns = om_Namespace (wl_ObjectMeta workload) ∧ label = "score.dev/workload" ∧
      v = om_Name (wl_ObjectMeta workload)
  | _ => False
  end.

Section watches.
Context `{!Scheme} `{!SchemeLaws}.

Lemma ensure_claims_found order workload :
  every_call (found_by workload) (EnsureClaims order workload).
Proof.
  unfold EnsureClaims. induction order as [|[key res] order IH]; [done|]. cbn [ensure_claims].
  apply every_call_bind_res; [|done]. apply every_call_wrap.
  unfold upsertResourceClaim, upsert_with. calls; try done.
  match goal with H : set_claim_owner _ _ = _ |- _ => revert H end.
  unfold set_claim_owner. destruct (GVKForObject KWorkload) as [[]|]; [|done]. intros [= <-].
  split; [done|]. split; [done|]. eexists. split; [done|]. by simplify_map_eq.
Qed.

Lemma read_found workload c : is_write c = false → found_by workload c.
Proof. by destruct c. Qed.

Lemma update_plan_found workload claims sb raw prefix plan :
  every_call (found_by workload)
    (update_plan prefix plan (desired_plan_spec workload claims sb raw)).
Proof. unfold update_plan. by calls. Qed.

Lemma create_plan_found workload claims sb raw :
  every_call (found_by workload) (create_plan workload (desired_plan_spec workload claims sb raw)).
Proof.
  unfold create_plan. calls; try done; [|apply update_plan_found].
  match goal with H : SetControllerReference _ _ _ = Ok _ |- _ =>
    apply SetControllerReference_spec in H as (refs & -> & _) end.
  split; [done|]. split; [done|]. eexists. split; [done|]. by simplify_map_eq.
Qed.

Lemma UpsertWorkloadPlan_found workload claims sb :
  every_call (found_by workload) (UpsertWorkloadPlan workload claims sb).
Proof.
  unfold UpsertWorkloadPlan.
  calls; try (by apply update_plan_found || apply create_plan_found); try done;
    eapply every_call_mono; [apply read_found|apply resolveAllPlaceholders_reads|
                             apply read_found|apply resolveAllPlaceholders_reads].
Qed.

(** C28: Every claim and every plan that is written for a workload wakes that workload
    when it changes and is found under the index value by which the claims and the
    plan are looked up; a created one carries the label of the fallback look-up. *)
Theorem written_objects_found workload order claims sb :
  every_call (found_by workload) (EnsureClaims order workload) ∧
  every_call (found_by workload) (UpsertWorkloadPlan workload claims sb) ∧
  every_call (looks_for workload) (GetClaims workload) ∧
  every_call (looks_for workload) (GetPlan workload).
Proof.
  split; [apply ensure_claims_found|]. split; [apply UpsertWorkloadPlan_found|].
  split; [unfold GetClaims, getResourceClaimsWithoutIndex|unfold GetPlan]; by calls.
Qed.
End watches.

(** ** Witnesses *)

Module PipelineDemo.
#[local] Instance finalizers : Finalizers :=
  {| ContainsFinalizer m f := bool_decide (f ∈ om_Finalizers m);
     AddFinalizer m f := {| m with om_Finalizers := f :: om_Finalizers m |};
     RemoveFinalizer m f :=
       {| m with om_Finalizers := filter (λ g, g ≠ f) (om_Finalizers m) |} |}.

#[local] Instance finalizers_laws : FinalizersLaws.
Proof.
  split; intros m f; simpl.
  - by rewrite bool_decide_eq_true.
  - eexists. split; [done|]. intros g. by rewrite elem_of_cons.
  - eexists. split; [done|]. intros g. by rewrite list_elem_of_filter.
Qed.

#[local] Instance order : MapOrder := {| visit A m := map_to_list m |}.

Definition workload : Workload :=
  {| PlanDemo.workload with wl_Spec :=
     {| (wl_Spec PlanDemo.workload) with ws_Resources := {["db" := ClaimsDemo.postgres]} |} |}.

(** The workload with the finalizer, and in deletion. *)
Definition finalized : Workload :=
  {| workload with wl_ObjectMeta :=
     {| (wl_ObjectMeta workload) with om_Finalizers := [WorkloadFinalizer; "other"] |} |}.

Definition leaving : Workload :=
  {| finalized with wl_ObjectMeta :=
     {| (wl_ObjectMeta finalized) with om_DeletionTimestamp := Some 7%Z |} |}.

(** A claim that is bound and has its outputs. *)
Definition claim (phase : ResourceClaimPhase) : ResourceClaim :=
  {| (new_claim workload "db" ClaimsDemo.postgres) with rc_Status :=
     {| ResourceClaimStatus_zero with rst_Phase := phase; rst_OutputsAvailable := true;
        rst_Outputs := Some {| rco_SecretRef := None; rco_ConfigMapRef := None;
                               rco_URI := Some "postgres://db"; rco_Image := None;
                               rco_Cert := None |} |} |}.

Definition plan : WorkloadPlan :=
  {| PlanDemo.plan with wp_Status :=
     {| WorkloadPlanStatus_zero with wpst_Phase := WorkloadPlanPhaseReady |} |}.

(** A server that holds the workload [w], its claim and its plan. *)
Definition serve (w : Workload) (c : ResourceClaim) (q : call) (s : unit) : reply q * unit :=
  (match q return reply q with
   | Get KWorkload _ => Ok w
   | Get KResourceClaim _ => Ok c
   | Get KWorkloadPlan _ => Ok plan
   | Get _ _ => Err (EStatus NotFound "not found")
   | ListByField KResourceClaim _ _ => Ok [c]
   | ListByField KWorkloadPlan _ _ => Ok [plan]
   | ListByField _ _ _ => Ok []
   | ListByLabel _ _ _ _ => Ok []
   | Create _ o | Update _ o | StatusUpdate _ o | Patch _ _ o | StatusPatch _ _ o => Ok o
   | Delete _ _ => Ok ()
   | Event _ _ _ _ => ()
   | Now => 42%Z
   | RandRead _ => None
   end, s).

(** The Ready condition that a run stores. *)
Definition stored_ready (tr : list event) : list bool :=
  omap (λ e, match e with
             | Ev (StatusUpdate KWorkload w) (Ok _) =>
                 Some (IsConditionTrue (conditions_of w) ConditionReady)
             | _ => None
             end) tr.
End PipelineDemo.
#[local] Existing Instances ClaimsDemo.scheme ClaimsDemo.scheme_laws ValidationDemo.dns1123
  PlanDemo.source PlanDemo.source_laws Demo.semver Demo.semver_laws Demo.selectors
  PipelineDemo.finalizers PipelineDemo.finalizers_laws PipelineDemo.order.

(** With a bound claim and a plan in phase Ready the reconcile stores Ready; with a
    pending claim it stores that the workload is not ready. *)
Example ready_stored phase :
  phase = ResourceClaimPhaseBound ∨ phase = ResourceClaimPhasePending →
  let '(r, _, tr) := run (PipelineDemo.serve PipelineDemo.workload (PipelineDemo.claim phase))
    (Reconcile None None ("default", "app")) () in
  r = Some (Some DefaultReconcilerConfig, Ok Result_zero) ∧
  PipelineDemo.stored_ready tr = [bool_decide (phase = ResourceClaimPhaseBound)].
Proof. intros [-> | ->]; by vm_compute. Qed.

Lemma reconcile_status_sound_witness :
  wp well_formed_claims (Reconcile None None ("default", "app")) [] (λ '(_, r) tr,
    Forall (λ e, ¬ status_write (ev_call e)) tr ∨
    ∃ before workload reply, tr = before ++ [Ev (StatusUpdate KWorkload workload) reply] ∧
      Forall (λ e, ¬ status_write (ev_call e)) before ∧ status_sound workload before).
Proof. exact (reconcile_status_sound None None ("default", "app")). Defined.

Lemma failed_reconcile_keeps_status_witness :
  wp well_formed_claims (Reconcile None None ("default", "app")) [] (λ '(_, r) tr,
    ∀ err, r = Err err →
    ∀ workload stored, Ev (StatusUpdate KWorkload workload) (Ok stored) ∉ tr).
Proof. exact (failed_reconcile_keeps_status None None ("default", "app")). Defined.

Lemma pipeline_settings_fixed_witness :
  wp well_formed_claims (Reconcile (Some DefaultReconcilerConfig) None ("default", "app")) []
    (λ '(pipeline', r) tr, ∃ got rest, tr = Ev (Get KWorkload ("default", "app")) got :: rest ∧
      match (got : res Workload) with
      | Err err => rest = [] ∧ pipeline' = Some DefaultReconcilerConfig ∧
                   r = if IsNotFound err then Ok Result_zero else Err err
      | Ok _ => pipeline' = Some DefaultReconcilerConfig
      end).
Proof. exact (pipeline_settings_fixed (Some DefaultReconcilerConfig) None ("default", "app")). Defined.

Lemma finalizer_before_work_witness :
  wp well_formed_claims (Execute DefaultReconcilerConfig PipelineDemo.workload) [] (λ r tr,
    ∃ w0 reply rest, tr = Ev (Update KWorkload w0) reply :: rest ∧
      (∀ f, f ∈ om_Finalizers (wl_ObjectMeta w0) ↔ f = WorkloadFinalizer ∨ f ∈ []) ∧
      (∀ err, reply = Err err → rest = [] ∧ r = Err err)).
Proof.
  apply (finalizer_before_work DefaultReconcilerConfig PipelineDemo.workload);
    [reflexivity|]. apply (bool_decide_unpack _). reflexivity.
Defined.


Lemma written_objects_found_witness :
  every_call (found_by PipelineDemo.workload)
    (EnsureClaims [("db", ClaimsDemo.postgres)] PipelineDemo.workload).
Proof.
  exact (proj1 (written_objects_found PipelineDemo.workload [("db", ClaimsDemo.postgres)] []
                  (selected_of Demo.new))).
Defined.
