(* ===== verification/Endpoint.v ===== *)
(** * Endpoint: [internal/endpoint/derivation.go] and [internal/endpoint/derive.go]

    The endpoint of a workload, from the ports of its service, and the normalisation
    and validation of endpoint texts.  The deriver's method shares its name with the
    function of derive.go; it is [ed_DeriveEndpoint] here, and the method of the
    status manager that calls it is [sm_DeriveEndpoint]. *)
From S2P Require Import Prelude GoStrings Json K8s Api Client Sort GoURL.

Definition schemeHTTP := "http".
Definition schemeHTTPS := "https".

(** ** derive.go *)

(** Template variables. *)
Definition renderTemplate (template : string) (workload : Workload) : string :=
  let result := ReplaceAll template "{{.Name}}" (om_Name (wl_ObjectMeta workload)) in
  ReplaceAll result "{{.Namespace}}" (om_Namespace (wl_ObjectMeta workload)).

Definition normalizePort (u : URL) : URL :=
  let port := Port u in
  if is_empty port then u
  else if (bool_decide (u_Scheme u = schemeHTTP) && bool_decide (port = "80")) ||
          (bool_decide (u_Scheme u = schemeHTTPS) && bool_decide (port = "443"))
  then {| u with u_Host := Hostname u |}
  else u.

(** Without a dot the host gets the cluster domain; the port is then read from the
    new host. *)
Definition add_cluster_domain (u : URL) : URL :=
  if negb (is_empty (u_Host u)) && negb (Contains (Hostname u) ".") then
    let u := {| u with u_Host := u_Host u +:+ "." +:+ "default" +:+ ".svc.cluster.local" |} in
    if negb (is_empty (Port u)) then {| u with u_Host := u_Host u +:+ ":" +:+ Port u |} else u
  else u.

Definition normalizeEndpoint (endpoint : string) (preferHTTPS : option bool) : string :=
  match Parse endpoint with
  | Err _ => endpoint
  | Ok u =>
      let u := if bool_decide (preferHTTPS = Some true) && bool_decide (u_Scheme u = schemeHTTP)
               then {| u with u_Scheme := schemeHTTPS |} else u in
      url_string (add_cluster_domain (normalizePort u))
  end.

Definition DeriveEndpoint (workload : Workload) (template : string) (preferHTTPS : bool) :
    option string :=
  if is_empty template then None
  else
    let endpoint := renderTemplate template workload in
    if is_empty endpoint then None else Some (normalizeEndpoint endpoint (Some preferHTTPS)).

Definition GetServiceBasedEndpoint (workload : Workload) : option string := None.

Definition ValidateEndpoint (endpoint : string) : option goerror :=
  if is_empty endpoint then Some (ENew "endpoint cannot be empty")
  else
    match Parse endpoint with
    | Err err => Some (EWrap "invalid URL format" err)
    | Ok u =>
        if is_empty (u_Scheme u) then Some (ENew "endpoint must include scheme (http/https)")
        else if negb (bool_decide (u_Scheme u = schemeHTTP)) &&
                negb (bool_decide (u_Scheme u = schemeHTTPS))
        then Some (ENew ("endpoint scheme must be http or https, got: " +:+ u_Scheme u))
        else if is_empty (u_Host u) then Some (ENew "endpoint must include host")
        else
          let port := Port u in
          if is_empty port then None
          else match ParseInt port with
               | Some portNum =>
                   if (portNum <? 1)%Z || (65535 <? portNum)%Z
                   then Some (ENew ("invalid port number: " +:+ port)) else None
               | None => Some (ENew ("invalid port number: " +:+ port))
               end
    end.

Definition IsHTTPS (endpoint : string) : bool :=
  match Parse endpoint with
  | Err _ => false
  | Ok u => bool_decide (u_Scheme u = schemeHTTPS)
  end.

Definition ExtractHostPort (endpoint : string) : res (string * string) :=
  match Parse endpoint with
  | Err err => Err err
  | Ok u =>
      let port := Port u in
      let port := if is_empty port
                  then if bool_decide (u_Scheme u = schemeHTTP) then "80"
                       else if bool_decide (u_Scheme u = schemeHTTPS) then "443" else port
                  else port in
      Ok (Hostname u, port)
  end.

(** ** derivation.go *)

Definition isHTTPSPort (port : Z) : bool := (port =? 443)%Z || (port =? 8443)%Z.
Definition isHTTPPort (port : Z) : bool := (port =? 80)%Z || (port =? 8080)%Z.

Definition getSchemeForPort (port : ServicePort) : string :=
  if isHTTPSPort (sp_Port port) then schemeHTTPS else schemeHTTP.

Definition generateHostname (workload : Workload) : string :=
  om_Name (wl_ObjectMeta workload) +:+ "." +:+ om_Namespace (wl_ObjectMeta workload) +:+
  ".svc.cluster.local".

Definition isStandardPort (scheme : string) (port : Z) : bool :=
  (bool_decide (scheme = schemeHTTP) && (port =? 80)%Z) ||
  (bool_decide (scheme = schemeHTTPS) && (port =? 443)%Z).

Record portWithPriority := {
  pp_port : ServicePort;
  pp_priority : Z;
  pp_isHTTPS : bool;
}.

Definition prioritize (port : ServicePort) : portWithPriority :=
  {| pp_port := port;
     pp_priority := if isHTTPSPort (sp_Port port) then 1
                    else if isHTTPPort (sp_Port port) then 2 else 10;
     pp_isHTTPS := isHTTPSPort (sp_Port port) |}.

(** The [less] function given to [sort.Slice]. *)
Definition priority_less (a b : portWithPriority) : bool :=
  if negb (pp_priority a =? pp_priority b)%Z then (pp_priority a <? pp_priority b)%Z
  else pp_isHTTPS a && negb (pp_isHTTPS b).

Definition prioritizePortsByCharacteristics `{!SortSlice} (ports : list ServicePort) : list ServicePort :=
  pp_port <$> SliceSort priority_less (prioritize <$> ports).

Definition selectBestPort `{!SortSlice} (ports : list ServicePort) : option ServicePort :=
  match ports with
  | [] => None
  | [port] => Some port
  | port :: _ =>
      match prioritizePortsByCharacteristics ports with
      | best :: _ => Some best
      | [] => Some port
      end
  end.

(** The ports of the workload: a missing service has none. *)
Definition service_ports (workload : Workload) : list ServicePort :=
  match ws_Service (wl_Spec workload) with Some service => ss_Ports service | None => [] end.

Definition deriveFromServicePorts `{!SortSlice} (workload : Workload) : string :=
  match selectBestPort (service_ports workload) with
  | None => ""
  | Some port =>
      let scheme := getSchemeForPort port in
      let endpoint := scheme +:+ "://" +:+ generateHostname workload in
      if isStandardPort scheme (sp_Port port) then endpoint
      else endpoint +:+ ":" +:+ FormatInt (sp_Port port)
  end.

(** Not implemented in the source: no template yields an endpoint. *)
Definition extractTemplateEndpoint (plan : WorkloadPlan) : res string := Ok "".

(** [renderEndpointTemplate] *)
Definition renderEndpointTemplate (endpoint : string) (workload : Workload) : string :=
  let result := ReplaceAll endpoint "{{.Name}}" (om_Name (wl_ObjectMeta workload)) in
  ReplaceAll result "{{.Namespace}}" (om_Namespace (wl_ObjectMeta workload)).

(** [EndpointDeriver.normalizeEndpoint] *)
Definition ed_normalizeEndpoint (endpoint : string) (workload : Workload) : res string :=
  if is_empty endpoint then Ok ""
  else
    let normalized := normalizeEndpoint (renderEndpointTemplate endpoint workload) None in
    match ValidateEndpoint normalized with
    | Some err => Err (EWrap "invalid derived endpoint" err)
    | None => Ok normalized
    end.

Definition derive_from_service `{!SortSlice} (workload : Workload) : res string :=
  let serviceEndpoint := deriveFromServicePorts workload in
  if is_empty serviceEndpoint then Ok "" else ed_normalizeEndpoint serviceEndpoint workload.

(** [EndpointDeriver.DeriveEndpoint] *)
Definition ed_DeriveEndpoint `{!SortSlice} (workload : Workload) (plan : option WorkloadPlan) : res string :=
  match plan with
  | None => Ok ""
  | Some plan =>
      match wps_Template (wp_Spec plan), wps_ResolvedValues (wp_Spec plan) with
      | Some _, Some _ =>
          match extractTemplateEndpoint plan with
          | Ok templateEndpoint =>
              if is_empty templateEndpoint then derive_from_service workload
              else ed_normalizeEndpoint templateEndpoint workload
          | Err _ => derive_from_service workload
          end
      | _, _ => derive_from_service workload
      end
  end.

(** [StatusManager.DeriveEndpoint]; [configured] tells whether a deriver was given. *)
Definition sm_DeriveEndpoint `{!SortSlice} (configured : bool) (workload : Workload)
    (plan : option WorkloadPlan) : res (option string) :=
  if negb configured then Err (ENew "endpoint deriver not configured")
  else match ed_DeriveEndpoint workload plan with
       | Err err => Err (EWrap "failed to derive endpoint" err)
       | Ok derivedEndpoint =>
           Ok (if is_empty derivedEndpoint then None else Some derivedEndpoint)
       end.

(** ** Derived endpoints *)

(** Lower numbers come first. *)
Definition port_rank (port : ServicePort) : Z := pp_priority (prioritize port).

Lemma priority_less_rank a b :
  priority_less (prioritize a) (prioritize b) = (port_rank a <? port_rank b)%Z.
Proof.
  unfold priority_less, port_rank. cbn [pp_priority pp_isHTTPS prioritize].
  destruct (isHTTPSPort (sp_Port a)), (isHTTPSPort (sp_Port b)),
    (isHTTPPort (sp_Port a)), (isHTTPPort (sp_Port b)); reflexivity.
Qed.

#[export] Instance priority_order : StrictWeakOrder priority_less.
Proof.
  split.
  - intros [? pa ha] [? pb hb]. unfold priority_less. simpl.
    rewrite (Z.eqb_sym pb pa). destruct (pa =? pb)%Z eqn:He; simpl; [by destruct ha, hb|].
    rewrite Z.ltb_lt, Z.ltb_ge. lia.
  - intros [? pa ha] [? pb hb] [? pc hc]. unfold priority_less. simpl.
    destruct (pb =? pa)%Z eqn:E1, (pc =? pb)%Z eqn:E2, (pc =? pa)%Z eqn:E3; simpl;
      rewrite ?Z.ltb_ge, ?Z.eqb_eq, ?Z.eqb_neq in *; try lia.
    destruct ha, hb, hc; simpl; congruence.
Qed.

(** The classes of ports: https first, then http, then the others. *)
Definition port_class (port : ServicePort) : nat :=
  if bool_decide (sp_Port port = 443%Z ∨ sp_Port port = 8443%Z) then 0
  else if bool_decide (sp_Port port = 80%Z ∨ sp_Port port = 8080%Z) then 1 else 2.

Lemma rank_class port :
  port_rank port = match port_class port with 0 => 1%Z | 1 => 2%Z | _ => 10%Z end.
Proof.
  unfold port_rank, port_class, prioritize, isHTTPSPort, isHTTPPort. cbn [pp_priority].
  repeat case_bool_decide; repeat case_match; rewrite ?orb_true_iff, ?orb_false_iff,
    ?Z.eqb_eq, ?Z.eqb_neq in *; done || lia.
Qed.

Lemma class_bound port : port_class port ≤ 2.
Proof. unfold port_class. repeat case_bool_decide; lia. Qed.

Lemma rank_le a b : (port_rank a <= port_rank b)%Z ↔ port_class a ≤ port_class b.
Proof.
  rewrite !rank_class. pose proof (class_bound a). pose proof (class_bound b).
  destruct (port_class a) as [|[|[|]]], (port_class b) as [|[|[|]]]; lia.
Qed.

(** [port] is a most preferred port of the service. *)
Definition preferred (ports : list ServicePort) (port : ServicePort) : Prop :=
  port ∈ ports ∧ ∀ other, other ∈ ports → port_class port ≤ port_class other.

(** It is the first of them. *)
Definition first_preferred (ports : list ServicePort) (port : ServicePort) : Prop :=
  preferred ports port ∧
  ∃ l1 l2, ports = l1 ++ port :: l2 ∧ ∀ other, other ∈ l1 → port_class port < port_class other.

Lemma sorted_preferred ports s best :
  is_sort priority_less (prioritize <$> ports) (best :: s) → preferred ports (pp_port best).
Proof.
  intros [Hin Hmin]%is_sort_head; [|apply _]. apply list_elem_of_fmap in Hin as (p & -> & Hp).
  split; [done|]. intros other Ho. apply rank_le. specialize (Hmin (prioritize other)).
  rewrite priority_less_rank, Z.ltb_ge in Hmin. apply Hmin, list_elem_of_fmap. eauto.
Qed.

(** Insertion sort puts the first of the most preferred ports first. *)
Lemma inserted_first_preferred ports best s :
  sort_slice priority_less (prioritize <$> ports) = best :: s →
  first_preferred ports (pp_port best).
Proof.
  intros Hsort. pose proof (sort_slice_is_sort priority_less (prioritize <$> ports)) as Hs.
  pose proof (sort_slice_first_min priority_less (prioritize <$> ports)) as Hf.
  rewrite Hsort in Hs, Hf. split; [by eapply sorted_preferred|].
  symmetry in Hf. apply first_min_spec in Hf as (l1 & l2 & Heq & H1 & _); [|apply _].
  apply fmap_app_inv in Heq as (k1 & k2 & -> & Heq & ->).
  destruct k2 as [|x k2]; [done|]. cbn [fmap list_fmap] in Heq. injection Heq as -> ->.
  exists k1, k2. split; [done|]. intros other Ho. cbn [pp_port prioritize].
  apply Nat.nle_gt. rewrite <- rank_le. apply Z.nle_gt. rewrite <- Z.ltb_lt, <- priority_less_rank.
  apply H1, list_elem_of_fmap. eauto.
Qed.

Lemma selectBestPort_spec `{!SortSlice, !SortSliceLaws} ports :
  match selectBestPort ports with
  | Some port => preferred ports port ∧ (length ports ≤ 12 → first_preferred ports port)
  | None => ports = []
  end.
Proof.
  unfold selectBestPort. destruct ports as [|p [|q l]]; [done| |].
  - assert (preferred [p] p) as Hp.
    { split; [set_solver|]. by intros other ->%list_elem_of_singleton. }
    split; [done|]. intros _. split; [done|]. exists [], []. split; [done|set_solver].
  - set (ports := p :: q :: l). unfold prioritizePortsByCharacteristics.
    pose proof (SliceSort_sorts priority_less (prioritize <$> ports) _) as Hs.
    pose proof (SliceSort_short priority_less (prioritize <$> ports)) as Hshort.
    rewrite length_fmap in Hshort.
    destruct (SliceSort _ _) as [|best s] eqn:Hsort.
    { destruct Hs as [Hperm%Permutation_nil_cons _]. done. }
    cbn [fmap list_fmap]. split; [by eapply sorted_preferred|].
    intros Hlen. eapply inserted_first_preferred. symmetry. by apply Hshort.
Qed.

(** The name and the namespace are made of the characters of a DNS name. *)
Definition dns_names (workload : Workload) : Prop :=
  om_Name (wl_ObjectMeta workload) ≠ "" ∧
  str_forall host_char (om_Name (wl_ObjectMeta workload)) = true ∧
  str_forall host_char (om_Namespace (wl_ObjectMeta workload)) = true.

Definition valid_port (port : Z) : Prop := (1 <= port <= 65535)%Z.

(** The address of the Service of the workload at the port; the standard port of the
    scheme is left out. *)
Definition service_url (workload : Workload) (port : Z) : string :=
  let https := (port =? 443)%Z || (port =? 8443)%Z in
  (if https then "https" else "http") +:+ "://" +:+
  (om_Name (wl_ObjectMeta workload) +:+ "." +:+ om_Namespace (wl_ObjectMeta workload) +:+
   ".svc.cluster.local") +:+ port_suffix (if (port =? 443)%Z || (port =? 80)%Z then ""
               else FormatInt port).

Lemma normalizePort_id u :
  ¬ (u_Scheme u = "http" ∧ Port u = "80") → ¬ (u_Scheme u = "https" ∧ Port u = "443") →
  normalizePort u = u.
Proof.
  intros H80 H443. unfold normalizePort, schemeHTTP, schemeHTTPS.
  destruct (is_empty (Port u)); [done|].
  destruct (bool_decide (u_Scheme u = "http")) eqn:E1, (bool_decide (Port u = "80")) eqn:E2,
    (bool_decide (u_Scheme u = "https")) eqn:E3, (bool_decide (Port u = "443")) eqn:E4;
    rewrite ?bool_decide_eq_true in *; simpl; naive_solver.
Qed.

Section derive.
Context (workload : Workload) (Hdns : dns_names workload).

Lemma hostname_plain :
  str_forall host_char (generateHostname workload) = true ∧ generateHostname workload ≠ "" ∧
  Contains (generateHostname workload) "." = true.
Proof using Hdns.
  destruct Hdns as (Hne & Hn & Hns). unfold generateHostname. split_and!.
  - by rewrite !str_forall_app, Hn, Hns.
  - by destruct (om_Name _).
  - apply Contains_iff. eauto.
Qed.

(** The text of an address, whatever follows the colon. *)
Definition address (scheme tail : string) : string :=
  scheme +:+ "://" +:+ generateHostname workload +:+ port_suffix tail.

Lemma address_no_template scheme tail :
  http_scheme scheme → str_forall host_char tail = true →
  renderEndpointTemplate (address scheme tail) workload = address scheme tail.
Proof using Hdns.
  intros Hs Ht. set (Q := λ a, plain_char a || one_of "/" a).
  assert (str_forall Q (address scheme tail) = true) as HQ.
  { assert (∀ s, str_forall host_char s = true → str_forall Q s = true) as Himp.
    { intros s. apply str_forall_impl. intros a Ha. unfold Q, plain_char. by rewrite Ha. }
    unfold address, port_suffix. rewrite !str_forall_app.
    rewrite (Himp (generateHostname _)) by apply hostname_plain.
    assert (str_forall Q scheme = true) as -> by by destruct Hs as [-> | ->].
    destruct (is_empty tail); [done|]. rewrite str_forall_app, (Himp tail) by done. done. }
  assert (∀ old, str_forall Q old = false → Contains (address scheme tail) old = false) as Habs.
  { intros old Hold. apply not_true_iff_false. rewrite Contains_iff. intros (a & b & Heq).
    rewrite Heq, !str_forall_app, !andb_true_iff in HQ. destruct HQ as (_ & HQ & _). congruence. }
  unfold renderEndpointTemplate. rewrite (ReplaceAll_absent (address scheme tail)) by by apply Habs.
  apply ReplaceAll_absent. by apply Habs.
Qed.

(** An address with a proper port that is not the standard one stays as it is. *)
Lemma normalize_address scheme port :
  http_scheme scheme → str_forall is_digit port = true →
  ¬ (scheme = "http" ∧ port = "80") → ¬ (scheme = "https" ∧ port = "443") →
  normalizeEndpoint (address scheme port) None = address scheme port.
Proof using Hdns.
  intros Hs Hp H80 H443. destruct hostname_plain as (Hh & Hne & Hdot).
  unfold normalizeEndpoint, address. rewrite Parse_plain by done. rewrite bool_decide_false by done.
  cbn [andb]. set (u := plain_url scheme _).
  assert (splitHostPort (u_Host u) = (generateHostname workload, port)) as Hsplit
    by by apply splitHostPort_plain.
  assert (normalizePort u = u) as ->.
  { apply normalizePort_id; unfold Port; by rewrite Hsplit. }
  assert (add_cluster_domain u = u) as ->.
  { unfold add_cluster_domain, Hostname. rewrite Hsplit. cbn [fst]. by rewrite Hdot, andb_false_r. }
  by apply url_string_plain.
Qed.

Lemma validate_address scheme port :
  http_scheme scheme → str_forall is_digit port = true →
  ValidateEndpoint (address scheme port) =
  if is_empty port then None
  else match ParseInt port with
       | Some n => if (n <? 1)%Z || (65535 <? n)%Z
                   then Some (ENew ("invalid port number: " +:+ port)) else None
       | None => Some (ENew ("invalid port number: " +:+ port))
       end.
Proof using Hdns.
  intros Hs Hp. destruct hostname_plain as (Hh & Hne & _).
  unfold ValidateEndpoint, address. rewrite Parse_plain by done. unfold Port.
  cbn [u_Host plain_url u_Scheme]. rewrite splitHostPort_plain by done. cbn [snd].
  assert (is_empty (generateHostname workload +:+ port_suffix port) = false) as ->.
  { apply bool_decide_eq_false. by destruct (generateHostname workload). }
  by destruct Hs as [-> | ->].
Qed.

Lemma bad_address scheme tail :
  http_scheme scheme → tail ≠ "" → str_forall host_char tail = true →
  str_forall is_digit tail = false →
  normalizeEndpoint (address scheme tail) None = address scheme tail ∧
  is_Some (ValidateEndpoint (address scheme tail)).
Proof using Hdns.
  intros Hs Ht Hth Htd. destruct hostname_plain as (Hh & Hne & _).
  unfold normalizeEndpoint, ValidateEndpoint, address, port_suffix.
  assert (is_empty tail = false) as -> by by apply bool_decide_eq_false.
  rewrite Parse_bad_port by done. split; [done|]. by destruct Hs as [-> | ->]; eexists.
Qed.
End derive.

Lemma FormatInt_host z : str_forall host_char (FormatInt z) = true.
Proof.
  eapply str_forall_impl, FormatInt_numeric. intros a Ha.
  pose proof (all_bytes_spec (λ a, negb (is_numeric a) || host_char a) eq_refl a) as Hall.
  cbn beta in Hall. by rewrite Ha in Hall.
Qed.

Lemma FormatInt_negative z : (z < 0)%Z → str_forall is_digit (FormatInt z) = false.
Proof. intros Hz. by destruct z. Qed.

Lemma FormatInt_neq_empty z : FormatInt z ≠ "".
Proof.
  destruct (decide (0 <= z)%Z) as [Hz|Hz]; [by apply FormatInt_nonneg|].
  intros Heq. pose proof (FormatInt_negative z ltac:(lia)) as Hd. by rewrite Heq in Hd.
Qed.

(** The text of a port in the endpoint. *)
Definition port_text (port : Z) : string :=
  if (port =? 443)%Z || (port =? 80)%Z then "" else FormatInt port.

Lemma service_url_hostname workload port :
  service_url workload port =
  (if (port =? 443)%Z || (port =? 8443)%Z then "https" else "http") +:+ "://" +:+
  generateHostname workload +:+
  port_suffix (if (port =? 443)%Z || (port =? 80)%Z then "" else FormatInt port).
Proof. done. Qed.

Lemma deriveFromServicePorts_address `{!SortSlice} workload port :
  selectBestPort (service_ports workload) = Some port →
  deriveFromServicePorts workload =
  address workload (getSchemeForPort port) (port_text (sp_Port port)) ∧
  http_scheme (getSchemeForPort port) ∧
  address workload (getSchemeForPort port) (port_text (sp_Port port)) =
    service_url workload (sp_Port port).
Proof.
  intros Hsel. unfold deriveFromServicePorts. rewrite Hsel. rewrite service_url_hostname. unfold address, port_text,
    getSchemeForPort, isStandardPort, isHTTPSPort, http_scheme, schemeHTTP, schemeHTTPS.
  set (z := sp_Port port).
  assert (∀ s, s ≠ "" → port_suffix s = ":" +:+ s) as Hsuf.
  { intros s Hs. unfold port_suffix, is_empty. by rewrite bool_decide_false. }
  pose proof (Hsuf _ (FormatInt_neq_empty z)) as Hz. clear Hsuf.
  destruct (z =? 443)%Z eqn:E1; simpl.
  - rewrite !string_app_nil_r. auto.
  - destruct (z =? 8443)%Z eqn:E2; simpl; destruct (z =? 80)%Z eqn:E3; simpl;
      rewrite ?Hz, ?string_app_nil_r, ?string_app_assoc; auto; lia.
Qed.

Lemma derive_from_service_spec `{!SortSlice} workload port :
  dns_names workload → selectBestPort (service_ports workload) = Some port →
  (- 2 ^ 31 <= sp_Port port < 2 ^ 31)%Z →
  (valid_port (sp_Port port) →
     derive_from_service workload = Ok (service_url workload (sp_Port port)) ∧
     ValidateEndpoint (service_url workload (sp_Port port)) = None) ∧
  (¬ valid_port (sp_Port port) → ∃ e,
     derive_from_service workload = Err (EWrap "invalid derived endpoint" e)).
Proof.
  intros Hdns Hsel Hint.
  destruct (deriveFromServicePorts_address _ _ Hsel) as (Hd & Hs & <-).
  set (scheme := getSchemeForPort port) in *. set (text := port_text (sp_Port port)) in *.
  assert (str_forall host_char text = true) as Htext.
  { unfold text, port_text. destruct (_ || _); [done|]. apply FormatInt_host. }
  assert (is_empty (address workload scheme text) = false) as Hne.
  { apply bool_decide_eq_false. by destruct Hs as [-> | ->]. }
  unfold derive_from_service. rewrite Hd, Hne. unfold ed_normalizeEndpoint. rewrite Hne.
  rewrite address_no_template by done. unfold valid_port.
  destruct (str_forall is_digit text) eqn:Hdig.
  - rewrite normalize_address, validate_address; try done.
    2,3: unfold text, port_text; intros [_ Heq];
      destruct (_ || _) eqn:Hstd; [done|]; apply (f_equal ParseInt) in Heq;
      rewrite ParseInt_FormatInt in Heq by lia; injection Heq as Heq; rewrite Heq in Hstd; done.
    unfold text, port_text. destruct (_ || _) eqn:Hstd.
    { rewrite orb_true_iff, !Z.eqb_eq in Hstd. split; [done|]. lia. }
    assert (is_empty (FormatInt (sp_Port port)) = false) as ->
      by apply bool_decide_eq_false, FormatInt_neq_empty.
    rewrite ParseInt_FormatInt by lia. clear Hstd.
    destruct ((sp_Port port <? 1)%Z || _) eqn:Hr.
    + split; [|by eauto]. rewrite orb_true_iff, !Z.ltb_lt in Hr. lia.
    + split; [done|]. rewrite orb_false_iff, !Z.ltb_ge in Hr. lia.
  - destruct (bad_address workload Hdns scheme text) as [-> [e He]]; [done| |done..|].
    { by intros Heq; rewrite Heq in Hdig. }
    rewrite He. split; [|eauto]. intros Hv. exfalso. apply not_true_iff_false in Hdig. apply Hdig.
    unfold text, port_text. destruct (_ || _); [done|]. apply FormatInt_nonneg. lia.
Qed.

(** C36: The endpoint derived for a workload whose name and namespace are DNS names:
    none without a plan or without service ports; otherwise it is the address, at a port
    that is most preferred (443 and 8443 before 80 and 8080 before the others), and the
    first such among at most twelve ports, of the Service of the workload, with the
    scheme of the port, which passes the validation; it is an error exactly when that
    port is not between 1 and 65535.  Beyond twelve ports the sort need not be stable,
    and any of the most preferred ports may be chosen. *)
Theorem DeriveEndpoint_correct `{!SortSlice, !SortSliceLaws} workload plan :
  dns_names workload → Forall (λ p, (- 2 ^ 31 <= sp_Port p < 2 ^ 31)%Z) (service_ports workload) →
  (plan = None ∨ service_ports workload = [] → sm_DeriveEndpoint true workload plan = Ok None) ∧
  (is_Some plan → service_ports workload ≠ [] →
   ∃ port, preferred (service_ports workload) port ∧
     (length (service_ports workload) ≤ 12 → first_preferred (service_ports workload) port) ∧
     (valid_port (sp_Port port) →
        sm_DeriveEndpoint true workload plan = Ok (Some (service_url workload (sp_Port port))) ∧
        ValidateEndpoint (service_url workload (sp_Port port)) = None) ∧
     (¬ valid_port (sp_Port port) → ∃ e,
        sm_DeriveEndpoint true workload plan =
        Err (EWrap "failed to derive endpoint" (EWrap "invalid derived endpoint" e)))).
Proof.
  intros Hdns Hint.
  assert (∀ p, ed_DeriveEndpoint workload (Some p) = derive_from_service workload) as Hed.
  { intros p. unfold ed_DeriveEndpoint. by destruct (wps_Template (wp_Spec p)), (wps_ResolvedValues (wp_Spec p)). }
  pose proof (selectBestPort_spec (service_ports workload)) as Hbest.
  split; [|intros [p ->] Hne].
  - unfold sm_DeriveEndpoint. cbn [negb]. destruct plan as [p|]; [|done].
    intros [?|Hnil]; [done|]. rewrite Hed. unfold derive_from_service, deriveFromServicePorts.
    by rewrite Hnil.
  - unfold sm_DeriveEndpoint. cbn [negb]. rewrite Hed.
    destruct (selectBestPort _) as [port|] eqn:Hsel; [|done].
    destruct Hbest as [Hpref Hfirst]. exists port. split; [done|]. split; [done|].
    destruct (derive_from_service_spec workload port) as [Hok Herr]; [done..| |].
    { rewrite Forall_forall in Hint. apply Hint, Hpref. }
    split; intros Hv.
    + destruct (Hok Hv) as [-> Hval]. split; [|done].
      unfold is_empty. rewrite bool_decide_false; [done|].
      intros Heq. by rewrite Heq in Hval.
    + destruct (Herr Hv) as [e ->]. eauto.
Qed.

(** A host without a dot, and with a port, comes out of the normalisation as an
    address with the port in the middle of the host, which the validation refuses. *)
Theorem dotless_port_broken scheme host port :
  http_scheme scheme → host ≠ "" → str_forall host_char host = true →
  Contains host "." = false → port ≠ "" → str_forall is_digit port = true →
  ¬ (scheme = "http" ∧ port = "80") → ¬ (scheme = "https" ∧ port = "443") →
  let endpoint := scheme +:+ "://" +:+ host +:+ ":" +:+ port in
  ValidateEndpoint (normalizeEndpoint endpoint None) ≠ None ∧
  normalizeEndpoint endpoint None = endpoint +:+ ".default.svc.cluster.local".
Proof.
  intros Hs Hne Hh Hdot Hpne Hp H80 H443. cbv zeta.
  assert (is_empty port = false) as Hpe by by apply bool_decide_eq_false.
  assert (port_suffix port = ":" +:+ port) as Hsuf by (unfold port_suffix; by rewrite Hpe).
  set (tail := port +:+ ".default.svc.cluster.local").
  assert (str_forall host_char tail = true) as Htail
    by (unfold tail; rewrite str_forall_app, plain_digits by done; done).
  assert (str_forall is_digit tail = false) as Hdig
    by (unfold tail; by rewrite str_forall_app, Hp).
  assert (normalizeEndpoint (scheme +:+ "://" +:+ host +:+ ":" +:+ port) None =
          scheme +:+ "://" +:+ host +:+ ":" +:+ tail) as Hn.
  { rewrite <- Hsuf. unfold normalizeEndpoint. rewrite Parse_plain by done.
    rewrite bool_decide_false by done. cbn [andb]. set (u := plain_url _ _).
    assert (splitHostPort (u_Host u) = (host, port)) as Hsplit by by apply splitHostPort_plain.
    assert (normalizePort u = u) as ->.
    { apply normalizePort_id; unfold Port; by rewrite Hsplit. }
    unfold add_cluster_domain, Hostname. rewrite Hsplit. cbn [fst]. rewrite Hdot.
    assert (is_empty (u_Host u) = false) as -> by (apply bool_decide_eq_false; by destruct host).
    cbn [negb andb].
    assert (u_Host u +:+ "." +:+ "default" +:+ ".svc.cluster.local" = host +:+ ":" +:+ tail) as Hhost.
    { unfold u, plain_url, tail. cbn [u_Host]. rewrite Hsuf, !string_app_assoc. done. }
    assert (Port {| u with u_Host := u_Host u +:+ "." +:+ "default" +:+ ".svc.cluster.local" |} = "")
      as ->.
    { unfold Port. cbn [u_Host]. rewrite Hhost. by apply splitHostPort_bad. }
    cbn [negb is_empty]. rewrite Hhost. apply url_string_authority; [done|by destruct host|].
    rewrite !str_forall_app. rewrite (plain_host host), (plain_host tail) by done. reflexivity. }
  rewrite Hn. split; [|unfold tail; by rewrite !string_app_assoc].
  unfold ValidateEndpoint. rewrite Parse_bad_port by done. by destruct Hs as [-> | ->].
Qed.

(** An endpoint is read back as what it was made of: the host name of the workload
    and the port, the port that is left out of the text included, and whether it is
    https. *)
Theorem service_url_roundtrip workload port :
  dns_names workload → (0 <= port)%Z →
  ExtractHostPort (service_url workload port) = Ok (generateHostname workload, FormatInt port) ∧
  IsHTTPS (service_url workload port) = isHTTPSPort port.
Proof.
  intros Hdns Hp. destruct (hostname_plain workload Hdns) as (Hh & _ & _).
  destruct (FormatInt_nonneg port Hp) as [Hne Hdig].
  assert (str_forall is_digit (port_text port) = true) as Htext
    by (unfold port_text; by destruct (_ || _)).
  set (scheme := if isHTTPSPort port then "https" else "http").
  assert (http_scheme scheme) as Hs by (unfold scheme, http_scheme; destruct (isHTTPSPort _); auto).
  assert (Parse (service_url workload port) =
    Ok (plain_url scheme (generateHostname workload +:+ port_suffix (port_text port)))) as Hparse.
  { rewrite <- Parse_plain by done. done. }
  unfold ExtractHostPort, IsHTTPS, Hostname, Port. rewrite Hparse.
  cbn [plain_url u_Scheme u_Host]. rewrite splitHostPort_plain by done. cbn [fst snd].
  unfold scheme, schemeHTTP, schemeHTTPS, isHTTPSPort. split.
  - f_equal. f_equal. unfold port_text.
    destruct (port =? 443)%Z eqn:E1; [apply Z.eqb_eq in E1 as ->; reflexivity|].
    destruct (port =? 80)%Z eqn:E2; [apply Z.eqb_eq in E2 as ->; reflexivity|].
    unfold is_empty. by rewrite bool_decide_false.
  - by destruct ((port =? 443)%Z || (port =? 8443)%Z).
Qed.

Module EndpointDemo.
Definition port (n : Z) : ServicePort :=
  {| sp_Port := n; sp_Protocol := ""; sp_TargetPort := None |}.

Definition workload (ports : list Z) : Workload :=
  {| wl_ObjectMeta := {| ObjectMeta_zero with om_Name := "web"; om_Namespace := "prod" |};
     wl_Spec := {| ws_Profile := None; ws_Containers := ∅;
                   ws_Service := Some {| ss_Ports := port <$> ports |}; ws_Resources := ∅ |};
     wl_Status := {| wst_Endpoint := None; wst_Conditions := []; wst_Claims := [] |} |}.

Definition plan : WorkloadPlan :=
  {| wp_ObjectMeta := ObjectMeta_zero;
     wp_Spec := {| wps_WorkloadRef := {| wpr_Name := "web"; wpr_Namespace := "prod" |};
                   wps_ObservedWorkloadGeneration := 1; wps_RuntimeClass := "kubernetes";
                   wps_Template := None; wps_ResolvedValues := None; wps_Claims := [] |};
     wp_Status := {| wpst_Phase := WorkloadPlanPhaseEmpty; wpst_Conditions := [];
                     wpst_Message := "" |} |}.
End EndpointDemo.

#[local] Existing Instances SortDemo.unstable SortDemo.unstable_laws.

(** With more than twelve ports another of the http ports may be chosen. *)
Example unstable_run :
  (λ ports, sm_DeriveEndpoint true (EndpointDemo.workload ports) (Some EndpointDemo.plan)) <$>
    [80%Z :: replicate 10 3000%Z ++ [8080%Z]; 80%Z :: replicate 11 3000%Z ++ [8080%Z]] =
  [Ok (Some "http://web.prod.svc.cluster.local"); Ok (Some "http://web.prod.svc.cluster.local:8080")].
Proof. vm_compute. reflexivity. Qed.

Example derive_run :
  (λ ports, sm_DeriveEndpoint true (EndpointDemo.workload ports) (Some EndpointDemo.plan)) <$>
    [[]; [3000%Z; 8080%Z; 80%Z]; [80%Z; 8443%Z]; [80%Z; 443%Z]; [0%Z]] =
  [Ok None; Ok (Some "http://web.prod.svc.cluster.local:8080");
   Ok (Some "https://web.prod.svc.cluster.local:8443");
   Ok (Some "https://web.prod.svc.cluster.local");
   Err (EWrap "failed to derive endpoint" (EWrap "invalid derived endpoint"
     (ENew "invalid port number: 0")))].
Proof. vm_compute. reflexivity. Qed.

Lemma DeriveEndpoint_correct_witness :
  dns_names (EndpointDemo.workload [80%Z; 443%Z]) ∧
  ∃ port, first_preferred (service_ports (EndpointDemo.workload [80%Z; 443%Z])) port ∧
    (valid_port (sp_Port port) →
       sm_DeriveEndpoint true (EndpointDemo.workload [80%Z; 443%Z]) (Some EndpointDemo.plan) =
       Ok (Some (service_url (EndpointDemo.workload [80%Z; 443%Z]) (sp_Port port)))).
Proof.
  assert (dns_names (EndpointDemo.workload [80%Z; 443%Z])) as Hdns by (split_and!; done).
  split; [done|].
  destruct (DeriveEndpoint_correct (EndpointDemo.workload [80%Z; 443%Z]) (Some EndpointDemo.plan)
    Hdns) as (_ & Hsome).
  - repeat constructor; simpl; lia.
  - destruct Hsome as (port & _ & Hport & Hok & _); [by eexists|done|].
    exists port. split; [apply Hport; simpl; lia|]. intros Hv. by apply Hok.
Defined.

Lemma dotless_port_broken_witness :
  normalizeEndpoint "http://db:8080" None = "http://db:8080.default.svc.cluster.local".
Proof.
  apply (dotless_port_broken "http" "db" "8080"); try done; [by left| |]; by intros [].
Defined.

Lemma service_url_roundtrip_witness :
  ExtractHostPort (service_url (EndpointDemo.workload []) 443) =
  Ok ("web.prod.svc.cluster.local", "443").
Proof.
  destruct (service_url_roundtrip (EndpointDemo.workload []) 443) as [Hx _];
    [split_and!; done|lia|exact Hx].
Defined.
