(* ===== verification/Mirror.v ===== *)
(** * Mirror: [internal/controller/exposure_mirror_controller.go]

    The endpoint and the conditions of a WorkloadExposure, mirrored into the status of
    the workload it refers to. *)
From S2P Require Import Prelude GoStrings Json K8s Api Client Conditions GoURL.

(** An http or https URL with a host. *)
Definition isValidURL (rawURL : string) : bool :=
  if is_empty rawURL then false
  else match Parse rawURL with
       | Err _ => false
       | Ok parsedURL =>
           if negb (bool_decide (u_Scheme parsedURL = "http")) &&
              negb (bool_decide (u_Scheme parsedURL = "https")) then false
           else negb (is_empty (u_Host parsedURL))
       end.

Definition with_endpoint (workload : Workload) (endpoint : option string) : Workload :=
  {| workload with wl_Status := {| (wl_Status workload) with wst_Endpoint := endpoint |} |}.

Definition with_status_conditions (workload : Workload) (cs : list Condition) : Workload :=
  {| workload with wl_Status := {| (wl_Status workload) with wst_Conditions := cs |} |}.

(** The endpoint that the exposure announces. *)
Definition newEndpoint (exposure : WorkloadExposure) : option string :=
  match west_Exposures (we_Status exposure) with
  | top :: _ => if isValidURL (ee_URL top) then Some (ee_URL top) else None
  | [] => None
  end.

(** A method that changes the workload returns the new one. *)
Definition mirrorEndpoint (workload : Workload) (exposure : WorkloadExposure) : Workload * bool :=
  let new := newEndpoint exposure in
  if bool_decide (wst_Endpoint (wl_Status workload) = new) then (workload, false)
  else (with_endpoint workload new, true).

Fixpoint findCondition (conditions : list Condition) (conditionType : string) : option Condition :=
  match conditions with
  | [] => None
  | c :: cs => if bool_decide (c_Type c = conditionType) then Some c
               else findCondition cs conditionType
  end.

(** The clock is read when the status of an existing condition changes, or when a new
    condition has no transition time. *)
Fixpoint setStatusCondition (conditions : list Condition) (newCondition : Condition) :
    prog (list Condition) :=
  match conditions with
  | [] =>
      if (c_LastTransitionTime newCondition =? 0)%Z
      then now ← ask Now;
           mret [{| newCondition with c_LastTransitionTime := now |}]
      else mret [newCondition]
  | c :: cs =>
      if bool_decide (c_Type c = c_Type newCondition)
      then
        now ← (if bool_decide (c_Status c = c_Status newCondition)
               then mret (c_LastTransitionTime c) else ask Now);
        mret ({| c with c_LastTransitionTime := now; c_Status := c_Status newCondition;
                        c_Reason := c_Reason newCondition;
                        c_Message := c_Message newCondition |} :: cs)
      else
        cs ← setStatusCondition cs newCondition;
        mret (c :: cs)
  end.

(** The condition would change nothing. *)
Definition same_condition (existing : option Condition) (condition : Condition) : bool :=
  match existing with
  | None => false
  | Some e => bool_decide (c_Status e = c_Status condition) &&
              bool_decide (c_Reason e = c_Reason condition) &&
              bool_decide (c_Message e = c_Message condition)
  end.

Fixpoint mirror_conditions (conditions : list Condition) (normalized : list Condition)
    (updated : bool) : prog (list Condition * bool) :=
  match normalized with
  | [] => mret (conditions, updated)
  | condition :: rest =>
      if same_condition (findCondition conditions (c_Type condition)) condition
      then mirror_conditions conditions rest updated
      else
        conditions ← setStatusCondition conditions condition;
        mirror_conditions conditions rest true
  end.

Definition mirrorConditions (workload : Workload) (exposure : WorkloadExposure) :
    prog (Workload * bool) :=
  let normalizedConditions := NormalizeConditions (west_Conditions (we_Status exposure)) in
  x ← mirror_conditions (wst_Conditions (wl_Status workload)) normalizedConditions false;
  let '(cs, updated) := x in
  mret (with_status_conditions workload cs, updated).

Definition mirrored_workload (exposure : WorkloadExposure) : ObjectKey :=
  let workloadRef := wes_WorkloadRef (we_Spec exposure) in
  (default (om_Namespace (we_ObjectMeta exposure)) (wer_Namespace workloadRef),
   wer_Name workloadRef).

(** The checks of the identity and of the generation. *)
Definition accepts (exposure : WorkloadExposure) (workload : Workload) : bool :=
  let workloadRef := wes_WorkloadRef (we_Spec exposure) in
  negb (negb (is_empty (wer_UID workloadRef)) &&
        negb (bool_decide (om_UID (wl_ObjectMeta workload) = wer_UID workloadRef))) &&
  negb (wes_ObservedWorkloadGeneration (we_Spec exposure) <?
        om_Generation (wl_ObjectMeta workload))%Z.

Definition mirror_event (workload : Workload) : prog () :=
  match wst_Endpoint (wl_Status workload) with
  | Some endpoint =>
      ask (Event (meta_key (wl_ObjectMeta workload)) "Normal" "EndpointMirrored"
             ("Mirrored endpoint from WorkloadExposure: " +:+ endpoint))
  | None =>
      ask (Event (meta_key (wl_ObjectMeta workload)) "Normal" "EndpointCleared"
             "Cleared endpoint due to WorkloadExposure changes")
  end.

(** [ExposureMirrorReconciler.Reconcile] *)
Definition MirrorReconcile (req : ObjectKey) : prog (Result * option goerror) :=
  got ← ask (Get KWorkloadExposure req);
  match (got : res WorkloadExposure) with
  | Err err => mret (Result_zero, IgnoreNotFound err)
  | Ok exposure =>
      got ← ask (Get KWorkload (mirrored_workload exposure));
      match (got : res Workload) with
      | Err err => mret (Result_zero, IgnoreNotFound err)
      | Ok workload =>
          if negb (accepts exposure workload) then mret (Result_zero, None)
          else
            let '(new, endpointUpdated) := mirrorEndpoint workload exposure in
            x ← mirrorConditions new exposure;
            let '(new, conditionsUpdated) := x in
            if endpointUpdated || conditionsUpdated then
              stored ← ask (StatusPatch KWorkload workload new);
              match (stored : res Workload) with
              | Err err => mret (Result_zero, Some err)
              | Ok new => mirror_event new;; mret (Result_zero, None)
              end
            else mret (Result_zero, None)
      end
  end.

(** ** What is mirrored *)

Lemma findCondition_type cs t c : findCondition cs t = Some c → c_Type c = t.
Proof. induction cs as [|d cs IH]; simpl; [done|]. case_bool_decide; naive_solver. Qed.

Lemma same_condition_self c : same_condition (Some c) c = true.
Proof. simpl. by rewrite !bool_decide_true. Qed.

Lemma setStatusCondition_wp E cs c past :
  wp E (setStatusCondition cs c) past (λ cs' _,
    same_condition (findCondition cs' (c_Type c)) c = true ∧
    ∀ t, t ≠ c_Type c → findCondition cs' t = findCondition cs t).
Proof.
  revert past. induction cs as [|d cs IH]; intros past; simpl.
  - destruct (_ =? 0)%Z; [intros now _|]; cbn [wp mret prog_ret findCondition c_Type];
      rewrite bool_decide_true by done; (split; [simpl; by rewrite !bool_decide_true|]);
      intros t Ht; by rewrite bool_decide_false.
  - case_bool_decide as Hd.
    + rewrite wp_bind. assert (∀ now tr, wp E (mret ({| d with c_LastTransitionTime := now;
        c_Status := c_Status c; c_Reason := c_Reason c; c_Message := c_Message c |} :: cs)) tr
        (λ cs' _, same_condition (findCondition cs' (c_Type c)) c = true ∧
           ∀ t, t ≠ c_Type c → findCondition cs' t = findCondition (d :: cs) t)) as Hput.
      { intros now tr. cbn [wp mret prog_ret findCondition c_Type].
        rewrite bool_decide_true by done. split; [simpl; by rewrite !bool_decide_true|].
        intros t Ht. by rewrite !bool_decide_false by congruence. }
      case_bool_decide; [apply Hput|]. intros now _. apply Hput.
    + rewrite wp_bind. eapply wp_mono; [done| |apply IH]. intros cs' tr [Hc Ho].
      cbn [wp mret prog_ret findCondition]. rewrite bool_decide_false by done.
      split; [done|]. intros t Ht. case_bool_decide; [done|]. by apply Ho.
Qed.

(** The last of the normalised conditions of a type decides. *)
Definition last_of_type (cs : list Condition) (t : string) : option Condition :=
  last (filter (λ c, c_Type c = t) cs).

Definition mirrored_conditions (old normalized new : list Condition) : Prop :=
  ∀ t, match last_of_type normalized t with
       | Some c => same_condition (findCondition new t) c = true
       | None => findCondition new t = findCondition old t
       end.

Lemma last_of_type_cons c cs t :
  last_of_type (c :: cs) t =
  match last_of_type cs t with
  | Some d => Some d
  | None => if bool_decide (c_Type c = t) then Some c else None
  end.
Proof.
  unfold last_of_type. rewrite filter_cons. case_bool_decide as Ht.
  - rewrite decide_True, last_cons by done. by destruct (last _).
  - rewrite decide_False by done. by destruct (last _).
Qed.

Lemma mirrored_step old mid new c cs :
  same_condition (findCondition mid (c_Type c)) c = true →
  (∀ t, t ≠ c_Type c → findCondition mid t = findCondition old t) →
  mirrored_conditions mid cs new → mirrored_conditions old (c :: cs) new.
Proof.
  intros Hc Ho Hm t. specialize (Hm t). rewrite last_of_type_cons.
  destruct (last_of_type cs t) as [d|]; [done|]. rewrite Hm.
  case_bool_decide as Ht; [by subst|]. apply Ho. congruence.
Qed.

Lemma mirror_conditions_wp E cs normalized updated past :
  wp E (mirror_conditions cs normalized updated) past (λ x _,
    mirrored_conditions cs normalized x.1 ∧ (x.2 = false → x.1 = cs ∧ updated = false)).
Proof.
  revert cs updated past. induction normalized as [|c l IH]; intros cs updated past; simpl.
  - split; [by intros t|done].
  - destruct (same_condition _ _) eqn:Hsame.
    + eapply wp_mono; [done| |apply IH]. intros [cs' u] tr [Hm Hu]. split; [|done].
      by eapply mirrored_step.
    + rewrite wp_bind. eapply wp_mono; [done| |apply setStatusCondition_wp].
      intros cs1 tr [Hc Ho]. eapply wp_mono; [done| |apply IH]. intros [cs' u] tr' [Hm Hu].
      split; [by eapply mirrored_step|]. simpl. intros ->. by destruct (Hu eq_refl).
Qed.

Lemma setStatusCondition_reads cs c : read_only (setStatusCondition cs c).
Proof.
  unfold read_only. induction cs as [|d cs IH]; simpl; [by destruct (_ =? 0)%Z|].
  case_bool_decide; [|by apply every_call_bind].
  apply every_call_bind; [by case_bool_decide|done].
Qed.

Lemma mirror_conditions_reads cs normalized updated :
  read_only (mirror_conditions cs normalized updated).
Proof.
  unfold read_only. revert cs updated.
  induction normalized as [|c l IH]; intros cs updated; simpl; [done|].
  destruct (same_condition _ _); [apply IH|].
  apply every_call_bind; [apply setStatusCondition_reads|]. intros cs'. apply IH.
Qed.

(** The workload with the mirrored status; everything else is as it was read. *)
Definition mirrored (exposure : WorkloadExposure) (workload new : Workload) : Prop :=
  wl_ObjectMeta new = wl_ObjectMeta workload ∧ wl_Spec new = wl_Spec workload ∧
  wst_Claims (wl_Status new) = wst_Claims (wl_Status workload) ∧
  wst_Endpoint (wl_Status new) = newEndpoint exposure ∧
  mirrored_conditions (wst_Conditions (wl_Status workload))
    (NormalizeConditions (west_Conditions (we_Status exposure))) (wst_Conditions (wl_Status new)).

(** Both changes of the status; when neither says so, nothing changes. *)
Lemma mirror_wp E workload exposure past :
  let x := mirrorEndpoint workload exposure in
  wp E (mirrorConditions x.1 exposure) past (λ y tr,
    mirrored exposure workload y.1 ∧ (x.2 || y.2 = false → y.1 = workload) ∧
    ∃ l, tr = past ++ l ∧ writes l = []).
Proof.
  intros x. assert (wl_ObjectMeta x.1 = wl_ObjectMeta workload ∧ wl_Spec x.1 = wl_Spec workload ∧
    wst_Claims (wl_Status x.1) = wst_Claims (wl_Status workload) ∧
    wst_Conditions (wl_Status x.1) = wst_Conditions (wl_Status workload) ∧
    wst_Endpoint (wl_Status x.1) = newEndpoint exposure ∧ (x.2 = false → x.1 = workload)) as Hx.
  { unfold x, mirrorEndpoint. by case_bool_decide. }
  destruct Hx as (Hm & Hs & Hcl & Hcs & He & Hu).
  unfold mirrorConditions. rewrite Hcs, wp_bind. eapply wp_mono; [done| |
    apply wp_with_calls; [apply mirror_conditions_wp|apply mirror_conditions_reads]].
  intros [cs u] tr [[Hmir Hcu] (l & -> & Hl)]. cbn [wp mret prog_ret fst snd] in *.
  split; [done|]. split; [|exists l; split; [done|by apply writes_none]].
  intros [Hx2 ->]%orb_false_iff. destruct (Hcu eq_refl) as [-> _].
  rewrite <- (Hu Hx2) at 2. rewrite <- Hcs. clear. by destruct x as [[? ? []] ?].
Qed.

(** One reconcile, as a fact from which the theorems follow. *)
Lemma MirrorReconcile_wp req rE rW :
  wp (λ e, answers KWorkloadExposure req rE e ∧ ∀ k, answers KWorkload k (rW k) e)
    (MirrorReconcile req) [] (λ x tr,
    match rE with
    | Err err => x = (Result_zero, IgnoreNotFound err) ∧ writes tr = []
    | Ok exposure =>
        match rW (mirrored_workload exposure) with
        | Err err => x = (Result_zero, IgnoreNotFound err) ∧ writes tr = []
        | Ok workload =>
            if accepts exposure workload
            then ∃ new, mirrored exposure workload new ∧
              ((new = workload ∧ x = (Result_zero, None) ∧ writes tr = []) ∨
               writes tr = [StatusPatch KWorkload workload new])
            else x = (Result_zero, None) ∧ writes tr = []
        end
    end).
Proof.
  unfold MirrorReconcile. rewrite wp_bind. intros got [Hgot _]. rewrite (Hgot got eq_refl).
  destruct rE as [exposure|err]; [|done]. cbn [wp].
  rewrite wp_bind. intros got' [_ Hgot']. rewrite (Hgot' _ got' eq_refl).
  destruct (rW _) as [workload|err]; [|done]. cbn [wp].
  destruct (accepts _ _); cbn [negb]; [|done].
  set (past := _ ++ _). assert (writes past = []) as Hpast by done. clearbody past.
  pose proof (mirror_wp (λ e, answers KWorkloadExposure req (Ok exposure) e ∧
    ∀ k, answers KWorkload k (rW k) e) workload exposure past) as Hm.
  destruct (mirrorEndpoint workload exposure) as [new eu]. cbn [fst snd] in Hm.
  rewrite wp_bind. eapply wp_mono; [| |exact Hm]; [done|].
  intros [w cu] tr (Hw & Hsame & l & -> & Hl). cbn [fst snd] in *.
  destruct (eu || cu).
  - rewrite wp_bind. intros stored _. destruct stored as [stored|err]; cbn [wp].
    + unfold mirror_event. destruct (wst_Endpoint (wl_Status stored)); intros [] _; cbn [wp mret prog_ret];
        exists w; (split; [done|right]); by rewrite !writes_app, Hpast, Hl.
    + exists w. split; [done|right]. by rewrite !writes_app, Hpast, Hl.
  - cbn [wp mret prog_ret]. exists w. split; [done|left]. rewrite writes_app, Hpast, Hl. auto.
Qed.


(** ** When the mirror comes to rest *)

(** The two conditions say the same. *)
Definition same_content (c d : Condition) : bool := same_condition (Some c) d.

(** Conditions of one type do not contradict each other. *)
Definition consistent (cs : list Condition) : Prop :=
  ∀ c d, c ∈ cs → d ∈ cs → c_Type c = c_Type d → same_content c d = true.

Lemma same_condition_trans e c d :
  same_condition e c = true → same_content c d = true → same_condition e d = true.
Proof.
  destruct e as [e|]; [|done]. unfold same_content. simpl.
  rewrite !andb_true_iff, !bool_decide_eq_true. intros [[-> ->] ->] [[-> ->] ->]. done.
Qed.

Lemma same_condition_join e c d :
  same_condition e c = true → same_condition e d = true → same_content c d = true.
Proof.
  destruct e as [e|]; [|done]. unfold same_content. simpl.
  rewrite !andb_true_iff, !bool_decide_eq_true. intros [[-> ->] ->] [[-> ->] ->]. done.
Qed.

Lemma last_of_type_Some cs t c : last_of_type cs t = Some c → c ∈ cs ∧ c_Type c = t.
Proof.
  intros Hl. apply last_Some_elem_of in Hl. by apply list_elem_of_filter in Hl as [? ?].
Qed.

Lemma last_of_type_exists cs c : c ∈ cs → is_Some (last_of_type cs (c_Type c)).
Proof.
  intros Hc. unfold last_of_type. apply last_is_Some. intros Hnil.
  assert (c ∈ filter (λ d, c_Type d = c_Type c) cs) as Hin by by apply list_elem_of_filter.
  rewrite Hnil in Hin. by apply elem_of_nil in Hin.
Qed.

(** Nothing is written exactly when every condition is there already. *)
Lemma mirror_conditions_quiet cs normalized updated :
  (∀ c, c ∈ normalized → same_condition (findCondition cs (c_Type c)) c = true) →
  mirror_conditions cs normalized updated = mret (cs, updated).
Proof.
  intros Hall. induction normalized as [|c l IH]; simpl; [done|].
  rewrite Hall by (by left). apply IH. intros d Hd. apply Hall. by right.
Qed.

Lemma mirror_conditions_updated E cs normalized updated past :
  wp E (mirror_conditions cs normalized updated) past (λ x _,
    x.2 = false → ∀ c, c ∈ normalized → same_condition (findCondition cs (c_Type c)) c = true).
Proof.
  revert cs updated past. induction normalized as [|c l IH]; intros cs updated past; simpl.
  - intros _ c Hc. by apply elem_of_nil in Hc.
  - destruct (same_condition (findCondition cs (c_Type c)) c) eqn:Hsame.
    + eapply wp_mono; [done| |apply IH]. intros x tr Hx Hf d [->|Hd]%elem_of_cons; auto.
    + rewrite wp_bind. eapply wp_mono; [done| |apply setStatusCondition_wp].
      intros cs1 tr _. eapply wp_mono; [done| |apply mirror_conditions_wp].
      intros x tr' [_ Hu] Hf. by destruct (Hu Hf).
Qed.

Definition normalized_of (exposure : WorkloadExposure) : list Condition :=
  NormalizeConditions (west_Conditions (we_Status exposure)).

Lemma mirrored_quiet exposure workload :
  mirrored exposure workload workload → consistent (normalized_of exposure) →
  mirrorEndpoint workload exposure = (workload, false) ∧
  mirrorConditions workload exposure = mret (workload, false).
Proof.
  intros (_ & _ & _ & He & Hm) Hcons. split.
  { unfold mirrorEndpoint. by rewrite bool_decide_true. }
  unfold mirrorConditions. rewrite mirror_conditions_quiet.
  - by destruct workload as [? ? []].
  - intros c Hc. specialize (Hm (c_Type c)). fold (normalized_of exposure) in Hm, Hc.
    destruct (last_of_type_exists _ _ Hc) as [d Hd]. rewrite Hd in Hm.
    apply last_of_type_Some in Hd as [Hd Ht].
    eapply same_condition_trans; [exact Hm|]. by apply Hcons.
Qed.

Lemma contradiction_updates E exposure workload past :
  ¬ consistent (normalized_of exposure) →
  wp E (mirrorConditions workload exposure) past (λ y _, y.2 = true).
Proof.
  intros Hn. unfold mirrorConditions. rewrite wp_bind.
  eapply wp_mono; [done| |apply mirror_conditions_updated].
  intros [cs u] tr Hx. cbn [wp mret prog_ret fst snd] in *. destruct u; [done|].
  destruct Hn. intros c d Hc Hd Ht. specialize (Hx eq_refl).
  eapply same_condition_join; [by apply Hx|]. rewrite Ht. by apply Hx.
Qed.

(** A reconcile of the mirror on a workload that already mirrors the exposure
    writes nothing, as long as the normalised conditions of a type agree with each
    other.  When two of them do not, which happens because several runtime types are
    mapped to one, every reconcile patches the status again. *)
Theorem mirror_settles req exposure workload :
  accepts exposure workload = true →
  let E e := answers KWorkloadExposure req (Ok exposure) e ∧
             ∀ k, answers KWorkload k (Ok workload) e in
  (mirrored exposure workload workload → consistent (normalized_of exposure) →
   wp E (MirrorReconcile req) [] (λ _ tr, writes tr = [])) ∧
  (¬ consistent (normalized_of exposure) →
   wp E (MirrorReconcile req) [] (λ _ tr, writes tr ≠ [])).
Proof.
  intros Ha E.
  assert (∀ Q, (∀ past, writes past = [] →
      let '(new, eu) := mirrorEndpoint workload exposure in
      wp E (mirrorConditions new exposure) past (λ x tr, if eu || x.2
        then ∀ stored, wp E match (stored : res Workload) with
             | Err err => mret (Result_zero, Some err)
             | Ok new => mirror_event new;; mret (Result_zero, None)
             end (tr ++ [Ev (StatusPatch KWorkload workload x.1) stored]) Q
        else Q (Result_zero, None) tr)) →
    wp E (MirrorReconcile req) [] Q) as Hred.
  { intros Q HQ. unfold MirrorReconcile. rewrite wp_bind. intros got [Hgot _].
    rewrite (Hgot got eq_refl). cbn [wp]. rewrite wp_bind. intros got' [_ Hgot'].
    rewrite (Hgot' _ got' eq_refl). cbn [wp]. rewrite Ha. cbn [negb].
    specialize (HQ _ (eq_refl : writes ([Ev (Get KWorkloadExposure req) (Ok exposure)] ++
      [Ev (Get KWorkload (mirrored_workload exposure)) (Ok workload)]) = [])).
    destruct (mirrorEndpoint _ _) as [new eu]. rewrite wp_bind.
    eapply wp_mono; [| |exact HQ]; [done|]. intros [w cu] tr Hx. cbn [snd fst] in Hx.
    destruct (eu || cu); [|done]. rewrite wp_bind. intros stored _. apply Hx. }
  split.
  - intros Hm Hc. apply Hred. intros past Hp.
    destruct (mirrored_quiet _ _ Hm Hc) as [-> ->]. done.
  - intros Hn. apply Hred. intros past Hp.
    destruct (mirrorEndpoint _ _) as [new eu].
    eapply wp_mono; [done| |by apply contradiction_updates].
    intros [w cu] tr Hx. cbn [snd] in Hx. rewrite Hx, orb_true_r. intros stored.
    assert (∀ l, writes ((tr ++ [Ev (StatusPatch KWorkload workload w) stored]) ++ l) ≠ []) as Hw.
    { intros l. rewrite !writes_app. by destruct (writes tr). }
    destruct stored as [stored|err]; cbn [wp mret prog_ret].
    + unfold mirror_event. by destruct (wst_Endpoint _); intros [] _; apply Hw.
    + specialize (Hw []). by rewrite app_nil_r in Hw.
Qed.

Module MirrorDemo.
Definition condition (type : string) (st : ConditionStatus) (reason : string) : Condition :=
  {| c_Type := type; c_Status := st; c_ObservedGeneration := 0; c_LastTransitionTime := 5;
     c_Reason := reason; c_Message := "" |}.

Definition workload (st : WorkloadStatus) : Workload :=
  {| wl_ObjectMeta := {| ObjectMeta_zero with om_Name := "web"; om_Namespace := "prod";
                         om_UID := "u1"; om_Generation := 2 |};
     wl_Spec := {| ws_Profile := None; ws_Containers := ∅; ws_Service := None;
                   ws_Resources := ∅ |};
     wl_Status := st |}.

Definition fresh : Workload :=
  workload {| wst_Endpoint := None; wst_Conditions := []; wst_Claims := [] |}.

Definition exposure (cs : list Condition) : WorkloadExposure :=
  {| we_ObjectMeta := {| ObjectMeta_zero with om_Name := "web"; om_Namespace := "prod" |};
     we_Spec := {| wes_WorkloadRef := {| wer_Name := "web"; wer_Namespace := None;
                                         wer_UID := "u1" |};
                   wes_ObservedWorkloadGeneration := 2; wes_RuntimeClass := "kubernetes" |};
     we_Status := {| west_Exposures := [{| ee_Name := ""; ee_URL := "http://localhost:8080";
                       ee_Type := ""; ee_Ready := true; ee_Scope := ""; ee_SchemeHint := "";
                       ee_Reachable := None |}];
                     west_Conditions := cs |} |}.

Definition agreeing := [condition "Available" ConditionTrue "Running"].
Definition disagreeing :=
  [condition "Available" ConditionTrue "Running";
   condition "Progressing" ConditionFalse "RuntimeProvisioning"].

Definition settled : Workload :=
  workload {| wst_Endpoint := Some "http://localhost:8080";
              wst_Conditions := [condition "RuntimeReady" ConditionTrue "Succeeded"];
              wst_Claims := [] |}.

(** A server with one exposure and one workload, which keeps status patches. *)
Definition serve (cs : list Condition) (q : call) (s : Workload) : reply q * Workload :=
  match q return reply q * Workload with
  | Get KWorkloadExposure _ => (Ok (exposure cs), s)
  | Get KWorkload _ => (Ok s, s)
  | Get _ _ => (Err (EStatus NotFound "not found"), s)
  | ListByField _ _ _ | ListByLabel _ _ _ _ => (Ok [], s)
  | Create _ o | Update _ o | Patch _ _ o | StatusUpdate _ o => (Ok o, s)
  | StatusPatch K _ o =>
      match K return obj K → res (obj K) * Workload with
      | KWorkload => λ o, (Ok o, o)
      | _ => λ o, (Ok o, s)
      end o
  | Delete _ _ => (Ok tt, s)
  | Event _ _ _ _ => (tt, s)
  | Now => (7%Z, s)
  | RandRead _ => (None, s)
  end.
End MirrorDemo.

Example mirror_run :
  (run (MirrorDemo.serve MirrorDemo.agreeing) (MirrorReconcile ("prod", "web"))
     MirrorDemo.fresh).1.2 = MirrorDemo.settled.
Proof. vm_compute. reflexivity. Qed.

Lemma mirror_settles_witness :
  let E cs w e := answers KWorkloadExposure ("prod", "web") (Ok (MirrorDemo.exposure cs)) e ∧
                  ∀ k, answers KWorkload k (Ok w) e in
  wp (E MirrorDemo.agreeing MirrorDemo.settled) (MirrorReconcile ("prod", "web")) []
    (λ _ tr, writes tr = []) ∧
  wp (E MirrorDemo.disagreeing MirrorDemo.settled) (MirrorReconcile ("prod", "web")) []
    (λ _ tr, writes tr ≠ []).
Proof.
  split.
  - apply (mirror_settles _ (MirrorDemo.exposure MirrorDemo.agreeing) MirrorDemo.settled);
      [reflexivity| |].
    + split_and!; [reflexivity..|]. intros t.
      assert (normalized_of (MirrorDemo.exposure MirrorDemo.agreeing) =
              [MirrorDemo.condition "RuntimeReady" ConditionTrue "Succeeded"]) as Hn
        by (vm_compute; reflexivity).
      unfold normalized_of in Hn. rewrite Hn. unfold last_of_type. rewrite filter_cons.
      destruct (decide _) as [<-|Ht]; reflexivity.
    + assert (normalized_of (MirrorDemo.exposure MirrorDemo.agreeing) =
              [MirrorDemo.condition "RuntimeReady" ConditionTrue "Succeeded"]) as Hn
        by (vm_compute; reflexivity).
      intros c d. rewrite Hn. intros ->%list_elem_of_singleton ->%list_elem_of_singleton _. done.
  - apply (mirror_settles _ (MirrorDemo.exposure MirrorDemo.disagreeing) MirrorDemo.settled);
      [reflexivity|].
    intros Hc.
    assert (∃ c d, normalized_of (MirrorDemo.exposure MirrorDemo.disagreeing) = [c; d] ∧
      c_Type c = c_Type d ∧ same_content c d = false) as (c & d & Heq & Ht & Hs).
    { eexists _, _. split; [vm_compute; reflexivity|]. done. }
    assert (same_content c d = true) as Hs'; [|congruence].
    apply Hc; [| |exact Ht]; rewrite Heq; [by left|right; by left].
Defined.
