(* ===== verification/Registrar.v ===== *)
(** * Registrar: [internal/controller/workloadexposure_registrar_controller.go]

    Every workload gets one WorkloadExposure with its name, of which the registrar
    writes the specification only. *)
From S2P Require Import Prelude GoStrings Json K8s Api Client Mirror.

(** [metav1.NewControllerRef], for an owner and its API version and kind. *)
Class ControllerRefs := {
  NewControllerRef : ObjectMeta → string * string → OwnerReference;
}.

(** What it documents: a reference to the owner, as the controller. *)
Class ControllerRefsLaws `{ControllerRefs} : Prop := {
  NewControllerRef_spec owner gvk :
    or_UID (NewControllerRef owner gvk) = om_UID owner ∧
    or_Name (NewControllerRef owner gvk) = om_Name owner ∧
    or_Controller (NewControllerRef owner gvk) = Some true;
}.

Section registrar.
Context `{!ControllerRefs}.
(** The field [RuntimeClass] of the registrar. *)
Variable RuntimeClass : string.

Definition desired_exposure (wl : Workload) : WorkloadExposure :=
  {| we_ObjectMeta := {| ObjectMeta_zero with
       om_Name := om_Name (wl_ObjectMeta wl); om_Namespace := om_Namespace (wl_ObjectMeta wl);
       om_OwnerReferences := [NewControllerRef (wl_ObjectMeta wl) ("score.dev/v1b1", "Workload")] |};
     we_Spec := {| wes_WorkloadRef := {| wer_Name := om_Name (wl_ObjectMeta wl);
                                         wer_Namespace := Some (om_Namespace (wl_ObjectMeta wl));
                                         wer_UID := om_UID (wl_ObjectMeta wl) |};
                   wes_ObservedWorkloadGeneration := om_Generation (wl_ObjectMeta wl);
                   wes_RuntimeClass := RuntimeClass |};
     we_Status := {| west_Exposures := []; west_Conditions := [] |} |}.

Definition reason_if (differ : bool) (reason : string) : list string :=
  if differ then [reason] else [].

Definition getUpdateReason (current desired : WorkloadExposure) : string :=
  let c := we_Spec current in
  let d := we_Spec desired in
  let reasons :=
    reason_if (negb (wes_ObservedWorkloadGeneration c =? wes_ObservedWorkloadGeneration d)%Z)
      "generation" ++
    reason_if (negb (bool_decide (wes_RuntimeClass c = wes_RuntimeClass d))) "runtimeClass" ++
    reason_if (negb (bool_decide (wer_Name (wes_WorkloadRef c) = wer_Name (wes_WorkloadRef d))))
      "workloadRef.name" ++
    reason_if (negb (bool_decide (wer_UID (wes_WorkloadRef c) = wer_UID (wes_WorkloadRef d))))
      "workloadRef.uid" ++
    reason_if (negb (bool_decide (wer_Namespace (wes_WorkloadRef c) =
                                  wer_Namespace (wes_WorkloadRef d))))
      "workloadRef.namespace" in
  match reasons with
  | [] => ""
  | first :: rest =>
      "changed " +:+ first +:+
      (if 1 <? length reasons
       then " (and " +:+ FormatInt (Z.of_nat (length reasons) - 1) +:+ " more)" else "")
  end.

Definition registrar_event (wl : Workload) (reason message : string) : prog () :=
  ask (Event (meta_key (wl_ObjectMeta wl)) "Normal" reason message).

(** The new specification on the existing object. *)
Definition with_spec (we : WorkloadExposure) (spec : WorkloadExposureSpec) : WorkloadExposure :=
  {| we with we_Spec := spec |}.

(** [WorkloadExposureRegistrar.Reconcile] *)
Definition RegistrarReconcile (req : ObjectKey) : prog (Result * option goerror) :=
  got ← ask (Get KWorkload req);
  match (got : res Workload) with
  | Err err => mret (Result_zero, if IsNotFound err then None else Some err)
  | Ok wl =>
      if bool_decide (is_Some (om_DeletionTimestamp (wl_ObjectMeta wl)))
      then mret (Result_zero, None)
      else
        let desired := desired_exposure wl in
        got ← ask (Get KWorkloadExposure (meta_key (wl_ObjectMeta wl)));
        match (got : res WorkloadExposure) with
        | Err err =>
            if IsNotFound err then
              created ← ask (Create KWorkloadExposure desired);
              match (created : res WorkloadExposure) with
              | Err err => mret (Result_zero, Some err)
              | Ok desired =>
                  registrar_event wl "ExposureRegistered"
                    ("WorkloadExposure " +:+ om_Name (we_ObjectMeta desired) +:+
                     " created with runtimeClass=" +:+ RuntimeClass);;
                  mret (Result_zero, None)
              end
            else mret (Result_zero, Some err)
        | Ok we =>
            let updateReason := getUpdateReason we desired in
            if bool_decide (updateReason = "") then mret (Result_zero, None)
            else
              patched ← ask (Patch KWorkloadExposure we (with_spec we (we_Spec desired)));
              match (patched : res WorkloadExposure) with
              | Err err => mret (Result_zero, Some err)
              | Ok we =>
                  registrar_event wl "ExposureUpdated"
                    ("WorkloadExposure " +:+ om_Name (we_ObjectMeta we) +:+ " spec updated: " +:+
                     updateReason);;
                  mret (Result_zero, None)
              end
        end
  end.

(** ** Registration *)

Lemma reason_if_nil b s : reason_if b s = [] ↔ b = false.
Proof. by destruct b. Qed.

Lemma getUpdateReason_empty current desired :
  getUpdateReason current desired = "" ↔ we_Spec current = we_Spec desired.
Proof.
  unfold getUpdateReason. destruct current as [? [[cn cns cu] cg cr] ?],
    desired as [? [[dn dns du] dg dr] ?]. simpl. split.
  - match goal with |- match ?l with _ => _ end = _ → _ => destruct l eqn:Hl end; [|done].
    intros _. rewrite !app_nil, !reason_if_nil, !negb_false_iff, !bool_decide_eq_true,
      Z.eqb_eq in Hl. destruct Hl as (-> & -> & -> & -> & ->). done.
  - intros [= -> -> -> -> ->]. by rewrite Z.eqb_refl, !bool_decide_true.
Qed.

(** One reconcile, as a fact from which the theorems follow. *)
Lemma RegistrarReconcile_wp req rW rE :
  wp (λ e, answers KWorkload req rW e ∧ ∀ k, answers KWorkloadExposure k (rE k) e)
    (RegistrarReconcile req) [] (λ x tr, writes tr =
    match rW with
    | Err _ => []
    | Ok wl =>
        if bool_decide (is_Some (om_DeletionTimestamp (wl_ObjectMeta wl))) then []
        else match rE (meta_key (wl_ObjectMeta wl)) with
             | Err err => if IsNotFound err
                          then [Create KWorkloadExposure (desired_exposure wl)] else []
             | Ok we => if decide (we_Spec we = we_Spec (desired_exposure wl)) then []
                        else [Patch KWorkloadExposure we
                                (with_spec we (we_Spec (desired_exposure wl)))]
             end
    end).
Proof.
  unfold RegistrarReconcile. rewrite wp_bind. intros got [Hgot _]. rewrite (Hgot got eq_refl).
  destruct rW as [wl|err]; [|done]. cbn [wp]. case_bool_decide; [done|].
  rewrite wp_bind. intros got' [_ Hgot']. rewrite (Hgot' _ got' eq_refl).
  destruct (rE _) as [we|err]; cbn [wp].
  - case_bool_decide as Hr.
    + rewrite decide_True by by apply getUpdateReason_empty. done.
    + rewrite decide_False by by rewrite <- getUpdateReason_empty.
      rewrite wp_bind. intros [stored|err] _; [by intros [] _|done].
  - destruct (IsNotFound err); [|done].
    rewrite wp_bind. intros [stored|err'] _; [by intros [] _|done].
Qed.


(** An exposure with the desired specification is accepted for the UID of its workload
    and up to its generation. *)
Lemma accepts_desired wl we wl' :
  we_Spec we = we_Spec (desired_exposure wl) →
  accepts we wl' = true ↔
    (om_UID (wl_ObjectMeta wl) = "" ∨ om_UID (wl_ObjectMeta wl') = om_UID (wl_ObjectMeta wl)) ∧
    (om_Generation (wl_ObjectMeta wl') <= om_Generation (wl_ObjectMeta wl))%Z.
Proof.
  intros Hs. unfold accepts, GoURL.is_empty. rewrite Hs. simpl.
  by rewrite andb_true_iff, !negb_true_iff, Z.ltb_ge, andb_false_iff, !negb_false_iff,
    !bool_decide_eq_true.
Qed.

(** What the registrar writes is what the mirror asks for: an exposure with the
    desired specification refers to its workload, at its UID and its generation, so
    the mirror accepts it as long as neither changes, and it no longer does once the
    workload is recreated or has a new generation. *)
Theorem registered_accepted wl we :
  we_Spec we = we_Spec (desired_exposure wl) →
  mirrored_workload we = meta_key (wl_ObjectMeta wl) ∧
  accepts we wl = true ∧
  ∀ wl', accepts we wl' = true ↔
    (om_UID (wl_ObjectMeta wl) = "" ∨ om_UID (wl_ObjectMeta wl') = om_UID (wl_ObjectMeta wl)) ∧
    (om_Generation (wl_ObjectMeta wl') <= om_Generation (wl_ObjectMeta wl))%Z.
Proof.
  intros Hs. unfold mirrored_workload. rewrite Hs. split; [done|].
  split; [|intros wl'; by apply accepts_desired].
  apply (accepts_desired wl); [done|]. split; [by right|lia].
Qed.
End registrar.

Module RegistrarDemo.
#[local] Instance refs : ControllerRefs :=
  {| NewControllerRef owner gvk :=
       {| or_APIVersion := gvk.1; or_Kind := gvk.2; or_Name := om_Name owner;
          or_UID := om_UID owner; or_Controller := Some true;
          or_BlockOwnerDeletion := Some true |} |}.
#[local] Instance refs_laws : ControllerRefsLaws.
Proof. by split. Qed.
End RegistrarDemo.

#[local] Existing Instances RegistrarDemo.refs RegistrarDemo.refs_laws.


Lemma registered_accepted_witness :
  let wl := MirrorDemo.fresh in
  let we := desired_exposure "kubernetes" wl in
  we_Spec we = we_Spec (desired_exposure "kubernetes" wl) ∧ accepts we wl = true.
Proof.
  split; [reflexivity|].
  destruct (registered_accepted "kubernetes" MirrorDemo.fresh
    (desired_exposure "kubernetes" MirrorDemo.fresh) eq_refl) as (_ & Ha & _). exact Ha.
Defined.
