(* ===== verification/RuntimePlan.v ===== *)
(** * RuntimePlan: [runtimes/kubernetes/internal/controller/plan_controller.go]

    The Kubernetes runtime turns a plan into a Deployment and a Service and reports on
    the plan whether the Deployment is ready.

    Parameters, because their code is not in the repository: [ParseQuantity] of
    apimachinery (a quantity is kept as its text), [Scheme.Default], and
    [equality.Semantic.DeepEqual].  The text that Go's [%v] gives a JSON number, a
    [float64], is a parameter as well: the orchestrator only writes strings there. *)
From S2P Require Import Prelude GoStrings Json K8s Api Client Sort Placeholders.

Definition kubernetesRuntimeClass := "kubernetes".

Class Quantities := { ParseQuantity : string → res string }.
Class NumberText := { number_text : string → string }.

Class Defaulter := { SchemeDefault : ∀ {K : Kind}, obj K → obj K }.

(** [Default] fills fields that are not set: it leaves the metadata and the names of the
    containers alone. *)
Class DefaulterLaws `{Defaulter} : Prop := {
  SchemeDefault_meta K (o : obj K) : obj_meta (SchemeDefault o) = obj_meta o;
  SchemeDefault_names (d : Deployment) :
    ctr_Name <$> pts_Containers (dep_Template (SchemeDefault (K := KDeployment) d)) =
    ctr_Name <$> pts_Containers (dep_Template d);
}.

(** The fields of the [Spec] of a Deployment and of a Service. *)
Definition dep_spec (d : Deployment) : option Z * gmap string string * PodTemplateSpec :=
  (dep_Replicas d, dep_Selector d, dep_Template d).
Definition svc_spec (s : Service) :
    string * string * list K8sServicePort * gmap string string :=
  (svc_Type s, svc_ClusterIP s, svc_Ports s, svc_Selector s).

Class SemanticEqual := {
  deployment_spec_equal :
    option Z * gmap string string * PodTemplateSpec →
    option Z * gmap string string * PodTemplateSpec → bool;
  service_spec_equal :
    string * string * list K8sServicePort * gmap string string →
    string * string * list K8sServicePort * gmap string string → bool;
  string_map_equal : option (gmap string string) → option (gmap string string) → bool;
}.

(** It is an equality up to absent and empty slices and maps; the order of a list
    matters to it. *)
Class SemanticEqualLaws `{SemanticEqual} : Prop := {
  deployment_spec_refl s : deployment_spec_equal s s = true;
  deployment_spec_names d d' : deployment_spec_equal (dep_spec d) (dep_spec d') = true →
    ctr_Name <$> pts_Containers (dep_Template d) = ctr_Name <$> pts_Containers (dep_Template d');
  service_spec_refl s : service_spec_equal s s = true;
  string_map_spec m m' : string_map_equal m m' = true ↔ default ∅ m = default ∅ m';
}.

(** ** Building the objects *)

Section build.
Context `{!NumberText, !Quantities, !MapOrder}.

(** The [%v] of a value of [interface{}]; maps are printed in the order of the keys. *)
Fixpoint fmt_value (v : value) : string :=
  match v with
  | VNull => "<nil>"
  | VBool b => if b then "true" else "false"
  | VNum lit => number_text lit
  | VStr s => s
  | VArr l => "[" +:+ String.concat " " (fmt_value <$> l) +:+ "]"
  | VMap m => "map[" +:+ String.concat " " ((λ p, p.1 +:+ ":" +:+ p.2) <$>
                sort_slice (λ a b, str_ltb a.1 b.1) (map_to_list (fmt_value <$> m))) +:+ "]"
  | VTyped v => fmt_value v
  end.

(** The text of an environment variable: [nil] becomes the empty text. *)
Definition env_text (v : value) : string :=
  match v with VNull => "" | _ => fmt_value v end.

Definition extractResolvedEnv (resolvedValues : gmap string value) (containerName : string) :
    res (gmap string string) :=
  match resolvedValues !! "containers" with
  | None => Ok ∅
  | Some (VMap containersMap) =>
      match containersMap !! containerName with
      | None => Ok ∅
      | Some (VMap containerMap) =>
          match containerMap !! "env" with
          | None => Ok ∅
          | Some (VMap envMap) => Ok (env_text <$> envMap)
          | Some _ => Err (ENew ("env field for container " +:+ containerName +:+
                                 " is not a map"))
          end
      | Some _ => Err (ENew ("container " +:+ containerName +:+ " is not a map"))
      end
  | Some _ => Err (ENew "containers field is not a map")
  end.

(** [json.Unmarshal] into a [map[string]interface{}]. *)
Definition unmarshal_map (raw : RawJSON) : res (gmap string value) :=
  match Unmarshal raw with
  | Some (VMap m) => Ok m
  | Some VNull => Ok ∅
  | _ => Err (ENew "cannot unmarshal")
  end.

(** One variable per entry of the map, in the order of the visit. *)
Definition env_vars (env : gmap string string) : list EnvVar :=
  (λ p, {| env_Name := p.1; env_Value := p.2 |}) <$> visit env.

Definition container_env (plan : WorkloadPlan) (containerName : string)
    (containerSpec : ContainerSpec) : res (list EnvVar) :=
  match wps_ResolvedValues (wp_Spec plan) with
  | Some raw =>
      match unmarshal_map raw with
      | Err err => Err (EWrap "failed to unmarshal resolved values" err)
      | Ok resolvedValues =>
          match extractResolvedEnv resolvedValues containerName with
          | Err err => Err (EWrap "failed to extract resolved environment variables" err)
          | Ok resolvedEnv => Ok (env_vars resolvedEnv)
          end
      end
  | None => Ok match cs_Variables containerSpec with
               | Some variables => env_vars variables
               | None => []
               end
  end.

(** The quantities of a map, [what] for the error text. *)
Fixpoint parse_quantities (what : string) (l : list (string * string))
    (acc : gmap string string) : res (gmap string string) :=
  match l with
  | [] => Ok acc
  | (key, text) :: l =>
      match ParseQuantity text with
      | Err err => Err (EWrap ("invalid " +:+ what +:+ " " +:+ key +:+ " value " +:+ text) err)
      | Ok quantity => parse_quantities what l (<[key := quantity]> acc)
      end
  end.

Definition container_resources (containerSpec : ContainerSpec) : res (option ResourceList) :=
  match cs_Resources containerSpec with
  | None => Ok None
  | Some r =>
      match parse_quantities "request" (visit (rr_Requests r)) ∅ with
      | Err err => Err err
      | Ok requests =>
          match parse_quantities "limit" (visit (rr_Limits r)) ∅ with
          | Err err => Err err
          | Ok limits => Ok (Some {| rl_Requests := requests; rl_Limits := limits |})
          end
      end
  end.

Definition build_container (plan : WorkloadPlan) (containerName : string)
    (containerSpec : ContainerSpec) : res Container :=
  match container_env plan containerName containerSpec with
  | Err err => Err err
  | Ok env =>
      match container_resources containerSpec with
      | Err err => Err err
      | Ok resources =>
          Ok {| ctr_Name := containerName; ctr_Image := cs_Image containerSpec; ctr_Env := env;
                ctr_Ports := []; ctr_VolumeMounts := []; ctr_Resources := resources;
                ctr_ReadinessProbe := None; ctr_LivenessProbe := None;
                ctr_SecurityContext := None |}
      end
  end.

Fixpoint build_containers (plan : WorkloadPlan) (l : list (string * ContainerSpec)) :
    res (list Container) :=
  match l with
  | [] => Ok []
  | (name, spec) :: l =>
      match build_container plan name spec with
      | Err err => Err err
      | Ok container =>
          match build_containers plan l with
          | Err err => Err err
          | Ok containers => Ok (container :: containers)
          end
      end
  end.

Definition workload_name (plan : WorkloadPlan) : string := wpr_Name (wps_WorkloadRef (wp_Spec plan)).
Definition workload_namespace (plan : WorkloadPlan) : string :=
  wpr_Namespace (wps_WorkloadRef (wp_Spec plan)).

Definition runtime_labels (name : string) : gmap string string :=
  {["app.kubernetes.io/name" := name; "app.kubernetes.io/instance" := name;
    "app.kubernetes.io/managed-by" := "score-orchestrator"; "score.dev/workload" := name;
    "score.dev/runtime" := "kubernetes"]}.

Definition runtime_selector (name : string) : gmap string string :=
  {["app.kubernetes.io/name" := name; "app.kubernetes.io/instance" := name]}.

Definition generation_annotations (plan : WorkloadPlan) (workload : Workload) :
    gmap string string :=
  {["score.dev/workload-generation" := FormatInt (om_Generation (wl_ObjectMeta workload));
    "score.dev/plan-generation" := FormatInt (om_Generation (wp_ObjectMeta plan))]}.

Definition runtime_meta (plan : WorkloadPlan) (workload : Workload)
    (labels : gmap string string) : ObjectMeta :=
  {| ObjectMeta_zero with
     om_Name := workload_name plan; om_Namespace := workload_namespace plan;
     om_Labels := Some labels;
     om_Annotations := Some (generation_annotations plan workload) |}.

Definition buildDeployment (plan : WorkloadPlan) (workload : Workload) : res Deployment :=
  match build_containers plan (visit (ws_Containers (wl_Spec workload))) with
  | Err err => Err err
  | Ok containers =>
      let labels := runtime_labels (workload_name plan) in
      Ok {| dep_ObjectMeta := runtime_meta plan workload labels;
            dep_Replicas := Some 1%Z; dep_Selector := runtime_selector (workload_name plan);
            dep_Template := {| pts_Labels := labels; pts_SecurityContext := None;
                               pts_Containers := containers |};
            dep_StatusReplicas := 0; dep_StatusReadyReplicas := 0 |}
  end.

Definition service_port (i : nat) (port : ServicePort) : K8sServicePort :=
  {| ksp_Name := "port-" +:+ FormatInt (Z.of_nat i); ksp_Port := sp_Port port;
     ksp_TargetPort := default (sp_Port port) (sp_TargetPort port); ksp_NodePort := 0;
     ksp_Protocol := if bool_decide (sp_Protocol port = "") then "TCP" else sp_Protocol port |}.

(** Called only when the workload has a service. *)
Definition buildService (plan : WorkloadPlan) (workload : Workload) (service : ServiceSpec) :
    Service :=
  {| svc_ObjectMeta := runtime_meta plan workload
       (<["score.dev/exposure" := "true"]> (runtime_labels (workload_name plan)));
     svc_Type := "ClusterIP"; svc_ClusterIP := ""; svc_Ports := imap service_port (ss_Ports service);
     svc_Selector := runtime_selector (workload_name plan); svc_Ingress := [] |}.
End build.

(** ** Reconciling the objects *)

Definition owned_key (ownedPrefixes : list string) (key : string) : bool :=
  existsb (HasPrefix key) ownedPrefixes.

Definition mergeOwnedFields (existing desired : option (gmap string string))
    (ownedPrefixes : list string) : option (gmap string string) :=
  Some (default ∅ desired ∪
        filter (λ p, owned_key ownedPrefixes p.1 = false) (default ∅ existing)).

Definition merged_meta (existing desired : ObjectMeta) : ObjectMeta :=
  {| existing with
     om_Labels := mergeOwnedFields (om_Labels existing) (om_Labels desired)
                    ["score.dev/"; "app.kubernetes.io/"];
     om_Annotations := mergeOwnedFields (om_Annotations existing) (om_Annotations desired)
                         ["score.dev/"] |}.

Section reconcile.
Context `{!NumberText, !Quantities, !MapOrder, !Scheme, !Defaulter, !SemanticEqual}.

Definition meta_equal (a b : ObjectMeta) : bool :=
  string_map_equal (om_Labels a) (om_Labels b) &&
  string_map_equal (om_Annotations a) (om_Annotations b).

(** [Get], then [Create] when there is none, or [Patch] of what [merge] makes of the
    existing object unless [same] finds no difference. *)
Definition create_or_patch (K : Kind) (what : string) (desired : obj K)
    (merge : obj K → obj K) (same : obj K → obj K → bool) : prog (res ()) :=
  got ← ask (Get K (obj_key desired));
  match (got : res (obj K)) with
  | Err err =>
      if IsNotFound err then
        created ← ask (Create K desired);
        mret match (created : res (obj K)) with
             | Err err => Err (EWrap ("failed to create " +:+ what) err)
             | Ok _ => Ok ()
             end
      else mret (Err (EWrap ("failed to get " +:+ what) err))
  | Ok before =>
      let existing := merge before in
      if same before existing then mret (Ok ())
      else
        patched ← ask (Patch K before existing);
        mret match (patched : res (obj K)) with
             | Err err => Err (EWrap ("failed to update " +:+ what) err)
             | Ok _ => Ok ()
             end
  end.

Definition merge_deployment (desired existing : Deployment) : Deployment :=
  {| existing with
     dep_ObjectMeta := merged_meta (dep_ObjectMeta existing) (dep_ObjectMeta desired);
     dep_Replicas := dep_Replicas desired; dep_Selector := dep_Selector desired;
     dep_Template := dep_Template desired |}.

Definition same_deployment (before existing : Deployment) : bool :=
  deployment_spec_equal (dep_spec before) (dep_spec existing) &&
  meta_equal (dep_ObjectMeta before) (dep_ObjectMeta existing).

(** The plan becomes the controller of the object. *)
Definition plan_controls (plan : WorkloadPlan) (m : ObjectMeta) : res ObjectMeta :=
  res_wrap "failed to set controller reference"
    (SetControllerReference KWorkloadPlan (wp_ObjectMeta plan) m).

Definition desired_deployment (plan : WorkloadPlan) (workload : Workload) : res Deployment :=
  match buildDeployment plan workload with
  | Err err => Err (EWrap "failed to build deployment" err)
  | Ok deployment =>
      match plan_controls plan (dep_ObjectMeta deployment) with
      | Err err => Err err
      | Ok m => Ok (SchemeDefault (K := KDeployment) {| deployment with dep_ObjectMeta := m |})
      end
  end.

Definition reconcileDeployment (plan : WorkloadPlan) (workload : Workload) : prog (res ()) :=
  match desired_deployment plan workload with
  | Err err => mret (Err err)
  | Ok deployment =>
      create_or_patch KDeployment "deployment" deployment (merge_deployment deployment)
        same_deployment
  end.

(** The cluster address of the existing Service stays. *)
Definition merge_service (desired existing : Service) : Service :=
  {| existing with
     svc_ObjectMeta := merged_meta (svc_ObjectMeta existing) (svc_ObjectMeta desired);
     svc_Type := svc_Type desired; svc_Ports := svc_Ports desired;
     svc_Selector := svc_Selector desired |}.

Definition same_service (before existing : Service) : bool :=
  service_spec_equal (svc_spec before) (svc_spec existing) &&
  meta_equal (svc_ObjectMeta before) (svc_ObjectMeta existing).

Definition desired_service (plan : WorkloadPlan) (workload : Workload) (spec : ServiceSpec) :
    res Service :=
  let service := buildService plan workload spec in
  match plan_controls plan (svc_ObjectMeta service) with
  | Err err => Err err
  | Ok m => Ok (SchemeDefault (K := KService) {| service with svc_ObjectMeta := m |})
  end.

Definition reconcileService (plan : WorkloadPlan) (workload : Workload) : prog (res ()) :=
  match ws_Service (wl_Spec workload) with
  | None => mret (Ok ())
  | Some spec =>
      if bool_decide (ss_Ports spec = []) then mret (Ok ())
      else match desired_service plan workload spec with
           | Err err => mret (Err err)
           | Ok service =>
               create_or_patch KService "service" service (merge_service service) same_service
           end
  end.

Definition with_plan_status (plan : WorkloadPlan) (phase : WorkloadPlanPhase)
    (message : string) : WorkloadPlan :=
  {| plan with wp_Status := {| (wp_Status plan) with wpst_Phase := phase;
                               wpst_Message := message |} |}.

Definition deployment_ready (d : Deployment) : bool :=
  (0 <? dep_StatusReadyReplicas d)%Z && (dep_StatusReadyReplicas d =? dep_StatusReplicas d)%Z.

Definition runtime_key (plan : WorkloadPlan) : ObjectKey :=
  (workload_namespace plan, workload_name plan).

(** The plan comes back as stored. *)
Definition updateWorkloadPlanStatus (plan : WorkloadPlan) : prog (WorkloadPlan * res ()) :=
  got ← ask (Get KDeployment (runtime_key plan));
  let store plan :=
    stored ← ask (StatusUpdate KWorkloadPlan plan);
    mret match (stored : res WorkloadPlan) with
         | Err err => (plan, Err (EWrap "failed to update WorkloadPlan status" err))
         | Ok plan => (plan, Ok ())
         end in
  match (got : res Deployment) with
  | Err err =>
      if IsNotFound err
      then store (with_plan_status plan WorkloadPlanPhaseProvisioning
                    "Runtime deployment is being created")
      else mret (plan, Err (EWrap "failed to get deployment" err))
  | Ok deployment =>
      if deployment_ready deployment
      then store (with_plan_status plan WorkloadPlanPhaseReady "Runtime resources are ready")
      else store (with_plan_status plan WorkloadPlanPhaseProvisioning
                    "Runtime deployment is starting up")
  end.

Definition getWorkload (plan : WorkloadPlan) : prog (res Workload) :=
  got ← ask (Get KWorkload (runtime_key plan));
  mret match (got : res Workload) with
       | Err err => Err (EWrap ("failed to get workload " +:+ workload_namespace plan +:+ "/" +:+
                                workload_name plan) err)
       | Ok workload => Ok workload
       end.

Definition plan_event (plan : WorkloadPlan) (eventtype reason message : string) : prog () :=
  ask (Event (meta_key (wp_ObjectMeta plan)) eventtype reason message).

Definition a_minute : Result := {| res_Requeue := false; res_RequeueAfter := Minute |}.

(** A step that failed: an event, and another try in a minute. *)
Definition report (plan : WorkloadPlan) (reason : string) (err : goerror) :
    prog (Result * option goerror) :=
  plan_event plan "Warning" reason (Error err);;
  mret (a_minute, Some err).

(** [KubernetesRuntimePlanReconciler.Reconcile] *)
Definition ReconcilePlan (req : ObjectKey) : prog (Result * option goerror) :=
  got ← ask (Get KWorkloadPlan req);
  match (got : res WorkloadPlan) with
  | Err err => mret (Result_zero, IgnoreNotFound err)
  | Ok plan =>
      if negb (bool_decide (wps_RuntimeClass (wp_Spec plan) = kubernetesRuntimeClass))
      then mret (Result_zero, None)
      else
        workload ← getWorkload plan;
        match workload with
        | Err err =>
            plan_event plan "Warning" "WorkloadNotFound" (Error err);;
            mret (a_minute, None)
        | Ok workload =>
            deployed ← reconcileDeployment plan workload;
            match deployed with
            | Err err => report plan "DeploymentFailed" err
            | Ok _ =>
                served ← reconcileService plan workload;
                match served with
                | Err err => report plan "ServiceFailed" err
                | Ok _ =>
                    x ← updateWorkloadPlanStatus plan;
                    let '(plan, updated) := x in
                    match updated with
                    | Err err => report plan "StatusUpdateFailed" err
                    | Ok _ =>
                        plan_event plan "Normal" "ResourcesReconciled"
                          "Successfully reconciled Kubernetes resources";;
                        mret (Result_zero, None)
                    end
                end
            end
        end
  end.
End reconcile.

(** ** Fields owned by the runtime *)

Lemma map_get_default m k : map_get m k = (default ∅ m : gmap string string) !! k.
Proof. by destruct m; simpl. Qed.

Lemma merge_lookup existing desired prefixes k :
  map_get (mergeOwnedFields existing desired prefixes) k =
  match map_get desired k with
  | Some v => Some v
  | None => if owned_key prefixes k then None else map_get existing k
  end.
Proof.
  unfold mergeOwnedFields. rewrite !map_get_default. cbn [default from_option id].
  rewrite lookup_union, map_lookup_filter.
  destruct (default ∅ desired !! k) as [v|]; [by destruct (_ ≫= _)|]. rewrite (left_id_L None _).
  destruct (default ∅ existing !! k) as [w|]; simpl; [|by destruct (owned_key _ _)].
  destruct (owned_key prefixes k); by case_guard.
Qed.

Lemma merge_idem existing desired prefixes :
  mergeOwnedFields (mergeOwnedFields existing desired prefixes) desired prefixes =
  mergeOwnedFields existing desired prefixes.
Proof.
  assert (∀ k, map_get (mergeOwnedFields (mergeOwnedFields existing desired prefixes) desired
    prefixes) k = map_get (mergeOwnedFields existing desired prefixes) k) as Hk.
  { intros k. rewrite !merge_lookup. by destruct (map_get desired k), (owned_key prefixes k). }
  unfold mergeOwnedFields at 1 3. f_equal. apply map_eq. intros k.
  specialize (Hk k). unfold mergeOwnedFields at 1 in Hk. by rewrite !map_get_default in Hk.
Qed.

(** Merging keeps every foreign field of the existing map, replaces the owned ones
    by the desired ones, and adds the desired ones; merging again changes nothing. *)
Theorem mergeOwnedFields_correct existing desired prefixes :
  (∀ k, map_get (mergeOwnedFields existing desired prefixes) k =
        match map_get desired k with
        | Some v => Some v
        | None => if owned_key prefixes k then None else map_get existing k
        end) ∧
  mergeOwnedFields (mergeOwnedFields existing desired prefixes) desired prefixes =
  mergeOwnedFields existing desired prefixes.
Proof. split; [intros k; apply merge_lookup|apply merge_idem]. Qed.

(** ** The environment of the containers *)

Section env.
Context `{!NumberText, !Quantities, !MapOrder, !MapOrderLaws}.

(** The variables of a container, read as a map; names do not repeat. *)
Definition env_is (l : list EnvVar) (m : gmap string string) : Prop :=
  (λ e, (env_Name e, env_Value e)) <$> l ≡ₚ map_to_list m.

Lemma env_vars_is m : env_is (env_vars m) m.
Proof.
  unfold env_is, env_vars. rewrite <- list_fmap_compose.
  rewrite (list_fmap_ext _ id) by by intros ? [k v] _. rewrite list_fmap_id. apply visit_perm.
Qed.

(** The names of the containers and of their variables are text, as all strings are in
    an object that the API server sends (JSON). *)
Definition text_names (workload : Workload) : Prop :=
  ∀ c spec, ws_Containers (wl_Spec workload) !! c = Some spec → ValidString c = true ∧
    ∀ n, is_Some (default ∅ (cs_Variables spec) !! n) → ValidString n = true.

(** The environment of a container of a plan whose values were resolved from [out]. *)
Lemma container_env_resolved plan out c spec av v :
  wps_ResolvedValues (wp_Spec plan) = Some (Marshal (VMap {["containers" := VMap out]})) →
  (∀ c, is_Some (out !! c) → ValidString c = true) →
  (∀ n, is_Some (default ∅ (cs_Variables spec) !! n) → ValidString n = true) →
  out !! c = Some v → container_resolved av spec v →
  ∃ env m, container_env plan c spec = Ok env ∧ env_is env m ∧
    ∀ n, match default ∅ (cs_Variables spec) !! n with
         | Some raw => ∃ r, resolveValue raw av = Ok r ∧ m !! n = Some (coerce_utf8 r)
         | None => m !! n = None
         end.
Proof.
  intros Hr Hkeys Hnames Hc Hres. unfold container_env. rewrite Hr. unfold unmarshal_map.
  cbn [Unmarshal Marshal json_erase]. unfold extractResolvedEnv.
  rewrite json_keys_ascii, lookup_fmap, lookup_singleton_eq by done.
  cbn [fmap option_fmap option_map json_erase].
  rewrite json_keys_valid by by intros k; rewrite lookup_fmap, fmap_is_Some; apply Hkeys.
  rewrite lookup_fmap, Hc. cbn [fmap option_fmap option_map]. unfold container_resolved in Hres.
  destruct (cs_Variables spec) as [vars|].
  - destruct Hres as (env & -> & Henv). cbn [json_erase].
    rewrite json_keys_ascii, lookup_fmap, lookup_singleton_eq by done.
    cbn [fmap option_fmap option_map json_erase]. cbn [default from_option id] in *.
    assert (∀ n, is_Some (env !! n) → ValidString n = true) as Henvs.
    { intros n [x Hx]. apply Hnames. specialize (Henv n). destruct (vars !! n); [done|]. congruence. }
    rewrite json_keys_valid by by intros k; rewrite lookup_fmap, fmap_is_Some; apply Henvs.
    eexists _, _. split; [done|]. split; [apply env_vars_is|]. intros n.
    specialize (Henv n). rewrite !lookup_fmap. destruct (vars !! n) as [raw|].
    + destruct Henv as (r & Hraw & ->). eauto.
    + by rewrite Henv.
  - subst v. cbn [json_erase]. rewrite json_keys_ascii, lookup_fmap, lookup_empty by done.
    cbn [fmap option_fmap option_map].
    eexists _, _. split; [done|]. split; [apply env_vars_is|]. intros n. cbn.
    by rewrite !lookup_empty.
Qed.

Lemma build_containers_spec plan l cs :
  build_containers plan l = Ok cs →
  Forall2 (λ p c, build_container plan p.1 p.2 = Ok c) l cs.
Proof.
  revert cs. induction l as [|[name spec] l IH]; intros cs; simpl; [by intros [= <-]|].
  destruct (build_container _ _ _) eqn:Hb; [|done].
  destruct (build_containers _ _); [|done]. intros [= <-]. constructor; [done|]. by apply IH.
Qed.

Lemma build_container_spec plan name spec c :
  build_container plan name spec = Ok c →
  ctr_Name c = name ∧ ctr_Image c = cs_Image spec ∧ container_env plan name spec = Ok (ctr_Env c).
Proof.
  unfold build_container. destruct (container_env _ _ _); [|done].
  destruct (container_resources _); [|done]. by intros [= <-].
Qed.

(** A container of the Deployment is built from the container of its name. *)
Lemma built_container plan workload d c :
  buildDeployment plan workload = Ok d → c ∈ pts_Containers (dep_Template d) →
  ∃ spec, ws_Containers (wl_Spec workload) !! ctr_Name c = Some spec ∧
    ctr_Image c = cs_Image spec ∧ container_env plan (ctr_Name c) spec = Ok (ctr_Env c).
Proof.
  set (cm := ws_Containers (wl_Spec workload)). unfold buildDeployment. fold cm.
  destruct (build_containers _ _) as [cs|] eqn:Hb; [|done]. intros [= <-].
  cbn [dep_Template pts_Containers]. apply build_containers_spec in Hb.
  intros [i Hi]%list_elem_of_lookup_1.
  destruct (Forall2_lookup_r _ _ _ _ _ Hb Hi) as ([k s] & Hk & Hkc).
  apply build_container_spec in Hkc as (Hname & Himg & Henv). simpl in *. subst k.
  apply list_elem_of_lookup_2 in Hk. rewrite (visit_perm cm), elem_of_map_to_list in Hk.
  exists s. auto.
Qed.

(** The environment of a built container when the values were resolved from [av]. *)
Lemma built_env plan workload av out d c :
  resolve_containers (map_to_list (ws_Containers (wl_Spec workload))) av ∅ = Ok out →
  wps_ResolvedValues (wp_Spec plan) = Some (Marshal (VMap {["containers" := VMap out]})) →
  text_names workload → buildDeployment plan workload = Ok d →
  c ∈ pts_Containers (dep_Template d) →
  ∃ spec m, ws_Containers (wl_Spec workload) !! ctr_Name c = Some spec ∧
    ctr_Image c = cs_Image spec ∧ env_is (ctr_Env c) m ∧
    ∀ n, match default ∅ (cs_Variables spec) !! n with
         | Some raw => ∃ r, resolveValue raw av = Ok r ∧ m !! n = Some (coerce_utf8 r)
         | None => m !! n = None
         end.
Proof.
  intros Hout Hr Hnames Hd Hc. destruct (built_container _ _ _ _ Hd Hc) as (spec & Hspec & Himg & Henv).
  pose proof (resolve_containers_spec _ av ∅ (NoDup_fst_map_to_list
    (ws_Containers (wl_Spec workload)))) as Hs.
  rewrite Hout, list_to_map_to_list in Hs.
  assert (∀ k, is_Some (out !! k) → ValidString k = true) as Hkeys.
  { intros k Hk. specialize (Hs k). destruct (ws_Containers (wl_Spec workload) !! k) as [sp|] eqn:Hsp.
    - exact (proj1 (Hnames k sp Hsp)).
    - rewrite Hs, lookup_empty in Hk. by destruct Hk. }
  specialize (Hs (ctr_Name c)). rewrite Hspec in Hs. destruct Hs as (v & Hv & Hres).
  destruct (container_env_resolved plan out _ _ av v Hr Hkeys (proj2 (Hnames _ _ Hspec)) Hv Hres) as (env & m & Heq & Hm & Hall).
  rewrite Henv in Heq. injection Heq as <-. exists spec, m. auto.
Qed.

End env.

(** ** Reconciling *)

Section laws.
Context `{!NumberText, !Quantities, !MapOrder, !Scheme, !SchemeLaws, !Defaulter,
  !DefaulterLaws, !SemanticEqual, !SemanticEqualLaws}.

(** What a step writes: the desired object, or what becomes of the one that was read. *)
Definition upsert_call {K} (desired : obj K) (merge : obj K → obj K) (l : list event)
    (c : call) : Prop :=
  c = Create K desired ∨
  ∃ before, Ev (Get K (obj_key desired)) (Ok before) ∈ l ∧ c = Patch K before (merge before).

Lemma create_or_patch_wp E K what desired merge same past :
  wp E (create_or_patch K what desired merge same) past (λ _ tr, ∃ l, tr = past ++ l ∧
    ∀ e, e ∈ l → is_write (ev_call e) = true → upsert_call desired merge l (ev_call e)).
Proof.
  unfold create_or_patch. rewrite wp_bind. intros got _. cbn [wp].
  assert (∃ l, past ++ [Ev (Get K (obj_key desired)) got] = past ++ l ∧
    ∀ e, e ∈ l → is_write (ev_call e) = true → upsert_call desired merge l (ev_call e)) as Hread.
  { eexists. split; [done|]. by intros e ->%list_elem_of_singleton. }
  destruct got as [before|err].
  - destruct (same _ _); [done|]. rewrite wp_bind. intros r _. cbn [wp mret prog_ret].
    eexists. rewrite <- app_assoc. split; [done|].
    intros e [->|He]%elem_of_cons; [done|]. apply list_elem_of_singleton in He as ->. intros _.
    right. exists before. split; [by left|done].
  - destruct (IsNotFound err); [|done]. rewrite wp_bind. intros r _. cbn [wp mret prog_ret].
    eexists. rewrite <- app_assoc. split; [done|].
    intros e [->|He]%elem_of_cons; [done|]. apply list_elem_of_singleton in He as ->. by left.
Qed.

Lemma create_or_patch_answer K what desired merge same r :
  wp (answers K (obj_key desired) r) (create_or_patch K what desired merge same) []
    (λ _ tr, writes tr =
     match r with
     | Err err => if IsNotFound err then [Create K desired] else []
     | Ok before => if same before (merge before) then [] else [Patch K before (merge before)]
     end).
Proof.
  unfold create_or_patch. rewrite wp_bind. intros got Hgot. rewrite (Hgot got eq_refl). cbn [wp].
  destruct r as [before|err].
  - by destruct (same _ _).
  - by destruct (IsNotFound err).
Qed.

Lemma plan_controls_meta plan m m' :
  plan_controls plan m = Ok m' → ∃ refs, m' = {| m with om_OwnerReferences := refs |} ∧
    ∃ r, r ∈ refs ∧ or_UID r = om_UID (wp_ObjectMeta plan) ∧ or_Controller r = Some true.
Proof.
  unfold plan_controls. destruct (SetControllerReference _ _ _) as [x|] eqn:Hc; [|done].
  intros [= <-]. destruct (SetControllerReference_spec _ _ _ _ Hc) as (refs & -> & r & ? & ? & _ & ?).
  exists refs. split; [done|]. by exists r.
Qed.

(** The metadata of the objects of a plan. *)
Definition runtime_object (plan : WorkloadPlan) (m : ObjectMeta) : Prop :=
  meta_key m = runtime_key plan ∧
  (∀ k, map_get (Some (runtime_labels (workload_name plan))) k = None ∨
        map_get (om_Labels m) k = map_get (Some (runtime_labels (workload_name plan))) k) ∧
  ∃ r, r ∈ om_OwnerReferences m ∧ or_UID r = om_UID (wp_ObjectMeta plan) ∧
       or_Controller r = Some true.

Lemma desired_deployment_spec plan workload d :
  desired_deployment plan workload = Ok d →
  runtime_object plan (dep_ObjectMeta d) ∧ obj_key (K := KDeployment) d = runtime_key plan.
Proof.
  unfold desired_deployment. destruct (buildDeployment _ _) as [b|] eqn:Hb; [|done].
  destruct (plan_controls _ _) as [m|] eqn:Hc; [|done]. intros [= <-].
  unfold buildDeployment in Hb. destruct (build_containers _ _); [|done]. injection Hb as <-.
  apply plan_controls_meta in Hc as (refs & -> & Howner).
  pose proof (SchemeDefault_meta KDeployment) as Hd. cbn in Hd.
  unfold runtime_object, obj_key, obj_meta. rewrite Hd. cbn [dep_ObjectMeta].
  split; [|done]. split; [done|]. split; [by right|done].
Qed.

Lemma desired_service_spec plan workload spec s :
  desired_service plan workload spec = Ok s →
  runtime_object plan (svc_ObjectMeta s) ∧ obj_key (K := KService) s = runtime_key plan.
Proof.
  unfold desired_service. destruct (plan_controls _ _) as [m|] eqn:Hc; [|done]. intros [= <-].
  apply plan_controls_meta in Hc as (refs & -> & Howner).
  pose proof (SchemeDefault_meta KService) as Hd. cbn in Hd.
  unfold runtime_object, obj_key, obj_meta. rewrite Hd. cbn [svc_ObjectMeta].
  split; [|done]. split; [done|]. split; [|done].
  intros k. cbn. destruct (decide (k = "score.dev/exposure")) as [->|Hk]; [by left|].
  right. by rewrite lookup_insert_ne.
Qed.

(** [after] has the desired fields; of the others it has no field under the prefixes, and
    exactly those of [before] under no prefix. *)
Definition owned_fields (prefixes : list string)
    (desired before after : option (gmap string string)) : Prop :=
  ∀ k, match map_get desired k with
       | Some v => map_get after k = Some v
       | None =>
           ((∃ p r, p ∈ prefixes ∧ k = p +:+ r) → map_get after k = None) ∧
           ((∀ p r, p ∈ prefixes → k ≠ p +:+ r) → map_get after k = map_get before k)
       end.

Lemma owned_key_iff prefixes k :
  owned_key prefixes k = true ↔ ∃ p r, p ∈ prefixes ∧ k = p +:+ r.
Proof.
  unfold owned_key. rewrite existsb_exists. setoid_rewrite <- list_elem_of_In.
  unfold HasPrefix. setoid_rewrite prefix_iff. naive_solver.
Qed.

Lemma merge_owned prefixes desired before :
  owned_fields prefixes desired before (mergeOwnedFields before desired prefixes).
Proof.
  intros k. rewrite merge_lookup. destruct (map_get desired k) as [v|]; [done|].
  destruct (owned_key prefixes k) eqn:Ho.
  - apply owned_key_iff in Ho as (p & r & Hp & ->). split; [done|]. intros Hno. by destruct (Hno p r).
  - split; [|done]. intros Hex%owned_key_iff. congruence.
Qed.

(** There is no such field but those of the merge. *)
Lemma owned_fields_iff prefixes desired before after :
  owned_fields prefixes desired before after ↔
  default ∅ after = default ∅ (mergeOwnedFields before desired prefixes).
Proof.
  split.
  - intros Ha. apply map_eq. intros k. rewrite <- !map_get_default.
    specialize (Ha k). rewrite merge_lookup. destruct (map_get desired k) as [v|]; [done|].
    destruct Ha as [Ha1 Ha2]. destruct (owned_key prefixes k) eqn:Ho.
    + by apply Ha1, owned_key_iff.
    + apply Ha2. intros p r Hp ->. apply not_true_iff_false in Ho. apply Ho, owned_key_iff. eauto.
  - intros Heq k. pose proof (merge_owned prefixes desired before k) as Hm.
    assert (map_get after k = map_get (mergeOwnedFields before desired prefixes) k) as ->; [|done].
    by rewrite !map_get_default, Heq.
Qed.

(** The Deployment [before] needs no patch: its specification is equal to the desired one
    up to absent and empty fields, and so are its labels and annotations. *)
Definition agrees (d before : Deployment) : Prop :=
  deployment_spec_equal (dep_spec before) (dep_spec d) = true ∧
  owned_fields ["score.dev/"; "app.kubernetes.io/"] (om_Labels (dep_ObjectMeta d))
    (om_Labels (dep_ObjectMeta before)) (om_Labels (dep_ObjectMeta before)) ∧
  owned_fields ["score.dev/"] (om_Annotations (dep_ObjectMeta d))
    (om_Annotations (dep_ObjectMeta before)) (om_Annotations (dep_ObjectMeta before)).

(** [after] is [before] with the desired specification, labels and annotations. *)
Definition brought_to (d before after : Deployment) : Prop :=
  dep_spec after = dep_spec d ∧
  owned_fields ["score.dev/"; "app.kubernetes.io/"] (om_Labels (dep_ObjectMeta d))
    (om_Labels (dep_ObjectMeta before)) (om_Labels (dep_ObjectMeta after)) ∧
  owned_fields ["score.dev/"] (om_Annotations (dep_ObjectMeta d))
    (om_Annotations (dep_ObjectMeta before)) (om_Annotations (dep_ObjectMeta after)) ∧
  (∃ ls ans, dep_ObjectMeta after =
    {| (dep_ObjectMeta before) with om_Labels := ls; om_Annotations := ans |}) ∧
  dep_StatusReplicas after = dep_StatusReplicas before ∧
  dep_StatusReadyReplicas after = dep_StatusReadyReplicas before.

Lemma same_deployment_iff d before :
  same_deployment before (merge_deployment d before) = true ↔ agrees d before.
Proof.
  unfold same_deployment, meta_equal, agrees.
  rewrite !andb_true_iff, !string_map_spec, !owned_fields_iff. done.
Qed.

Lemma merge_brought d before : brought_to d before (merge_deployment d before).
Proof.
  split; [done|]. split; [apply merge_owned|]. split; [apply merge_owned|].
  split; [by eexists _, _|done].
Qed.

(** The desired Deployment before defaults: one replica, the labels of the runtime on it and
    on its pods, the generations as annotations, and a container with the image per
    container of the workload. *)
Definition described_deployment (plan : WorkloadPlan) (workload : Workload) (d : Deployment) : Prop :=
  let name := wpr_Name (wps_WorkloadRef (wp_Spec plan)) in
  let labels : gmap string string :=
    {["app.kubernetes.io/name" := name; "app.kubernetes.io/instance" := name;
      "app.kubernetes.io/managed-by" := "score-orchestrator"; "score.dev/workload" := name;
      "score.dev/runtime" := "kubernetes"]} in
  om_Labels (dep_ObjectMeta d) = Some labels ∧
  om_Annotations (dep_ObjectMeta d) = Some
    {["score.dev/workload-generation" := FormatInt (om_Generation (wl_ObjectMeta workload));
      "score.dev/plan-generation" := FormatInt (om_Generation (wp_ObjectMeta plan))]} ∧
  dep_Replicas d = Some 1%Z ∧
  dep_Selector d = {["app.kubernetes.io/name" := name; "app.kubernetes.io/instance" := name]} ∧
  pts_Labels (dep_Template d) = labels ∧
  (λ c, (ctr_Name c, ctr_Image c)) <$> pts_Containers (dep_Template d) ≡ₚ
    prod_map id cs_Image <$> map_to_list (ws_Containers (wl_Spec workload)).

Lemma desired_described `{!MapOrderLaws} plan workload d :
  desired_deployment plan workload = Ok d →
  ∃ d0, d = SchemeDefault (K := KDeployment) d0 ∧ described_deployment plan workload d0.
Proof.
  unfold desired_deployment, buildDeployment.
  destruct (build_containers _ _) as [cs|] eqn:Hb; [|done].
  destruct (plan_controls _ _) as [m|] eqn:Hc; [|done]. intros [= <-].
  apply plan_controls_meta in Hc as (refs & -> & _). eexists. split; [done|].
  unfold described_deployment. do 5 (split; [done|]). cbn [dep_Template pts_Containers].
  apply build_containers_spec in Hb. set (cm := ws_Containers (wl_Spec workload)) in *.
  rewrite <- (visit_perm cm). apply reflexive_eq.
  induction Hb as [|[k s] c l cs Hc _ IH]; [done|]. cbn.
  apply build_container_spec in Hc as (-> & -> & _). by rewrite IH.
Qed.


(** *** The status of the plan *)

(** Some replica is ready, and as many as there are. *)
Definition all_replicas_ready (d : Deployment) : Prop :=
  (0 < dep_StatusReadyReplicas d)%Z ∧ dep_StatusReadyReplicas d = dep_StatusReplicas d.

Lemma deployment_ready_iff d : deployment_ready d = true ↔ all_replicas_ready d.
Proof. unfold deployment_ready, all_replicas_ready. by rewrite andb_true_iff, Z.ltb_lt, Z.eqb_eq. Qed.

(** A status of the plan: the specification and the metadata are those read, and Ready
    is only reported when the Deployment was read as ready. *)
Definition plan_status_call (plan : WorkloadPlan) (l : list event) (c : call) : Prop :=
  ∃ written, c = StatusUpdate KWorkloadPlan written ∧
    wp_ObjectMeta written = wp_ObjectMeta plan ∧ wp_Spec written = wp_Spec plan ∧
    (wpst_Phase (wp_Status written) = WorkloadPlanPhaseProvisioning ∨
     wpst_Phase (wp_Status written) = WorkloadPlanPhaseReady ∧
     ∃ d, Ev (Get KDeployment (runtime_key plan)) (Ok d) ∈ l ∧ all_replicas_ready d).

Lemma updateWorkloadPlanStatus_wp E plan past :
  wp E (updateWorkloadPlanStatus plan) past (λ _ tr, ∃ l, tr = past ++ l ∧
    ∀ e, e ∈ l → is_write (ev_call e) = true → plan_status_call plan l (ev_call e)).
Proof.
  unfold updateWorkloadPlanStatus. rewrite wp_bind. intros got _. cbn [wp].
  assert (∀ phase message,
    (phase = WorkloadPlanPhaseProvisioning ∨ phase = WorkloadPlanPhaseReady ∧
       ∃ d, got = Ok d ∧ all_replicas_ready d) →
    wp E (stored ← ask (StatusUpdate KWorkloadPlan (with_plan_status plan phase message));
          mret match (stored : res WorkloadPlan) with
               | Err err => (with_plan_status plan phase message,
                             Err (EWrap "failed to update WorkloadPlan status" err))
               | Ok plan => (plan, Ok ())
               end) (past ++ [Ev (Get KDeployment (runtime_key plan)) got])
      (λ _ tr, ∃ l, tr = past ++ l ∧
         ∀ e, e ∈ l → is_write (ev_call e) = true → plan_status_call plan l (ev_call e))) as Hstore.
  { intros phase message Hp. rewrite wp_bind. intros stored _. cbn [wp mret prog_ret].
    eexists. rewrite <- app_assoc. split; [done|].
    intros e [->|He]%elem_of_cons; [done|]. apply list_elem_of_singleton in He as ->. intros _.
    eexists. split; [done|]. split; [done|]. split; [done|].
    destruct Hp as [->|[-> (d & -> & Hd)]]; [by left|right]. split; [done|].
    exists d. split; [by left|done]. }
  destruct got as [d|err].
  - pose proof (deployment_ready_iff d) as Hd.
    destruct (deployment_ready d); apply Hstore; [|by left]. right. split; [done|].
    exists d. split; [done|]. by apply Hd.
  - destruct (IsNotFound err); [apply Hstore; by left|].
    cbn [wp mret prog_ret]. eexists. split; [done|]. by intros e ->%list_elem_of_singleton.
Qed.

(** *** The whole reconcile *)

(** What a patch makes of the metadata of an object that was read: labels and annotations
    change, the labels of the runtime are there, and the owners are those it had. *)
Definition patched_meta (plan : WorkloadPlan) (before after : ObjectMeta) : Prop :=
  (∃ ls ans, after = {| before with om_Labels := ls; om_Annotations := ans |}) ∧
  ∀ k v, map_get (Some (runtime_labels (workload_name plan))) k = Some v →
         map_get (om_Labels after) k = Some v.

(** The writes for a plan: an object of the plan is created, or what was read under its key
    is patched, or the status of the plan is stored. *)
Inductive plan_write (plan : WorkloadPlan) (l : list event) (c : call) : Prop :=
| create_deployment d :
    c = Create KDeployment d → runtime_object plan (dep_ObjectMeta d) → plan_write plan l c
| patch_deployment before after :
    c = Patch KDeployment before after → Ev (Get KDeployment (runtime_key plan)) (Ok before) ∈ l →
    patched_meta plan (dep_ObjectMeta before) (dep_ObjectMeta after) → plan_write plan l c
| create_service s :
    c = Create KService s → runtime_object plan (svc_ObjectMeta s) → plan_write plan l c
| patch_service before after :
    c = Patch KService before after → Ev (Get KService (runtime_key plan)) (Ok before) ∈ l →
    patched_meta plan (svc_ObjectMeta before) (svc_ObjectMeta after) → plan_write plan l c
| write_plan_status : plan_status_call plan l c → plan_write plan l c.

Lemma merged_meta_patched plan before desired :
  runtime_object plan desired → patched_meta plan before (merged_meta before desired).
Proof.
  intros (_ & Hl & _). split; [by eexists _, _|]. intros k v Hk.
  cbn [merged_meta om_Labels]. rewrite merge_lookup.
  destruct (Hl k) as [Hnone|Heq]; [congruence|]. by rewrite Heq, Hk.
Qed.

Lemma deployment_write plan d l c :
  runtime_object plan (dep_ObjectMeta d) → obj_key (K := KDeployment) d = runtime_key plan →
  upsert_call (K := KDeployment) d (merge_deployment d) l c → plan_write plan l c.
Proof.
  intros Ho Hk [->|(b & Hb & ->)]; [by eapply create_deployment|]. rewrite Hk in Hb.
  eapply patch_deployment; [done..|]. by apply merged_meta_patched.
Qed.

Lemma service_write plan s l c :
  runtime_object plan (svc_ObjectMeta s) → obj_key (K := KService) s = runtime_key plan →
  upsert_call (K := KService) s (merge_service s) l c → plan_write plan l c.
Proof.
  intros Ho Hk [->|(b & Hb & ->)]; [by eapply create_service|]. rewrite Hk in Hb.
  eapply patch_service; [done..|]. by apply merged_meta_patched.
Qed.

Lemma plan_write_mono plan l l' c :
  (∀ e, e ∈ l → e ∈ l') → plan_write plan l c → plan_write plan l' c.
Proof.
  intros Hl [d|before after|s|before after|(w & ? & ? & ? & Hw)];
    [by eapply create_deployment|eapply patch_deployment; eauto|by eapply create_service
    |eapply patch_service; eauto|].
  apply write_plan_status. exists w. split_and!; [done..|].
  destruct Hw as [?|[? (d & Hd & ?)]]; [by left|right]. eauto 6.
Qed.

(** The calls of a step only write what the plan allows. *)
Definition step_ok (plan : WorkloadPlan) (past tr : list event) : Prop :=
  ∃ l, tr = past ++ l ∧ ∀ e, e ∈ l → is_write (ev_call e) = true → plan_write plan l (ev_call e).

Lemma step_ok_trans plan a b c : step_ok plan a b → step_ok plan b c → step_ok plan a c.
Proof.
  intros (l1 & -> & Hl1) (l2 & -> & Hl2). exists (l1 ++ l2). rewrite app_assoc. split; [done|].
  intros e [He|He]%elem_of_app Hw; [eapply plan_write_mono, Hl1|eapply plan_write_mono, Hl2];
    try done; intros e'; rewrite elem_of_app; auto.
Qed.

Lemma step_ok_read plan past e : is_write (ev_call e) = false → step_ok plan past (past ++ [e]).
Proof.
  intros He. exists [e]. split; [done|]. intros e' ->%list_elem_of_singleton. by rewrite He.
Qed.

Lemma step_ok_refl plan past : step_ok plan past past.
Proof. exists []. rewrite app_nil_r. split; [done|]. by intros e ?%elem_of_nil. Qed.

Lemma reconcileDeployment_step E plan workload past :
  wp E (reconcileDeployment plan workload) past (λ _ tr, step_ok plan past tr).
Proof.
  unfold reconcileDeployment. destruct (desired_deployment _ _) as [d|] eqn:Hd; [|apply step_ok_refl].
  apply desired_deployment_spec in Hd as [Ho Hk].
  eapply wp_mono; [done| |apply create_or_patch_wp]. intros r tr (l & -> & Hl).
  exists l. split; [done|]. intros e He Hw. by eapply deployment_write, Hl.
Qed.

Lemma reconcileService_step E plan workload past :
  wp E (reconcileService plan workload) past (λ _ tr, step_ok plan past tr).
Proof.
  unfold reconcileService. destruct (ws_Service _) as [spec|]; [|apply step_ok_refl].
  case_bool_decide; [apply step_ok_refl|].
  destruct (desired_service _ _ _) as [s|] eqn:Hs; [|apply step_ok_refl].
  apply desired_service_spec in Hs as [Ho Hk].
  eapply wp_mono; [done| |apply create_or_patch_wp]. intros r tr (l & -> & Hl).
  exists l. split; [done|]. intros e He Hw. by eapply service_write, Hl.
Qed.

Lemma updateStatus_step E plan past :
  wp E (updateWorkloadPlanStatus plan) past (λ _ tr, step_ok plan past tr).
Proof.
  eapply wp_mono; [done| |apply updateWorkloadPlanStatus_wp]. intros r tr (l & -> & Hl).
  exists l. split; [done|]. intros e He Hw. by apply write_plan_status, Hl.
Qed.

Lemma report_step E plan plan' reason err past :
  wp E (report plan reason err) past (λ _ tr, step_ok plan' past tr).
Proof. unfold report, plan_event. rewrite wp_bind. intros [] _. by apply step_ok_read. Qed.

(** The work of the reconcile, once the plan is read. *)
Lemma ReconcilePlan_wp E req :
  wp E (ReconcilePlan req) [] (λ _ tr, ∃ got l, tr = Ev (Get KWorkloadPlan req) got :: l ∧
    match got with
    | Ok plan => if bool_decide (wps_RuntimeClass (wp_Spec plan) = kubernetesRuntimeClass)
                 then step_ok plan [Ev (Get KWorkloadPlan req) got] tr else l = []
    | Err _ => l = []
    end).
Proof.
  unfold ReconcilePlan. rewrite wp_bind. intros got _. cbn [wp app].
  destruct got as [plan|err]; [|by eexists _, []].
  case_bool_decide as Hrc; cbn [negb];
    [|exists (Ok plan), []; split; [done|]; by rewrite bool_decide_false].
  set (past := [_]). eapply (wp_mono _ _ _ _ (λ _ tr, step_ok plan past tr)); [done| |].
  { intros x tr Hs. pose proof Hs as (l & -> & _). exists (Ok plan), l. split; [done|].
    by rewrite bool_decide_true. }
  clearbody past. rewrite wp_bind. unfold getWorkload. rewrite wp_bind. intros gotw _. cbn [wp mret prog_ret].
  set (past1 := past ++ _). assert (step_ok plan past past1) as Hs1 by by apply step_ok_read.
  clearbody past1. destruct gotw as [workload|err].
  2:{ unfold plan_event. rewrite wp_bind. intros [] _. cbn [wp mret prog_ret].
      eapply step_ok_trans; [exact Hs1|]. by apply step_ok_read. }
  rewrite wp_bind. eapply wp_mono; [done| |apply reconcileDeployment_step].
  intros deployed tr2 Hs2. pose proof (step_ok_trans _ _ _ _ Hs1 Hs2) as Hs12.
  destruct deployed as [[]|err].
  2:{ eapply wp_mono; [done| |apply (report_step E plan plan)]. eauto using step_ok_trans. }
  rewrite wp_bind. eapply wp_mono; [done| |apply reconcileService_step].
  intros served tr3 Hs3. pose proof (step_ok_trans _ _ _ _ Hs12 Hs3) as Hs13.
  destruct served as [[]|err].
  2:{ eapply wp_mono; [done| |apply (report_step E plan plan)]. eauto using step_ok_trans. }
  rewrite wp_bind. eapply wp_mono; [done| |apply updateStatus_step].
  intros [plan' updated] tr4 Hs4. pose proof (step_ok_trans _ _ _ _ Hs13 Hs4) as Hs14.
  destruct updated as [[]|err].
  - unfold plan_event. rewrite wp_bind. intros [] _. cbn [wp mret prog_ret].
    eapply step_ok_trans; [exact Hs14|]. by apply step_ok_read.
  - eapply wp_mono; [done| |apply (report_step E plan' plan)]. eauto using step_ok_trans.
Qed.

(** C10: Whatever the server answers, a reconcile of the runtime does not panic and writes
    only for a plan of the runtime class kubernetes that it has read.  It creates only a
    Deployment and a Service with the name and the namespace of the workload and the
    labels of the runtime, which the plan controls; it patches only a Deployment and a
    Service that it read under that name, and changes nothing of their metadata but
    labels and annotations, so that one that somebody else made keeps its owners; and it
    stores the status of the plan.  The status Ready is only reported after a
    Deployment was read of which some replica is ready and every replica is. *)
Theorem runtime_writes_safe req :
  wp any (ReconcilePlan req) [] (λ _ tr, ∀ e, e ∈ tr → is_write (ev_call e) = true →
    ∃ plan, Ev (Get KWorkloadPlan req) (Ok plan) ∈ tr ∧
      wps_RuntimeClass (wp_Spec plan) = kubernetesRuntimeClass ∧ plan_write plan tr (ev_call e)).
Proof.
  eapply wp_mono; [done| |apply (ReconcilePlan_wp any)]. intros x tr (got & l & -> & Hl) e He Hw.
  destruct got as [plan|err].
  2:{ subst l. apply list_elem_of_singleton in He as ->. done. }
  case_bool_decide as Hrc; [|subst l; by apply list_elem_of_singleton in He as ->].
  destruct Hl as (l' & Heq & Hall). cbn [app] in Heq. injection Heq as ->.
  apply elem_of_cons in He as [->|He]; [done|].
  exists plan. split; [by left|]. split; [done|].
  eapply plan_write_mono; [|by apply Hall]. intros e' ?. by right.
Qed.

(** A call that deletes nothing. *)
Definition no_delete (c : call) : Prop := match c with Delete _ _ => False | _ => True end.

Lemma create_or_patch_calls K what desired merge same :
  every_call no_delete (create_or_patch K what desired merge same).
Proof. unfold create_or_patch. by calls. Qed.

Lemma ReconcilePlan_calls req : every_call no_delete (ReconcilePlan req).
Proof.
  unfold ReconcilePlan, getWorkload, reconcileDeployment, reconcileService,
    updateWorkloadPlanStatus, report, plan_event.
  calls; try done; apply create_or_patch_calls.
Qed.

(** The runtime deletes nothing: for a workload whose service or service ports are
    gone, the step of the Service makes no call at all, whatever Service there is. *)
Theorem service_never_removed req plan workload :
  every_call no_delete (ReconcilePlan req) ∧
  ((∀ spec, ws_Service (wl_Spec workload) = Some spec → ss_Ports spec = []) →
   reconcileService plan workload = mret (Ok ())).
Proof.
  split; [apply ReconcilePlan_calls|]. intros Hnone. unfold reconcileService.
  destruct (ws_Service _) as [spec|]; [|done]. by rewrite bool_decide_true by by apply Hnone.
Qed.
End laws.

(** ** The order of the map

    Go visits the containers and the variables in an order that differs from one visit
    to the next. *)
Section order.
Context `{!NumberText, !Quantities, !Scheme, !SchemeLaws, !Defaulter, !DefaulterLaws,
  !SemanticEqual, !SemanticEqualLaws}.

Lemma desired_deployment_names `{!MapOrder} plan workload d :
  desired_deployment plan workload = Ok d →
  ctr_Name <$> pts_Containers (dep_Template d) = (visit (ws_Containers (wl_Spec workload))).*1.
Proof.
  unfold desired_deployment, buildDeployment.
  destruct (build_containers _ _) as [cs|] eqn:Hb; [|done].
  destruct (plan_controls _ _) as [m|]; [|done]. intros [= <-].
  rewrite SchemeDefault_names. cbn [dep_Template pts_Containers].
  apply build_containers_spec in Hb. induction Hb as [|[k s] c l cs Hc _ IH]; [done|].
  apply build_container_spec in Hc as (Hn & _). cbn. by rewrite Hn, IH.
Qed.

(** Reconciling again, with the very plan and workload the Deployment was built
    from, patches the Deployment, and its pods are replaced, whenever Go visits the
    containers in another order: both have the same containers, in a different
    order. *)
Theorem order_restarts_pods (o1 o2 : MapOrder) (L1 : @MapOrderLaws o1) (L2 : @MapOrderLaws o2)
    plan workload d1 d2 :
  @desired_deployment _ _ o1 _ _ plan workload = Ok d1 →
  @desired_deployment _ _ o2 _ _ plan workload = Ok d2 →
  (@visit o1 _ (ws_Containers (wl_Spec workload))).*1 ≠
  (@visit o2 _ (ws_Containers (wl_Spec workload))).*1 →
  wp (answers KDeployment (runtime_key plan) (Ok d1))
    (@reconcileDeployment _ _ o2 _ _ _ plan workload) [] (λ _ tr,
    writes tr = [Patch KDeployment d1 (merge_deployment d2 d1)]) ∧
  dep_Template (merge_deployment d2 d1) ≠ dep_Template d1 ∧
  ctr_Name <$> pts_Containers (dep_Template d1) ≡ₚ ctr_Name <$> pts_Containers (dep_Template d2).
Proof.
  intros Hd1 Hd2 Hne.
  pose proof (@desired_deployment_names o1 _ _ _ Hd1) as Hn1.
  pose proof (@desired_deployment_names o2 _ _ _ Hd2) as Hn2.
  assert (same_deployment d1 (merge_deployment d2 d1) = false) as Hs.
  { apply not_true_iff_false. unfold same_deployment. rewrite andb_true_iff.
    intros [Heq%deployment_spec_names _]. cbn [dep_Template merge_deployment] in Heq. congruence. }
  split_and!.
  - pose proof (@desired_deployment_spec _ _ o2 _ _ _ _ _ _ _ Hd2) as [_ Hkey].
    unfold reconcileDeployment. rewrite Hd2, <- Hkey.
    eapply wp_mono; [| |apply create_or_patch_answer]; [done|]. intros r tr ->. by rewrite Hs.
  - cbn [dep_Template merge_deployment]. intros Heq. congruence.
  - rewrite Hn1, Hn2. by rewrite !visit_perm.
Qed.
End order.

Module RuntimeDemo.

#[local] Instance EnvVar_eq_dec : EqDecision EnvVar.
Proof. solve_decision. Defined.
#[local] Instance ContainerPort_eq_dec : EqDecision ContainerPort.
Proof. solve_decision. Defined.
#[local] Instance VolumeMount_eq_dec : EqDecision VolumeMount.
Proof. solve_decision. Defined.
#[local] Instance ResourceList_eq_dec : EqDecision ResourceList.
Proof. solve_decision. Defined.
#[local] Instance Probe_eq_dec : EqDecision Probe.
Proof. solve_decision. Defined.
#[local] Instance SecurityContext_eq_dec : EqDecision SecurityContext.
Proof. solve_decision. Defined.
#[local] Instance Container_eq_dec : EqDecision Container.
Proof. solve_decision. Defined.
#[local] Instance PodTemplateSpec_eq_dec : EqDecision PodTemplateSpec.
Proof. solve_decision. Defined.
#[local] Instance K8sServicePort_eq_dec : EqDecision K8sServicePort.
Proof. solve_decision. Defined.

#[local] Instance numbers : NumberText := {| number_text s := s |}.
#[local] Instance quantities : Quantities := {| ParseQuantity s := Ok s |}.
#[local] Instance defaulter : Defaulter := {| SchemeDefault K o := o |}.
#[local] Instance defaulter_laws : DefaulterLaws.
Proof. by split. Qed.

#[local] Instance semantic : SemanticEqual :=
  {| deployment_spec_equal s s' := bool_decide (s = s');
     service_spec_equal s s' := bool_decide (s = s');
     string_map_equal m m' := bool_decide (default ∅ m = default ∅ m') |}.
#[local] Instance semantic_laws : SemanticEqualLaws.
Proof.
  split; unfold deployment_spec_equal, service_spec_equal, string_map_equal; simpl.
  - intros d. by apply bool_decide_eq_true.
  - intros d d' Heq%bool_decide_eq_true. unfold dep_spec in Heq. by injection Heq as _ _ ->.
  - intros d. by apply bool_decide_eq_true.
  - intros d d'. apply bool_decide_eq_true.
Qed.

#[local] Instance scheme : Scheme := SchemeDemo.scheme.
#[local] Instance scheme_laws : SchemeLaws := SchemeDemo.scheme_laws.

Definition forward : MapOrder := {| visit A m := map_to_list m |}.
Definition backward : MapOrder := {| visit A m := reverse (map_to_list m) |}.
#[local] Instance forward_laws : @MapOrderLaws forward.
Proof. by split. Qed.
#[local] Instance backward_laws : @MapOrderLaws backward.
Proof. split. intros A m. apply reverse_Permutation. Qed.

Definition container (vars : gmap string string) : ContainerSpec :=
  {| cs_Image := "app:1"; cs_Command := []; cs_Args := []; cs_Variables := Some vars;
     cs_Files := []; cs_LivenessProbe := None; cs_ReadinessProbe := None;
     cs_Resources := None |}.

Definition workload : Workload :=
  {| wl_ObjectMeta := {| ObjectMeta_zero with om_Name := "web"; om_Namespace := "prod" |};
     wl_Spec := {| ws_Profile := None;
                   ws_Containers := {["main" := container {["URL" := "${resources.db.uri}"]};
                                      "side" := container {["MODE" := "dev"]}]};
                   ws_Service := None; ws_Resources := ∅ |};
     wl_Status := {| wst_Endpoint := None; wst_Conditions := []; wst_Claims := [] |} |}.

Definition outputs : gmap string (gmap string string) := {["db" := {["uri" := "pg://x"]}]}.

Definition resolved : gmap string value :=
  {["main" := VMap {["env" := VMap {["URL" := VStr "pg://x"]}]};
    "side" := VMap {["env" := VMap {["MODE" := VStr "dev"]}]}]}.

Definition plan : WorkloadPlan :=
  {| wp_ObjectMeta := {| ObjectMeta_zero with om_Name := "web"; om_Namespace := "prod" |};
     wp_Spec := {| wps_WorkloadRef := {| wpr_Name := "web"; wpr_Namespace := "prod" |};
                   wps_ObservedWorkloadGeneration := 1; wps_RuntimeClass := "kubernetes";
                   wps_Template := None;
                   wps_ResolvedValues := Some (Marshal (VMap {["containers" := VMap resolved]}));
                   wps_Claims := [] |};
     wp_Status := {| wpst_Phase := WorkloadPlanPhaseEmpty; wpst_Conditions := [];
                     wpst_Message := "" |} |}.

Definition desired (o : MapOrder) : Deployment :=
  match @desired_deployment _ _ o _ _ plan workload with
  | Ok d => d
  | Err _ => {| dep_ObjectMeta := ObjectMeta_zero; dep_Replicas := None; dep_Selector := ∅;
                dep_Template := {| pts_Labels := ∅; pts_SecurityContext := None;
                                   pts_Containers := [] |};
                dep_StatusReplicas := 0; dep_StatusReadyReplicas := 0 |}
  end.

(** A cluster with the plan, the workload and perhaps a Deployment. *)
Definition serve (q : call) (s : option Deployment) : reply q * option Deployment :=
  match q return reply q * option Deployment with
  | Get KWorkloadPlan _ => (Ok plan, s)
  | Get KWorkload _ => (Ok workload, s)
  | Get KDeployment _ =>
      (match s with Some d => Ok d | None => Err (EStatus NotFound "not found") end, s)
  | Get _ _ => (Err (EStatus NotFound "not found"), s)
  | ListByField _ _ _ | ListByLabel _ _ _ _ => (Ok [], s)
  | Create K o =>
      match K return obj K → res (obj K) * option Deployment with
      | KDeployment => λ o, (Ok o, Some o)
      | _ => λ o, (Ok o, s)
      end o
  | Update _ o | Patch _ _ o | StatusUpdate _ o | StatusPatch _ _ o => (Ok o, s)
  | Delete _ _ => (Ok tt, s)
  | Event _ _ _ _ => (tt, s)
  | Now => (7%Z, s)
  | RandRead _ => (None, s)
  end.
End RuntimeDemo.

#[local] Existing Instances RuntimeDemo.numbers RuntimeDemo.quantities RuntimeDemo.defaulter
  RuntimeDemo.defaulter_laws RuntimeDemo.semantic RuntimeDemo.semantic_laws RuntimeDemo.scheme
  RuntimeDemo.scheme_laws RuntimeDemo.forward_laws RuntimeDemo.backward_laws.

(** The environment of the containers in the Deployment that a first reconcile makes. *)
Example runtime_run :
  let '(_, d, _) := run RuntimeDemo.serve (@ReconcilePlan _ _ RuntimeDemo.forward _ _ _
                      ("prod", "web")) None in
  ((λ c, (ctr_Name c, (λ e, (env_Name e, env_Value e)) <$> ctr_Env c)) <$>
     default [] (pts_Containers ∘ dep_Template <$> d)) ≡ₚ
  [("main", [("URL", "pg://x")]); ("side", [("MODE", "dev")])].
Proof. vm_compute. apply perm_swap || reflexivity. Qed.

(** A result, not an error. *)
Definition is_ok {A} (r : res A) : bool := match r with Ok _ => true | Err _ => false end.

Lemma demo_names : text_names RuntimeDemo.workload.
Proof.
  intros c spec Hc. cbn in Hc.
  apply lookup_insert_Some in Hc as [[<- <-]|[_ Hc]]; [|apply lookup_singleton_Some in Hc as [<- <-]];
    (split; [done|]); intros n [raw Hn]; cbn [RuntimeDemo.container cs_Variables default from_option id] in Hn;
    by apply lookup_singleton_Some in Hn as [<- _].
Qed.


Lemma desired_demo o :
  is_ok (@desired_deployment _ _ o _ _ RuntimeDemo.plan RuntimeDemo.workload) = true →
  @desired_deployment _ _ o _ _ RuntimeDemo.plan RuntimeDemo.workload =
  Ok (RuntimeDemo.desired o).
Proof. unfold RuntimeDemo.desired. by destruct (desired_deployment _ _). Qed.


Lemma order_restarts_pods_witness :
  dep_Template (merge_deployment (RuntimeDemo.desired RuntimeDemo.backward)
                  (RuntimeDemo.desired RuntimeDemo.forward)) ≠
  dep_Template (RuntimeDemo.desired RuntimeDemo.forward).
Proof.
  pose proof (desired_demo RuntimeDemo.forward ltac:(vm_compute; reflexivity)) as Hd1.
  pose proof (desired_demo RuntimeDemo.backward ltac:(vm_compute; reflexivity)) as Hd2.
  refine (proj1 (proj2 (order_restarts_pods RuntimeDemo.forward RuntimeDemo.backward _ _ _ _ _ _
    Hd1 Hd2 _))).
  vm_compute. discriminate.
Defined.

Lemma runtime_writes_safe_witness :
  wp any (@ReconcilePlan _ _ RuntimeDemo.forward _ _ _ ("prod", "web")) [] (λ _ tr,
    ∀ e, e ∈ tr → is_write (ev_call e) = true →
    ∃ plan, Ev (Get KWorkloadPlan ("prod", "web")) (Ok plan) ∈ tr ∧
      wps_RuntimeClass (wp_Spec plan) = kubernetesRuntimeClass ∧ plan_write plan tr (ev_call e)).
Proof.
  exact (@runtime_writes_safe _ _ RuntimeDemo.forward _ _ _ _ _ ("prod", "web")).
Defined.

Lemma service_never_removed_witness :
  @reconcileService RuntimeDemo.scheme _ _ RuntimeDemo.plan RuntimeDemo.workload = mret (Ok ()).
Proof.
  refine (proj2 (@service_never_removed _ _ RuntimeDemo.forward _ _ _ ("prod", "web")
    RuntimeDemo.plan RuntimeDemo.workload) _).
  intros spec. discriminate.
Defined.
