(* ===== verification/RuntimeExposure.v ===== *)
(** * RuntimeExposure: [runtimes/kubernetes/internal/controller/exposure_controller.go]

    The Kubernetes runtime publishes the address of the Service of a workload in the
    status of its WorkloadExposure.  An absent and an empty list of conditions are the
    same here; the API server stores neither. *)
From S2P Require Import Prelude GoStrings Json K8s Api Client GoURL Mirror RuntimePlan.

(** The [isValidURL] of the runtime. *)
Definition runtime_isValidURL (urlStr : string) : bool :=
  if is_empty urlStr then false
  else match Parse urlStr with
       | Err _ => false
       | Ok parsedURL => negb (is_empty (u_Scheme parsedURL)) && negb (is_empty (u_Host parsedURL))
       end.

(** The three methods return no error; the empty text stands for no URL. *)
Definition valid_or_empty (serviceURL : string) : string :=
  if runtime_isValidURL serviceURL then serviceURL else "".

Definition getURLFromLoadBalancer (service : Service) : string :=
  match svc_Ingress service with
  | [] => ""
  | ingress :: _ =>
      let host := if is_empty (lbi_IP ingress) then lbi_Hostname ingress else lbi_IP ingress in
      if is_empty host then ""
      else match svc_Ports service with
           | [] => ""
           | port :: _ => valid_or_empty ("http://" +:+ host +:+ ":" +:+ FormatInt (ksp_Port port))
           end
  end.

Definition getURLFromNodePort (service : Service) : string :=
  match svc_Ports service with
  | [] => ""
  | port :: _ =>
      if (ksp_NodePort port =? 0)%Z then ""
      else valid_or_empty ("http://localhost:" +:+ FormatInt (ksp_NodePort port))
  end.

Definition getURLFromClusterIP (service : Service) : string :=
  if negb (is_empty (svc_Type service)) && negb (bool_decide (svc_Type service = "ClusterIP"))
  then ""
  else match svc_Ports service with
       | [] => ""
       | port :: _ => valid_or_empty ("http://localhost:" +:+ FormatInt (ksp_Port port))
       end.

Definition getURLFromService (service : Service) : string :=
  if bool_decide (svc_Type service = "LoadBalancer") then getURLFromLoadBalancer service
  else if bool_decide (svc_Type service = "NodePort") then getURLFromNodePort service
  else if bool_decide (svc_Type service = "ClusterIP") || is_empty (svc_Type service)
  then getURLFromClusterIP service
  else "".

(** The first URL of a service. *)
Fixpoint first_url (services : list Service) : string :=
  match services with
  | [] => ""
  | service :: services =>
      let serviceURL := getURLFromService service in
      if is_empty serviceURL then first_url services else serviceURL
  end.

Definition exposure_status (url : string) : WorkloadExposureStatus :=
  {| west_Exposures := [{| ee_Name := ""; ee_URL := url; ee_Type := "";
                           ee_Ready := negb (is_empty url); ee_Scope := ""; ee_SchemeHint := "";
                           ee_Reachable := None |}];
     west_Conditions := [] |}.

(** [KubernetesRuntimeExposureReconciler.Reconcile] *)
Definition ReconcileExposure (req : ObjectKey) : prog (Result * option goerror) :=
  got ← ask (Get KWorkloadExposure req);
  match (got : res WorkloadExposure) with
  | Err err => mret (Result_zero, IgnoreNotFound err)
  | Ok workloadExposure =>
      if negb (bool_decide (wes_RuntimeClass (we_Spec workloadExposure) = kubernetesRuntimeClass))
      then mret (Result_zero, None)
      else
        let workloadName := om_Name (we_ObjectMeta workloadExposure) in
        listed ← ask (ListByLabel KService req.1 "score.dev/workload" workloadName);
        match (listed : res (list Service)) with
        | Err err => mret (Result_zero, Some err)
        | Ok services =>
            let exposureStatus := exposure_status (first_url services) in
            if bool_decide (we_Status workloadExposure = exposureStatus)
            then mret (Result_zero, None)
            else
              stored ← ask (StatusUpdate KWorkloadExposure
                              {| workloadExposure with we_Status := exposureStatus |});
              mret match (stored : res WorkloadExposure) with
                   | Err err => (Result_zero, Some err)
                   | Ok _ => (Result_zero, None)
                   end
        end
  end.

(** [findWorkloadExposuresForService]: the requests for a changed Service. *)
Definition findWorkloadExposuresForService (service : Service) : prog (list ObjectKey) :=
  match map_get (om_Labels (svc_ObjectMeta service)) "score.dev/workload" with
  | None => mret []
  | Some workloadName =>
      let namespacedName := (om_Namespace (svc_ObjectMeta service), workloadName) in
      got ← ask (Get KWorkloadExposure namespacedName);
      mret match (got : res WorkloadExposure) with
           | Err _ => []
           | Ok workloadExposure =>
               if bool_decide (wes_RuntimeClass (we_Spec workloadExposure) =
                               kubernetesRuntimeClass)
               then [namespacedName] else []
           end
  end.

(** ** What is published *)

(** The server lists the labelled Services as [r]. *)
Definition lists (ns : string) (name : string) (r : res (list Service)) : event → Prop :=
  λ e, ∀ r', e = Ev (ListByLabel KService ns "score.dev/workload" name) r' → r' = r.

(** One reconcile, as a fact from which the theorems follow. *)
Lemma ReconcileExposure_wp ns name rE rS :
  wp (λ e, answers KWorkloadExposure (ns, name) rE e ∧ ∀ n, lists ns n (rS n) e)
    (ReconcileExposure (ns, name)) [] (λ x tr,
    match rE with
    | Err err => writes tr = [] ∧ x = (Result_zero, IgnoreNotFound err)
    | Ok exposure =>
        if bool_decide (wes_RuntimeClass (we_Spec exposure) = kubernetesRuntimeClass)
        then match rS (om_Name (we_ObjectMeta exposure)) with
             | Err err => writes tr = [] ∧ x = (Result_zero, Some err)
             | Ok services =>
                 let status := exposure_status (first_url services) in
                 writes tr = if bool_decide (we_Status exposure = status) then []
                             else [StatusUpdate KWorkloadExposure
                                     {| exposure with we_Status := status |}]
             end
        else writes tr = [] ∧ x = (Result_zero, None)
    end).
Proof.
  unfold ReconcileExposure. rewrite wp_bind. intros got [Hgot _]. rewrite (Hgot got eq_refl).
  destruct rE as [exposure|err]; [|done]. cbn [wp].
  case_bool_decide; cbn [negb]; [|done].
  rewrite wp_bind. intros listed [_ Hl]. rewrite (Hl _ listed eq_refl). cbn [wp].
  destruct (rS _) as [services|err]; [|done].
  case_bool_decide; [done|]. rewrite wp_bind. intros stored _. by destruct stored.
Qed.

(** One reconcile of the runtime, whatever the exposure and the Services read: the
    status becomes (or already is) one entry with the first URL of a listed Service,
    ready exactly when there is one, and no conditions: those that were there are
    erased. *)
Theorem ReconcileExposure_correct ns name rE rS :
  wp (λ e, answers KWorkloadExposure (ns, name) rE e ∧ ∀ n, lists ns n (rS n) e)
    (ReconcileExposure (ns, name)) [] (λ x tr,
    match rE with
    | Err err => writes tr = [] ∧ x = (Result_zero, IgnoreNotFound err)
    | Ok exposure =>
        if bool_decide (wes_RuntimeClass (we_Spec exposure) = kubernetesRuntimeClass)
        then match rS (om_Name (we_ObjectMeta exposure)) with
             | Err err => writes tr = [] ∧ x = (Result_zero, Some err)
             | Ok services =>
                 let status := exposure_status (first_url services) in
                 writes tr = if bool_decide (we_Status exposure = status) then []
                             else [StatusUpdate KWorkloadExposure
                                     {| exposure with we_Status := status |}]
             end
        else writes tr = [] ∧ x = (Result_zero, None)
    end).
Proof. apply ReconcileExposure_wp. Qed.

(** *** The published URLs *)

Lemma setPath_scheme u p u' : setPath u p = Ok u' → u_Scheme u' = u_Scheme u.
Proof. unfold setPath, res_bind. destruct (unescape _ _); [|done]. by intros [= <-]. Qed.

Lemma setFragment_scheme u f u' :
  setFragment u f = Ok u' → u_Scheme u' = u_Scheme u ∧ u_Host u' = u_Host u.
Proof. unfold setFragment, res_bind. destruct (unescape _ _); [|done]. by intros [= <-]. Qed.

Lemma set_authority_scheme u rest u' : set_authority u rest = Ok u' → u_Scheme u' = u_Scheme u.
Proof.
  unfold set_authority. destruct (strip "//" rest) as [authority|].
  - destruct (_ && _); [apply setPath_scheme|].
    destruct (default _ _) as [a r]. unfold res_bind at 1.
    destruct (parseAuthority a) as [[user host]|]; [|done]. intros Hp. by apply setPath_scheme in Hp.
  - intros Hp. by apply setPath_scheme in Hp.
Qed.

Lemma parse_http r u : parse ("http://" +:+ r) = Ok u → u_Scheme u = "http".
Proof.
  unfold parse. destruct (has_ctl _); [done|]. rewrite bool_decide_false by done.
  assert (getScheme ("http://" +:+ r) = Ok ("http", "//" +:+ r)) as -> by done.
  cbn [res_bind]. destruct (split_query _) as [[forced rest] query].
  destruct (HasPrefix rest "/"); [by intros ?%set_authority_scheme|]. simpl. by intros [= <-].
Qed.

(** Whatever parses after [http://] has the scheme http. *)
Lemma Parse_http r u : Parse ("http://" +:+ r) = Ok u → u_Scheme u = "http".
Proof.
  unfold Parse, Cut.
  assert (∃ q f, match cut_at "#" ("http://" +:+ r) with Some x => x
                 | None => ("http://" +:+ r, "") end = ("http://" +:+ q, f)) as (q & f & ->).
  { cbn. destruct (cut_at "#" r) as [[p t]|]; eauto. }
  destruct (parse _) as [u'|] eqn:Hp; [|done]. apply parse_http in Hp.
  case_bool_decide; [by intros [= <-]|].
  destruct (setFragment _ _) as [u2|] eqn:Hf; [|done]. intros [= <-].
  apply setFragment_scheme in Hf as [-> _]. done.
Qed.

Lemma valid_or_empty_mirror r :
  valid_or_empty ("http://" +:+ r) ≠ "" →
  valid_or_empty ("http://" +:+ r) = "http://" +:+ r ∧ isValidURL ("http://" +:+ r) = true.
Proof.
  unfold valid_or_empty. destruct (runtime_isValidURL _) eqn:Hv; [|done]. intros _. split; [done|].
  unfold runtime_isValidURL, isValidURL in *. destruct (is_empty _); [done|].
  destruct (Parse _) as [u|] eqn:Hp; [|done]. apply Parse_http in Hp. rewrite Hp.
  apply andb_true_iff in Hv as [_ Hh]. by rewrite bool_decide_true.
Qed.

(** A URL of a service is one of the mirror's valid URLs, of the form http://.... *)
Lemma getURLFromService_valid service :
  getURLFromService service ≠ "" →
  isValidURL (getURLFromService service) = true ∧
  ∃ r, getURLFromService service = "http://" +:+ r.
Proof.
  assert (∀ r, valid_or_empty ("http://" +:+ r) ≠ "" →
    isValidURL (valid_or_empty ("http://" +:+ r)) = true ∧
    ∃ r', valid_or_empty ("http://" +:+ r) = "http://" +:+ r') as Hv.
  { intros r Hne. destruct (valid_or_empty_mirror r Hne) as [-> ?]. eauto. }
  unfold getURLFromService, getURLFromLoadBalancer, getURLFromNodePort, getURLFromClusterIP.
  repeat case_match; try done; apply Hv.
Qed.

Lemma first_url_spec services :
  (first_url services = "" ∧ ∀ s, s ∈ services → getURLFromService s = "") ∨
  ∃ before s after, services = before ++ s :: after ∧
    (∀ s', s' ∈ before → getURLFromService s' = "") ∧
    first_url services = getURLFromService s ∧ getURLFromService s ≠ "".
Proof.
  induction services as [|s l IH]; simpl; [left; split; [done|]; by intros s ?%elem_of_nil|].
  unfold is_empty. case_bool_decide as Hs.
  - destruct IH as [[-> Hl]|(b & s' & a & -> & Hb & -> & Hne)].
    + left. split; [done|]. intros s'. rewrite elem_of_cons. intros [->|?]; auto.
    + right. exists (s :: b), s', a. split; [done|]. split; [|done].
      intros s''. rewrite elem_of_cons. intros [->|?]; auto.
  - right. exists [], s, l. split; [done|]. split; [|done]. by intros s' ?%elem_of_nil.
Qed.

(** From the Service to the workload: the endpoint that the mirror takes from an
    exposure published by the runtime is the URL of the first listed Service that has
    one, and there is none exactly when no Service has one; in that case the runtime
    publishes an entry with an empty URL. *)
Theorem published_endpoint exposure services :
  let e := {| exposure with we_Status := exposure_status (first_url services) |} in
  (newEndpoint e = None ↔ ∀ s, s ∈ services → getURLFromService s = "") ∧
  (∀ u, newEndpoint e = Some u ↔ ∃ before s after, services = before ++ s :: after ∧
     (∀ s', s' ∈ before → getURLFromService s' = "") ∧ getURLFromService s = u ∧ u ≠ "") ∧
  (newEndpoint e = None → ee_URL <$> west_Exposures (we_Status e) = [""]).
Proof.
  cbn zeta. assert (∀ status, we_Status {| exposure with we_Status := status |} = status) as Hst
    by done.
  unfold newEndpoint. rewrite Hst. cbn [exposure_status west_Exposures ee_URL fmap list_fmap].
  destruct (first_url_spec services) as [[-> Hl]|(b & s & a & -> & Hb & -> & Hne)].
  - split; [done|]. split; [|done]. intros u. split; [done|].
    intros (b & s & a & -> & _ & Hs & Hne). rewrite Hl in Hs by set_solver. by subst.
  - destruct (getURLFromService_valid s Hne) as [-> (r & Hr)]. split_and!; [|intros u|done].
    + split; [done|]. intros Hall. exfalso. apply Hne, Hall. set_solver.
    + split.
      * intros [= <-]. exists b, s, a. auto.
      * intros (b' & s' & a' & Heq & Hb' & <- & Hne'). f_equal.
        apply app_eq_app in Heq as [l [[-> Heq]|[-> Heq]]].
        -- destruct l as [|x l]; [by injection Heq as ->|]. injection Heq as <- _.
           exfalso. apply Hne', Hb. set_solver.
        -- destruct l as [|x l]; [by injection Heq as ->|]. injection Heq as <- _.
           exfalso. apply Hne, Hb'. set_solver.
Qed.

(** The address published for a Service of type ClusterIP, which is what the runtime
    itself creates, is always on localhost, whatever the Service: two workloads with
    the same port get the same endpoint. *)
Theorem clusterip_is_localhost service port :
  head (svc_Ports service) = Some port → (0 <= ksp_Port port)%Z →
  svc_Type service = "ClusterIP" ∨ svc_Type service = "" →
  getURLFromService service = "http://localhost:" +:+ FormatInt (ksp_Port port).
Proof.
  intros Hport Hn Ht. unfold getURLFromService.
  assert (getURLFromClusterIP service = "http://localhost:" +:+ FormatInt (ksp_Port port)) as Hc.
  { unfold getURLFromClusterIP. destruct (svc_Ports service) as [|p ports]; [done|].
    injection Hport as ->.
    assert (negb (is_empty (svc_Type service)) && negb (bool_decide (svc_Type service = "ClusterIP"))
      = false) as -> by by destruct Ht as [-> | ->].
    destruct (FormatInt_nonneg _ Hn) as [Hne Hdig].
    assert (port_suffix (FormatInt (ksp_Port port)) = ":" +:+ FormatInt (ksp_Port port)) as Hsuf.
    { unfold port_suffix, is_empty. by rewrite bool_decide_false. }
    assert (Parse ("http://localhost:" +:+ FormatInt (ksp_Port port)) =
            Ok (plain_url "http" ("localhost" +:+ ":" +:+ FormatInt (ksp_Port port)))) as Hp.
    { pose proof (Parse_plain "http" "localhost" (FormatInt (ksp_Port port))) as Hp.
      rewrite Hsuf in Hp. apply Hp; [by left|done|done]. }
    unfold valid_or_empty, runtime_isValidURL. by rewrite Hp. }
  by destruct Ht as [Ht|Ht]; rewrite Ht; cbn.
Qed.

Module ExposureDemo.
Definition service (name : string) (port : Z) : Service :=
  {| svc_ObjectMeta := {| ObjectMeta_zero with om_Name := name; om_Namespace := "prod" |};
     svc_Type := "ClusterIP"; svc_ClusterIP := "10.0.0.7";
     svc_Ports := [{| ksp_Name := "port-0"; ksp_Port := port; ksp_TargetPort := port;
                      ksp_NodePort := 0; ksp_Protocol := "TCP" |}];
     svc_Selector := ∅; svc_Ingress := [] |}.
End ExposureDemo.

Lemma clusterip_is_localhost_witness :
  getURLFromService (ExposureDemo.service "web" 8080) = "http://localhost:8080".
Proof.
  apply (clusterip_is_localhost _ {| ksp_Name := "port-0"; ksp_Port := 8080;
    ksp_TargetPort := 8080; ksp_NodePort := 0; ksp_Protocol := "TCP" |}); [reflexivity|simpl; lia|by left].
Defined.
