(* ===== verification/Lifecycle.v ===== *)
(** * Lifecycle: [internal/controller/provisioner_lifecycle.go] and
    [internal/provisioner/outputs.go]

    The phases of a resource claim and the outputs it may announce. *)
From S2P Require Import Prelude GoStrings Json K8s Api Client Conditions Placeholders.

Definition ResourceClaimFinalizer := "provisioner.score.dev/finalizer".

(** ** outputs.go *)

(** An optional text that is present and not empty. *)
Definition has_text (o : option string) : bool :=
  match o with Some s => negb (bool_decide (s = "")) | None => false end.

Definition cert_data_length (data : option (gmap string string)) : nat :=
  match data with Some m => size m | None => 0 end.

(** The error, if there is one. *)
Definition ValidateOutputs (outputs : option ResourceClaimOutputs) : option goerror :=
  match outputs with
  | None => Some (ENew "outputs cannot be nil")
  | Some outputs =>
      let hasSecretRef := has_text (lor_Name <$> rco_SecretRef outputs) in
      let hasConfigMapRef := has_text (lor_Name <$> rco_ConfigMapRef outputs) in
      let hasURI := has_text (rco_URI outputs) in
      let hasImage := has_text (rco_Image outputs) in
      let hasCert := match rco_Cert outputs with
                     | Some c => bool_decide (is_Some (co_SecretName c)) ||
                                 (0 <? cert_data_length (co_Data c))
                     | None => false
                     end in
      if negb hasSecretRef && negb hasConfigMapRef && negb hasURI && negb hasImage && negb hasCert
      then Some (ENew ("at least one output field (secretRef, configMapRef, uri, image, or cert)"
                       +:+ " must be set"))
      else None
  end.

Definition is_valid (outputs : option ResourceClaimOutputs) : bool :=
  match ValidateOutputs outputs with None => true | Some _ => false end.

Definition SetOutputsAvailable (claim : ResourceClaim) : ResourceClaim :=
  {| claim with rc_Status := {| (rc_Status claim) with
       rst_OutputsAvailable := is_valid (rst_Outputs (rc_Status claim)) |} |}.

Definition Outputs_zero : ResourceClaimOutputs :=
  {| rco_SecretRef := None; rco_ConfigMapRef := None; rco_URI := None; rco_Image := None;
     rco_Cert := None |}.

Definition CreateSecretRefOutput (secretName : string) : ResourceClaimOutputs :=
  {| Outputs_zero with rco_SecretRef := Some {| lor_Name := secretName |} |}.
Definition CreateConfigMapRefOutput (configMapName : string) : ResourceClaimOutputs :=
  {| Outputs_zero with rco_ConfigMapRef := Some {| lor_Name := configMapName |} |}.
Definition CreateURIOutput (uri : string) : ResourceClaimOutputs :=
  {| Outputs_zero with rco_URI := Some uri |}.
Definition CreateImageOutput (image : string) : ResourceClaimOutputs :=
  {| Outputs_zero with rco_Image := Some image |}.

(** [result] keeps what it has. *)
Definition merge_output (result : ResourceClaimOutputs) (output : option ResourceClaimOutputs) :
    ResourceClaimOutputs :=
  match output with
  | None => result
  | Some output =>
      {| rco_SecretRef := rco_SecretRef result ∪ rco_SecretRef output;
         rco_ConfigMapRef := rco_ConfigMapRef result ∪ rco_ConfigMapRef output;
         rco_URI := rco_URI result ∪ rco_URI output;
         rco_Image := rco_Image result ∪ rco_Image output;
         rco_Cert := rco_Cert result ∪ rco_Cert output |}
  end.

Definition MergeOutputs (outputs : list (option ResourceClaimOutputs)) : ResourceClaimOutputs :=
  foldl merge_output Outputs_zero outputs.

(** ** provisioner_lifecycle.go *)

(** The clock is the argument [now]. *)
Definition SetPhase (now : Time) (claim : ResourceClaim) (phase : ResourceClaimPhase)
    (reason message : string) : ResourceClaim :=
  let st := rc_Status claim in
  {| claim with rc_Status := {| st with
       rst_LastTransitionTime := if bool_decide (rst_Phase st = phase)
                                 then rst_LastTransitionTime st else Some now;
       rst_Phase := phase; rst_Reason := reason; rst_Message := message;
       rst_ObservedGeneration := om_Generation (rc_ObjectMeta claim) |} |}.

Definition set_outputs (claim : ResourceClaim) (outputs : option ResourceClaimOutputs)
    (available : bool) : ResourceClaim :=
  {| claim with rc_Status := {| (rc_Status claim) with
       rst_OutputsAvailable := available; rst_Outputs := outputs |} |}.

Definition SetPending (now : Time) (claim : ResourceClaim) (reason message : string) :
    ResourceClaim :=
  set_outputs (SetPhase now claim ResourceClaimPhasePending reason message) None false.

Definition SetClaiming (now : Time) (claim : ResourceClaim) (reason message : string) :
    ResourceClaim :=
  set_outputs (SetPhase now claim ResourceClaimPhaseClaiming reason message) None false.

Definition SetBound (now : Time) (claim : ResourceClaim)
    (outputs : option ResourceClaimOutputs) : ResourceClaim :=
  set_outputs (SetPhase now claim ResourceClaimPhaseBound ReasonSucceeded
                 "Resource successfully provisioned") outputs true.

Definition SetFailed (now : Time) (claim : ResourceClaim) (reason message : string) :
    ResourceClaim :=
  set_outputs (SetPhase now claim ResourceClaimPhaseFailed reason message) None false.

Definition claim_has_finalizer (claim : ResourceClaim) : bool :=
  existsb (λ f, bool_decide (f = ResourceClaimFinalizer)) (om_Finalizers (rc_ObjectMeta claim)).

Definition with_finalizers (claim : ResourceClaim) (fs : list string) : ResourceClaim :=
  {| claim with rc_ObjectMeta := {| (rc_ObjectMeta claim) with om_Finalizers := fs |} |}.

Definition add_claim_finalizer (claim : ResourceClaim) : ResourceClaim :=
  if negb (claim_has_finalizer claim)
  then with_finalizers claim (om_Finalizers (rc_ObjectMeta claim) ++ [ResourceClaimFinalizer])
  else claim.

Definition remove_claim_finalizer (claim : ResourceClaim) : ResourceClaim :=
  with_finalizers claim
    (List.filter (λ f, negb (bool_decide (f = ResourceClaimFinalizer)))
       (om_Finalizers (rc_ObjectMeta claim))).

Definition IsBeingDeleted (claim : ResourceClaim) : bool :=
  negb (time_is_zero (om_DeletionTimestamp (rc_ObjectMeta claim))).

Definition NeedsFinalizer (claim : ResourceClaim) : bool :=
  IsBeingDeleted claim && negb (claim_has_finalizer claim).

Definition ShouldReconcile (claim : ResourceClaim) : bool :=
  if IsBeingDeleted claim && negb (claim_has_finalizer claim) then false
  else if IsBeingDeleted claim then true
  else if bool_decide (rst_Phase (rc_Status claim) = ResourceClaimPhaseBound)
  then negb (rst_ObservedGeneration (rc_Status claim) =? om_Generation (rc_ObjectMeta claim))%Z
  else true.

(** [ctrl.Result{RequeueAfter: d}] *)
Definition requeue_after (d : Z) : Result := {| res_Requeue := false; res_RequeueAfter := d |}.

Definition GetReconcileResult (claim : ResourceClaim) (err : option goerror) :
    Result * option goerror :=
  match err with
  | Some err => (requeue_after (2 * Minute), Some err)
  | None =>
      (match rst_Phase (rc_Status claim) with
       | ResourceClaimPhasePending => requeue_after (30 * Second)
       | ResourceClaimPhaseClaiming => requeue_after Minute
       | ResourceClaimPhaseBound => requeue_after (10 * Minute)
       | ResourceClaimPhaseFailed => requeue_after (5 * Minute)
       | _ => Result_zero
       end, None)
  end.

(** ** The invariant of a claim's status

    Outputs are announced exactly in phase Bound, and then they are usable. *)
Definition outputs_match (claim : ResourceClaim) : Prop :=
  let st := rc_Status claim in
  if decide (rst_Phase st = ResourceClaimPhaseBound)
  then rst_OutputsAvailable st = true ∧ ValidateOutputs (rst_Outputs st) = None
  else rst_OutputsAvailable st = false ∧ rst_Outputs st = None.

Lemma SetPhase_phase now claim phase reason message :
  rst_Phase (rc_Status (SetPhase now claim phase reason message)) = phase.
Proof. done. Qed.

Lemma outputs_match_unbound now claim phase reason message :
  phase ≠ ResourceClaimPhaseBound →
  outputs_match (set_outputs (SetPhase now claim phase reason message) None false).
Proof. intros H. unfold outputs_match. cbn. by rewrite decide_False. Qed.

Lemma SetFailed_match now claim reason message : outputs_match (SetFailed now claim reason message).
Proof. by apply outputs_match_unbound. Qed.
Lemma SetPending_match now claim reason message : outputs_match (SetPending now claim reason message).
Proof. by apply outputs_match_unbound. Qed.
Lemma SetClaiming_match now claim reason message :
  outputs_match (SetClaiming now claim reason message).
Proof. by apply outputs_match_unbound. Qed.

Lemma SetBound_match now claim outputs :
  ValidateOutputs outputs = None → outputs_match (SetBound now claim outputs).
Proof. done. Qed.

#[export] Hint Resolve SetFailed_match SetPending_match SetClaiming_match SetBound_match : prog.

(** A claim that keeps the invariant can be read by the workload controller without
    dereferencing nil. *)
Lemma outputs_match_present claim : outputs_match claim → outputs_present claim.
Proof.
  unfold outputs_match, outputs_present. case_decide; intros [Ha Ho] Hav; [|congruence].
  destruct (rst_Outputs (rc_Status claim)); [by eauto|done].
Qed.

(** *** The finalizer *)

Lemma claim_has_finalizer_iff claim :
  claim_has_finalizer claim = true ↔ ResourceClaimFinalizer ∈ om_Finalizers (rc_ObjectMeta claim).
Proof.
  unfold claim_has_finalizer. rewrite existsb_exists. setoid_rewrite bool_decide_eq_true.
  rewrite list_elem_of_In. naive_solver.
Qed.

Lemma add_claim_finalizer_has claim :
  ResourceClaimFinalizer ∈ om_Finalizers (rc_ObjectMeta (add_claim_finalizer claim)).
Proof.
  unfold add_claim_finalizer. destruct (claim_has_finalizer claim) eqn:Hf; cbn [negb].
  - by apply claim_has_finalizer_iff.
  - cbn. apply elem_of_app. right. by left.
Qed.

Lemma remove_claim_finalizer_spec claim f :
  f ∈ om_Finalizers (rc_ObjectMeta (remove_claim_finalizer claim)) ↔
  f ≠ ResourceClaimFinalizer ∧ f ∈ om_Finalizers (rc_ObjectMeta claim).
Proof.
  cbn. rewrite !list_elem_of_In, filter_In, negb_true_iff, bool_decide_eq_false. tauto.
Qed.

(** *** The outputs *)

(** What an output field contributes. *)
Lemma merge_output_zero output :
  merge_output Outputs_zero (Some output) = output.
Proof. destruct output as [[] [] [] [] []]; done. Qed.
