(* ===== verification/Strategy.v ===== *)
(** * Strategy: [internal/provisioner/strategy/interface.go] and [selector.go]

    The interface of a provisioning strategy, what a strategy promises to the
    provisioner, and the selection by resource type. *)
From S2P Require Import Prelude GoStrings Json K8s Api Client Lifecycle.

(** [Strategy].  A nil pointer of outputs is [None]; the phase, reason and message
    that [GetStatus] returns beside an error are not used by any caller. *)
Record Strategy := {
  GetType : string;
  Provision : ResourceClaim → prog (res (option ResourceClaimOutputs));
  Deprovision : ResourceClaim → prog (res ());
  GetStatus : ResourceClaim → prog (res (ResourceClaimPhase * string * string));
}.

Record ProvisioningConfig := {
  pcf_Type : string;
  pcf_Strategy : string;
  pcf_Config : gmap string value;
  pcf_Outputs : gmap string string;
}.

Record Selector := {
  sel_strategies : gmap string Strategy;
  sel_configs : gmap string ProvisioningConfig;
}.

Definition NewSelector : Selector := {| sel_strategies := ∅; sel_configs := ∅ |}.

Definition RegisterStrategy (s : Selector) (strategy : Strategy) : Selector :=
  {| s with sel_strategies := <[GetType strategy := strategy]> (sel_strategies s) |}.

(** The last configuration of a type wins. *)
Definition sel_LoadConfig (s : Selector) (configs : list ProvisioningConfig) : Selector :=
  {| s with sel_configs := foldl (λ m config, <[pcf_Type config := config]> m) ∅ configs |}.

Definition GetStrategy (s : Selector) (resourceType : string) : res Strategy :=
  match sel_strategies s !! resourceType with
  | Some strategy => Ok strategy
  | None => Err (ENew ("no strategy registered for resource type: " +:+ resourceType))
  end.

Definition GetConfig (s : Selector) (resourceType : string) : res ProvisioningConfig :=
  match sel_configs s !! resourceType with
  | Some config => Ok config
  | None => Err (ENew ("no configuration found for resource type: " +:+ resourceType))
  end.

(** In the order in which Go visits the map. *)
Definition GetSupportedTypes `{!MapOrder} (s : Selector) : list string :=
  (visit (sel_strategies s)).*1.

Definition IsSupported (s : Selector) (claim : ResourceClaim) : bool :=
  bool_decide (is_Some (sel_strategies s !! rcs_Type (rc_Spec claim))).

(** ** What a strategy promises *)

(** The object is in the namespace of the claim and controlled by it. *)
Definition owned_by (claim : ResourceClaim) (m : ObjectMeta) : Prop :=
  om_Namespace m = om_Namespace (rc_ObjectMeta claim) ∧
  ∃ r, r ∈ om_OwnerReferences m ∧ or_UID r = om_UID (rc_ObjectMeta claim) ∧
       or_Controller r = Some true.

(** Provisioning writes by creating objects that the claim owns. *)
Definition provision_call (claim : ResourceClaim) (c : call) : Prop :=
  is_write c = true →
  ∃ K o, c = Create K o ∧ K ≠ KResourceClaim ∧ owned_by claim (obj_meta o).

(** Deprovisioning writes by deleting objects in the namespace of the claim. *)
Definition deprovision_call (claim : ResourceClaim) (c : call) : Prop :=
  is_write c = true →
  ∃ K name, c = Delete K (om_Namespace (rc_ObjectMeta claim), name) ∧ K ≠ KResourceClaim.

(** [cleaned claim tr]: the calls [tr] show that nothing of the claim is left. *)
Class StrategyLaws (E : event → Prop) (s : Strategy)
    (cleaned : ResourceClaim → list event → Prop) : Prop := {
  provision_spec claim past :
    wp E (Provision s claim) past (λ r _, ∀ outputs, r = Ok outputs → ValidateOutputs outputs = None);
  provision_calls claim : every_call (provision_call claim) (Provision s claim);
  deprovision_spec claim past :
    wp E (Deprovision s claim) past (λ r tr, r = Ok () → cleaned claim tr);
  deprovision_calls claim : every_call (deprovision_call claim) (Deprovision s claim);
  status_spec claim past : wp E (GetStatus s claim) past (λ _ _, True);
  status_reads claim : read_only (GetStatus s claim);
}.

(** Every registered strategy keeps the promises; what is left of a claim depends on
    its type. *)
Definition selector_laws (E : event → Prop)
    (cleaned : string → ResourceClaim → list event → Prop) (s : Selector) : Prop :=
  map_Forall (λ t strategy, StrategyLaws E strategy (cleaned t)) (sel_strategies s).

Lemma GetStrategy_laws E cleaned s t strategy :
  selector_laws E cleaned s → GetStrategy s t = Ok strategy → StrategyLaws E strategy (cleaned t).
Proof.
  intros Hs. unfold GetStrategy. destruct (sel_strategies s !! t) eqn:Hl; [|done].
  intros [= <-]. by eapply Hs.
Qed.
