(* ===== verification/Provisioner.v ===== *)
(** * Provisioner: [internal/controller/provisioner_controller.go]

    The reconciliation of a resource claim: the phases of its life cycle, against the
    interface of a provisioning strategy. *)
From S2P Require Import Prelude GoStrings Json K8s Api Client Conditions Placeholders Lifecycle.
From S2P Require Import Strategy.

Definition EventReasonProvisioned := "Provisioned".
Definition EventReasonProvisionFailed := "ProvisionFailed".
Definition EventReasonDeprovisioning := "Deprovisioning".
Definition EventReasonDeprovisioned := "Deprovisioned".
Definition EventReasonDeprovisionFailed := "DeprovisionFailed".

Record ProvisionerReconciler := {
  pv_StrategySelector : Selector;
  pv_supportedTypes : gset string;
}.

(** [Recorder.Event] on a claim. *)
Definition claim_event (claim : ResourceClaim) (eventtype reason message : string) : prog () :=
  ask (Event (meta_key (rc_ObjectMeta claim)) eventtype reason message).

Section provisioner.
Variable r : ProvisionerReconciler.

(** A handler changes the claim it is given: it returns the new one.  Its result is
    discarded by the caller, all but the error. *)
Definition fail_claim (claim : ResourceClaim) (reason message : string) : prog ResourceClaim :=
  now ← ask Now;
  mret (SetFailed now claim reason message).

(** Provision, validate the outputs and bind: the common part of the phases Pending
    and Claiming, which differ in the text of the failure. *)
Definition provision_and_bind (failure : string) (claim : ResourceClaim) (s : Strategy) :
    prog (ResourceClaim * res Result) :=
  provisioned ← Provision s claim;
  match provisioned with
  | Err err =>
      claim ← fail_claim claim ReasonClaimFailed (failure +:+ Error err);
      claim_event claim "Warning" EventReasonProvisionFailed (Error err);;
      mret (claim, Err err)
  | Ok outputs =>
      match ValidateOutputs outputs with
      | Some err =>
          claim ← fail_claim claim ReasonProjectionError ("Invalid outputs: " +:+ Error err);
          mret (claim, Err err)
      | None =>
          now ← ask Now;
          let claim := SetBound now claim outputs in
          claim_event claim "Normal" EventReasonProvisioned "Resource successfully provisioned";;
          mret (claim, Ok Result_zero)
      end
  end.

Definition handlePendingPhase (claim : ResourceClaim) (s : Strategy) :
    prog (ResourceClaim * res Result) :=
  provision_and_bind "Provisioning failed: " claim s.

Definition handleClaimingPhase (claim : ResourceClaim) (s : Strategy) :
    prog (ResourceClaim * res Result) :=
  status ← GetStatus s claim;
  match status with
  | Err err =>
      claim ← fail_claim claim ReasonClaimFailed ("Status check failed: " +:+ Error err);
      mret (claim, Err err)
  | Ok (phase, reason, message) =>
      if bool_decide (phase = ResourceClaimPhaseBound)
      then provision_and_bind "Failed to get outputs: " claim s
      else if bool_decide (phase = ResourceClaimPhaseFailed)
      then
        claim ← fail_claim claim reason message;
        claim_event claim "Warning" EventReasonProvisionFailed message;;
        mret (claim, Err (ENew ("provisioning failed: " +:+ message)))
      else mret (claim, Ok (requeue_after (10 * Second)))
  end.

Definition handleBoundPhase (claim : ResourceClaim) (s : Strategy) :
    prog (ResourceClaim * res Result) :=
  status ← GetStatus s claim;
  match status with
  | Err err => mret (claim, Err err)
  | Ok (phase, reason, message) =>
      if bool_decide (phase = ResourceClaimPhaseFailed)
      then
        claim ← fail_claim claim reason message;
        claim_event claim "Warning" EventReasonProvisionFailed "Resource became unhealthy";;
        mret (claim, Err (ENew ("resource became unhealthy: " +:+ message)))
      else mret (claim, Ok Result_zero)
  end.

Definition handleFailedPhase (claim : ResourceClaim) (s : Strategy) :
    prog (ResourceClaim * res Result) :=
  status ← GetStatus s claim;
  match status with
  | Err _ => mret (claim, Ok Result_zero)
  | Ok (phase, _, _) =>
      if bool_decide (phase = ResourceClaimPhaseBound)
      then
        now ← ask Now;
        mret (SetClaiming now claim ReasonClaiming "Retrying provisioning after recovery",
              Ok {| res_Requeue := true; res_RequeueAfter := 0 |})
      else mret (claim, Ok Result_zero)
  end.

Definition handleProvisioning (claim : ResourceClaim) : prog (ResourceClaim * res Result) :=
  match GetStrategy (pv_StrategySelector r) (rcs_Type (rc_Spec claim)) with
  | Err err =>
      claim ← fail_claim claim ReasonClaimFailed ("No strategy available: " +:+ Error err);
      claim_event claim "Warning" EventReasonProvisionFailed (Error err);;
      mret (claim, Err (EWrap "strategy not found" err))
  | Ok s =>
      match rst_Phase (rc_Status claim) with
      | ResourceClaimPhaseEmpty | ResourceClaimPhasePending => handlePendingPhase claim s
      | ResourceClaimPhaseClaiming => handleClaimingPhase claim s
      | ResourceClaimPhaseBound => handleBoundPhase claim s
      | ResourceClaimPhaseFailed => handleFailedPhase claim s
      | ResourceClaimPhaseOther _ =>
          now ← ask Now;
          mret (SetPending now claim ReasonClaimPending "Unknown phase, resetting to Pending",
                Ok {| res_Requeue := true; res_RequeueAfter := 0 |})
      end
  end.

(** Without a strategy the finalizer is removed all the same. *)
Definition handleDeletion (claim : ResourceClaim) : prog (Result * option goerror) :=
  if negb (claim_has_finalizer claim) then mret (Result_zero, None)
  else
    claim_event claim "Normal" EventReasonDeprovisioning "Starting resource cleanup";;
    deprovisioned ← match GetStrategy (pv_StrategySelector r) (rcs_Type (rc_Spec claim)) with
                    | Err _ => mret (Ok ())
                    | Ok s => Deprovision s claim
                    end;
    match deprovisioned with
    | Err err =>
        claim_event claim "Warning" EventReasonDeprovisionFailed (Error err);;
        mret (Result_zero, Some err)
    | Ok _ =>
        updated ← ask (Update KResourceClaim (remove_claim_finalizer claim));
        match (updated : res ResourceClaim) with
        | Err err => mret (Result_zero, Some err)
        | Ok claim =>
            claim_event claim "Normal" EventReasonDeprovisioned "Resource cleanup completed";;
            mret (Result_zero, None)
        end
    end.

(** The finalizer is stored, then the phase Pending. *)
Definition initialize_claim (claim : ResourceClaim) : prog (Result * option goerror) :=
  updated ← ask (Update KResourceClaim (add_claim_finalizer claim));
  match (updated : res ResourceClaim) with
  | Err err => mret (Result_zero, Some err)
  | Ok claim =>
      now ← ask Now;
      let claim := SetPending now claim ReasonClaimPending "Initializing resource claim" in
      stored ← ask (StatusUpdate KResourceClaim claim);
      mret match (stored : res ResourceClaim) with
           | Err statusErr => (Result_zero, Some statusErr)
           | Ok claim => GetReconcileResult claim None
           end
  end.

(** [ProvisionerReconciler.Reconcile] *)
Definition ReconcileClaim (req : ObjectKey) : prog (Result * option goerror) :=
  got ← ask (Get KResourceClaim req);
  match (got : res ResourceClaim) with
  | Err err => mret (Result_zero, if IsNotFound err then None else Some err)
  | Ok claim =>
      if negb (ShouldReconcile claim) then mret (Result_zero, None)
      else if IsBeingDeleted claim then handleDeletion claim
      else if negb (claim_has_finalizer claim) then initialize_claim claim
      else
        x ← handleProvisioning claim;
        let '(claim, handled) := x in
        stored ← ask (StatusUpdate KResourceClaim claim);
        let '(claim, statusErr) := match (stored : res ResourceClaim) with
                                   | Ok claim => (claim, None)
                                   | Err e => (claim, Some e)
                                   end in
        mret (GetReconcileResult claim
                match err_of handled with Some err => Some err | None => statusErr end)
  end.

(** The event filter of the controller. *)
Definition filterSupportedTypes (claim : ResourceClaim) : bool :=
  if bool_decide (is_Some (om_DeletionTimestamp (rc_ObjectMeta claim))) then true
  else bool_decide (rcs_Type (rc_Spec claim) ∈ pv_supportedTypes r).
End provisioner.

(** [loadSupportedTypes]: the value of [SUPPORTED_RESOURCE_TYPES]. *)
Definition loadSupportedTypes (envTypes : string) : gset string :=
  let envTypes := if bool_decide (envTypes = "") then "postgres,redis,secret,test,mock"
                  else envTypes in
  list_to_set (filter (λ t, t ≠ "") (TrimSpace <$> Split envTypes ",")).

(** ** The state machine of a claim

    A change of phase, depending on whether the claim had the finalizer. *)
Inductive phase_step : bool → ResourceClaimPhase → ResourceClaimPhase → Prop :=
| step_initialize p : phase_step false p ResourceClaimPhasePending
| step_fail p : phase_step true p ResourceClaimPhaseFailed
| step_bind p :
    p ∈ [ResourceClaimPhaseEmpty; ResourceClaimPhasePending; ResourceClaimPhaseClaiming] →
    phase_step true p ResourceClaimPhaseBound
| step_stay p :
    p ∈ [ResourceClaimPhaseClaiming; ResourceClaimPhaseBound; ResourceClaimPhaseFailed] →
    phase_step true p p
| step_retry : phase_step true ResourceClaimPhaseFailed ResourceClaimPhaseClaiming
| step_reset s : phase_step true (ResourceClaimPhaseOther s) ResourceClaimPhasePending.

(** The phases a claim has gone through, the last one first. *)
Inductive claim_history : list ResourceClaimPhase → Prop :=
| history_new : claim_history [ResourceClaimPhaseEmpty]
| history_step p q h fin :
    claim_history (p :: h) → phase_step fin p q → claim_history (q :: p :: h).

Lemma history_claiming h :
  claim_history h → ResourceClaimPhaseClaiming ∈ h → ResourceClaimPhaseFailed ∈ h.
Proof.
  induction 1 as [|p q h fin Hh IH Hstep]; [set_solver|].
  rewrite elem_of_cons. intros [<-|Hin]; [|right; by apply IH].
  inversion Hstep; subst; [right; apply IH; by left|right; by left].
Qed.

(** The server returns claims that keep the invariant. *)
Definition claims_match (e : event) : Prop :=
  match e with
  | Ev (Get KResourceClaim _) (Ok c) | Ev (Update KResourceClaim _) (Ok c) => outputs_match c
  | _ => True
  end.

Definition status_claim (c : call) : option ResourceClaim :=
  match c with StatusUpdate KResourceClaim claim => Some claim | _ => None end.
Definition updated_claim (c : call) : option ResourceClaim :=
  match c with Update KResourceClaim claim => Some claim | _ => None end.

Definition created_meta (c : call) : option ObjectMeta :=
  match c with Create _ o => Some (obj_meta o) | _ => None end.

Definition phase_of (claim : ResourceClaim) : ResourceClaimPhase := rst_Phase (rc_Status claim).

Section laws.
Context (E : event → Prop) (cleaned : ResourceClaim → list event → Prop).

Definition wf (e : event) : Prop := E e ∧ claims_match e.

(** A handler returns a claim that keeps the invariant and whose phase is one step
    from the old one, and writes nothing but objects that the claim owns. *)
Definition handled (claim : ResourceClaim) (past : list event) (x : ResourceClaim * res Result)
    (tr : list event) : Prop :=
  outputs_match x.1 ∧ phase_step true (phase_of claim) (phase_of x.1) ∧
  ∃ l, tr = past ++ l ∧ Forall (λ e, provision_call claim (ev_call e)) l.

Lemma handled_trans claim past l x tr :
  Forall (λ e, provision_call claim (ev_call e)) l →
  handled claim (past ++ l) x tr → handled claim past x tr.
Proof.
  intros Hl (? & ? & l' & -> & Hl'). split; [done|]. split; [done|].
  exists (l ++ l'). rewrite app_assoc. split; [done|]. by apply Forall_app_2.
Qed.

Lemma read_call claim (e : event) :
  is_write (ev_call e) = false → provision_call claim (ev_call e).
Proof. unfold provision_call. congruence. Qed.

Lemma fail_handled claim past reason message res (l : list event) :
  Forall (λ e, provision_call claim (ev_call e)) l →
  wp wf (claim' ← fail_claim claim reason message; mret (claim', res)) (past ++ l)
    (handled claim past).
Proof.
  intros Hl now _. split; [apply SetFailed_match|]. split; [constructor|].
  eexists. rewrite <- app_assoc. split; [done|]. apply Forall_app_2; [done|].
  by repeat constructor.
Qed.

Lemma fail_event_handled claim past reason message reason' message' res (l : list event) :
  Forall (λ e, provision_call claim (ev_call e)) l →
  wp wf (claim' ← fail_claim claim reason message;
         claim_event claim' "Warning" reason' message';; mret (claim', res)) (past ++ l)
    (handled claim past).
Proof.
  intros Hl now _. cbn [wp]. intros [] _. split; [apply SetFailed_match|].
  split; [constructor|]. eexists. rewrite <- !app_assoc. split; [done|].
  apply Forall_app_2; [done|]. by repeat constructor.
Qed.

Context (claim : ResourceClaim) (s : Strategy) (Hs : StrategyLaws E s cleaned).

Lemma provision_wp past :
  wp wf (Provision s claim) past (λ x tr, (∀ o, x = Ok o → ValidateOutputs o = None) ∧
    ∃ l, tr = past ++ l ∧ Forall (λ e, provision_call claim (ev_call e)) l).
Proof.
  apply wp_with_calls; [|apply provision_calls].
  eapply (wp_mono E); [by intros e []| |apply provision_spec]. done.
Qed.

Lemma status_wp past :
  wp wf (GetStatus s claim) past (λ _ tr,
    ∃ l, tr = past ++ l ∧ Forall (λ e, provision_call claim (ev_call e)) l).
Proof.
  eapply wp_mono; [done| |apply (wp_with_calls _ (provision_call claim))].
  - by intros a tr [_ Hl].
  - eapply (wp_mono E); [by intros e []| |apply status_spec]. done.
  - eapply every_call_mono; [|apply status_reads]. intros c Hc. unfold provision_call. congruence.
Qed.

Lemma provision_and_bind_handled failure past :
  phase_of claim ∈ [ResourceClaimPhaseEmpty; ResourceClaimPhasePending;
                    ResourceClaimPhaseClaiming] →
  wp wf (provision_and_bind failure claim s) past (handled claim past).
Proof.
  intros Hp. unfold provision_and_bind. rewrite wp_bind.
  eapply wp_mono; [done| |apply provision_wp].
  intros [outputs|err] tr [Hout (l & -> & Hl)]; [|by apply fail_event_handled].
  rewrite (Hout _ eq_refl). intros now _. cbn [wp]. intros [] _.
  split; [by apply SetBound_match, Hout|]. split; [by apply step_bind|].
  eexists. rewrite <- !app_assoc. split; [done|]. apply Forall_app_2; [done|].
  by repeat constructor.
Qed.

(** A handler that leaves the claim as it is. *)
Lemma unchanged_handled past l res :
  outputs_match claim → Forall (λ e, provision_call claim (ev_call e)) l →
  phase_of claim ∈ [ResourceClaimPhaseClaiming; ResourceClaimPhaseBound;
                    ResourceClaimPhaseFailed] →
  handled claim past (claim, res) (past ++ l).
Proof. intros Hm Hl Hp. split; [done|]. split; [by apply step_stay|]. by exists l. Qed.

Lemma handleClaimingPhase_handled past :
  outputs_match claim → phase_of claim = ResourceClaimPhaseClaiming →
  wp wf (handleClaimingPhase claim s) past (handled claim past).
Proof.
  intros Hm Hp. unfold handleClaimingPhase. rewrite wp_bind.
  eapply wp_mono; [done| |apply status_wp].
  intros [[[phase reason] message]|err] tr (l & -> & Hl); [|by apply fail_handled].
  case_bool_decide.
  - eapply wp_mono; [done| |apply provision_and_bind_handled; rewrite Hp; set_solver].
    intros x tr. by apply handled_trans.
  - case_bool_decide; [by apply fail_event_handled|].
    apply unchanged_handled; [done|done|]. rewrite Hp. set_solver.
Qed.

Lemma handleBoundPhase_handled past :
  outputs_match claim → phase_of claim = ResourceClaimPhaseBound →
  wp wf (handleBoundPhase claim s) past (handled claim past).
Proof.
  intros Hm Hp. unfold handleBoundPhase. rewrite wp_bind.
  eapply wp_mono; [done| |apply status_wp].
  intros [[[phase reason] message]|err] tr (l & -> & Hl).
  - case_bool_decide; [by apply fail_event_handled|].
    apply unchanged_handled; [done|done|]. rewrite Hp. set_solver.
  - apply unchanged_handled; [done|done|]. rewrite Hp. set_solver.
Qed.

Lemma handleFailedPhase_handled past :
  outputs_match claim → phase_of claim = ResourceClaimPhaseFailed →
  wp wf (handleFailedPhase claim s) past (handled claim past).
Proof.
  intros Hm Hp. unfold handleFailedPhase. rewrite wp_bind.
  eapply wp_mono; [done| |apply status_wp].
  intros [[[phase reason] message]|err] tr (l & -> & Hl);
    [|apply unchanged_handled; [done|done|rewrite Hp; set_solver]].
  case_bool_decide; [|apply unchanged_handled; [done|done|rewrite Hp; set_solver]].
  intros now _. split; [apply SetClaiming_match|]. split; [rewrite Hp; apply step_retry|].
  eexists. rewrite <- app_assoc. split; [done|]. apply Forall_app_2; [done|].
  by repeat constructor.
Qed.
End laws.

Section reconcile.
Context (r : ProvisionerReconciler) (E : event → Prop)
  (cleaned : string → ResourceClaim → list event → Prop)
  (Hlaws : selector_laws E cleaned (pv_StrategySelector r)).

Lemma handleProvisioning_handled claim past :
  outputs_match claim →
  wp (wf E) (handleProvisioning r claim) past (handled claim past).
Proof.
  intros Hm. unfold handleProvisioning.
  destruct (GetStrategy _ _) as [s|err] eqn:Hs.
  2:{ rewrite <- (app_nil_r past) at 1. by apply fail_event_handled. }
  pose proof (GetStrategy_laws _ _ _ _ _ Hlaws Hs) as Hsl.
  destruct (rst_Phase (rc_Status claim)) eqn:Hp.
  1,2: apply (provision_and_bind_handled E (cleaned (rcs_Type (rc_Spec claim)))); [done|]; unfold phase_of; rewrite Hp; set_solver.
  - by apply (handleClaimingPhase_handled E (cleaned (rcs_Type (rc_Spec claim)))).
  - by apply (handleBoundPhase_handled E (cleaned (rcs_Type (rc_Spec claim)))).
  - by apply (handleFailedPhase_handled E (cleaned (rcs_Type (rc_Spec claim)))).
  - intros now _. split; [apply SetPending_match|]. split; [unfold phase_of; rewrite Hp; constructor|].
    eexists. split; [done|]. by repeat constructor.
Qed.

(** *** Deletion *)

Lemma read_deprovision claim (e : event) :
  is_write (ev_call e) = false → deprovision_call claim (ev_call e).
Proof. unfold deprovision_call. congruence. Qed.

Lemma deprovision_wp claim past :
  wp E (match GetStrategy (pv_StrategySelector r) (rcs_Type (rc_Spec claim)) with
        | Err _ => mret (Ok ())
        | Ok s => Deprovision s claim
        end) past (λ x tr,
    (x = Ok () → cleaned (rcs_Type (rc_Spec claim)) claim tr ∨
                 sel_strategies (pv_StrategySelector r) !! rcs_Type (rc_Spec claim) = None) ∧
    ∃ l, tr = past ++ l ∧ Forall (λ e, deprovision_call claim (ev_call e)) l).
Proof.
  destruct (GetStrategy _ _) as [s|err] eqn:Hs.
  - pose proof (GetStrategy_laws _ _ _ _ _ Hlaws Hs) as Hsl.
    eapply wp_mono; [done| |apply wp_with_calls; [apply deprovision_spec|apply deprovision_calls]].
    intros x tr [Hx Hl]. split; [auto|done].
  - split; [|exists []; by rewrite app_nil_r]. intros _. right. unfold GetStrategy in Hs.
    by destruct (_ !! _).
Qed.

Lemma handleDeletion_wp claim past :
  wp E (handleDeletion r claim) past (λ _ tr, ∃ l, tr = past ++ l ∧
    (Forall (λ e, deprovision_call claim (ev_call e)) l ∨
     ∃ l0 reply l1,
       l = l0 ++ Ev (Update KResourceClaim (remove_claim_finalizer claim)) reply :: l1 ∧
       Forall (λ e, deprovision_call claim (ev_call e)) l0 ∧
       Forall (λ e, is_write (ev_call e) = false) l1 ∧
       (cleaned (rcs_Type (rc_Spec claim)) claim (past ++ l0) ∨
        sel_strategies (pv_StrategySelector r) !! rcs_Type (rc_Spec claim) = None))).
Proof.
  unfold handleDeletion. destruct (claim_has_finalizer claim); cbn [negb].
  2:{ exists []. rewrite app_nil_r. split; [done|]. by left. }
  rewrite wp_bind. intros [] _. cbn [wp]. rewrite wp_bind.
  eapply wp_mono; [done| |apply deprovision_wp].
  intros [[]|err] tr [Hx (l & -> & Hl)].
  - rewrite wp_bind. intros updated _. rewrite <- app_assoc in Hx |- *.
    set (l0 := [_] ++ l) in Hx |- *. assert (Forall (λ e, deprovision_call claim (ev_call e)) l0) as Hl0
      by (constructor; [by apply read_deprovision|done]).
    destruct updated as [claim'|err]; cbn [wp].
    + rewrite wp_bind. intros [] _. cbn [wp mret prog_ret]. rewrite <- !app_assoc.
      eexists. split; [done|]. right. eexists l0, _, _. split; [done|]. split; [done|].
      split; [by repeat constructor|]. by apply Hx.
    + rewrite <- app_assoc. eexists. split; [done|]. right. eexists l0, _, []. split; [done|].
      split; [done|]. split; [done|]. by apply Hx.
  - rewrite wp_bind. intros [] _. cbn [wp mret prog_ret]. rewrite <- !app_assoc.
    eexists. split; [done|]. left. constructor; [by apply read_deprovision|].
    apply Forall_app_2; [done|]. constructor; [by apply read_deprovision|done].
Qed.

(** *** One reconcile

    What follows the read of the claim: nothing, the clean-up, the first status, or
    the handling of its phase. *)
Inductive claim_outcome (claim : ResourceClaim) (past : list event) : list event → Prop :=
| outcome_none : claim_outcome claim past []
| outcome_cleaning l :
    IsBeingDeleted claim = true → Forall (λ e, deprovision_call claim (ev_call e)) l →
    claim_outcome claim past l
| outcome_removed l0 reply l1 :
    IsBeingDeleted claim = true → Forall (λ e, deprovision_call claim (ev_call e)) l0 →
    Forall (λ e, is_write (ev_call e) = false) l1 →
    cleaned (rcs_Type (rc_Spec claim)) claim (past ++ l0) ∨
      sel_strategies (pv_StrategySelector r) !! rcs_Type (rc_Spec claim) = None →
    claim_outcome claim past
      (l0 ++ Ev (Update KResourceClaim (remove_claim_finalizer claim)) reply :: l1)
| outcome_not_stored reply :
    IsBeingDeleted claim = false → claim_has_finalizer claim = false →
    claim_outcome claim past [Ev (Update KResourceClaim (add_claim_finalizer claim)) reply]
| outcome_initialized reply now written reply' :
    IsBeingDeleted claim = false → claim_has_finalizer claim = false →
    outputs_match written → phase_of written = ResourceClaimPhasePending →
    claim_outcome claim past [Ev (Update KResourceClaim (add_claim_finalizer claim)) reply;
      Ev Now now; Ev (StatusUpdate KResourceClaim written) reply']
| outcome_handled l written reply :
    IsBeingDeleted claim = false → claim_has_finalizer claim = true →
    Forall (λ e, provision_call claim (ev_call e)) l → outputs_match written →
    phase_step true (phase_of claim) (phase_of written) →
    claim_outcome claim past (l ++ [Ev (StatusUpdate KResourceClaim written) reply]).

Lemma ReconcileClaim_wp req :
  wp (wf E) (ReconcileClaim r req) [] (λ _ tr, ∃ got l, tr = Ev (Get KResourceClaim req) got :: l ∧
    match (got : res ResourceClaim) with
    | Err _ => l = []
    | Ok claim => claim_outcome claim [Ev (Get KResourceClaim req) got] l
    end).
Proof.
  unfold ReconcileClaim. rewrite wp_bind. intros got [_ Hmatch]. cbn [wp app].
  destruct got as [claim|err]; [|by eexists (Err err), []].
  assert (∀ l, claim_outcome claim [Ev (Get KResourceClaim req) (Ok claim)] l →
    ∃ got l', Ev (Get KResourceClaim req) (Ok claim) :: l = Ev (Get KResourceClaim req) got :: l' ∧
      match (got : res ResourceClaim) with
      | Err _ => l' = []
      | Ok claim => claim_outcome claim [Ev (Get KResourceClaim req) got] l'
      end) as Hgot by (intros l Hl; by exists (Ok claim), l).
  destruct (ShouldReconcile claim); cbn [negb]; [|apply Hgot, outcome_none].
  destruct (IsBeingDeleted claim) eqn:Hd.
  { eapply (wp_mono E); [by intros e []| |apply handleDeletion_wp].
    intros x tr (l & -> & [Hl|(l0 & reply & l1 & -> & Hl0 & Hl1 & Hc)]); apply Hgot.
    - by apply outcome_cleaning.
    - by apply outcome_removed. }
  destruct (claim_has_finalizer claim) eqn:Hf; cbn [negb].
  - rewrite wp_bind. eapply wp_mono; [done| |by apply handleProvisioning_handled].
    intros [claim' res] tr (Hm & Hstep & l & -> & Hl). rewrite wp_bind. intros stored _.
    cbn [wp]. rewrite <- app_assoc.
    by destruct stored; apply (Hgot (l ++ [_])), outcome_handled.
  - unfold initialize_claim. rewrite wp_bind. intros updated _. destruct updated as [c|err]; cbn [wp].
    + rewrite wp_bind. intros now _. cbn [wp]. rewrite wp_bind. intros stored _.
      cbn [wp mret prog_ret app]. apply Hgot, outcome_initialized; [done|done| |done].
      apply SetPending_match.
    + by apply Hgot, outcome_not_stored.
Qed.

(** The writes of an outcome. *)
Inductive outcome_call (claim : ResourceClaim) (past l : list event) (e : event) : Prop :=
| call_delete K name :
    IsBeingDeleted claim = true →
    ev_call e = Delete K (om_Namespace (rc_ObjectMeta claim), name) → K ≠ KResourceClaim →
    outcome_call claim past l e
| call_remove l0 l1 :
    IsBeingDeleted claim = true →
    ev_call e = Update KResourceClaim (remove_claim_finalizer claim) → l = l0 ++ e :: l1 →
    Forall (λ e, is_write (ev_call e) = false) l1 →
    cleaned (rcs_Type (rc_Spec claim)) claim (past ++ l0) ∨
      sel_strategies (pv_StrategySelector r) !! rcs_Type (rc_Spec claim) = None →
    outcome_call claim past l e
| call_add :
    IsBeingDeleted claim = false → claim_has_finalizer claim = false →
    ev_call e = Update KResourceClaim (add_claim_finalizer claim) → outcome_call claim past l e
| call_status written l0 :
    ev_call e = StatusUpdate KResourceClaim written → l = l0 ++ [e] →
    Forall (λ e, status_claim (ev_call e) = None) l0 → outputs_match written →
    phase_step (claim_has_finalizer claim) (phase_of claim) (phase_of written) →
    outcome_call claim past l e
| call_create K o :
    IsBeingDeleted claim = false → claim_has_finalizer claim = true →
    ev_call e = Create K o → K ≠ KResourceClaim → owned_by claim (obj_meta o) →
    outcome_call claim past l e.

Lemma provision_no_status claim l :
  Forall (λ e, provision_call claim (ev_call e)) l →
  Forall (λ e, status_claim (ev_call e) = None) l.
Proof.
  intros Hl. eapply Forall_impl; [exact Hl|]. intros e He.
  destruct (is_write (ev_call e)) eqn:Hw; [|by destruct (ev_call e)].
  by destruct (He Hw) as (K & o & -> & _).
Qed.

Lemma outcome_write claim past l e :
  claim_outcome claim past l → e ∈ l → is_write (ev_call e) = true → outcome_call claim past l e.
Proof.
  destruct 1 as [|l Hd Hl|l0 reply l1 Hd Hl0 Hl1 Hc|reply Hd Hf|reply now w reply' Hd Hf Hm Hph
                |l w reply Hd Hf Hl Hm Hst]; intros He Hw.
  - by apply elem_of_nil in He.
  - rewrite Forall_forall in Hl. destruct (Hl e He Hw) as (K & name & ? & ?). by eapply call_delete.
  - apply elem_of_app in He as [He|[->|He]%elem_of_cons].
    + rewrite Forall_forall in Hl0. destruct (Hl0 e He Hw) as (K & name & ? & ?).
      by eapply call_delete.
    + by eapply call_remove.
    + rewrite Forall_forall in Hl1. specialize (Hl1 e He). congruence.
  - apply list_elem_of_singleton in He as ->. by apply call_add.
  - rewrite !elem_of_cons in He. destruct He as [->|[->|[->|He%elem_of_nil]]]; [|done| |done].
    + by apply call_add.
    + eapply (call_status _ _ _ _ w [_; _]); [done|done|by repeat constructor|done|].
      rewrite Hf, Hph. constructor.
  - apply elem_of_app in He as [He| ->%list_elem_of_singleton].
    + rewrite Forall_forall in Hl. destruct (Hl e He Hw) as (K & o & ? & ? & ?).
      by eapply call_create.
    + eapply call_status; [done|done|by eapply provision_no_status|done|]. by rewrite Hf.
Qed.

(** The write [e] is a write of the claim that was read. *)
Lemma ReconcileClaim_writes req :
  wp (wf E) (ReconcileClaim r req) [] (λ _ tr, ∀ e, e ∈ tr → is_write (ev_call e) = true →
    ∃ claim l, tr = Ev (Get KResourceClaim req) (Ok claim) :: l ∧
      outcome_call claim [Ev (Get KResourceClaim req) (Ok claim)] l e).
Proof.
  eapply wp_mono; [done| |apply ReconcileClaim_wp].
  intros _ tr (got & l & -> & Hl) e [->|He]%elem_of_cons Hw; [done|].
  destruct got as [claim|err]; [|subst l; by apply elem_of_nil in He].
  exists claim, l. split; [done|]. by eapply outcome_write.
Qed.

(** A Bound claim is left as it is, or fails. *)
Lemma handleProvisioning_bound claim past :
  phase_of claim = ResourceClaimPhaseBound →
  wp E (handleProvisioning r claim) past (λ x tr,
    (x.1 = claim ∨ phase_of x.1 = ResourceClaimPhaseFailed) ∧
    ∃ l, tr = past ++ l ∧ Forall (λ e, is_write (ev_call e) = false) l).
Proof.
  intros Hp. unfold phase_of in Hp. apply (wp_with_calls E (λ c, is_write c = false));
    unfold handleProvisioning; rewrite Hp; destruct (GetStrategy _ _) as [s|err] eqn:Hs.
  - pose proof (GetStrategy_laws _ _ _ _ _ Hlaws Hs) as Hsl. unfold handleBoundPhase.
    rewrite wp_bind. eapply wp_mono; [done| |apply status_spec].
    intros [[[phase reason] message]|err] tr _; [|by left].
    case_bool_decide; [|by left]. intros now _. cbn [wp]. intros [] _. by right.
  - intros now _. cbn [wp]. intros [] _. by right.
  - pose proof (GetStrategy_laws _ _ _ _ _ Hlaws Hs) as Hsl.
    unfold handleBoundPhase, fail_claim, claim_event. apply every_call_bind; [apply status_reads|].
    by calls.
  - unfold fail_claim, claim_event. by calls.
Qed.

(** A claim that is Bound at its generation is not looked at again, although the
    reconcile that bound it asks for a health check after ten minutes.  A Bound claim
    whose specification has changed is never provisioned again: unless the strategy
    finds it failed, its status is stored as it was read, with the old generation. *)
Theorem bound_claim_not_checked req (claim : ResourceClaim) :
  phase_of claim = ResourceClaimPhaseBound → IsBeingDeleted claim = false →
  (GetReconcileResult claim None = (requeue_after (10 * Minute), None)) ∧
  (rst_ObservedGeneration (rc_Status claim) = om_Generation (rc_ObjectMeta claim) →
   wp (reads KResourceClaim req claim) (ReconcileClaim r req) [] (λ x tr,
     x = (Result_zero, None) ∧ tr = [Ev (Get KResourceClaim req) (Ok claim)])) ∧
  (claim_has_finalizer claim = true →
   wp (λ e, E e ∧ reads KResourceClaim req claim e) (ReconcileClaim r req) [] (λ _ tr,
     ∀ e written, e ∈ tr → status_claim (ev_call e) = Some written →
       written = claim ∨ phase_of written = ResourceClaimPhaseFailed)).
Proof.
  intros Hp Hd. split; [unfold GetReconcileResult; unfold phase_of in Hp; by rewrite Hp|]. split.
  - intros Hgen. unfold ReconcileClaim. rewrite wp_bind. intros got Hgot. rewrite (Hgot got eq_refl). cbn [wp].
    assert (ShouldReconcile claim = false) as ->; [|done].
    unfold ShouldReconcile, phase_of in *. rewrite Hd, Hp, bool_decide_true by done.
    cbn [andb]. by rewrite Hgen, Z.eqb_refl.
  - intros Hf. unfold ReconcileClaim. rewrite wp_bind. intros got [_ Hgot]. rewrite (Hgot got eq_refl). cbn [wp].
    destruct (ShouldReconcile claim); cbn [negb].
    2:{ by intros e written ->%list_elem_of_singleton. }
    rewrite Hd, Hf. cbn [negb]. rewrite wp_bind.
    eapply (wp_mono E); [by intros e []| |by apply handleProvisioning_bound].
    intros [claim' res] tr [Hc (l & -> & Hl)]. rewrite wp_bind. intros stored _.
    assert (∀ e written, e ∈ ([] ++ [Ev (Get KResourceClaim req) (Ok claim)]) ++ l ++
      [Ev (StatusUpdate KResourceClaim claim') stored] → status_claim (ev_call e) = Some written →
      written = claim ∨ phase_of written = ResourceClaimPhaseFailed) as Hall.
    { intros e written. rewrite !elem_of_app, !list_elem_of_singleton.
      intros [[He%elem_of_nil| ->]|[He| ->]] Hw; [done..| |by injection Hw as <-].
      rewrite Forall_forall in Hl. specialize (Hl e He). by destruct (ev_call e). }
    rewrite app_assoc in Hall. by destruct stored.
Qed.
End reconcile.
