(* ===== verification/Strategies.v ===== *)
(** * Strategies: [internal/provisioner/strategy/{secret,redis,postgres}]

    The three provisioning strategies.  Each is an instance of the interface of
    [Strategy.v], whose promises it keeps. *)
From S2P Require Import Prelude GoStrings Json K8s Api Client Conditions Placeholders Lifecycle.
From S2P Require Import Strategy Provisioner.

Definition SecretTypeOpaque := "Opaque".

Definition resource_labels (claim : ResourceClaim) (type : string) : gmap string string :=
  {["score.dev/resource-claim" := om_Name (rc_ObjectMeta claim);
    "score.dev/resource-type" := type]}.

(** The metadata of an object made for a claim, before the owner is set. *)
Definition resource_meta (claim : ResourceClaim) (name : string)
    (labels : gmap string string) : ObjectMeta :=
  {| ObjectMeta_zero with om_Name := name;
     om_Namespace := om_Namespace (rc_ObjectMeta claim); om_Labels := Some labels |}.

(** ** Random credentials *)

(** [base64.URLEncoding.EncodeToString(bytes)[:length]], which panics when the text
    is shorter. *)
Definition cut_or_panic (text : string) (length : nat) : prog string :=
  if String.length text <? length then Panic else mret (String.substring 0 length text).

Definition generateRandomToken (length : nat) : prog string :=
  bytes ← ask (RandRead length);
  match (bytes : option string) with
  | None => mret ("fallback-token-" +:+ FormatInt (Z.of_nat length))
  | Some bytes => cut_or_panic (base64 true bytes) length
  end.

(** [substring] keeps a text that is not longer. *)
Definition generateRandomPassword (length : nat) : prog (res string) :=
  bytes ← ask (RandRead length);
  mret match (bytes : option string) with
       | None => Err (ENew "random source failed")
       | Some bytes => Ok (String.substring 0 length (base64 true bytes))
       end.

(** ** Objects *)

(** Look the object up and create it when it is missing. *)
Definition create_if_absent (K : Kind) (what : string) (o : obj K) : prog (res ()) :=
  got ← ask (Get K (obj_key o));
  match (got : res (obj K)) with
  | Ok _ => mret (Ok ())
  | Err err =>
      if negb (IsNotFound err)
      then mret (Err (EWrap ("failed to check existing " +:+ what) err))
      else
        created ← ask (Create K o);
        mret match (created : res (obj K)) with
             | Err err => Err (EWrap ("failed to create " +:+ what) err)
             | Ok _ => Ok ()
             end
  end.

(** [client.IgnoreNotFound] on a deletion. *)
Definition delete_if_present (K : Kind) (what : string) (claim : ResourceClaim)
    (name : string) : prog (res ()) :=
  deleted ← ask (Delete K (om_Namespace (rc_ObjectMeta claim), name));
  mret match (deleted : res ()) with
       | Ok _ => Ok ()
       | Err err => if IsNotFound err then Ok ()
                    else Err (EWrap ("failed to delete " +:+ what) err)
       end.

(** Outputs that refer to a Secret. *)
Definition secret_outputs (name : string) : option ResourceClaimOutputs :=
  Some (CreateSecretRefOutput name).

(** Look a required object up: [absent] is what is reported when it is missing. *)
Definition check_object {A} (K : Kind) (claim : ResourceClaim) (name : string)
    (absent : A) (present : obj K → prog (res A)) : prog (res A) :=
  got ← ask (Get K (om_Namespace (rc_ObjectMeta claim), name));
  match (got : res (obj K)) with
  | Err err => if negb (IsNotFound err) then mret (Err err) else mret (Ok absent)
  | Ok o => present o
  end.

Section strategies.
Context `{!Scheme}.

(** Set the claim as the controller of the object with metadata [m]. *)
Definition controlled (claim : ResourceClaim) (m : ObjectMeta) : res ObjectMeta :=
  match SetControllerReference KResourceClaim (rc_ObjectMeta claim) m with
  | Err err => Err (EWrap "failed to set owner reference" err)
  | Ok m => Ok m
  end.

(** ** secret_strategy.go *)

Definition secret_name (claim : ResourceClaim) : string :=
  om_Name (rc_ObjectMeta claim) +:+ "-secret".

Definition secret_Provision (claim : ResourceClaim) :
    prog (res (option ResourceClaimOutputs)) :=
  token ← generateRandomToken 32;
  match controlled claim (resource_meta claim (secret_name claim)
                            (resource_labels claim "secret")) with
  | Err err => mret (Err err)
  | Ok m =>
      create_if_absent KSecret "secret"
        {| sec_ObjectMeta := m; sec_Type := SecretTypeOpaque;
           sec_Data := {["username" := "user"; "token" := token]} |};;?
      mret (Ok (secret_outputs (om_Name m)))
  end.

Definition secret_Deprovision (claim : ResourceClaim) :
    prog (res ()) :=
  delete_if_present KSecret "secret" claim (secret_name claim).

Definition secret_GetStatus (claim : ResourceClaim) :
    prog (res (ResourceClaimPhase * string * string)) :=
  check_object KSecret claim (secret_name claim)
    (ResourceClaimPhaseClaiming, "SecretCreating", "Secret is being created")
    (λ _, mret (Ok (ResourceClaimPhaseBound, "Succeeded", "Secret is available"))).

Definition SecretStrategy : Strategy :=
  {| GetType := "secret"; Provision := secret_Provision; Deprovision := secret_Deprovision;
     GetStatus := secret_GetStatus |}.

(** ** redis_strategy.go *)

Definition redis_secret_name (claim : ResourceClaim) : string :=
  om_Name (rc_ObjectMeta claim) +:+ "-redis-secret".

Definition redis_data (claim : ResourceClaim) (password : string) : gmap string string :=
  let host := om_Name (rc_ObjectMeta claim) +:+ "-redis-service" in
  let port := "6379" in
  {["password" := password; "host" := host; "port" := port;
    "uri" := "redis://:" +:+ password +:+ "@" +:+ host +:+ ":" +:+ port]}.

Definition redis_Provision (claim : ResourceClaim) :
    prog (res (option ResourceClaimOutputs)) :=
  password ←? wrap "failed to generate password" (generateRandomPassword 16);
  match controlled claim (resource_meta claim (redis_secret_name claim)
                            (resource_labels claim "redis")) with
  | Err err => mret (Err err)
  | Ok m =>
      create_if_absent KSecret "secret"
        {| sec_ObjectMeta := m; sec_Type := SecretTypeOpaque;
           sec_Data := redis_data claim password |};;?
      mret (Ok (secret_outputs (om_Name m)))
  end.

Definition redis_Deprovision (claim : ResourceClaim) :
    prog (res ()) :=
  delete_if_present KSecret "redis secret" claim (redis_secret_name claim).

Definition redis_GetStatus (claim : ResourceClaim) :
    prog (res (ResourceClaimPhase * string * string)) :=
  check_object KSecret claim (redis_secret_name claim)
    (ResourceClaimPhaseClaiming, "SecretCreating", "Redis secret is being created")
    (λ _, mret (Ok (ResourceClaimPhaseBound, "Succeeded", "Redis credentials are available"))).

Definition RedisStrategy : Strategy :=
  {| GetType := "redis"; Provision := redis_Provision; Deprovision := redis_Deprovision;
     GetStatus := redis_GetStatus |}.

(** ** postgres_strategy.go *)

Definition postgres_name (claim : ResourceClaim) : string :=
  om_Name (rc_ObjectMeta claim) +:+ "-postgres".
Definition postgres_service_name (claim : ResourceClaim) : string :=
  om_Name (rc_ObjectMeta claim) +:+ "-postgres-service".
Definition postgres_secret_name (claim : ResourceClaim) : string :=
  om_Name (rc_ObjectMeta claim) +:+ "-postgres-secret".

Definition postgres_data (claim : ResourceClaim) (username password : string) :
    gmap string string :=
  let host := postgres_service_name claim in
  let port := "5432" in
  {["username" := username; "password" := password; "host" := host; "port" := port;
    "database" := "postgres";
    "uri" := "postgresql://" +:+ username +:+ ":" +:+ password +:+ "@" +:+ host +:+ ":" +:+ port
               +:+ "/postgres"]}.

Definition app_labels (claim : ResourceClaim) : gmap string string :=
  <["app" := postgres_name claim]> (resource_labels claim "postgres").

Definition pg_isready (username : string) (initial period : Z) : Probe :=
  {| prb_Command := ["pg_isready"; "-U"; username; "-d"; "postgres"];
     prb_InitialDelaySeconds := initial; prb_PeriodSeconds := period;
     prb_TimeoutSeconds := 5; prb_FailureThreshold := 3 |}.

Definition postgres_container (username password : string) : Container :=
  {| ctr_Name := "postgres"; ctr_Image := "postgres:13";
     ctr_Env := [{| env_Name := "POSTGRES_USER"; env_Value := username |};
                 {| env_Name := "POSTGRES_PASSWORD"; env_Value := password |};
                 {| env_Name := "POSTGRES_DB"; env_Value := "postgres" |};
                 {| env_Name := "PGDATA"; env_Value := "/var/lib/postgresql/data/pgdata" |}];
     ctr_Ports := [{| cp_Name := "postgres"; cp_ContainerPort := 5432 |}];
     ctr_VolumeMounts := [{| vm_Name := "postgres-data";
                             vm_MountPath := "/var/lib/postgresql/data" |}];
     ctr_Resources := Some {| rl_Requests := {["memory" := "128Mi"; "cpu" := "100m"]};
                              rl_Limits := {["memory" := "512Mi"; "cpu" := "500m"]} |};
     ctr_ReadinessProbe := Some (pg_isready username 30 10);
     ctr_LivenessProbe := Some (pg_isready username 60 30);
     ctr_SecurityContext := Some
       {| sc_RunAsUser := Some 999%Z; sc_RunAsGroup := Some 999%Z; sc_FSGroup := None;
          sc_RunAsNonRoot := Some true; sc_AllowPrivilegeEscalation := Some false;
          sc_ReadOnlyRootFilesystem := Some false; sc_Drop := ["ALL"] |} |}.

Definition postgres_statefulset (claim : ResourceClaim) (username password : string)
    (m : ObjectMeta) : StatefulSet :=
  {| sts_ObjectMeta := m; sts_ServiceName := postgres_service_name claim;
     sts_Replicas := Some 1%Z; sts_Selector := {["app" := postgres_name claim]};
     sts_Template :=
       {| pts_Labels := {["app" := postgres_name claim]};
          pts_SecurityContext := Some
            {| sc_RunAsUser := Some 999%Z; sc_RunAsGroup := Some 999%Z;
               sc_FSGroup := Some 999%Z; sc_RunAsNonRoot := Some true;
               sc_AllowPrivilegeEscalation := None; sc_ReadOnlyRootFilesystem := None;
               sc_Drop := [] |};
          pts_Containers := [postgres_container username password] |};
     sts_VolumeClaimTemplates :=
       [{| pvc_Name := "postgres-data"; pvc_AccessModes := ["ReadWriteOnce"];
           pvc_Storage := "1Gi" |}];
     sts_ReadyReplicas := 0 |}.

Definition createStatefulSet (claim : ResourceClaim) (username password : string) :
    prog (res ()) :=
  match controlled claim (resource_meta claim (postgres_name claim) (app_labels claim)) with
  | Err err => mret (Err err)
  | Ok m => create_if_absent KStatefulSet "statefulset"
              (postgres_statefulset claim username password m)
  end.

Definition createService (claim : ResourceClaim) : prog (res ()) :=
  match controlled claim (resource_meta claim (postgres_service_name claim)
                            (app_labels claim)) with
  | Err err => mret (Err err)
  | Ok m => create_if_absent KService "service"
      {| svc_ObjectMeta := m; svc_Type := "ClusterIP"; svc_ClusterIP := "";
         svc_Ports := [{| ksp_Name := "postgres"; ksp_Port := 5432; ksp_TargetPort := 5432;
                          ksp_NodePort := 0; ksp_Protocol := "TCP" |}];
         svc_Selector := {["app" := postgres_name claim]}; svc_Ingress := [] |}
  end.

Definition createPostgresSecret (claim : ResourceClaim) (username password : string) :
    prog (res (option ResourceClaimOutputs)) :=
  match controlled claim (resource_meta claim (postgres_secret_name claim)
                            (resource_labels claim "postgres")) with
  | Err err => mret (Err err)
  | Ok m =>
      create_if_absent KSecret "secret"
        {| sec_ObjectMeta := m; sec_Type := SecretTypeOpaque;
           sec_Data := postgres_data claim username password |};;?
      mret (Ok (secret_outputs (om_Name m)))
  end.

Definition postgres_Provision (claim : ResourceClaim) :
    prog (res (option ResourceClaimOutputs)) :=
  let username := "postgres" in
  password ←? wrap "failed to generate password" (generateRandomPassword 16);
  wrap "failed to create postgres statefulset" (createStatefulSet claim username password);;?
  wrap "failed to create postgres service" (createService claim);;?
  createPostgresSecret claim username password.

Definition postgres_Deprovision (claim : ResourceClaim) :
    prog (res ()) :=
  delete_if_present KStatefulSet "postgres statefulset" claim (postgres_name claim);;?
  delete_if_present KService "postgres service" claim (postgres_service_name claim);;?
  delete_if_present KSecret "postgres secret" claim (postgres_secret_name claim).

Definition postgres_GetStatus (claim : ResourceClaim) :
    prog (res (ResourceClaimPhase * string * string)) :=
  let claiming reason message := (ResourceClaimPhaseClaiming, reason, message) in
  check_object KSecret claim (postgres_secret_name claim)
    (claiming "ResourcesCreating" "PostgreSQL resources are being created") (λ _,
  check_object KStatefulSet claim (postgres_name claim)
    (claiming "StatefulSetCreating" "PostgreSQL StatefulSet is being created")
    (λ statefulSet : StatefulSet,
  replicas ← deref (sts_Replicas statefulSet);
  if (sts_ReadyReplicas statefulSet <? replicas)%Z
  then mret (Ok (claiming "StatefulSetNotReady" "PostgreSQL StatefulSet is not ready yet"))
  else
  check_object KService claim (postgres_service_name claim)
    (claiming "ServiceCreating" "PostgreSQL Service is being created") (λ _,
  mret (Ok (ResourceClaimPhaseBound, "Succeeded",
            "PostgreSQL instance is ready and available"))))).

Definition PostgresStrategy : Strategy :=
  {| GetType := "postgres"; Provision := postgres_Provision; Deprovision := postgres_Deprovision;
     GetStatus := postgres_GetStatus |}.

(** [registerStrategies] on a new selector. *)
Definition registerStrategies (s : Selector) : Selector :=
  RegisterStrategy (RegisterStrategy (RegisterStrategy s PostgresStrategy) RedisStrategy)
    SecretStrategy.

(** [loadProvisioningConfig] *)
Definition provisioning_config (type strategy : string) : ProvisioningConfig :=
  {| pcf_Type := type; pcf_Strategy := strategy; pcf_Config := ∅; pcf_Outputs := ∅ |}.

Definition loadProvisioningConfig (s : Selector) : Selector :=
  sel_LoadConfig s [provisioning_config "postgres" "postgres"; provisioning_config "redis" "redis";
                    provisioning_config "test" "mock"; provisioning_config "mock" "mock"].

(** The reconciler after its set-up. *)
Definition NewProvisionerReconciler (envTypes : string) : ProvisionerReconciler :=
  {| pv_StrategySelector := registerStrategies (loadProvisioningConfig NewSelector);
     pv_supportedTypes := loadSupportedTypes envTypes |}.
End strategies.

(** ** The promises are kept *)

(** [rand.Read] fills the whole slice, and the API server stores every StatefulSet
    with a number of replicas. *)
Definition platform_ok (e : event) : Prop :=
  match e with
  | Ev (RandRead n) (Some bytes) => String.length bytes = n
  | Ev (Get KStatefulSet _) (Ok s) => is_Some (sts_Replicas s)
  | _ => True
  end.

(** The objects that are made for a claim of a type. *)
Definition claim_objects (type : string) (claim : ResourceClaim) : list (Kind * string) :=
  if bool_decide (type = "postgres")
  then [(KStatefulSet, postgres_name claim); (KService, postgres_service_name claim);
        (KSecret, postgres_secret_name claim)]
  else if bool_decide (type = "redis") then [(KSecret, redis_secret_name claim)]
  else if bool_decide (type = "secret") then [(KSecret, secret_name claim)]
  else [].

(** The API server has confirmed that the object is being deleted or does not exist. *)
Definition confirmed_gone (claim : ResourceClaim) (tr : list event) (o : Kind * string) : Prop :=
  ∃ reply : res (), Ev (Delete o.1 (om_Namespace (rc_ObjectMeta claim), o.2)) reply ∈ tr ∧
    match reply with Ok _ => True | Err err => IsNotFound err = true end.

Definition all_gone (type : string) (claim : ResourceClaim) (tr : list event) : Prop :=
  Forall (confirmed_gone claim tr) (claim_objects type claim).

Lemma confirmed_gone_mono claim tr l o :
  confirmed_gone claim tr o → confirmed_gone claim (tr ++ l) o.
Proof. intros (reply & Hin & Hr). exists reply. split; [|done]. apply elem_of_app. by left. Qed.

Lemma secret_outputs_valid name : name ≠ "" → ValidateOutputs (secret_outputs name) = None.
Proof.
  intros Hn. unfold ValidateOutputs, secret_outputs, CreateSecretRefOutput. cbn.
  by rewrite bool_decide_false.
Qed.

Lemma append_ne a b : b ≠ "" → a +:+ b ≠ "".
Proof. by destruct a. Qed.

Section promises.
Context `{!Scheme} `{!SchemeLaws}.

Lemma controlled_spec claim name labels m :
  controlled claim (resource_meta claim name labels) = Ok m →
  om_Name m = name ∧ owned_by claim m.
Proof.
  unfold controlled. destruct (SetControllerReference _ _ _) as [m'|] eqn:Hs; [|done].
  intros [= <-]. apply SetControllerReference_spec in Hs as (refs & -> & ref & Hin & Hu & _ & Hc).
  split; [done|]. split; [done|]. by exists ref.
Qed.

Lemma create_if_absent_calls claim K what o :
  K ≠ KResourceClaim → owned_by claim (obj_meta o) →
  every_call (provision_call claim) (create_if_absent K what o).
Proof.
  intros HK Ho. unfold create_if_absent. calls; [done|]. intros _. by exists K, o.
Qed.

Lemma create_if_absent_total E K what o past :
  wp E (create_if_absent K what o) past (λ _ _, True).
Proof.
  unfold create_if_absent. rewrite wp_bind. intros [o'|err] _; cbn [wp]; [done|].
  destruct (negb (IsNotFound err)); [done|]. rewrite wp_bind. by intros r _.
Qed.

Lemma delete_if_present_spec E K what claim name past :
  wp E (delete_if_present K what claim name) past (λ r tr, ∃ l, tr = past ++ l ∧
    (r = Ok () → confirmed_gone claim tr (K, name))).
Proof.
  unfold delete_if_present. rewrite wp_bind. intros deleted _. cbn [wp mret prog_ret].
  eexists. split; [done|]. intros Hr. exists deleted.
  split; [apply elem_of_app; right; by left|]. destruct deleted as [|err]; [done|].
  by destruct (IsNotFound err).
Qed.

Lemma delete_if_present_calls K what claim name :
  K ≠ KResourceClaim → every_call (deprovision_call claim) (delete_if_present K what claim name).
Proof. intros HK. unfold delete_if_present. calls. intros _. by exists K, name. Qed.

Lemma check_object_total {A} E K claim name (absent : A) present past :
  (∀ o tr, E (Ev (Get K (om_Namespace (rc_ObjectMeta claim), name)) (Ok o)) →
           wp E (present o) tr (λ _ _, True)) →
  wp E (check_object K claim name absent present) past (λ _ _, True).
Proof.
  intros Hp. unfold check_object. rewrite wp_bind. intros [o|err] He; cbn [wp]; [by apply Hp|].
  by destruct (negb (IsNotFound err)).
Qed.

Lemma check_object_reads {A} K claim name (absent : A) present :
  (∀ o, read_only (present o)) → read_only (check_object K claim name absent present).
Proof. intros Hp. unfold read_only, check_object. calls; [done|]. apply Hp. Qed.

(** *** Passwords *)

Lemma base64_long n bytes : String.length bytes = n → n ≤ String.length (base64 true bytes).
Proof.
  intros Hb. rewrite (base64_length true n) by done.
  pose proof (Nat.div_mod (n + 2) 3 ltac:(done)).
  pose proof (Nat.mod_upper_bound (n + 2) 3 ltac:(done)). lia.
Qed.

Lemma substring_length n s : n ≤ String.length s → String.length (String.substring 0 n s) = n.
Proof.
  revert n. induction s as [|a s IH]; intros [|n]; simpl; try done; [lia|].
  intros Hn. rewrite IH; [done|lia].
Qed.

Lemma generateRandomToken_spec n past :
  wp platform_ok (generateRandomToken n) past (λ token _,
    String.length token = n ∨ token = "fallback-token-" +:+ FormatInt (Z.of_nat n)).
Proof.
  unfold generateRandomToken. rewrite wp_bind. intros [bytes|] Hb; cbn [wp]; [|by right].
  simpl in Hb. apply base64_long in Hb. unfold cut_or_panic.
  destruct (String.length (base64 true bytes) <? n) eqn:Hl; [apply Nat.ltb_lt in Hl; lia|].
  left. by apply substring_length.
Qed.

Lemma generateRandomPassword_spec n past :
  wp platform_ok (generateRandomPassword n) past (λ r _,
    ∀ password, r = Ok password → String.length password = n).
Proof.
  unfold generateRandomPassword. rewrite wp_bind. intros [bytes|] Hb; cbn [wp mret prog_ret]; [|done].
  intros password [= <-]. apply substring_length, base64_long, Hb.
Qed.

(** *** The strategies *)

(** The Secret of a claim, and the outputs that refer to it. *)
Lemma secret_step E claim name labels data past :
  name ≠ "" →
  wp E (match controlled claim (resource_meta claim name labels) with
    | Err err => mret (Err err)
    | Ok m => create_if_absent KSecret "secret"
                {| sec_ObjectMeta := m; sec_Type := SecretTypeOpaque; sec_Data := data |};;?
              mret (Ok (secret_outputs (om_Name m)))
    end) past (λ r _, ∀ outputs, r = Ok outputs → ValidateOutputs outputs = None).
Proof.
  intros Hn. destruct (controlled _ _) as [m|err] eqn:Hc; [|done].
  apply controlled_spec in Hc as [Hm _]. rewrite wp_bind_res.
  eapply wp_mono; [done| |apply create_if_absent_total]. intros [[]|err] tr _; [|done].
  intros outputs [= <-]. rewrite Hm. by apply secret_outputs_valid.
Qed.

Lemma secret_step_calls claim name labels data :
  every_call (provision_call claim) (match controlled claim (resource_meta claim name labels) with
    | Err err => mret (Err err)
    | Ok m => create_if_absent KSecret "secret"
                {| sec_ObjectMeta := m; sec_Type := SecretTypeOpaque; sec_Data := data |};;?
              mret (Ok (secret_outputs (om_Name m)))
    end).
Proof.
  destruct (controlled _ _) as [m|err] eqn:Hc; [|done]. apply controlled_spec in Hc as [_ Ho].
  apply every_call_bind_res; [|done]. by apply create_if_absent_calls.
Qed.

Lemma SecretStrategy_laws : StrategyLaws platform_ok SecretStrategy (all_gone "secret").
Proof.
  split; intros claim; try intros past; cbn [Provision Deprovision GetStatus SecretStrategy];
    unfold secret_Provision, secret_Deprovision, secret_GetStatus.
  - rewrite wp_bind. eapply wp_mono; [done| |apply generateRandomToken_spec].
    intros token tr _. apply secret_step. by apply append_ne.
  - unfold generateRandomToken, cut_or_panic. apply every_call_bind; [by calls|].
    intros token. apply secret_step_calls.
  - eapply wp_mono; [done| |apply delete_if_present_spec]. intros r tr (l & _ & Hr) Hok.
    repeat constructor. by apply Hr.
  - by apply delete_if_present_calls.
  - by apply check_object_total.
  - by apply check_object_reads.
Qed.

Lemma RedisStrategy_laws : StrategyLaws platform_ok RedisStrategy (all_gone "redis").
Proof.
  split; intros claim; try intros past; cbn [Provision Deprovision GetStatus RedisStrategy];
    unfold redis_Provision, redis_Deprovision, redis_GetStatus.
  - rewrite wp_bind_res. unfold wrap. rewrite wp_bind.
    eapply wp_mono; [done| |apply generateRandomPassword_spec].
    intros [password|err] tr _; [|done]. apply secret_step. by apply append_ne.
  - unfold generateRandomPassword. apply every_call_bind_res; [apply every_call_wrap; by calls|].
    intros password. apply secret_step_calls.
  - eapply wp_mono; [done| |apply delete_if_present_spec]. intros r tr (l & _ & Hr) Hok.
    repeat constructor. by apply Hr.
  - by apply delete_if_present_calls.
  - by apply check_object_total.
  - by apply check_object_reads.
Qed.

Lemma createStatefulSet_total E claim username password past :
  wp E (createStatefulSet claim username password) past (λ _ _, True).
Proof.
  unfold createStatefulSet. destruct (controlled _ _); [|done]. apply create_if_absent_total.
Qed.

Lemma createStatefulSet_calls claim username password :
  every_call (provision_call claim) (createStatefulSet claim username password).
Proof.
  unfold createStatefulSet. destruct (controlled _ _) as [m|err] eqn:Hc; [|done].
  apply controlled_spec in Hc as [_ Ho]. by apply create_if_absent_calls.
Qed.

Lemma createService_total E claim past : wp E (createService claim) past (λ _ _, True).
Proof. unfold createService. destruct (controlled _ _); [|done]. apply create_if_absent_total. Qed.

Lemma createService_calls claim : every_call (provision_call claim) (createService claim).
Proof.
  unfold createService. destruct (controlled _ _) as [m|err] eqn:Hc; [|done].
  apply controlled_spec in Hc as [_ Ho]. by apply create_if_absent_calls.
Qed.

(** A step of a program that goes on only after success. *)
Lemma wp_then {A} E prefix (p : prog (res ())) (q : prog (res A)) past (Q : res A → list event → Prop) :
  wp E p past (λ _ _, True) → (∀ e tr, Q (Err e) tr) → (∀ tr, wp E q tr Q) →
  wp E (wrap prefix p;;? q) past Q.
Proof.
  intros Hp He Hq. rewrite wp_bind_res. unfold wrap. rewrite wp_bind.
  eapply wp_mono; [done| |exact Hp]. intros [[]|e] tr _; [apply Hq|apply He].
Qed.

Lemma PostgresStrategy_laws : StrategyLaws platform_ok PostgresStrategy (all_gone "postgres").
Proof.
  split; intros claim; try intros past; cbn [Provision Deprovision GetStatus PostgresStrategy];
    unfold postgres_Provision, postgres_Deprovision, postgres_GetStatus.
  - rewrite wp_bind_res. unfold wrap at 1. rewrite wp_bind.
    eapply wp_mono; [done| |apply generateRandomPassword_spec].
    intros [password|err] tr _; [|done].
    apply wp_then; [apply createStatefulSet_total|done|]. intros tr1.
    apply wp_then; [apply createService_total|done|]. intros tr2.
    apply secret_step. by apply append_ne.
  - unfold generateRandomPassword. apply every_call_bind_res; [apply every_call_wrap; by calls|].
    intros password. apply every_call_bind_res; [apply every_call_wrap, createStatefulSet_calls|].
    intros _. apply every_call_bind_res; [apply every_call_wrap, createService_calls|].
    intros _. apply secret_step_calls.
  - rewrite wp_bind_res. eapply wp_mono; [done| |apply delete_if_present_spec].
    intros [[]|err] tr (l & -> & Hr); [|done]. rewrite wp_bind_res.
    eapply wp_mono; [done| |apply delete_if_present_spec].
    intros [[]|err] tr (l' & -> & Hr'); [|done].
    eapply wp_mono; [done| |apply delete_if_present_spec].
    intros r tr (l'' & -> & Hr'') Hok. repeat constructor.
    + by apply confirmed_gone_mono, confirmed_gone_mono, Hr.
    + by apply confirmed_gone_mono, Hr'.
    + by apply Hr''.
  - repeat (apply every_call_bind_res; [by apply delete_if_present_calls|intros _]).
    by apply delete_if_present_calls.
  - apply check_object_total. intros _ tr _. apply check_object_total. intros s tr' [n Hn].
    rewrite Hn. cbn [deref]. rewrite wp_bind. cbn [wp].
    destruct (sts_ReadyReplicas s <? n)%Z; [done|]. by apply check_object_total.
  - apply check_object_reads. intros _. apply check_object_reads. intros s.
    apply every_call_bind; [apply every_call_deref|]. intros n.
    destruct (sts_ReadyReplicas s <? n)%Z; [done|]. by apply check_object_reads.
Qed.

(** *** The reconciler with its strategies *)

Lemma registered_strategy envTypes t strategy :
  sel_strategies (pv_StrategySelector (NewProvisionerReconciler envTypes)) !! t = Some strategy →
  (t = "postgres" ∧ strategy = PostgresStrategy) ∨ (t = "redis" ∧ strategy = RedisStrategy) ∨
  (t = "secret" ∧ strategy = SecretStrategy).
Proof.
  cbn. rewrite !lookup_insert_Some, lookup_empty. naive_solver.
Qed.

Lemma registered_laws envTypes :
  selector_laws platform_ok all_gone (pv_StrategySelector (NewProvisionerReconciler envTypes)).
Proof.
  intros t strategy [[-> ->]|[[-> ->]|[-> ->]]]%registered_strategy.
  - apply PostgresStrategy_laws.
  - apply RedisStrategy_laws.
  - apply SecretStrategy_laws.
Qed.

(** C22: The registered strategies implement the interface the provisioner relies on:
    they do not panic on a platform whose random source fills its slice and whose
    StatefulSets have a number of replicas; they create only objects in the claim's
    namespace that the claim controls and announce usable outputs; they delete only
    objects of that namespace, and a successful clean-up has the confirmation of the
    API server for every object that was made for the claim; and a status check only
    reads.  They are exactly the types postgres, redis and secret: the types test and
    mock, which the provisioner accepts by default, have none. *)
Theorem strategies_keep_promises envTypes :
  let r := NewProvisionerReconciler envTypes in
  selector_laws platform_ok all_gone (pv_StrategySelector r) ∧
  (∀ t, (∃ s, GetStrategy (pv_StrategySelector r) t = Ok s) ↔ t ∈ ["postgres"; "redis"; "secret"]) ∧
  (loadSupportedTypes "" = {["postgres"; "redis"; "secret"; "test"; "mock"]}).
Proof.
  split; [apply registered_laws|]. split.
  - intros t. unfold GetStrategy. rewrite !elem_of_cons, elem_of_nil. split.
    + intros [s Hs]. destruct (_ !! t) as [s'|] eqn:Hl; [|done].
      apply registered_strategy in Hl. naive_solver.
    + intros [->|[->|[->|[]]]]; by eexists.
  - vm_compute. reflexivity.
Qed.

(** *** One reconcile of a claim, with the registered strategies *)

(** What is made for a claim of a type, if a strategy is registered for it. *)
Lemma cleaned_gone envTypes claim tr :
  (all_gone (rcs_Type (rc_Spec claim)) claim tr ∨
   sel_strategies (pv_StrategySelector (NewProvisionerReconciler envTypes))
     !! rcs_Type (rc_Spec claim) = None) →
  Forall (confirmed_gone claim tr) (claim_objects (rcs_Type (rc_Spec claim)) claim).
Proof.
  intros [Hgone|Hnone]; [exact Hgone|]. unfold claim_objects.
  case_bool_decide as H1; [by rewrite H1 in Hnone|].
  case_bool_decide as H2; [by rewrite H2 in Hnone|].
  case_bool_decide as H3; [by rewrite H3 in Hnone|]. done.
Qed.

Lemma filter_out (x : string) l :
  List.filter (λ f, negb (bool_decide (f = x))) l = filter (λ f, f ≠ x) l.
Proof.
  induction l as [|y l IH]; [done|]. cbn [List.filter]. rewrite IH.
  destruct (decide (y = x)) as [He|He].
  - by rewrite filter_cons_False, bool_decide_true by tauto.
  - by rewrite filter_cons_True, bool_decide_false by done.
Qed.

(** C19: A reconcile of a claim, with the registered strategies, updates a claim at most
    in its finalizers.  A claim that was read as not being deleted and without the
    finalizer of the provisioner gets it, behind the others.  A claim that was read as
    being deleted loses exactly this finalizer, and only after the API server has
    confirmed for each of the objects that are made for a claim of its type that it
    is being deleted or does not exist; there is none when no strategy of its type is
    registered.  Nothing is written after that.  Objects are deleted only for a claim
    that was read as being deleted, in its namespace.  The policy of the claim is not
    looked at.  The server is assumed to return claims that announce outputs exactly
    in phase Bound. *)
Theorem claim_deletion_safe envTypes req :
  wp (wf platform_ok) (ReconcileClaim (NewProvisionerReconciler envTypes) req) [] (λ _ tr,
    (∀ claim' reply, Ev (Update KResourceClaim claim') reply ∈ tr →
       ∃ claim before after, tr = before ++ Ev (Update KResourceClaim claim') reply :: after ∧
         Ev (Get KResourceClaim req) (Ok claim) ∈ before ∧
         let m := rc_ObjectMeta claim in
         ((IsBeingDeleted claim = false ∧ (ResourceClaimFinalizer ∉ om_Finalizers m) ∧
           claim' = {| claim with rc_ObjectMeta :=
             {| m with om_Finalizers := om_Finalizers m ++ [ResourceClaimFinalizer] |} |}) ∨
          (IsBeingDeleted claim = true ∧
           claim' = {| claim with rc_ObjectMeta := {| m with om_Finalizers :=
             filter (λ f, f ≠ ResourceClaimFinalizer) (om_Finalizers m) |} |} ∧
           (∀ K name, (K, name) ∈ claim_objects (rcs_Type (rc_Spec claim)) claim →
              ∃ gone : res (), Ev (Delete K (om_Namespace m, name)) gone ∈ before ∧
                match gone with Ok _ => True | Err err => IsNotFound err = true end) ∧
           Forall (λ e, is_write (ev_call e) = false) after))) ∧
    (∀ K k reply, Ev (Delete K k) reply ∈ tr →
       ∃ claim, Ev (Get KResourceClaim req) (Ok claim) ∈ tr ∧ IsBeingDeleted claim = true ∧
         K ≠ KResourceClaim ∧ k.1 = om_Namespace (rc_ObjectMeta claim))).
Proof.
  eapply wp_mono; [done| |apply (ReconcileClaim_writes _ _ _ (registered_laws envTypes))].
  intros x tr Hall. split.
  - intros claim' reply He. destruct (Hall _ He eq_refl) as (claim & l & -> & Hc).
    set (got := Ev (Get KResourceClaim req) (Ok claim)) in *.
    destruct Hc as [|l0 l1 Hd Heq -> Hl1 Hcl|Hd Hf Heq| |]; try done;
      apply (f_equal updated_claim) in Heq; injection Heq as ->.
    + exists claim, (got :: l0), l1. split; [done|]. split; [by left|]. right. split; [done|].
      split; [unfold remove_claim_finalizer; by rewrite filter_out|]. split; [|done].
      apply cleaned_gone in Hcl. rewrite Forall_forall in Hcl. intros K name Hin.
      exact (Hcl _ Hin).
    + apply elem_of_cons in He as [He|(before & after & ->)%list_elem_of_split]; [done|].
      exists claim, (got :: before), after. split; [done|]. split; [by left|]. left.
      split; [done|]. unfold add_claim_finalizer. rewrite Hf. cbn [negb].
      rewrite <- claim_has_finalizer_iff, Hf. done.
  - intros K k reply He. destruct (Hall _ He eq_refl) as (claim & l & -> & Hc).
    destruct Hc as [K' name Hd Heq Hne| | | |]; try done. simplify_eq/=.
    exists claim. split; [by left|]. done.
Qed.

(** C20: A reconcile of a claim, with the registered strategies, does not panic and
    stores at most one status, as its last call.  This status announces outputs exactly
    in phase Bound, and then usable ones, and its phase is one step of the state machine
    from the phase that was read, as long as the server returns claims that satisfy the
    same invariant.  In the state machine a claim is Claiming only after it has been
    Failed: provisioning goes from Pending to Bound or Failed at once. *)
Theorem claim_status_sound envTypes req :
  wp (wf platform_ok) (ReconcileClaim (NewProvisionerReconciler envTypes) req) [] (λ _ tr,
    ∀ e written, e ∈ tr → status_claim (ev_call e) = Some written →
    ∃ claim before, tr = before ++ [e] ∧
      Forall (λ e, status_claim (ev_call e) = None) before ∧
      Ev (Get KResourceClaim req) (Ok claim) ∈ before ∧ outputs_match written ∧
      phase_step (claim_has_finalizer claim) (phase_of claim) (phase_of written)) ∧
  (∀ h, claim_history h → ResourceClaimPhaseClaiming ∈ h → ResourceClaimPhaseFailed ∈ h).
Proof.
  split; [|apply history_claiming].
  eapply wp_mono; [done| |apply (ReconcileClaim_writes _ _ _ (registered_laws envTypes))].
  intros x tr Hall e written He Hw.
  assert (is_write (ev_call e) = true) as Hwr by (by destruct (ev_call e)).
  destruct (Hall e He Hwr) as (claim & l & -> & Hc).
  destruct Hc as [? ? _ Hc|? ? _ Hc|_ _ Hc|w l0 Hc -> Hl0|? ? _ _ Hc]; rewrite Hc in Hw; try done.
  injection Hw as <-. exists claim, (Ev (Get KResourceClaim req) (Ok claim) :: l0).
  split; [done|]. split; [by constructor|]. split; [by left|]. done.
Qed.

(** C21: A reconcile of a claim, with the registered strategies, creates objects only for
    a claim that it read with its finalizer and not being deleted, in the namespace of
    the claim and controlled by it, and never another claim; it deletes objects only
    for a claim that it read as being deleted and in its namespace, and never the claim
    itself; and it changes nothing else but the finalizers and the status of the claim. *)
Theorem claim_provision_owned envTypes req :
  wp (wf platform_ok) (ReconcileClaim (NewProvisionerReconciler envTypes) req) [] (λ _ tr,
    ∀ e, e ∈ tr → is_write (ev_call e) = true →
    ∃ claim, Ev (Get KResourceClaim req) (Ok claim) ∈ tr ∧
      match ev_call e with
      | Create K o => K ≠ KResourceClaim ∧
          (ResourceClaimFinalizer ∈ om_Finalizers (rc_ObjectMeta claim)) ∧
          IsBeingDeleted claim = false ∧
          om_Namespace (obj_meta o) = om_Namespace (rc_ObjectMeta claim) ∧
          ∃ ref, ref ∈ om_OwnerReferences (obj_meta o) ∧
            or_UID ref = om_UID (rc_ObjectMeta claim) ∧ or_Controller ref = Some true
      | Delete K k => K ≠ KResourceClaim ∧ IsBeingDeleted claim = true ∧
          k.1 = om_Namespace (rc_ObjectMeta claim)
      | Update KResourceClaim c => ∃ fs, c = with_finalizers claim fs
      | StatusUpdate KResourceClaim _ => True
      | _ => False
      end).
Proof.
  eapply wp_mono; [done| |apply (ReconcileClaim_writes _ _ _ (registered_laws envTypes))].
  intros x tr Hall e He Hw. destruct (Hall e He Hw) as (claim & l & -> & Hc). exists claim.
  split; [by left|]. destruct Hc as [? ? Hd ->|? ? _ -> _|_ Hf ->|? ? ->|K o Hd Hf -> HK [Hns Hown]].
  - done.
  - by eexists.
  - unfold add_claim_finalizer. rewrite Hf. by eexists.
  - done.
  - by rewrite <- claim_has_finalizer_iff.
Qed.

(** *** Provisioning again *)

(** Secrets, Services and StatefulSets that are looked up exist. *)
Definition provisioned (e : event) : Prop :=
  match e with
  | Ev (Get KSecret _) r => is_Some (match (r : res Secret) with Ok o => Some o | _ => None end)
  | Ev (Get KService _) r => is_Some (match (r : res Service) with Ok o => Some o | _ => None end)
  | Ev (Get KStatefulSet _) r =>
      is_Some (match (r : res StatefulSet) with Ok o => Some o | _ => None end)
  | Ev (RandRead n) r => ∃ bytes, r = Some bytes ∧ String.length bytes = n
  | _ => True
  end.

Lemma create_present (E : event → Prop) K what (o : obj K) past :
  (∀ r : res (obj K), E (Ev (Get K (obj_key o)) r) → ∃ o', r = Ok o') →
  wp E (create_if_absent K what o) past (λ r tr, r = Ok () ∧
    ∃ g, tr = past ++ [Ev (Get K (obj_key o)) g]).
Proof.
  intros Hget. unfold create_if_absent. rewrite wp_bind. intros r Hr.
  destruct (Hget r Hr) as [o' ->]. cbn [wp mret prog_ret]. eauto.
Qed.

(** Only reads were made since [past]. *)
Definition only_reads (past tr : list event) : Prop :=
  ∃ l, tr = past ++ l ∧ Forall (λ e, is_write (ev_call e) = false) l.

Lemma only_reads_refl past : only_reads past past.
Proof. exists []. by rewrite app_nil_r. Qed.

Lemma only_reads_trans a b c : only_reads a b → only_reads b c → only_reads a c.
Proof.
  intros (l & -> & Hl) (l' & -> & Hl'). exists (l ++ l'). rewrite app_assoc.
  split; [done|]. by apply Forall_app_2.
Qed.

Lemma create_present_reads E K what (o : obj K) past :
  (∀ r : res (obj K), E (Ev (Get K (obj_key o)) r) → ∃ o', r = Ok o') →
  wp E (create_if_absent K what o) past (λ r tr, r = Ok () ∧ only_reads past tr).
Proof.
  intros Hget. eapply wp_mono; [done| |by apply create_present].
  intros r tr [-> [g ->]]. split; [done|]. eexists. split; [done|]. by repeat constructor.
Qed.

Lemma secret_step_present claim name labels data past :
  wp provisioned (match controlled claim (resource_meta claim name labels) with
    | Err err => mret (Err err)
    | Ok m => create_if_absent KSecret "secret"
                {| sec_ObjectMeta := m; sec_Type := SecretTypeOpaque; sec_Data := data |};;?
              mret (Ok (secret_outputs (om_Name m)))
    end) past (λ r tr, only_reads past tr ∧ ∀ o, r = Ok o → o = secret_outputs name).
Proof.
  destruct (controlled _ _) as [m|err] eqn:Hc; [|by split; [apply only_reads_refl|]].
  apply controlled_spec in Hc as [Hm _]. rewrite wp_bind_res.
  eapply wp_mono; [done| |apply create_present_reads].
  - intros r tr [-> Htr]. split; [done|]. rewrite Hm. by intros o [= <-].
  - intros r [s Hs]. destruct r as [o'|]; [by exists o'|done].
Qed.

Lemma createStatefulSet_present claim username password past :
  wp provisioned (createStatefulSet claim username password) past (λ _ tr, only_reads past tr).
Proof.
  unfold createStatefulSet. destruct (controlled _ _) as [m|err]; [|apply only_reads_refl].
  eapply wp_mono; [done| |apply create_present_reads]; [by intros r tr [_ Htr]|].
  intros r [s Hs]. destruct r as [o'|]; [by exists o'|done].
Qed.

Lemma createService_present claim past :
  wp provisioned (createService claim) past (λ _ tr, only_reads past tr).
Proof.
  unfold createService. destruct (controlled _ _) as [m|err]; [|apply only_reads_refl].
  eapply wp_mono; [done| |apply create_present_reads]; [by intros r tr [_ Htr]|].
  intros r [s Hs]. destruct r as [o'|]; [by exists o'|done].
Qed.

(** One random string was read. *)
Lemma password_reads E n past :
  wp E (generateRandomPassword n) past (λ r tr, ∃ bytes,
    tr = past ++ [Ev (RandRead n) bytes] ∧
    r = match bytes with
        | Some bytes => Ok (String.substring 0 n (base64 true bytes))
        | None => Err (ENew "random source failed")
        end).
Proof.
  unfold generateRandomPassword. rewrite wp_bind. intros bytes _. cbn [wp mret prog_ret].
  exists bytes. split; [done|]. by destruct bytes.
Qed.

Lemma only_reads_snoc past c r : is_write c = false → only_reads past (past ++ [Ev c r]).
Proof. intros Hc. eexists. split; [done|]. by repeat constructor. Qed.

Lemma postgres_present claim past :
  wp provisioned (Provision PostgresStrategy claim) past (λ r tr,
    only_reads past tr ∧ ∀ o, r = Ok o → o = secret_outputs (postgres_secret_name claim)).
Proof.
  cbn [Provision PostgresStrategy]. unfold postgres_Provision. rewrite wp_bind_res. unfold wrap at 1. rewrite wp_bind.
  eapply wp_mono; [done| |apply password_reads]. intros r tr (bytes & -> & ->).
  assert (only_reads past (past ++ [Ev (RandRead 16) bytes])) as Hr0 by by apply only_reads_snoc.
  destruct bytes as [bytes|]; cbn [wp res_wrap mret prog_ret]; [|by split].
  rewrite wp_bind_res. unfold wrap at 1. rewrite wp_bind.
  eapply wp_mono; [done| |apply createStatefulSet_present]. intros [[]|err] tr1 Hr1;
    cbn [wp res_wrap mret prog_ret]; [|by split; [eauto using only_reads_trans|]].
  rewrite wp_bind_res. unfold wrap at 1. rewrite wp_bind.
  eapply wp_mono; [done| |apply createService_present]. intros [[]|err] tr2 Hr2;
    cbn [wp res_wrap mret prog_ret]; [|by split; [eauto using only_reads_trans|]].
  eapply wp_mono; [done| |apply secret_step_present]. intros r tr3 [Hr3 Hr].
  split; [eauto using only_reads_trans|done].
Qed.

(** Provisioning a claim whose objects exist writes nothing and announces the same
    Secret again, for each of the strategies. *)
Theorem provision_again envTypes t s claim :
  GetStrategy (pv_StrategySelector (NewProvisionerReconciler envTypes)) t = Ok s →
  wp provisioned (Provision s claim) [] (λ r tr,
    Forall (λ e, is_write (ev_call e) = false) tr ∧
    ∀ outputs, r = Ok outputs →
      ∃ name, (KSecret, name) ∈ claim_objects t claim ∧ outputs = secret_outputs name).
Proof.
  unfold GetStrategy. destruct (_ !! t) as [s'|] eqn:Hl; [|done]. intros [= ->].
  assert (∀ name, (KSecret, name) ∈ claim_objects t claim →
    ∀ (r : res (option ResourceClaimOutputs)) tr,
    (only_reads [] tr ∧ ∀ o, r = Ok o → o = secret_outputs name) →
    Forall (λ e, is_write (ev_call e) = false) tr ∧ ∀ outputs, r = Ok outputs →
      ∃ name, (KSecret, name) ∈ claim_objects t claim ∧ outputs = secret_outputs name) as Hpost.
  { intros name Hn r tr [(l & -> & Hl') Ho]. split; [done|]. intros o ->. exists name. auto. }
  apply registered_strategy in Hl as [[-> ->]|[[-> ->]|[-> ->]]].
  - eapply wp_mono; [done| |apply postgres_present]. apply Hpost. cbn. set_solver.
  - cbn [Provision RedisStrategy]. unfold redis_Provision. rewrite wp_bind_res. unfold wrap. rewrite wp_bind.
    eapply wp_mono; [done| |apply password_reads]. intros r tr (bytes & -> & ->).
    assert (only_reads [] ([] ++ [Ev (RandRead 16) bytes])) as Hr by by apply only_reads_snoc.
    destruct bytes as [bytes|]; cbn [wp res_wrap mret prog_ret].
    + eapply wp_mono; [done| |apply secret_step_present]. intros r tr [Htr Ho].
      apply (Hpost (redis_secret_name claim)); [cbn; set_solver|].
      split; [by eapply only_reads_trans|done].
    + by apply (Hpost (redis_secret_name claim)); [cbn; set_solver|split].
  - cbn [Provision SecretStrategy]. unfold secret_Provision. unfold generateRandomToken. rewrite wp_bind, wp_bind.
    intros bytes (b & -> & Hb). cbn [wp].
    unfold cut_or_panic. pose proof (base64_long 32 b Hb) as Hlong.
    destruct (_ <? 32) eqn:Hlt; [apply Nat.ltb_lt in Hlt; lia|].
    cbn [wp mret prog_ret].
    eapply wp_mono; [done| |apply secret_step_present]. intros r tr [Htr Ho].
    apply (Hpost (secret_name claim)); [cbn; set_solver|]. split; [|done].
    eapply only_reads_trans; [|exact Htr]. by apply only_reads_snoc.
Qed.

(** A write of a retry: the Service, or the Secret with a password from [bytes]. *)
Definition retry_write (bytes : string) (c : call) : Prop :=
  is_write c = true →
  (∃ o, c = Create KService o) ∨
  ∃ o, c = Create KSecret o ∧
       sec_Data o !! "password" = Some (String.substring 0 16 (base64 true bytes)).

(** The StatefulSet was created before, the Secret was not. *)
Definition half_provisioned (e : event) : Prop :=
  match e with
  | Ev (Get KStatefulSet _) r => ∃ o, (r : res StatefulSet) = Ok o
  | Ev (Get KSecret _) r => ∃ msg, (r : res Secret) = Err (EStatus NotFound msg)
  | _ => True
  end.

Lemma createStatefulSet_there claim username password past :
  wp half_provisioned (createStatefulSet claim username password) past (λ _ tr,
    only_reads past tr).
Proof.
  unfold createStatefulSet. destruct (controlled _ _) as [m|err]; [|apply only_reads_refl].
  eapply wp_mono; [done| |by apply create_present_reads]. by intros r tr [_ Htr].
Qed.

Lemma retry_service bytes claim : every_call (retry_write bytes) (createService claim).
Proof.
  unfold createService, create_if_absent. calls; try done. intros _. left. eauto.
Qed.

Lemma retry_secret bytes claim :
  every_call (retry_write bytes)
    (createPostgresSecret claim "postgres" (String.substring 0 16 (base64 true bytes))).
Proof.
  unfold createPostgresSecret, create_if_absent. destruct (controlled _ _); [|done].
  apply every_call_bind_res; [|done]. calls; try done. intros _. right. eexists.
  split; [done|]. cbn [sec_Data]. unfold postgres_data. by simplify_map_eq.
Qed.

(** When provisioning a postgres claim has failed after the StatefulSet was created,
    the next attempt keeps the StatefulSet with its old password and creates the
    Secret, if it gets that far, with a newly generated one. *)
Theorem postgres_retry_new_password claim :
  wp half_provisioned (Provision PostgresStrategy claim) [] (λ _ tr,
    ∀ e, e ∈ tr → is_write (ev_call e) = true →
    ∃ bytes, Ev (RandRead 16) (Some bytes) ∈ tr ∧ retry_write bytes (ev_call e)).
Proof.
  cbn [Provision PostgresStrategy]. unfold postgres_Provision. rewrite wp_bind_res. unfold wrap at 1. rewrite wp_bind.
  eapply wp_mono; [done| |apply password_reads]. intros r tr (bytes & -> & ->).
  destruct bytes as [bytes|]; cbn [wp res_wrap mret prog_ret];
    [|cbn beta; intros e He Hw; by apply list_elem_of_singleton in He as ->].
  rewrite wp_bind_res. unfold wrap at 1. rewrite wp_bind.
  eapply wp_mono; [done| |by apply createStatefulSet_there].
  intros x tr1 (l1 & -> & Hl1).
  assert (∀ (r : res (option ResourceClaimOutputs)) l,
    Forall (λ e, retry_write bytes (ev_call e)) l →
    ∀ e, e ∈ (([] ++ [Ev (RandRead 16) (Some bytes)]) ++ l1) ++ l → is_write (ev_call e) = true →
    ∃ bytes0, Ev (RandRead 16) (Some bytes0) ∈ (([] ++ [Ev (RandRead 16) (Some bytes)]) ++ l1) ++ l ∧
              retry_write bytes0 (ev_call e)) as Hpost.
  { intros _ l Hl e He Hw. exists bytes. split; [by left|].
    apply elem_of_app in He as [[->%list_elem_of_singleton|He]%elem_of_app|He]; [done| |].
    - rewrite Forall_forall in Hl1. by rewrite (Hl1 e He) in Hw.
    - rewrite Forall_forall in Hl. by apply Hl. }
  destruct x as [[]|err]; cbn [wp res_wrap mret prog_ret].
  - eapply wp_mono; [done| |apply (wp_with_calls _ (retry_write bytes) _ _ (λ _ _, True))].
    + intros r tr [_ (l & -> & Hl)]. by apply Hpost.
    + apply wp_then; [apply createService_total|done|]. intros tr2.
      eapply wp_mono; [done| |by apply secret_step, append_ne]. done.
    + apply every_call_bind_res; [|intros _; apply retry_secret].
      apply every_call_wrap, retry_service.
  - specialize (Hpost (Err err) [] (Forall_nil_2 _)). by rewrite app_nil_r in Hpost.
Qed.
End promises.

(** ** Witnesses *)

Module ProvisionDemo.
(** A postgres claim in a given phase, with the finalizer. *)
Definition claim (phase : ResourceClaimPhase) : ResourceClaim :=
  {| rc_ObjectMeta := {| ObjectMeta_zero with om_Name := "app-db"; om_Namespace := "default";
       om_UID := "u1"; om_Finalizers := [ResourceClaimFinalizer] |};
     rc_Spec := {| rcs_WorkloadRef := {| nn_Name := "app"; nn_Namespace := "default" |};
                   rcs_Key := "db"; rcs_Type := "postgres"; rcs_Class := None; rcs_ID := None;
                   rcs_Params := None; rcs_DeprovisionPolicy := None |};
     rc_Status := {| rst_Phase := phase; rst_Reason := ""; rst_Message := "";
                     rst_Outputs := None; rst_OutputsAvailable := false;
                     rst_ObservedGeneration := 0; rst_LastTransitionTime := None |} |}.

#[local] Instance scheme : Scheme := SchemeDemo.scheme.
#[local] Instance scheme_laws : SchemeLaws := SchemeDemo.scheme_laws.

(** A cluster in which the StatefulSet exists, if [half], and the random source always
    gives the same bytes. *)
Definition serve (half : bool) (q : call) (s : unit) : reply q * unit :=
  (match q return reply q with
   | Get KResourceClaim _ => Ok (claim ResourceClaimPhasePending)
   | Get KStatefulSet _ =>
       if half then Ok (postgres_statefulset (claim ResourceClaimPhasePending) "postgres" "old"
                          ObjectMeta_zero)
       else Err (EStatus NotFound "not found")
   | Get _ _ => Err (EStatus NotFound "not found")
   | ListByField _ _ _ => Ok []
   | ListByLabel _ _ _ _ => Ok []
   | Create _ o | Update _ o | StatusUpdate _ o | Patch _ _ o | StatusPatch _ _ o => Ok o
   | Delete _ _ => Ok ()
   | Event _ _ _ _ => ()
   | Now => 42%Z
   | RandRead n => Some "0123456789abcdef"
   end, s).

(** The passwords that a run gives to the StatefulSet and to the Secret. *)
Definition passwords (tr : list event) : list string :=
  tr ≫= λ e, match e with
             | Ev (Create KStatefulSet s) _ =>
                 c ← pts_Containers (sts_Template s);
                 env_Value <$> List.filter (λ v, bool_decide (env_Name v = "POSTGRES_PASSWORD"))
                                           (ctr_Env c)
             | Ev (Create KSecret s) _ => from_option (λ p, [p]) [] (sec_Data s !! "password")
             | _ => []
             end.
End ProvisionDemo.
#[local] Existing Instances ProvisionDemo.scheme ProvisionDemo.scheme_laws.

(** The first attempt gives both the same password; a retry gives only the Secret one. *)
Example provision_run half :
  let '(r, _, tr) := run (ProvisionDemo.serve half)
    (ReconcileClaim (NewProvisionerReconciler "") ("default", "app-db")) () in
  r = Some (requeue_after (10 * Minute), None) ∧
  ProvisionDemo.passwords tr =
    (if half then [] else ["MDEyMzQ1Njc4OWFi"]) ++ ["MDEyMzQ1Njc4OWFi"].
Proof. destruct half; by vm_compute. Qed.

Lemma claim_status_sound_witness :
  wp (wf platform_ok) (ReconcileClaim (NewProvisionerReconciler "") ("default", "app-db")) []
    (λ _ tr, ∀ e written, e ∈ tr → status_claim (ev_call e) = Some written →
    ∃ claim before, tr = before ++ [e] ∧
      Forall (λ e, status_claim (ev_call e) = None) before ∧
      Ev (Get KResourceClaim ("default", "app-db")) (Ok claim) ∈ before ∧ outputs_match written ∧
      phase_step (claim_has_finalizer claim) (phase_of claim) (phase_of written)).
Proof. exact (proj1 (claim_status_sound "" ("default", "app-db"))). Defined.

Lemma claim_deletion_safe_witness :
  wp (wf platform_ok) (ReconcileClaim (NewProvisionerReconciler "") ("default", "app-db")) []
    (λ _ tr, ∀ K k reply, Ev (Delete K k) reply ∈ tr →
    ∃ claim, Ev (Get KResourceClaim ("default", "app-db")) (Ok claim) ∈ tr ∧
      IsBeingDeleted claim = true ∧ K ≠ KResourceClaim ∧
      k.1 = om_Namespace (rc_ObjectMeta claim)).
Proof.
  eapply wp_mono; [done| |exact (claim_deletion_safe "" ("default", "app-db"))].
  by intros x tr [_ Hdel].
Defined.

Lemma claim_provision_owned_witness :
  wp (wf platform_ok) (ReconcileClaim (NewProvisionerReconciler "") ("default", "app-db")) []
    (λ _ tr, ∀ e, e ∈ tr → is_write (ev_call e) = true →
    ∃ claim, Ev (Get KResourceClaim ("default", "app-db")) (Ok claim) ∈ tr).
Proof.
  eapply wp_mono; [done| |exact (claim_provision_owned "" ("default", "app-db"))].
  intros x tr Hall e He Hw. destruct (Hall e He Hw) as (claim & Hin & _). by exists claim.
Defined.

Lemma bound_claim_not_checked_witness :
  let r := NewProvisionerReconciler "" in
  let claim := ProvisionDemo.claim ResourceClaimPhaseBound in
  wp (reads KResourceClaim ("default", "app-db") claim)
    (ReconcileClaim r ("default", "app-db")) [] (λ x tr, x = (Result_zero, None) ∧
      tr = [Ev (Get KResourceClaim ("default", "app-db")) (Ok claim)]).
Proof.
  intros r claim.
  apply (proj1 (proj2 (bound_claim_not_checked r platform_ok all_gone (registered_laws "")
    ("default", "app-db") claim eq_refl eq_refl))).
  reflexivity.
Defined.

Lemma strategies_keep_promises_witness :
  selector_laws platform_ok all_gone (pv_StrategySelector (NewProvisionerReconciler "")).
Proof. exact (proj1 (strategies_keep_promises "")). Defined.

Lemma provision_again_witness :
  let claim := ProvisionDemo.claim ResourceClaimPhasePending in
  wp provisioned (Provision PostgresStrategy claim) [] (λ r tr,
    Forall (λ e, is_write (ev_call e) = false) tr ∧
    ∀ outputs, r = Ok outputs → ∃ name, (KSecret, name) ∈ claim_objects "postgres" claim ∧
      outputs = secret_outputs name).
Proof. intros claim. exact (provision_again "" "postgres" PostgresStrategy claim eq_refl). Defined.

Lemma postgres_retry_new_password_witness :
  let claim := ProvisionDemo.claim ResourceClaimPhasePending in
  wp half_provisioned (Provision PostgresStrategy claim) [] (λ _ tr,
    ∀ e, e ∈ tr → is_write (ev_call e) = true →
    ∃ bytes, Ev (RandRead 16) (Some bytes) ∈ tr ∧ retry_write bytes (ev_call e)).
Proof. intros claim. exact (postgres_retry_new_password claim). Defined.
