(* ===== verification/Liveness.v ===== *)
(** * Liveness: a claim is provisioned

    When the platform cooperates, two reconciles take a new claim of a supported type
    to Bound: the first stores the finalizer and the phase Pending, the second creates
    the objects and binds the claim. *)
From S2P Require Import Prelude GoStrings Json K8s Api Client Conditions Lifecycle Strategy.
From S2P Require Import Provisioner Strategies.

(** The object at another resource version, for the kinds whose updates are read. *)
Definition reversioned (K : Kind) : obj K → string → obj K :=
  match K return obj K → string → obj K with
  | KWorkload => λ o rv,
      {| o with wl_ObjectMeta := {| (wl_ObjectMeta o) with om_ResourceVersion := rv |} |}
  | KResourceClaim => λ o rv,
      {| o with rc_ObjectMeta := {| (rc_ObjectMeta o) with om_ResourceVersion := rv |} |}
  | _ => λ o _, o
  end.

(** The server stores the object it is given, at some resource version. *)
Definition stores {K} (o : obj K) (r : res (obj K)) : Prop := ∃ rv, r = Ok (reversioned K o rv).

(** The server finds an object or says that there is none, creates what it is asked to
    create and stores what it is given; the random source works. *)
Definition cooperative (e : event) : Prop :=
  match e with
  | Ev (RandRead n) r => ∃ bytes, r = Some bytes ∧ String.length bytes = n
  | Ev (Get K _) r => ∀ err, (r : res (obj K)) = Err err → IsNotFound err = true
  | Ev (Create K _) r => succeeds (r : res (obj K))
  | Ev (Update K o) r | Ev (StatusUpdate K o) r => stores o (r : res (obj K))
  | _ => True
  end.

Section liveness.
Context `{!Scheme, !SchemeLaws}.
(** The type of the claim is registered with the scheme. *)
Hypothesis claim_registered : succeeds (GVKForObject KResourceClaim).

Lemma create_if_absent_succeeds K what (o : obj K) past :
  wp cooperative (create_if_absent K what o) past (λ r _, r = Ok ()).
Proof.
  unfold create_if_absent. rewrite wp_bind. intros got Hgot. cbn [wp].
  destruct got as [x|err]; [done|]. rewrite (Hgot err eq_refl). cbn [negb].
  rewrite wp_bind. intros created [o' ->]. done.
Qed.

(** A new object in the namespace of the claim can be controlled by it. *)
Lemma controlled_succeeds claim name labels :
  succeeds (controlled claim (resource_meta claim name labels)).
Proof.
  unfold controlled. destruct (SetControllerReference_free KResourceClaim (rc_ObjectMeta claim)
    (resource_meta claim name labels)) as [m' ->]; [done|by right|by constructor|by exists m'].
Qed.

Definition usable (r : res (option ResourceClaimOutputs)) : Prop :=
  ∃ outputs, r = Ok outputs ∧ ValidateOutputs outputs = None.

Lemma secret_step_succeeds claim name labels data past :
  name ≠ "" →
  wp cooperative (match controlled claim (resource_meta claim name labels) with
    | Err err => mret (Err err)
    | Ok m => create_if_absent KSecret "secret"
                {| sec_ObjectMeta := m; sec_Type := SecretTypeOpaque; sec_Data := data |};;?
              mret (Ok (secret_outputs (om_Name m)))
    end) past (λ r _, usable r).
Proof.
  intros Hn. destruct (controlled_succeeds claim name labels) as [m Hc].
  rewrite Hc. apply controlled_spec in Hc as [Hm _]. rewrite wp_bind_res.
  eapply wp_mono; [done| |apply create_if_absent_succeeds]. intros r tr ->.
  eexists. split; [done|]. rewrite Hm. by apply secret_outputs_valid.
Qed.

Lemma password_succeeds n past :
  wp cooperative (generateRandomPassword n) past (λ r _, succeeds r).
Proof.
  unfold generateRandomPassword. rewrite wp_bind. intros bytes (b & -> & _). by eexists.
Qed.

Lemma token_succeeds n past : wp cooperative (generateRandomToken n) past (λ _ _, True).
Proof.
  unfold generateRandomToken. rewrite wp_bind. intros bytes (b & -> & Hb). cbn [wp].
  unfold cut_or_panic. pose proof (base64_long n b Hb) as Hlong.
  destruct (_ <? n) eqn:Hlt; [apply Nat.ltb_lt in Hlt; lia|done].
Qed.

Lemma createStatefulSet_succeeds claim username password past :
  wp cooperative (createStatefulSet claim username password) past (λ r _, r = Ok ()).
Proof.
  unfold createStatefulSet. destruct (controlled_succeeds claim (postgres_name claim) (app_labels claim)) as [m ->].
  apply create_if_absent_succeeds.
Qed.

Lemma createService_succeeds claim past :
  wp cooperative (createService claim) past (λ r _, r = Ok ()).
Proof.
  unfold createService. destruct (controlled_succeeds claim (postgres_service_name claim) (app_labels claim)) as [m ->].
  apply create_if_absent_succeeds.
Qed.

(** A step that succeeds, with its error text. *)
Lemma wrap_succeeds {A B} E prefix (p : prog (res A)) (q : A → prog (res B)) past Q :
  wp E p past (λ r tr, ∃ a, r = Ok a ∧ wp E (q a) tr Q) →
  wp E (bind_res (wrap prefix p) q) past Q.
Proof.
  intros Hp. rewrite wp_bind_res. unfold wrap. rewrite wp_bind.
  eapply wp_mono; [done| |exact Hp]. by intros r tr (a & -> & Ha).
Qed.

Lemma provision_succeeds envTypes t s claim past :
  GetStrategy (pv_StrategySelector (NewProvisionerReconciler envTypes)) t = Ok s →
  wp cooperative (Provision s claim) past (λ r _, usable r).
Proof.
  unfold GetStrategy. destruct (_ !! t) as [s'|] eqn:Hl; [|done]. intros [= ->].
  apply registered_strategy in Hl as [[-> ->]|[[-> ->]|[-> ->]]]; cbn [Provision PostgresStrategy
    RedisStrategy SecretStrategy].
  - unfold postgres_Provision. apply wrap_succeeds.
    eapply wp_mono; [done| |apply password_succeeds]. intros r tr [password ->]. eexists. split; [done|].
    apply wrap_succeeds. eapply wp_mono; [done| |apply createStatefulSet_succeeds].
    intros r tr1 ->. eexists. split; [done|].
    apply wrap_succeeds. eapply wp_mono; [done| |apply createService_succeeds].
    intros r tr2 ->. eexists. split; [done|].
    apply secret_step_succeeds. by apply append_ne.
  - unfold redis_Provision. apply wrap_succeeds.
    eapply wp_mono; [done| |apply password_succeeds]. intros r tr [password ->]. eexists. split; [done|].
    apply secret_step_succeeds. by apply append_ne.
  - unfold secret_Provision. rewrite wp_bind. eapply wp_mono; [done| |apply token_succeeds].
    intros token tr _. apply secret_step_succeeds. by apply append_ne.
Qed.

(** The platform cooperates and the claim is stored as [claim]. *)
Definition stored_as (req : ObjectKey) (claim : ResourceClaim) (e : event) : Prop :=
  cooperative e ∧ answers KResourceClaim req (Ok claim) e.

(** The last status that the run stores. *)
Definition leaves_status (tr : list event) (claim : ResourceClaim) : Prop :=
  last (writes tr) = Some (StatusUpdate KResourceClaim claim).

Lemma last_write tr c r : is_write c = true → last (writes (tr ++ [Ev c r])) = Some c.
Proof.
  intros Hc. rewrite writes_app. unfold writes at 2. cbn [fmap list_fmap ev_call].
  rewrite filter_cons_True, filter_nil, last_snoc by done. done.
Qed.

(** The second reconcile. *)
Lemma pending_is_bound envTypes req claim s :
  GetStrategy (pv_StrategySelector (NewProvisionerReconciler envTypes)) (rcs_Type (rc_Spec claim)) = Ok s →
  claim_has_finalizer claim = true → IsBeingDeleted claim = false →
  phase_of claim = ResourceClaimPhasePending →
  wp (stored_as req claim) (ReconcileClaim (NewProvisionerReconciler envTypes) req) [] (λ x tr,
    ∃ claim2, leaves_status tr claim2 ∧ x = (requeue_after (10 * Minute), None) ∧
      phase_of claim2 = ResourceClaimPhaseBound ∧ outputs_match claim2).
Proof.
  intros Hs Hf Hd Hp. unfold phase_of in Hp.
  unfold ReconcileClaim. rewrite wp_bind. intros got [_ Hgot]. rewrite (Hgot got eq_refl). cbn [wp].
  assert (ShouldReconcile claim = true) as ->.
  { unfold ShouldReconcile. by rewrite Hd, Hp. }
  rewrite Hd, Hf. cbn [negb]. rewrite wp_bind. unfold handleProvisioning. rewrite Hs, Hp.
  unfold handlePendingPhase, provision_and_bind. rewrite wp_bind.
  eapply (wp_mono cooperative); [by intros e []| |by eapply provision_succeeds].
  intros r tr (outputs & -> & Ho). rewrite Ho. intros now1 _. intros [] _. cbn [wp mret prog_ret].
  rewrite wp_bind. intros stored1 [[rv ->] _]. cbn [wp mret prog_ret fst snd err_of].
  eexists. split; [by apply last_write|].
  split; [done|]. split; [done|]. by apply SetBound_match.
Qed.

(** C23: A new claim of a type with a strategy is bound by two reconciles when the
    platform cooperates and the type of the claim is registered with the scheme: the first leaves it Pending with the finalizer, and asks to
    be called again within half a minute; the second, on the claim that the first one
    left, binds it with usable outputs. *)
Theorem claim_is_bound envTypes req claim s :
  GetStrategy (pv_StrategySelector (NewProvisionerReconciler envTypes)) (rcs_Type (rc_Spec claim)) = Ok s →
  IsBeingDeleted claim = false → claim_has_finalizer claim = false →
  phase_of claim = ResourceClaimPhaseEmpty →
  let reconcile := ReconcileClaim (NewProvisionerReconciler envTypes) req in
  wp (stored_as req claim) reconcile [] (λ x tr, ∃ claim1,
    leaves_status tr claim1 ∧ x = (requeue_after (30 * Second), None) ∧
    phase_of claim1 = ResourceClaimPhasePending ∧ claim_has_finalizer claim1 = true ∧
    ∀ rv, wp (stored_as req (reversioned KResourceClaim claim1 rv)) reconcile [] (λ x2 tr2,
      ∃ claim2, leaves_status tr2 claim2 ∧ x2 = (requeue_after (10 * Minute), None) ∧
        phase_of claim2 = ResourceClaimPhaseBound ∧ outputs_match claim2)).
Proof.
  intros Hs Hd Hf Hp. cbn zeta. unfold ReconcileClaim at 1. rewrite wp_bind.
  intros got [_ Hgot]. rewrite (Hgot got eq_refl). cbn [wp].
  assert (ShouldReconcile claim = true) as ->.
  { unfold ShouldReconcile. rewrite Hd. unfold phase_of in Hp. by rewrite Hp. }
  rewrite Hd, Hf. cbn [negb]. unfold initialize_claim. rewrite wp_bind.
  intros updated [[rv0 ->] _]. cbn [wp].
  intros now _. rewrite wp_bind. intros stored [[rv1 ->] _]. cbn [wp mret prog_ret].
  eexists. split; [by apply last_write|]. split; [done|]. split; [done|].
  assert (claim_has_finalizer (add_claim_finalizer claim) = true) as Hf1
    by apply claim_has_finalizer_iff, add_claim_finalizer_has.
  split; [exact Hf1|]. intros rv.
  apply pending_is_bound with s.
  - unfold add_claim_finalizer. by destruct (negb _).
  - exact Hf1.
  - rewrite <- Hd. unfold add_claim_finalizer. by destruct (negb _).
  - done.
Qed.
End liveness.

Module LivenessDemo.
Definition claim : ResourceClaim :=
  {| rc_ObjectMeta := {| ObjectMeta_zero with om_Name := "app-db"; om_Namespace := "default" |};
     rc_Spec := {| rcs_WorkloadRef := {| nn_Name := "app"; nn_Namespace := "default" |};
                   rcs_Key := "db"; rcs_Type := "postgres"; rcs_Class := None; rcs_ID := None;
                   rcs_Params := None; rcs_DeprovisionPolicy := None |};
     rc_Status := {| rst_Phase := ResourceClaimPhaseEmpty; rst_Reason := ""; rst_Message := "";
                     rst_Outputs := None; rst_OutputsAvailable := false;
                     rst_ObservedGeneration := 0; rst_LastTransitionTime := None |} |}.

(** A server that keeps the claim and has no other object. *)
Definition serve (q : call) (s : ResourceClaim) : reply q * ResourceClaim :=
  match q return reply q * ResourceClaim with
  | Get KResourceClaim _ => (Ok s, s)
  | Get _ _ => (Err (EStatus NotFound "not found"), s)
  | ListByField _ _ _ | ListByLabel _ _ _ _ => (Ok [], s)
  | Update K o | StatusUpdate K o =>
      match K return obj K → res (obj K) * ResourceClaim with
      | KResourceClaim => λ o, (Ok o, o)
      | _ => λ o, (Ok o, s)
      end o
  | Create _ o | Patch _ _ o | StatusPatch _ _ o => (Ok o, s)
  | Delete _ _ => (Ok tt, s)
  | Event _ _ _ _ => (tt, s)
  | Now => (7%Z, s)
  | RandRead n => (Some (String.concat "" (repeat "x" n)), s)
  end.
End LivenessDemo.

#[local] Existing Instances ProvisionDemo.scheme ProvisionDemo.scheme_laws.

Lemma claim_is_bound_witness :
  wp (stored_as ("default", "app-db") LivenessDemo.claim)
    (ReconcileClaim (NewProvisionerReconciler "") ("default", "app-db")) [] (λ x tr, ∃ claim1,
    leaves_status tr claim1 ∧ phase_of claim1 = ResourceClaimPhasePending ∧
    wp (stored_as ("default", "app-db") (reversioned KResourceClaim claim1 "2"))
      (ReconcileClaim (NewProvisionerReconciler "") ("default", "app-db")) [] (λ _ tr2, ∃ claim2,
      leaves_status tr2 claim2 ∧ phase_of claim2 = ResourceClaimPhaseBound)).
Proof.
  eapply wp_mono; [done| |apply (claim_is_bound ltac:(by eexists) "" _ LivenessDemo.claim
    PostgresStrategy); reflexivity].
  intros x tr (claim1 & Hl & _ & Hp & _ & Hwp). exists claim1. split; [done|]. split; [done|].
  eapply wp_mono; [done| |exact (Hwp "2")]. intros x2 tr2 (claim2 & Hl2 & _ & Hp2 & _). eauto.
Defined.

(** A whole execution: the claim that the second reconcile stores. *)
Example bound_run :
  let '(_, c1, _) := run LivenessDemo.serve
    (ReconcileClaim (NewProvisionerReconciler "") ("default", "app-db")) LivenessDemo.claim in
  let '(_, c2, _) := run LivenessDemo.serve
    (ReconcileClaim (NewProvisionerReconciler "") ("default", "app-db")) c1 in
  (phase_of c1, phase_of c2, rst_Outputs (rc_Status c2)) =
  (ResourceClaimPhasePending, ResourceClaimPhaseBound,
   secret_outputs "app-db-postgres-secret").
Proof. vm_compute. reflexivity. Qed.
