(* ===== verification/WorkloadLiveness.v ===== *)
(** * WorkloadLiveness: a workload becomes ready, and a deleted one goes away

    What [Pipeline.v] shows is safety: a status that is written is sound, a finalizer
    that is removed is removed late enough.  Here the platform cooperates, and the
    reconcile of a workload gets to its end: once the claims are bound and the plan is
    Ready a single reconcile stores Ready, and once no claim of a deleted workload
    has to be waited for a single reconcile removes the finalizer. *)
From S2P Require Import Prelude GoStrings Json K8s Api Client Sort Conditions Selection.
From S2P Require Import Validation ConfigCache ReconcilerConfig ConfigLoader Placeholders.
From S2P Require Import Claims StatusManager Plan Pipeline Lifecycle Strategy Provisioner.
From S2P Require Import Strategies Liveness.

(** The lists of claims and of plans are answered with [claims] and [plans]. *)
Definition listed (claims : list ResourceClaim) (plans : list WorkloadPlan) (e : event) : Prop :=
  match e with
  | Ev (ListByField KResourceClaim _ _) r | Ev (ListByLabel KResourceClaim _ _ _) r =>
      r = Ok claims
  | Ev (ListByField KWorkloadPlan _ _) r | Ev (ListByLabel KWorkloadPlan _ _ _) r => r = Ok plans
  | Ev (Delete _ _) r => r = Ok ()
  | _ => True
  end.

(** The platform cooperates, the workload is stored as [workload], and its claims and
    plans are [claims] and [plans]. *)
Definition settled (req : ObjectKey) (workload : Workload) (claims : list ResourceClaim)
    (plans : list WorkloadPlan) (e : event) : Prop :=
  cooperative e ∧ answers KWorkload req (Ok workload) e ∧ listed claims plans e.

(** The same work is asked for: the two differ in finalizers, resource version and
    status only. *)
Definition same_work (w w' : Workload) : Prop :=
  wl_Spec w' = wl_Spec w ∧
  ∃ fs rv, wl_ObjectMeta w' =
    {| (wl_ObjectMeta w) with om_Finalizers := fs; om_ResourceVersion := rv |}.

Lemma same_work_refl w : same_work w w.
Proof.
  split; [done|]. exists (om_Finalizers (wl_ObjectMeta w)), (om_ResourceVersion (wl_ObjectMeta w)).
  by destruct (wl_ObjectMeta w).
Qed.

Lemma same_work_status w w' w'' :
  same_work w w' → wl_Spec w'' = wl_Spec w' → wl_ObjectMeta w'' = wl_ObjectMeta w' →
  same_work w w''.
Proof. intros (Hs & fs & rv & Hm) Hs' Hm'. split; [congruence|]. exists fs, rv. congruence. Qed.

Section liveness.
Context `{!Scheme} `{!Finalizers, !FinalizersLaws} `{!MapOrder} `{!Semver} `{!LabelSelectors}
  `{!ConfigSource}.

Lemma SelectBackend_same config w w' :
  same_work w w' → SelectBackend config w' = SelectBackend config w.
Proof.
  intros Hw. assert (∀ l, filterBackends w' l = filterBackends w l) as Hf.
  { intros l. rewrite !filterBackends_filter. destruct w, w', Hw as (Hs & fs & rv & Hm).
    simpl in Hs, Hm. by subst. }
  assert (selectProfile config w' = selectProfile config w) as Hp.
  { destruct w, w', Hw as (Hs & fs & rv & Hm). simpl in Hs, Hm. by subst. }
  unfold SelectBackend. rewrite Hp. destruct (selectProfile config w) as [name|]; [|done].
  destruct (find_profile config name); [|done]. by rewrite Hf.
Qed.

Lemma resolve_same w w' claims :
  same_work w w' → resolveAllPlaceholders w' claims = resolveAllPlaceholders w claims.
Proof. destruct w, w'. intros (Hs & fs & rv & Hm). simpl in Hs, Hm. by subst. Qed.

Lemma being_deleted_same w w' : same_work w w' → being_deleted w' = being_deleted w.
Proof. destruct w, w'. intros (Hs & fs & rv & Hm). simpl in Hs, Hm. by subst. Qed.

Lemma name_same w w' :
  same_work w w' → om_Name (wl_ObjectMeta w') = om_Name (wl_ObjectMeta w).
Proof. intros (_ & fs & rv & ->). done. Qed.

(** The configuration loads and offers a backend for the workload. *)
Definition backend_available (E : event → Prop) (workload : Workload) : Prop :=
  ∀ past, wp E load_config past (λ r _,
    ∃ config sb, r = Ok config ∧ SelectBackend config workload = Ok sb).

(** The variables of the workload can be resolved with the outputs of the claims. *)
Definition values_resolve (E : event → Prop) (workload : Workload)
    (claims : list ResourceClaim) : Prop :=
  ∀ past, wp E (resolveAllPlaceholders workload claims) past (λ r _,
    ∃ raw, r = Ok raw ∧ (HasUnresolvedPlaceholders raw).1 = false).

Section ready.
Context `{!SchemeLaws}.
(** The type of the workload is registered with the scheme. *)
Hypothesis workload_registered : succeeds (GVKForObject KWorkload).
Variables (req : ObjectKey) (stored : Workload) (claims : list ResourceClaim).
Variable plans : list WorkloadPlan.
#[local] Abbreviation E := (settled req stored claims plans).

Lemma upsert_claim_succeeds workload key resource past :
  wp E (upsertResourceClaim workload key resource) past (λ r _, r = Ok ()).
Proof.
  unfold upsertResourceClaim, upsert_with. rewrite wp_bind. intros [claim|err] [Hc _]; cbn [wp].
  - destruct (resourceClaimSpecEqual _ _); cbn [negb]; [done|].
    rewrite wp_bind. intros r [[rv ->] _]. done.
  - simpl in Hc. rewrite (Hc err eq_refl). cbn [negb]. unfold set_claim_owner.
    destruct workload_registered as [[apiVersion kind] ->]. rewrite wp_bind.
    intros r [[claim ->] _]. done.
Qed.

Lemma EnsureClaims_succeeds order workload past :
  wp E (EnsureClaims order workload) past (λ r _, r = Ok ()).
Proof.
  unfold EnsureClaims. revert past. induction order as [|[key resource] order IH]; intros past;
    [done|].
  cbn [ensure_claims]. apply wrap_succeeds.
  eapply wp_mono; [done| |apply upsert_claim_succeeds]. intros r tr ->. by exists ().
Qed.

Lemma GetClaims_succeeds workload past :
  wp E (GetClaims workload) past (λ r _, r = Ok claims).
Proof. unfold GetClaims. rewrite wp_bind. intros r (_ & _ & ->). done. Qed.

(** *** The plan *)

Lemma update_plan_succeeds prefix plan spec past :
  wp E (update_plan prefix plan spec) past (λ r _, r = Ok ()).
Proof.
  unfold update_plan. destruct (workloadPlanSpecEqual _ _); cbn [negb]; [done|].
  rewrite wp_bind. intros r [[rv ->] _]. done.
Qed.

Lemma create_plan_succeeds workload spec past :
  wp E (create_plan workload spec) past (λ r _, r = Ok ()).
Proof.
  unfold create_plan. destruct (SetControllerReference_free KWorkload (wl_ObjectMeta workload)
    (new_plan_meta workload)) as [meta ->]; [done|by right|by constructor|]. rewrite wp_bind. intros r [[plan ->] _]. done.
Qed.

Lemma resolved_succeeds workload (f : RawJSON → prog (res ())) past :
  same_work stored workload → values_resolve E stored claims →
  (∀ raw tr, (HasUnresolvedPlaceholders raw).1 = false → wp E (f raw) tr (λ r _, r = Ok ())) →
  wp E (raw ←? wrap "failed to resolve placeholders" (resolveAllPlaceholders workload claims);
        f raw) past (λ r _, r = Ok ()).
Proof.
  intros Hw Hv Hf. apply wrap_succeeds. rewrite (resolve_same stored) by done.
  eapply wp_mono; [done| |apply Hv]. intros r tr (raw & -> & Hraw). exists raw. auto.
Qed.

Lemma UpsertWorkloadPlan_succeeds workload sb past :
  same_work stored workload → values_resolve E stored claims →
  om_Name (wl_ObjectMeta stored) ≠ "" →
  wp E (UpsertWorkloadPlan workload claims sb) past (λ r _, r = Ok ()).
Proof.
  intros Hw Hv Hname. unfold UpsertWorkloadPlan. rewrite (name_same _ _ Hw).
  rewrite bool_decide_false by done. rewrite wp_bind. intros [plan|err] [Hc _]; cbn [wp].
  - apply resolved_succeeds; [done..|]. intros raw tr Hraw.
    destruct (HasUnresolvedPlaceholders raw) as [[] b]; [done|]. apply update_plan_succeeds.
  - simpl in Hc. rewrite (Hc err eq_refl). cbn [negb].
    apply resolved_succeeds; [done..|]. intros raw tr Hraw.
    destruct (HasUnresolvedPlaceholders raw) as [[] b]; [done|]. apply create_plan_succeeds.
Qed.

Lemma EnsurePlan_succeeds workload agg past :
  same_work stored workload → ca_Ready agg = true → backend_available E stored →
  values_resolve E stored claims → om_Name (wl_ObjectMeta stored) ≠ "" →
  wp E (EnsurePlan workload claims agg) past (λ x _, x = (workload, Ok ())).
Proof.
  intros Hw Hagg Hb Hv Hname. unfold EnsurePlan, pm_SelectBackend. rewrite Hagg, wp_bind.
  apply wrap_succeeds. eapply wp_mono; [done| |apply Hb].
  intros r tr (config & sb & -> & Hsb). exists config. split; [done|].
  rewrite (SelectBackend_same _ _ _ Hw), Hsb. cbn [wp mret prog_ret res_wrap].
  rewrite wp_bind. eapply wp_mono; [done| |by apply UpsertWorkloadPlan_succeeds].
  intros r tr' ->. by intros [] _.
Qed.

(** *** The phases *)

(** The phase leaves the work as it is, and the inputs valid. *)
Definition carries_on (x : PhaseContext * PhaseResult) : Prop :=
  x.2 = PhaseResult_zero ∧ same_work stored (pctx_Workload x.1) ∧ inputs_valid x.1.

Definition ready_claims (ctx : PhaseContext) : Prop :=
  pctx_Claims ctx = claims ∧ ca_Ready (pctx_ClaimAgg ctx) = true ∧
  IsConditionTrue (conditions_of (pctx_Workload ctx)) ConditionClaimsReady = true.

Lemma ValidationPhase_carries ctx past :
  same_work stored (pctx_Workload ctx) →
  wp E (ph_Execute ValidationPhase ctx) past (λ x _, carries_on x).
Proof.
  intros Hw now _. split; [done|]. split; [by eapply same_work_status|].
  by apply IsConditionTrue_Set_same.
Qed.

Lemma ClaimPhase_carries ctx past :
  same_work stored (pctx_Workload ctx) → inputs_valid ctx → Forall claim_bound claims →
  wp E (ph_Execute ClaimPhase ctx) past (λ x _, carries_on x ∧ ready_claims x.1).
Proof.
  intros Hw Hin Hb. cbn [ph_Execute ClaimPhase]. rewrite wp_bind.
  eapply wp_mono; [done| |apply EnsureClaims_succeeds]. intros r tr ->.
  rewrite wp_bind. eapply wp_mono; [done| |apply GetClaims_succeeds]. intros r' tr' ->.
  assert (ca_Ready (AggregateStatus claims) = true) as Hagg
    by by apply AggregateClaimStatuses_spec.
  rewrite wp_bind. intros now _. cbn [wp mret prog_ret]. split.
  - split; [done|]. split; [by eapply same_work_status|].
    unfold inputs_valid. cbn. by rewrite IsConditionTrue_Set_other.
  - split; [done|]. split; [done|]. cbn. rewrite IsConditionTrue_Set_same. by rewrite Hagg.
Qed.

Lemma PlanPhase_carries ctx plan past :
  plans = [plan] → same_work stored (pctx_Workload ctx) → inputs_valid ctx → ready_claims ctx →
  backend_available E stored → values_resolve E stored claims →
  om_Name (wl_ObjectMeta stored) ≠ "" →
  wp E (ph_Execute PlanPhase ctx) past (λ x _, carries_on x ∧ ready_claims x.1 ∧
    pctx_Plan x.1 = Some plan).
Proof.
  intros Hp Hw Hin (Hcs & Hagg & Htrue) Hb Hv Hname. cbn [ph_Execute PlanPhase].
  rewrite wp_bind, Hcs. eapply wp_mono; [done| |by apply EnsurePlan_succeeds].
  intros x tr ->. cbn [snd fst]. unfold GetPlan. rewrite wp_bind, wp_bind.
  intros r (_ & _ & ->). rewrite Hp. by cbn.
Qed.

(** The status that is stored says Ready. *)
Definition stores_ready (tr : list event) : Prop :=
  ∃ w, last (writes tr) = Some (StatusUpdate KWorkload w) ∧ same_work stored w ∧
       IsConditionTrue (conditions_of w) ConditionReady = true.

Lemma StatusPhase_stores ctx plan past :
  same_work stored (pctx_Workload ctx) → inputs_valid ctx → ready_claims ctx →
  pctx_Plan ctx = Some plan → wpst_Phase (wp_Status plan) = WorkloadPlanPhaseReady →
  wp E (ph_Execute StatusPhase ctx) past (λ x tr, x.2 = PhaseResult_zero ∧ stores_ready tr).
Proof.
  intros Hw Hin (_ & _ & Hclaims) Hp Hready. cbn [ph_Execute StatusPhase]. rewrite wp_bind.
  eapply (wp_mono any); [done| |apply ComputeFinalStatus_wp].
  intros w tr (t1 & t2 & l & -> & _ & ->). cbv zeta. unfold UpdateStatus. rewrite wp_bind, wp_bind.
  intros r [[rv ->] _]. cbn [wp mret prog_ret snd fst]. split; [done|]. eexists. split; [by apply last_write|].
  split; [by eapply same_work_status|].
  change (conditions_of (with_conditions _ ?cs)) with cs.
  rewrite IsConditionTrue_Set_same, Ready_iff. unfold all_ready, plan_ready.
  by rewrite Hp, Hready, Hclaims, Hin.
Qed.

(** *** The pipeline *)

Lemma EnsureFinalizer_succeeds past :
  wp E (EnsureFinalizer stored) past (λ x _, x.2 = Ok () ∧ same_work stored x.1).
Proof.
  unfold EnsureFinalizer. destruct (HasFinalizer stored); [by split; [|apply same_work_refl]|].
  unfold update_workload. rewrite wp_bind. intros r [[rv ->] _]. split; [done|].
  split; [done|].
  destruct (AddFinalizer_spec (wl_ObjectMeta stored) WorkloadFinalizer) as (fs & Hfs & _).
  exists fs, rv. simpl. by rewrite Hfs.
Qed.

Lemma run_phase phase phases ctx past Q (P : PhaseContext * PhaseResult → Prop) :
  ph_ShouldSkip phase ctx = false →
  wp E (ph_Execute phase ctx) past (λ x _, carries_on x ∧ P x) →
  (∀ ctx' tr, same_work stored (pctx_Workload ctx') → inputs_valid ctx' →
     P (ctx', PhaseResult_zero) → wp E (run_phases phases ctx') tr Q) →
  wp E (run_phases (phase :: phases) ctx) past Q.
Proof.
  intros Hskip Hwp HQ. rewrite run_phases_cons, Hskip. eapply wp_mono; [done| |exact Hwp].
  intros [ctx' result] tr [(Hres & Hw & Hin) HP]. cbn [fst snd] in *. subst result. by apply HQ.
Qed.

Lemma ready_pipeline ctx plan past :
  plans = [plan] → same_work stored (pctx_Workload ctx) → being_deleted stored = false →
  om_Name (wl_ObjectMeta stored) ≠ "" → Forall claim_bound claims →
  wpst_Phase (wp_Status plan) = WorkloadPlanPhaseReady →
  backend_available E stored → values_resolve E stored claims →
  wp E (run_phases normalPhases ctx) past (λ r tr, r = Ok Result_zero ∧ stores_ready tr).
Proof.
  intros Hp Hw Hd Hname Hb Hready Hbackend Hvalues.
  assert (∀ c, same_work stored (pctx_Workload c) → being_deleted (pctx_Workload c) = false)
    as Hskip by (intros c Hc; by rewrite (being_deleted_same _ _ Hc)).
  eapply (run_phase _ _ _ _ _ (λ _, True)); [by apply Hskip|
    eapply wp_mono; [done| |by apply ValidationPhase_carries]; by split|].
  intros ctx1 tr1 Hw1 Hin1 _.
  eapply (run_phase _ _ _ _ _ (λ x, ready_claims x.1)); [by apply Hskip|by apply ClaimPhase_carries|].
  intros ctx2 tr2 Hw2 Hin2 Hc2.
  eapply (run_phase _ _ _ _ _ (λ x, ready_claims x.1 ∧ pctx_Plan x.1 = Some plan));
    [by apply Hskip|by apply PlanPhase_carries|].
  intros ctx3 tr3 Hw3 Hin3 [Hc3 Hp3]. rewrite run_phases_cons. cbn [ph_ShouldSkip StatusPhase].
  rewrite Hskip by done. eapply wp_mono; [done| |by eapply StatusPhase_stores].
  intros [ctx4 result] tr4 [Hres Hst]. cbn [snd] in Hres. by subst result.
Qed.
End ready.

(** C4: When the platform cooperates, a single reconcile takes a workload to Ready:
    if its type is registered with the scheme, its claims are bound, its plan is Ready,
    the configuration offers a backend and the variables resolve, the reconcile succeeds, and the last thing it does is
    to store the status of that workload with the condition Ready true, whatever the
    conditions were before, whether or not the finalizer, the claims or the plan were
    there. *)
Theorem workload_is_ready `{!SchemeLaws} pipeline cached req workload claims plan :
  succeeds (GVKForObject KWorkload) →
  being_deleted workload = false → om_Name (wl_ObjectMeta workload) ≠ "" →
  Forall claim_bound claims → wpst_Phase (wp_Status plan) = WorkloadPlanPhaseReady →
  let E := settled req workload claims [plan] in
  backend_available E workload → values_resolve E workload claims →
  wp E (Reconcile pipeline cached req) [] (λ x tr,
    x.2 = Ok Result_zero ∧ stores_ready workload tr).
Proof.
  intros Hreg Hd Hname Hb Hp E Hbackend Hvalues. unfold Reconcile. rewrite wp_bind.
  intros r (_ & Hr & _). rewrite (Hr r eq_refl). cbn [wp]. rewrite wp_bind.
  set (config := default _ pipeline). clearbody config.
  eapply (wp_mono E _ _ _ (λ r tr, r = Ok Result_zero ∧ stores_ready workload tr));
    [done|by intros a tr [-> ?]|].
  unfold Execute. rewrite Hd, wp_bind.
  eapply wp_mono; [done| |apply (EnsureFinalizer_succeeds req workload claims [plan])].
  intros [w1 r1] tr [-> Hw]. cbn [fst snd].
  by eapply ready_pipeline.
Qed.

(** ** Deletion *)

Section deletion.
Variables (req : ObjectKey) (stored : Workload) (claims : list ResourceClaim).
Variable plans : list WorkloadPlan.
#[local] Abbreviation E := (settled req stored claims plans).

Lemma process_claims_succeeds workload cs past :
  wp E (process_claims workload cs) past (λ r _, r = Ok ()).
Proof.
  revert past. induction cs as [|claim cs IH]; intros past; [done|]. cbn [process_claims].
  rewrite wp_bind_res. eapply (wp_mono E _ _ _ (λ r _, r = Ok ())); [done|by intros r tr ->|].
  unfold processDeprovisionPolicy, deleteResourceClaim, removeOwnerReference.
  destruct (getDeprovisionPolicy claim); [destruct (negb _)| | |destruct (negb _)];
    try done; [intros r (_ & _ & ->)|rewrite wp_bind; intros r [[rv ->] _]
              |rewrite wp_bind; intros r [[rv ->] _]|intros r (_ & _ & ->)]; done.
Qed.

(** The clean-up gets through, and has processed every claim. *)
Lemma clean_up_succeeds workload past :
  wp E (cs ←? GetClaims workload; process_claims workload cs;;? GetClaims workload) past
    (λ r tr, r = Ok claims ∧ Forall (claim_processed workload tr) claims).
Proof.
  rewrite wp_bind_res. eapply wp_mono; [done| |apply GetClaims_succeeds]. intros r tr ->.
  rewrite wp_bind_res. eapply wp_mono; [done| |apply wp_and; [apply process_claims_succeeds|]];
    [|eapply (wp_mono any); [done| |by apply (process_claims_wp workload claims)]; cbn beta;
      intros r tr' Hr; exact Hr].
  intros r tr1 [-> (l & -> & _ & Hl)]. specialize (Hl eq_refl).
  eapply wp_mono; [done| |apply wp_and; [apply GetClaims_succeeds|apply GetClaims_lists]].
  intros r tr2 [-> (l' & -> & _)]. split; [done|]. eapply Forall_impl; [exact Hl|].
  intros c. apply claim_processed_mono. intros e He. rewrite !elem_of_app. auto.
Qed.

(** The workload that is stored last has lost the finalizer of the controller. *)
Definition finalizer_gone (tr : list event) : Prop :=
  ∃ w, last (writes tr) = Some (Update KWorkload w) ∧ same_work stored w ∧
       ∀ f, f ∈ om_Finalizers (wl_ObjectMeta w) ↔
            f ≠ WorkloadFinalizer ∧ f ∈ om_Finalizers (wl_ObjectMeta stored).

Lemma RemoveWorkloadFinalizer_succeeds past :
  HasFinalizer stored = true →
  wp E (RemoveWorkloadFinalizer stored) past (λ x tr,
    x.2 = Ok () ∧ finalizer_gone tr ∧ extends past tr).
Proof.
  intros Hf. unfold RemoveWorkloadFinalizer, update_workload. rewrite Hf. cbn [negb].
  rewrite wp_bind. intros r [[rv ->] _]. split; [done|].
  split; [eexists; split; [by apply last_write|]|auto with prog].
  destruct (RemoveFinalizer_spec (wl_ObjectMeta stored) WorkloadFinalizer) as (fs & Hm & Hfs).
  split; [|by simpl; rewrite Hm]. split; [done|].
  exists fs, (om_ResourceVersion (wl_ObjectMeta stored)). by simpl; rewrite Hm.
Qed.
End deletion.

Lemma waits_iff cs :
  if 0 <? length (List.filter waits_for cs)
  then Exists (λ c, getDeprovisionPolicy c = DeprovisionDelete) cs
  else Forall (λ c, getDeprovisionPolicy c ≠ DeprovisionDelete) cs.
Proof.
  pose proof (waiting_claims cs) as Hw. destruct (0 <? _).
  - eapply Exists_impl; [exact Hw|]. intros c Hc. by apply bool_decide_eq_true in Hc.
  - eapply Forall_impl; [exact Hw|]. intros c Hc. by apply bool_decide_eq_false in Hc.
Qed.

Lemma last_write_event tr on et reason msg r :
  writes (tr ++ [Ev (Event on et reason msg) r]) = writes tr.
Proof. rewrite writes_app. apply app_nil_r. Qed.

End liveness.

(** ** Witnesses *)

Module WorkloadDemo.
(** The bound claim of the workload, to be kept when the workload is deleted. *)
Definition retained : ResourceClaim :=
  let c := PipelineDemo.claim ResourceClaimPhaseBound in
  {| c with rc_Spec := {| (rc_Spec c) with rcs_DeprovisionPolicy := Some DeprovisionRetain |} |}.
End WorkloadDemo.
#[local] Existing Instances ClaimsDemo.scheme ClaimsDemo.scheme_laws PlanDemo.source Demo.semver
  Demo.selectors PipelineDemo.finalizers PipelineDemo.finalizers_laws PipelineDemo.order.

Lemma workload_is_ready_witness :
  wp (settled ("default", "app") PipelineDemo.workload
        [PipelineDemo.claim ResourceClaimPhaseBound] [PipelineDemo.plan])
    (Reconcile None None ("default", "app")) [] (λ x tr,
    x.2 = Ok Result_zero ∧ stores_ready PipelineDemo.workload tr).
Proof.
  apply (workload_is_ready None None ("default", "app") PipelineDemo.workload
    [PipelineDemo.claim ResourceClaimPhaseBound] PipelineDemo.plan); try done.
  - by eexists.
  - repeat constructor.
  - intros past. cbn [wp load_config PlanDemo.source]. eexists ValidationDemo.config, _.
    split; [done|]. vm_compute. reflexivity.
  - intros past. eexists. split; vm_compute; reflexivity.
Defined.

