(* ===== verification/EndpointChain.v ===== *)
(** * EndpointChain: from the Service to the status of the workload

    Three controllers hand the address of a workload on: the registrar makes the
    exposure, the runtime publishes the URL of a Service on it, and the mirror copies
    the URL into the status of the workload.  The theorem composes their reconciles. *)
From S2P Require Import Prelude GoStrings Json K8s Api Client Conditions GoURL Mirror Registrar.
From S2P Require Import RuntimePlan RuntimeExposure.

(** The exposure as a run leaves it when its writes succeed: the last one written, or
    the one that was read. *)
Definition left_exposure (read : res WorkloadExposure) (tr : list event) :
    option WorkloadExposure :=
  match last (writes tr) with
  | Some (Create KWorkloadExposure o) | Some (Patch KWorkloadExposure _ o)
  | Some (StatusUpdate KWorkloadExposure o) => Some o
  | Some _ => None
  | None => match read with Ok o => Some o | Err _ => None end
  end.

(** The mirror leaves the workload as it was read, or patches its status once. *)
Definition left_workload (read : Workload) (tr : list event) (new : Workload) : Prop :=
  (writes tr = [] ∧ new = read) ∨ writes tr = [StatusPatch KWorkload read new].

(** The first URL that one of the Services has. *)
Definition service_endpoint (services : list Service) : option string :=
  head (filter (λ u, u ≠ "") (getURLFromService <$> services)).

Lemma published_service_endpoint exposure services :
  we_Status exposure = exposure_status (first_url services) →
  newEndpoint exposure = service_endpoint services.
Proof.
  intros Hst. unfold newEndpoint. rewrite Hst. cbn [exposure_status west_Exposures ee_URL].
  clear. unfold service_endpoint. induction services as [|s services IH]; [done|].
  cbn [first_url fmap list_fmap]. rewrite filter_cons. unfold is_empty.
  case_bool_decide as Hs; [rewrite decide_False by tauto; exact IH|].
  rewrite decide_True by done. destruct (getURLFromService_valid s Hs) as [-> _]. done.
Qed.

Section chain.
Context `{!ControllerRefs}.

(** C6: The address of a Service reaches the status of its workload.  Whatever
    exposure the registrar finds (its own or none), the one it leaves belongs to the
    live workload; on that exposure, whatever its status, the Kubernetes runtime
    leaves the URL of the first listed Service that has one; and the mirror, reading
    that exposure and the workload at the same UID and at most the same generation,
    leaves exactly that URL as the endpoint of the workload, and none if no Service
    has a URL, even if the workload had a valid endpoint before, metadata, specification and claims as they were. *)
Theorem endpoint_reaches_workload wl found services :
  om_DeletionTimestamp (wl_ObjectMeta wl) = None →
  let key := meta_key (wl_ObjectMeta wl) in
  wp (λ e, answers KWorkload key (Ok wl) e ∧ ∀ k, answers KWorkloadExposure k found e)
    (RegistrarReconcile kubernetesRuntimeClass key) [] (λ _ tr1, ∀ registered exposure,
    left_exposure found tr1 = Some registered →
    we_Spec exposure = we_Spec registered →
    wp (λ e, answers KWorkloadExposure key (Ok exposure) e ∧ ∀ n, lists key.1 n (Ok services) e)
      (ReconcileExposure key) [] (λ _ tr2, ∀ published read wl',
      left_exposure (Ok exposure) tr2 = Some published →
      we_Spec read = we_Spec published → we_Status read = we_Status published →
      om_UID (wl_ObjectMeta wl') = om_UID (wl_ObjectMeta wl) →
      (om_Generation (wl_ObjectMeta wl') <= om_Generation (wl_ObjectMeta wl))%Z →
      wp (λ e, answers KWorkloadExposure key (Ok read) e ∧ ∀ k, answers KWorkload k (Ok wl') e)
        (MirrorReconcile key) [] (λ _ tr3, ∃ new, left_workload wl' tr3 new ∧
          wst_Endpoint (wl_Status new) = service_endpoint services ∧
          wl_ObjectMeta new = wl_ObjectMeta wl' ∧ wl_Spec new = wl_Spec wl' ∧
          wst_Claims (wl_Status new) = wst_Claims (wl_Status wl')))).
Proof.
  intros Hlive key.
  eapply wp_mono; [| |apply (RegistrarReconcile_wp _ key (Ok wl) (λ _, found))]; [done|].
  intros x1 tr1 Htr1 registered exposure Hreg Hexp.
  assert (we_Spec exposure = we_Spec (desired_exposure kubernetesRuntimeClass wl)) as Hspec.
  { rewrite Hexp. revert Hreg. unfold left_exposure. rewrite Htr1, Hlive.
    rewrite bool_decide_false by (by intros [? ?]).
    destruct found as [we|err]; [|destruct (IsNotFound err); [by intros [= <-]|done]].
    destruct (decide _) as [Heq|]; by intros [= <-]. }
  destruct key as [ns name] eqn:Hkey.
  eapply wp_mono; [| |apply (ReconcileExposure_wp ns name (Ok exposure) (λ _, Ok services))]; [done|].
  intros x2 tr2. rewrite Hspec, bool_decide_true by done.
  intros Htr2 published read wl' Hpub Hrs Hrst Huid Hgen.
  assert (we_Spec published = we_Spec exposure ∧
          we_Status published = exposure_status (first_url services)) as [Hps Hpst].
  { revert Hpub. unfold left_exposure. rewrite Htr2.
    destruct (bool_decide (we_Status exposure = _)) eqn:Hst; cbn; intros Hp; injection Hp as <-;
      [|done]. by apply bool_decide_eq_true in Hst. }
  rewrite Hps, Hspec in Hrs. rewrite Hpst in Hrst.
  eapply wp_mono; [| |apply (MirrorReconcile_wp _ (Ok read) (λ _, Ok wl'))]; [done|].
  intros x3 tr3. cbn beta iota.
  assert (accepts read wl' = true) as -> by (by apply (accepts_desired kubernetesRuntimeClass wl); [|split; [right|]]).
  intros (new & (Hm & Hsp & Hcl & Hep & _) & Hw). exists new.
  split; [unfold left_workload; naive_solver|]. rewrite Hep.
  split; [by apply published_service_endpoint|done].
Qed.
End chain.

#[local] Existing Instances RegistrarDemo.refs.

(** Two Services, of which the second has a URL. *)
Definition demo_services : list Service :=
  [{| (ExposureDemo.service "web-lb" 80) with svc_Type := "LoadBalancer" |};
   ExposureDemo.service "web" 8080].

Example demo_endpoint : service_endpoint demo_services = Some "http://localhost:8080".
Proof. vm_compute. reflexivity. Qed.

Lemma endpoint_reaches_workload_witness :
  let wl := MirrorDemo.fresh in
  let exposure := desired_exposure kubernetesRuntimeClass wl in
  let published := {| exposure with we_Status := exposure_status "http://localhost:8080" |} in
  om_DeletionTimestamp (wl_ObjectMeta wl) = None ∧
  wp (λ e, answers KWorkload ("prod", "web") (Ok wl) e ∧
           ∀ k, answers KWorkloadExposure k (Err (EStatus NotFound "no")) e)
    (RegistrarReconcile kubernetesRuntimeClass ("prod", "web")) [] (λ _ tr1,
    left_exposure (Err (EStatus NotFound "no")) tr1 = Some exposure →
    wp (λ e, answers KWorkloadExposure ("prod", "web") (Ok exposure) e ∧
             ∀ n, lists "prod" n (Ok demo_services) e)
      (ReconcileExposure ("prod", "web")) [] (λ _ tr2,
      left_exposure (Ok exposure) tr2 = Some published →
      wp (λ e, answers KWorkloadExposure ("prod", "web") (Ok published) e ∧
               ∀ k, answers KWorkload k (Ok wl) e)
        (MirrorReconcile ("prod", "web")) [] (λ _ tr3, ∃ new, left_workload wl tr3 new ∧
          wst_Endpoint (wl_Status new) = service_endpoint demo_services))).
Proof.
  intros wl exposure published. split; [reflexivity|].
  eapply wp_mono; [| |apply (endpoint_reaches_workload wl (Err (EStatus NotFound "no"))
    demo_services); reflexivity]; [done|].
  intros x1 tr1 Hall Hreg. specialize (Hall exposure exposure Hreg eq_refl).
  eapply wp_mono; [| |exact Hall]; [done|]. intros x2 tr2 Hall2 Hpub.
  specialize (Hall2 published published wl Hpub eq_refl eq_refl eq_refl (Z.le_refl _)).
  eapply wp_mono; [| |exact Hall2]; [done|]. intros x3 tr3 (new & Hn & He & _). by exists new.
Defined.
