(* ===== verification/Flags.v ===== *)
(** * Flags: the command line of the two programs

    [src/cmd/main.go] and [src/runtimes/kubernetes/cmd/main.go] declare the same flags
    and read them with [flag.Parse] of Go's standard library, which is modelled here
    with [flag.ExitOnError]: a bad argument ends the program with code 2, a request for
    help with code 0. *)
From S2P Require Import Prelude GoStrings.

(** ** The settings *)

Record Flags := {
  metricsAddr : string;
  probeAddr : string;
  enableLeaderElection : bool;
  secureMetrics : bool;
  webhookCertPath : string;
  webhookCertName : string;
  webhookCertKey : string;
  metricsCertPath : string;
  metricsCertName : string;
  metricsCertKey : string;
  enableHTTP2 : bool;
}.

(** The third argument of [flag.StringVar] and [flag.BoolVar]. *)
Definition default_flags : Flags :=
  {| metricsAddr := "0"; probeAddr := ":8081"; enableLeaderElection := false;
     secureMetrics := true; webhookCertPath := ""; webhookCertName := "tls.crt";
     webhookCertKey := "tls.key"; metricsCertPath := ""; metricsCertName := "tls.crt";
     metricsCertKey := "tls.key"; enableHTTP2 := false |}.

(** What a declared flag sets. *)
Inductive setter :=
| StringVar (set : string → Flags → Flags)
| BoolVar (set : bool → Flags → Flags).

Definition declared_flags : list (string * setter) :=
  [("metrics-bind-address", StringVar (λ v f, {| f with metricsAddr := v |}));
   ("health-probe-bind-address", StringVar (λ v f, {| f with probeAddr := v |}));
   ("leader-elect", BoolVar (λ v f, {| f with enableLeaderElection := v |}));
   ("metrics-secure", BoolVar (λ v f, {| f with secureMetrics := v |}));
   ("webhook-cert-path", StringVar (λ v f, {| f with webhookCertPath := v |}));
   ("webhook-cert-name", StringVar (λ v f, {| f with webhookCertName := v |}));
   ("webhook-cert-key", StringVar (λ v f, {| f with webhookCertKey := v |}));
   ("metrics-cert-path", StringVar (λ v f, {| f with metricsCertPath := v |}));
   ("metrics-cert-name", StringVar (λ v f, {| f with metricsCertName := v |}));
   ("metrics-cert-key", StringVar (λ v f, {| f with metricsCertKey := v |}));
   ("enable-http2", BoolVar (λ v f, {| f with enableHTTP2 := v |}))].

(** The flags that other packages declare ([zap.Options.BindFlags] and the
    configuration package of controller-runtime): whether they are boolean, and which
    values they accept.  They do not touch the settings above. *)
Class OtherFlags := { other_flag : string → option (bool * (string → bool)) }.

(** ** package flag *)

(** [strconv.ParseBool] *)
Definition ParseBool (s : string) : option bool :=
  if bool_decide (s ∈ ["1"; "t"; "T"; "true"; "TRUE"; "True"]) then Some true
  else if bool_decide (s ∈ ["0"; "f"; "F"; "false"; "FALSE"; "False"]) then Some false
  else None.

Definition FormatBool (b : bool) : string := if b then "true" else "false".

Inductive parsed :=
| Parsed (f : Flags)
| Exits (code : Z).

(** The flag of an argument, without its one or two dashes; [None] when the argument
    ends the flags. *)
Definition flag_text (arg : string) : option string :=
  match arg with
  | String "-" (String "-" "") => None
  | String "-" (String "-" text) => Some text
  | String "-" (String c text) => Some (String c text)
  | _ => None
  end.

(** A name that begins with a dash or an equals sign, or an empty one. *)
Definition bad_syntax (text : string) : bool :=
  match text with
  | "" => true
  | String c _ => bool_decide (c = "-"%char) || bool_decide (c = "="%char)
  end.

(** [name=value], or the name alone. *)
Definition name_value (text : string) : string * option string :=
  match cut_at "=" text with
  | Some (name, value) => (name, Some value)
  | None => (text, None)
  end.

Definition lookup_flag (name : string) : option setter :=
  snd <$> List.find (λ d, bool_decide (d.1 = name)) declared_flags.

Section parse.
Context `{!OtherFlags}.

(** [flag.Parse] from the settings [f] on. *)
Fixpoint parse (f : Flags) (args : list string) : parsed :=
  match args with
  | [] => Parsed f
  | arg :: args =>
      match flag_text arg with
      | None => Parsed f
      | Some text =>
          if bad_syntax text then Exits 2
          else
            let '(name, value) := name_value text in
            match lookup_flag name with
            | Some (BoolVar set) =>
                match ParseBool (default "true" value) with
                | Some b => parse (set b f) args
                | None => Exits 2
                end
            | Some (StringVar set) =>
                match value, args with
                | Some v, _ => parse (set v f) args
                | None, v :: args => parse (set v f) args
                | None, [] => Exits 2
                end
            | None =>
                match other_flag name with
                | Some (true, accepts) =>
                    if accepts (default "true" value) then parse f args else Exits 2
                | Some (false, accepts) =>
                    match value, args with
                    | Some v, _ => if accepts v then parse f args else Exits 2
                    | None, v :: args => if accepts v then parse f args else Exits 2
                    | None, [] => Exits 2
                    end
                | None => if bool_decide (name ∈ ["help"; "h"]) then Exits 0 else Exits 2
                end
            end
      end
  end.

Definition parse_flags : list string → parsed := parse default_flags.

(** ** Every setting can be given *)

(** The flags with the value that the settings [f] have for each. *)
Definition settings (f : Flags) : list (string * (string + bool)) :=
  [("metrics-bind-address", inl (metricsAddr f));
   ("health-probe-bind-address", inl (probeAddr f));
   ("leader-elect", inr (enableLeaderElection f));
   ("metrics-secure", inr (secureMetrics f));
   ("webhook-cert-path", inl (webhookCertPath f));
   ("webhook-cert-name", inl (webhookCertName f));
   ("webhook-cert-key", inl (webhookCertKey f));
   ("metrics-cert-path", inl (metricsCertPath f));
   ("metrics-cert-name", inl (metricsCertName f));
   ("metrics-cert-key", inl (metricsCertKey f));
   ("enable-http2", inr (enableHTTP2 f))].

(** The texts of the two truth values. *)
Definition bool_texts (b : bool) : list string :=
  if b then ["1"; "t"; "T"; "true"; "TRUE"; "True"]
  else ["0"; "f"; "F"; "false"; "FALSE"; "False"].

(** The spellings of a flag, with one dash or two: a text in the same argument or in the
    next one, a truth value in the same argument, and true without any. *)
Inductive spelled (name : string) : string + bool → list string → Prop :=
| string_joined d v : d ∈ ["-"; "--"] → spelled name (inl v) [d +:+ name +:+ "=" +:+ v]
| string_next d v : d ∈ ["-"; "--"] → spelled name (inl v) [d +:+ name; v]
| bool_joined d b t :
    d ∈ ["-"; "--"] → t ∈ bool_texts b → spelled name (inr b) [d +:+ name +:+ "=" +:+ t]
| bool_alone d : d ∈ ["-"; "--"] → spelled name (inr true) [d +:+ name].

(** The name of a flag: not empty, no leading dash and no equals sign. *)
Definition plain_name (name : string) : Prop :=
  bad_syntax name = false ∧ no_char "=" name.

Lemma flag_text_dashes d text :
  d ∈ ["-"; "--"] → bad_syntax text = false → flag_text (d +:+ text) = Some text.
Proof.
  destruct text as [|c text]; [done|]. unfold bad_syntax.
  rewrite orb_false_iff, !bool_decide_eq_false. intros Hd [Hc _].
  apply elem_of_cons in Hd as [->|Hd%list_elem_of_singleton]; [|subst d; done].
  cbn [String.append flag_text]. destruct c as [[] [] [] [] [] [] [] []]; done.
Qed.

Lemma bad_syntax_app name s : bad_syntax name = false → bad_syntax (name +:+ s) = false.
Proof. by destruct name. Qed.

Lemma name_value_joined name v : no_char "=" name → name_value (name +:+ "=" +:+ v) = (name, Some v).
Proof.
  intros Hn. unfold name_value. change ("=" +:+ v) with (String "=" v).
  by rewrite cut_at_app.
Qed.

Lemma cut_at_absent stop s : no_char stop s → cut_at stop s = None.
Proof.
  intros Hs. destruct (cut_at stop s) as [[p r]|] eqn:Hc; [|done].
  apply cut_at_Some in Hc as [-> _]. apply no_char_app in Hs as [_ Hs].
  by apply no_char_cons in Hs as [].
Qed.

Lemma name_value_alone name : no_char "=" name → name_value name = (name, None).
Proof. intros Hn. unfold name_value. by rewrite cut_at_absent. Qed.

Lemma ParseBool_text b t : t ∈ bool_texts b → ParseBool t = Some b.
Proof.
  unfold ParseBool. destruct b; unfold bool_texts; intros Ht; [by rewrite bool_decide_true|].
  rewrite bool_decide_false; [by rewrite bool_decide_true|].
  revert Ht. rewrite !elem_of_cons, elem_of_nil. naive_solver.
Qed.

Lemma ParseBool_other t : t ∉ bool_texts true → t ∉ bool_texts false → ParseBool t = None.
Proof. intros Ht Hf. unfold ParseBool. by rewrite !bool_decide_false. Qed.

(** What the flag [name] does with a value. *)
Definition assign (name : string) (v : string + bool) (g : Flags) : Flags :=
  match lookup_flag name, v with
  | Some (StringVar set), inl v => set v g
  | Some (BoolVar set), inr b => set b g
  | _, _ => g
  end.

(** A declared flag of the kind of the value. *)
Definition declared (name : string) (v : string + bool) : Prop :=
  plain_name name ∧
  match v with
  | inl _ => ∃ set, lookup_flag name = Some (StringVar set)
  | inr _ => ∃ set, lookup_flag name = Some (BoolVar set)
  end.

Lemma settings_declared f n v : (n, v) ∈ settings f → declared n v.
Proof.
  unfold settings. rewrite !elem_of_cons, elem_of_nil. intros Hin.
  repeat destruct Hin as [[= -> ->]|Hin]; try done;
    (split; [by vm_compute|eexists; reflexivity]).
Qed.

Lemma parse_spelled name v l g args :
  declared name v → spelled name v l → parse g (l ++ args) = parse (assign name v g) args.
Proof.
  unfold assign. intros [[Hb Hn] Hl] Hs.
  destruct Hs as [d v Hd|d v Hd|d b t Hd Ht|d Hd]; destruct Hl as [set Hl]; rewrite Hl;
    cbn [app parse].
  - rewrite flag_text_dashes, bad_syntax_app by auto using bad_syntax_app.
    by rewrite name_value_joined, Hl.
  - rewrite flag_text_dashes, Hb, name_value_alone, Hl by done. done.
  - rewrite flag_text_dashes, bad_syntax_app by auto using bad_syntax_app.
    rewrite name_value_joined, Hl by done. cbn [default]. by rewrite (ParseBool_text b).
  - rewrite flag_text_dashes, Hb, name_value_alone, Hl by done. done.
Qed.

Definition value_of (f : Flags) (name : string) : option (string + bool) :=
  snd <$> List.find (λ s, bool_decide (s.1 = name)) (settings f).

Lemma settings_names f : NoDup (settings f).*1.
Proof.
  change (NoDup (settings default_flags).*1). refine (bool_decide_unpack _ _). vm_compute. exact I.
Qed.

Lemma find_unique (l : list (string * (string + bool))) n v :
  NoDup l.*1 → (n, v) ∈ l → List.find (λ s, bool_decide (s.1 = n)) l = Some (n, v).
Proof.
  induction l as [|[m w] l IH]; [by intros _ ?%elem_of_nil|].
  rewrite fmap_cons, NoDup_cons. intros [Hm Hnd] [[= -> ->]|Hin]%elem_of_cons; simpl.
  - by rewrite bool_decide_true.
  - rewrite bool_decide_false; [by apply IH|]. intros ->. apply Hm.
    by apply (list_elem_of_fmap_2 fst _ (n, v)).
Qed.

Lemma value_of_setting f n v : (n, v) ∈ settings f → value_of f n = Some v.
Proof. intros Hin. unfold value_of. by rewrite (find_unique _ n v (settings_names f) Hin). Qed.

Lemma assign_value f n v m g :
  (n, v) ∈ settings f → value_of (assign n v g) m = if decide (m = n) then Some v else value_of g m.
Proof.
  intros Hin. destruct (decide (m = n)) as [->|Hne].
  - apply value_of_setting. revert Hin. unfold settings at 1. rewrite !elem_of_cons, elem_of_nil.
    intros Hin. repeat destruct Hin as [[= -> ->]|Hin]; try done; cbn -[elem_of]; set_solver.
  - revert Hin. unfold settings at 1. rewrite !elem_of_cons, elem_of_nil. intros Hin.
    repeat destruct Hin as [[= -> ->]|Hin]; try done; destruct g; unfold value_of; cbn;
      repeat (case_bool_decide; [congruence || done|]); done.
Qed.

Lemma settings_inj f g : settings g = settings f → g = f.
Proof. destruct f, g. unfold settings. simpl. intros [=]. congruence. Qed.

Lemma flags_eq f g : (∀ n v, (n, v) ∈ settings f → value_of g n = Some v) → g = f.
Proof.
  intros Hall. apply settings_inj, list_eq. intros i.
  assert ((settings g).*1 !! i = (settings f).*1 !! i) as Hi by done.
  rewrite !list_lookup_fmap in Hi.
  destruct (settings g !! i) as [[n w]|] eqn:Hg, (settings f !! i) as [[n' v]|] eqn:Hf; try done.
  injection Hi as ->. apply list_elem_of_lookup_2 in Hg, Hf.
  apply value_of_setting in Hg. rewrite (Hall _ _ Hf) in Hg. congruence.
Qed.

(** Assigning settings one after the other. *)
Lemma assign_all f l g :
  NoDup l.*1 → (∀ s, s ∈ l → s ∈ settings f) → ∀ n v, (n, v) ∈ settings f →
  value_of (foldl (λ g s, assign s.1 s.2 g) g l) n = if decide (n ∈ l.*1) then Some v else value_of g n.
Proof.
  revert g. induction l as [|[m w] l IH]; intros g Hnd Hl n v Hv.
  { rewrite decide_False; [done|]. apply not_elem_of_nil. }
  rewrite fmap_cons in Hnd |- *. cbn [foldl fst snd] in *.
  apply NoDup_cons in Hnd as [Hm Hnd]. rewrite (IH _ Hnd) with (v := v) by (try done; set_solver).
  assert ((m, w) ∈ settings f) as Hmw by (apply Hl; by left).
  rewrite (assign_value f) by done.
  destruct (decide (n ∈ l.*1)) as [Hn|Hn].
  { rewrite decide_True; [done|]. by right. }
  destruct (decide (n = m)) as [->|Hne].
  - rewrite decide_True by by left. apply value_of_setting in Hv, Hmw. congruence.
  - rewrite decide_False; [done|]. by intros [?|?]%elem_of_cons.
Qed.

Lemma parse_all f l parts g args :
  (∀ s, s ∈ l → s ∈ settings f) → Forall2 (λ s part, spelled s.1 s.2 part) l parts →
  parse g (concat parts ++ args) = parse (foldl (λ g s, assign s.1 s.2 g) g l) args.
Proof.
  intros Hl Hs. revert g. induction Hs as [|[n v] part l parts Hp _ IH]; intros g; [done|].
  cbn [concat foldl fst snd]. rewrite <- app_assoc, (parse_spelled n v); [|
    apply (settings_declared f), Hl; by left|done].
  apply IH. intros s Hin. apply Hl. by right.
Qed.

(** C39: Every combination of the eleven settings can be given on the command line, in any
    order and each in any of its spellings (with one dash or two; a text in the same
    argument or in the next one; true and false by any of their six texts each, or true by
    the flag alone), and is read back exactly, whatever was set before; the arguments after
    them are still read.  A boolean flag with any other text ends the program with code
    2. *)
Theorem parse_render f g l parts args :
  l ≡ₚ settings f → Forall2 (λ s part, spelled s.1 s.2 part) l parts →
  parse g (concat parts ++ args) = parse f args ∧
  ∀ d name b t, d ∈ ["-"; "--"] → (name, inr b) ∈ settings f →
    (∀ b', t ∉ bool_texts b') → parse g ((d +:+ name +:+ "=" +:+ t) :: args) = Exits 2.
Proof.
  intros Hl Hs. split.
  - rewrite (parse_all f l) by (done || intros s; by rewrite Hl). f_equal.
    apply flags_eq. intros n v Hv. rewrite (assign_all f) with (v := v).
    + rewrite decide_True; [done|]. rewrite Hl. by apply (list_elem_of_fmap_2 fst _ (n, v)).
    + rewrite Hl. apply settings_names.
    + intros s. by rewrite Hl.
    + done.
  - intros d name b t Hd Hin Ht. apply settings_declared in Hin as [[Hb Hn] [set Hset]].
    cbn [parse]. rewrite flag_text_dashes, bad_syntax_app by auto using bad_syntax_app.
    rewrite name_value_joined, Hset by done. cbn [default]. by rewrite ParseBool_other by apply Ht.
Qed.
End parse.

(** *** On examples *)

Module FlagsDemo.
#[local] Instance other : OtherFlags :=
  {| other_flag name :=
       if bool_decide (name = "zap-devel") then Some (true, λ v, bool_decide (is_Some (ParseBool v)))
       else if bool_decide (name = "kubeconfig") then Some (false, λ _, true) else None |}.

(** The arguments of [config/manager/manager.yaml]. *)
Example deployed : parse_flags ["--leader-elect"; "--health-probe-bind-address=:8081";
    "--metrics-bind-address=:8443"] =
  Parsed {| default_flags with enableLeaderElection := true; metricsAddr := ":8443" |}.
Proof. by vm_compute. Qed.

Example ends :
  parse_flags ["--zap-devel=maybe"] = Exits 2 ∧ parse_flags ["-h"] = Exits 0 ∧
  parse_flags ["--metrics-secure"; "false"; "--enable-http2"] = Parsed default_flags ∧
  parse_flags ["--metrics-bind-address"] = Exits 2 ∧ parse_flags ["---x"] = Exits 2 ∧
  parse_flags ["--kubeconfig"; "f"; "--"; "-x"] = Parsed default_flags.
Proof. by vm_compute. Qed.
End FlagsDemo.

#[local] Existing Instances FlagsDemo.other.

(** Leader election by the flag alone, the address in the next argument. *)
Lemma parse_render_witness :
  let f := {| default_flags with enableLeaderElection := true; metricsAddr := ":8443" |} in
  parse_flags ["--leader-elect"; "-metrics-bind-address"; ":8443"; "-metrics-secure=T";
    "--health-probe-bind-address=:8081"; "--webhook-cert-path="; "--webhook-cert-name=tls.crt";
    "--webhook-cert-key=tls.key"; "--metrics-cert-path"; ""; "--metrics-cert-name=tls.crt";
    "--metrics-cert-key=tls.key"; "--enable-http2=0"] = Parsed f.
Proof.
  intros f.
  refine (proj1 (parse_render f default_flags
    [("leader-elect", inr true); ("metrics-bind-address", inl ":8443"); ("metrics-secure", inr true);
     ("health-probe-bind-address", inl ":8081"); ("webhook-cert-path", inl "");
     ("webhook-cert-name", inl "tls.crt"); ("webhook-cert-key", inl "tls.key");
     ("metrics-cert-path", inl ""); ("metrics-cert-name", inl "tls.crt");
     ("metrics-cert-key", inl "tls.key"); ("enable-http2", inr false)]
    [["--leader-elect"]; ["-metrics-bind-address"; ":8443"]; ["-metrics-secure=T"];
     ["--health-probe-bind-address=:8081"]; ["--webhook-cert-path="]; ["--webhook-cert-name=tls.crt"];
     ["--webhook-cert-key=tls.key"]; ["--metrics-cert-path"; ""]; ["--metrics-cert-name=tls.crt"];
     ["--metrics-cert-key=tls.key"]; ["--enable-http2=0"]] [] _ _)).
  - refine (bool_decide_unpack _ _). vm_compute. exact I.
  - repeat first [apply Forall2_nil_2 | apply Forall2_cons; split]; cbn [fst snd].
    + apply (bool_alone "leader-elect" "--"); set_solver.
    + apply (string_next "metrics-bind-address" "-"); set_solver.
    + apply (bool_joined "metrics-secure" "-" true "T"); set_solver.
    + apply (string_joined "health-probe-bind-address" "--"); set_solver.
    + apply (string_joined "webhook-cert-path" "--"); set_solver.
    + apply (string_joined "webhook-cert-name" "--"); set_solver.
    + apply (string_joined "webhook-cert-key" "--"); set_solver.
    + apply (string_next "metrics-cert-path" "--"); set_solver.
    + apply (string_joined "metrics-cert-name" "--"); set_solver.
    + apply (string_joined "metrics-cert-key" "--"); set_solver.
    + apply (bool_joined "enable-http2" "--" false "0"); set_solver.
Defined.
