(* ===== verification/Rbac.v ===== *)
(** * Rbac: the roles of the two controller managers

    What [+kubebuilder:rbac] markers the controllers carry, the roles that are deployed
    ([config/rbac/role.yaml], which controller-gen makes of the markers of both
    programs, and [runtimes/kubernetes/manifests/rbac.yaml], which is written by hand),
    and that each program asks the API server only for what its role grants: a call
    that is not granted fails with Forbidden on every reconcile. *)
From S2P Require Import Prelude GoStrings Json K8s Api Client Sort Conditions Selection.
From S2P Require Import Validation ConfigCache ReconcilerConfig ConfigLoader Placeholders.
From S2P Require Import Claims StatusManager Plan Pipeline Mirror Registrar.
From S2P Require Import RuntimePlan RuntimeExposure Lifecycle Strategy Provisioner Strategies.

(** ** Roles *)

Inductive Verb :=
| VGet | VList | VWatch | VCreate | VUpdate | VPatch | VDelete.

#[export] Instance Verb_eq_dec : EqDecision Verb.
Proof. solve_decision. Defined.

(** A rule of a role: every verb on every resource of every group. *)
Record Rule := {
  rule_groups : list string;
  rule_resources : list string;
  rule_verbs : list Verb;
}.

(** A group, a resource (with its subresource, if any) and a verb. *)
Abbreviation Permission := (string * string * Verb)%type (only parsing).

Definition rule_allows (r : Rule) (p : Permission) : bool :=
  bool_decide (p.1.1 ∈ rule_groups r) && bool_decide (p.1.2 ∈ rule_resources r) &&
  bool_decide (p.2 ∈ rule_verbs r).

(** The rules of a role add up. *)
Definition allowed (role : list Rule) (p : Permission) : bool := existsb (λ r, rule_allows r p) role.

Definition marker (group resource : string) (verbs : list Verb) : Rule :=
  {| rule_groups := [group]; rule_resources := [resource]; rule_verbs := verbs |}.

Definition readers := [VGet; VList; VWatch].
Definition writers := [VCreate; VUpdate; VPatch; VDelete].
Definition full := readers ++ writers.

(** *** The markers of the controllers *)

Definition workload_rbac : list Rule :=
  [marker "score.dev" "workloads" (readers ++ [VUpdate; VPatch]);
   marker "score.dev" "workloads/status" [VGet; VUpdate; VPatch];
   marker "score.dev" "workloads/finalizers" [VUpdate];
   marker "score.dev" "resourceclaims" full;
   marker "score.dev" "resourceclaims/status" readers;
   marker "score.dev" "workloadplans" full;
   marker "score.dev" "workloadexposures" full;
   marker "score.dev" "workloadexposures/status" [VGet; VWatch];
   marker "" "events" [VCreate; VPatch];
   marker "" "configmaps" readers].

Definition provisioner_rbac : list Rule :=
  [marker "score.dev" "resourceclaims" (readers ++ [VUpdate; VPatch]);
   marker "score.dev" "resourceclaims/status" [VGet; VUpdate; VPatch];
   marker "" "secrets" full;
   marker "" "configmaps" full;
   marker "" "services" full;
   marker "apps" "statefulsets" full;
   marker "" "persistentvolumeclaims" full;
   marker "" "events" [VCreate; VPatch]].

Definition registrar_rbac : list Rule :=
  [marker "score.dev" "workloads" readers;
   marker "score.dev" "workloadexposures" full;
   marker "score.dev" "workloadexposures/status" [VGet; VWatch]].

Definition mirror_rbac : list Rule :=
  [marker "score.dev" "workloadexposures" readers;
   marker "score.dev" "workloads" readers;
   marker "score.dev" "workloads/status" [VUpdate; VPatch]].

Definition runtime_plan_rbac : list Rule :=
  [marker "score.dev" "workloadplans" full;
   marker "score.dev" "workloadplans/status" [VGet; VUpdate; VPatch];
   marker "score.dev" "workloadplans/finalizers" [VUpdate];
   marker "score.dev" "workloads" readers;
   marker "" "secrets" readers;
   marker "" "configmaps" readers;
   marker "apps" "deployments" full;
   marker "" "services" full].

Definition runtime_exposure_rbac : list Rule :=
  [marker "score.dev" "workloadexposures" full;
   marker "score.dev" "workloadexposures/status" [VGet; VUpdate; VPatch];
   marker "score.dev" "workloadexposures/finalizers" [VUpdate];
   marker "" "services" readers;
   marker "networking.k8s.io" "ingresses" readers].

(** What the controllers stay within.  The markers of the workload controller forget the
    Secrets that it reads for the placeholders, and those of the registrar, of the mirror
    and of the plan controller the events that they record; other markers, or the
    deployed role, make up for it. *)
Definition event_rule : Rule := marker "" "events" [VCreate; VPatch].
Definition workload_rules := marker "" "secrets" readers :: workload_rbac.
Definition provisioner_rules := provisioner_rbac.
Definition registrar_rules := event_rule :: registrar_rbac.
Definition mirror_rules := event_rule :: mirror_rbac.
Definition plan_rules := event_rule :: runtime_plan_rbac.
Definition exposure_rules := event_rule :: runtime_exposure_rbac.

Definition all_markers : list Rule :=
  workload_rbac ++ provisioner_rbac ++ registrar_rbac ++ mirror_rbac ++
  runtime_plan_rbac ++ runtime_exposure_rbac.

(** *** The deployed roles *)

Definition manager_role : list Rule :=
  [{| rule_groups := [""];
      rule_resources := ["configmaps"; "persistentvolumeclaims"; "secrets"; "services"];
      rule_verbs := [VCreate; VDelete; VGet; VList; VPatch; VUpdate; VWatch] |};
   {| rule_groups := [""]; rule_resources := ["events"]; rule_verbs := [VCreate; VPatch] |};
   {| rule_groups := ["apps"]; rule_resources := ["deployments"; "statefulsets"];
      rule_verbs := [VCreate; VDelete; VGet; VList; VPatch; VUpdate; VWatch] |};
   {| rule_groups := ["networking.k8s.io"]; rule_resources := ["ingresses"];
      rule_verbs := [VGet; VList; VWatch] |};
   {| rule_groups := ["score.dev"];
      rule_resources := ["resourceclaims"; "workloadexposures"; "workloadplans"];
      rule_verbs := [VCreate; VDelete; VGet; VList; VPatch; VUpdate; VWatch] |};
   {| rule_groups := ["score.dev"]; rule_resources := ["resourceclaims/status"; "workloads"];
      rule_verbs := [VGet; VList; VPatch; VUpdate; VWatch] |};
   {| rule_groups := ["score.dev"];
      rule_resources := ["workloadexposures/finalizers"; "workloadplans/finalizers";
                         "workloads/finalizers"];
      rule_verbs := [VUpdate] |};
   {| rule_groups := ["score.dev"]; rule_resources := ["workloadexposures/status"];
      rule_verbs := [VGet; VPatch; VUpdate; VWatch] |};
   {| rule_groups := ["score.dev"]; rule_resources := ["workloadplans/status"; "workloads/status"];
      rule_verbs := [VGet; VPatch; VUpdate] |}].

Definition runtime_role : list Rule :=
  [marker "" "events" [VCreate; VPatch];
   marker "coordination.k8s.io" "leases"
     [VGet; VList; VWatch; VCreate; VUpdate; VPatch; VDelete];
   marker "score.dev" "workloadplans" [VGet; VList; VWatch];
   marker "score.dev" "workloadplans/status" [VGet; VUpdate; VPatch];
   marker "score.dev" "workloads" [VGet; VList; VWatch];
   marker "score.dev" "workloadexposures" [VGet; VList; VWatch];
   marker "score.dev" "workloadexposures/status" [VGet; VUpdate; VPatch];
   marker "apps" "deployments" [VCreate; VDelete; VGet; VList; VPatch; VUpdate; VWatch];
   marker "" "services" [VCreate; VDelete; VGet; VList; VPatch; VUpdate; VWatch];
   marker "networking.k8s.io" "ingresses" [VGet; VList; VWatch];
   marker "" "configmaps" [VCreate; VDelete; VGet; VList; VPatch; VUpdate; VWatch];
   marker "" "secrets" [VGet; VList; VWatch]].

(** ** What a call needs *)

Definition kind_group (K : Kind) : string :=
  match K with
  | KWorkload | KResourceClaim | KWorkloadPlan | KWorkloadExposure => "score.dev"
  | KSecret | KConfigMap | KService => ""
  | KStatefulSet | KDeployment => "apps"
  end.

Definition kind_resource (K : Kind) : string :=
  match K with
  | KWorkload => "workloads"
  | KResourceClaim => "resourceclaims"
  | KWorkloadPlan => "workloadplans"
  | KWorkloadExposure => "workloadexposures"
  | KSecret => "secrets"
  | KConfigMap => "configmaps"
  | KService => "services"
  | KStatefulSet => "statefulsets"
  | KDeployment => "deployments"
  end.

Definition on (K : Kind) (v : Verb) : Permission := (kind_group K, kind_resource K, v).
Definition on_status (K : Kind) (v : Verb) : Permission :=
  (kind_group K, kind_resource K +:+ "/status", v).

(** A read of the manager's client is served by an informer, which lists and watches
    the kind; a read of a clientset is a plain get.  An event is created, and patched
    when it repeats. *)
Definition needs (c : call) : list Permission :=
  match c with
  | Get K _ | ListByField K _ _ | ListByLabel K _ _ _ => [on K VGet; on K VList; on K VWatch]
  | Create K _ => [on K VCreate]
  | Update K _ => [on K VUpdate]
  | Patch K _ _ => [on K VPatch]
  | Delete K _ => [on K VDelete]
  | StatusUpdate K _ => [on_status K VUpdate]
  | StatusPatch K _ _ => [on_status K VPatch]
  | Event _ _ _ _ => [("", "events", VCreate); ("", "events", VPatch)]
  | Now | RandRead _ => []
  end.

Definition granted (role : list Rule) (c : call) : bool := forallb (allowed role) (needs c).

(** ** What a look-up needs

    The informers answer a look-up by a field only if [SetupIndexers] has registered
    the field for the kind; the runtime registers none. *)
Definition manager_indexes : list (Kind * string) :=
  [(KResourceClaim, IndexResourceClaimByWorkload); (KWorkloadPlan, IndexWorkloadPlanByWorkload)].

Definition indexed (indexes : list (Kind * string)) (c : call) : bool :=
  match c with
  | ListByField K field _ => bool_decide ((K, field) ∈ indexes)
  | _ => true
  end.

(** The call is granted and its index, if any, exists. *)
Definition served (role : list Rule) (indexes : list (Kind * string)) (c : call) : bool :=
  granted role c && indexed indexes c.

(** ** The roles suffice *)

#[local] Abbreviation by_workload := (λ c, served workload_rules manager_indexes c = true).
#[local] Abbreviation by_provisioner := (λ c, served provisioner_rules manager_indexes c = true).
#[local] Abbreviation by_registrar := (λ c, served registrar_rules manager_indexes c = true).
#[local] Abbreviation by_mirror := (λ c, served mirror_rules manager_indexes c = true).
#[local] Abbreviation by_plan := (λ c, served plan_rules [] c && served runtime_role [] c = true).
#[local] Abbreviation by_exposure :=
  (λ c, served exposure_rules [] c && served runtime_role [] c = true).

Section objects.
Context (P : call → Prop).

Lemma create_if_absent_asks K what o :
  (∀ k, P (Get K k)) → P (Create K o) → every_call P (create_if_absent K what o).
Proof. intros Hg Hc. unfold create_if_absent. calls; auto. Qed.

Lemma delete_if_present_asks K what claim name :
  (∀ k, P (Delete K k)) → every_call P (delete_if_present K what claim name).
Proof. intros Hd. unfold delete_if_present. calls; auto. Qed.

Lemma check_object_asks {A} K claim name (absent : A) present :
  (∀ k, P (Get K k)) → (∀ o, every_call P (present o)) →
  every_call P (check_object K claim name absent present).
Proof. intros Hg Hp. unfold check_object. calls; auto. Qed.

Lemma create_or_patch_asks K what desired merge same :
  (∀ k, P (Get K k)) → (∀ o, P (Create K o)) → (∀ base o, P (Patch K base o)) →
  every_call P (create_or_patch K what desired merge same).
Proof. intros Hg Hc Hp. unfold create_or_patch. calls; auto. Qed.
End objects.

(** Whether a call is served depends on its kind, its verb and its index only. *)
Ltac grant :=
  intros; lazymatch goal with
  | |- served _ _ _ = true =>
      unfold served, granted; cbn [needs indexed]; vm_compute; reflexivity
  | |- served _ _ _ && served _ _ _ = true =>
      unfold served, granted; cbn [needs indexed]; vm_compute; reflexivity
  end.

(** Walk through the helpers that access objects, then through the rest. *)
Ltac asks :=
  repeat lazymatch goal with
    | |- every_call _ (create_if_absent _ _ _) => apply create_if_absent_asks
    | |- every_call _ (delete_if_present _ _ _ _) => apply delete_if_present_asks
    | |- every_call _ (check_object _ _ _ _ _) => apply check_object_asks
    | |- every_call _ (create_or_patch _ _ _ _ _) => apply create_or_patch_asks
    | _ => calls_step
    end;
  try grant.

Section orchestrator.
Context `{!Scheme, !Finalizers, !MapOrder, !Semver, !LabelSelectors, !DNS1123, !ConfigYAML,
          !ControllerRefs}.
Context (loader : ConfigMapLoader).

#[local] Instance source : ConfigSource := source_of loader.

Lemma postgres_Provision_served claim : every_call by_provisioner (postgres_Provision claim).
Proof.
  unfold postgres_Provision, generateRandomPassword. cbv zeta. asks; intros.
  - unfold createStatefulSet. asks.
  - unfold createService. asks.
  - unfold createPostgresSecret. asks.
Qed.

Lemma redis_Provision_served claim : every_call by_provisioner (redis_Provision claim).
Proof. unfold redis_Provision, generateRandomPassword. asks. Qed.

Lemma secret_Provision_served claim : every_call by_provisioner (secret_Provision claim).
Proof. unfold secret_Provision, generateRandomToken, cut_or_panic. asks. Qed.

Lemma Deprovision_served s claim :
  s ∈ [PostgresStrategy; RedisStrategy; SecretStrategy] →
  every_call by_provisioner (Deprovision s claim) ∧
  every_call by_provisioner (GetStatus s claim).
Proof.
  rewrite !elem_of_cons. intros [->|[->|[->|[]%elem_of_nil]]]; cbn [Deprovision GetStatus
    PostgresStrategy RedisStrategy SecretStrategy].
  - unfold postgres_Deprovision, postgres_GetStatus. cbv zeta. split; asks.
  - unfold redis_Deprovision, redis_GetStatus. split; asks.
  - unfold secret_Deprovision, secret_GetStatus. split; asks.
Qed.

Lemma strategies_served envTypes t s :
  GetStrategy (pv_StrategySelector (NewProvisionerReconciler envTypes)) t = Ok s →
  ∀ claim, every_call by_provisioner (Provision s claim) ∧
           every_call by_provisioner (Deprovision s claim) ∧
           every_call by_provisioner (GetStatus s claim).
Proof.
  intros Hs claim. unfold GetStrategy in Hs. destruct (_ !! t) as [s'|] eqn:Hl; [|done].
  injection Hs as ->. apply registered_strategy in Hl as [[-> ->]|[[-> ->]|[-> ->]]];
    (split; [|by apply Deprovision_served; set_solver]).
  - apply postgres_Provision_served.
  - apply redis_Provision_served.
  - apply secret_Provision_served.
Qed.

Lemma ReconcileClaim_served envTypes req :
  every_call by_provisioner (ReconcileClaim (NewProvisionerReconciler envTypes) req).
Proof.
  unfold ReconcileClaim, handleDeletion, initialize_claim, handleProvisioning,
    handlePendingPhase, handleClaimingPhase, handleBoundPhase, handleFailedPhase,
    provision_and_bind, fail_claim, claim_event. cbv zeta. asks;
  match goal with
  | Hs : GetStrategy _ _ = Ok ?s |- _ => by apply (strategies_served envTypes _ s Hs)
  end.
Qed.

Lemma setStatusCondition_served cs c : every_call by_mirror (setStatusCondition cs c).
Proof. induction cs; simpl; asks; done. Qed.

Lemma mirror_conditions_served cs normalized updated :
  every_call by_mirror (mirror_conditions cs normalized updated).
Proof.
  revert cs updated. induction normalized; intros cs updated; simpl; asks; auto.
  apply setStatusCondition_served.
Qed.

Lemma MirrorReconcile_served req : every_call by_mirror (MirrorReconcile req).
Proof.
  unfold MirrorReconcile, mirrorConditions, mirror_event. asks. apply mirror_conditions_served.
Qed.

Lemma RegistrarReconcile_served class req :
  every_call by_registrar (RegistrarReconcile class req).
Proof. unfold RegistrarReconcile, registrar_event. cbv zeta. asks. Qed.

Lemma EnsureClaims_served order workload :
  every_call by_workload (EnsureClaims order workload).
Proof.
  unfold EnsureClaims. induction order as [|[key resource] order IH]; [done|].
  cbn [ensure_claims]. unfold upsertResourceClaim, upsert_with. cbv zeta. asks. intros. apply IH.
Qed.

Lemma GetClaims_served workload : every_call by_workload (GetClaims workload).
Proof. unfold GetClaims, getResourceClaimsWithoutIndex. cbv zeta. asks. Qed.

Lemma resolveAllPlaceholders_served workload claims :
  every_call by_workload (resolveAllPlaceholders workload claims).
Proof.
  unfold resolveAllPlaceholders. asks. generalize (∅ : gmap string (gmap string string)).
  induction claims; intros available; simpl; unfold claim_outputs; asks; auto.
Qed.

Lemma UpsertWorkloadPlan_served workload claims sb :
  every_call by_workload (UpsertWorkloadPlan workload claims sb).
Proof.
  unfold UpsertWorkloadPlan, create_plan, update_plan. cbv zeta. asks;
    apply resolveAllPlaceholders_served.
Qed.

Lemma load_config_served : every_call by_workload load_config.
Proof. cbn [load_config source source_of]. unfold LoadConfig. cbv zeta. asks. Qed.

Lemma EnsurePlan_served workload claims agg :
  every_call by_workload (EnsurePlan workload claims agg).
Proof.
  unfold EnsurePlan, emit, SetRuntimeReadyCondition, set_condition. asks.
  - unfold pm_SelectBackend. asks. apply load_config_served.
  - apply UpsertWorkloadPlan_served.
Qed.

Lemma GetPlan_served workload : every_call by_workload (GetPlan workload).
Proof. unfold GetPlan. cbv zeta. asks. Qed.

Lemma process_claims_served workload claims :
  every_call by_workload (process_claims workload claims).
Proof.
  induction claims as [|claim claims IH]; [done|]. cbn [process_claims].
  unfold processDeprovisionPolicy, deleteResourceClaim, removeOwnerReference. asks. intros. apply IH.
Qed.

Lemma deletion_served ctx : every_call by_workload (executeDeletionPipeline ctx).
Proof.
  unfold executeDeletionPipeline, DeletionPhase, RemoveWorkloadFinalizer, update_workload, emit.
  cbn [ph_Execute ph_ShouldSkip]. cbv zeta.
  asks; first [apply GetClaims_served|apply process_claims_served].
Qed.

(** Phases all of whose calls are granted make a run all of whose calls are. *)
Lemma run_phases_served phases ctx :
  (∀ phase, phase ∈ phases → ∀ ctx, every_call by_workload (ph_Execute phase ctx)) →
  every_call by_workload (run_phases phases ctx).
Proof.
  revert ctx. induction phases as [|phase phases IH]; intros ctx Hp; [done|]. cbn [run_phases].
  asks; try (apply Hp; by left); intros; apply IH; intros; apply Hp; by right.
Qed.

Lemma normalPhases_served phase ctx :
  phase ∈ normalPhases → every_call by_workload (ph_Execute phase ctx).
Proof.
  unfold normalPhases. rewrite !elem_of_cons.
  intros [->|[->|[->|[->|[]%elem_of_nil]]]]; cbn [ph_Execute ValidationPhase ClaimPhase PlanPhase
    StatusPhase]; cbv zeta;
    unfold SetInputsValidCondition, set_condition, emit, ComputeFinalStatus,
      updateRuntimeStatusFromPlan, UpdateStatus, SetRuntimeReadyCondition, set_condition;
    asks; first [apply EnsureClaims_served|apply GetClaims_served|apply EnsurePlan_served|
                 apply GetPlan_served|idtac].
Qed.

Lemma Reconcile_served pipeline cached req :
  every_call by_workload (Reconcile pipeline cached req).
Proof.
  unfold Reconcile, Execute, EnsureFinalizer, update_workload. cbv zeta. asks.
  - apply deletion_served.
  - apply run_phases_served. intros. by apply normalPhases_served.
Qed.
End orchestrator.

Section runtime.
Context `{!NumberText, !Quantities, !MapOrder, !Scheme, !Defaulter, !SemanticEqual}.

Lemma ReconcilePlan_served req : every_call by_plan (ReconcilePlan req).
Proof.
  unfold ReconcilePlan, reconcileDeployment, reconcileService, updateWorkloadPlanStatus, report,
    plan_event, getWorkload. cbv zeta. asks.
Qed.

Lemma ReconcileExposure_served req : every_call by_exposure (ReconcileExposure req).
Proof. unfold ReconcileExposure. cbv zeta. asks. Qed.

Lemma findExposures_served service :
  every_call by_exposure (findWorkloadExposuresForService service).
Proof. unfold findWorkloadExposuresForService. asks. Qed.
End runtime.

(** ** One role within another *)

(** The permissions of a rule, one by one. *)
Definition rule_permissions (r : Rule) : list Permission :=
  g ← rule_groups r; resource ← rule_resources r; v ← rule_verbs r; mret (g, resource, v).

Definition permissions (role : list Rule) : list Permission := role ≫= rule_permissions.

Lemma rule_allows_iff r p : rule_allows r p = true ↔ p ∈ rule_permissions r.
Proof.
  destruct p as [[g resource] v]. unfold rule_allows, rule_permissions. simpl.
  rewrite !andb_true_iff, !bool_decide_eq_true. split.
  - intros [[Hg Hr] Hv]. apply list_elem_of_bind. exists g. split; [|done].
    apply list_elem_of_bind. exists resource. split; [|done].
    apply list_elem_of_bind. exists v. split; [by left|done].
  - intros (g' & (r' & (v' & Hp & Hv)%list_elem_of_bind & Hr)%list_elem_of_bind & Hg)%list_elem_of_bind.
    apply list_elem_of_singleton in Hp. by simplify_eq.
Qed.

Lemma allowed_iff role p : allowed role p = true ↔ p ∈ permissions role.
Proof.
  unfold allowed, permissions. rewrite existsb_exists, list_elem_of_bind.
  split; intros (r & H1 & H2).
  - exists r. by rewrite <- rule_allows_iff, list_elem_of_In.
  - exists r. by rewrite rule_allows_iff, <- list_elem_of_In.
Qed.

(** A role covers another one when it has each of its permissions. *)
Definition covers (role other : list Rule) : bool :=
  forallb (allowed role) (permissions other).

Lemma covers_spec role other p :
  covers role other = true → allowed other p = true → allowed role p = true.
Proof.
  unfold covers. rewrite forallb_forall, allowed_iff. intros Hc Hp. apply Hc.
  by rewrite <- list_elem_of_In.
Qed.

Lemma served_covers role own indexes c :
  covers role own = true → served own indexes c = true →
  served own indexes c = true ∧ served role indexes c = true.
Proof.
  unfold served, granted. rewrite !andb_true_iff, !forallb_forall.
  intros Hc [Hg Hi]. split_and!; try done. intros p Hp. by eapply covers_spec, Hg.
Qed.

(** ** The properties *)

Section roles.
Context `{!Scheme, !Finalizers, !MapOrder, !Semver, !LabelSelectors, !DNS1123, !ConfigYAML,
          !ControllerRefs, !NumberText, !Quantities, !Defaulter, !SemanticEqual}.

(** C11: Neither program ever asks the API server for what its deployed role does not
    grant, or for a look-up whose index does not exist, whatever the objects, the
    settings and the answers are: every call that a reconcile of the workload controller
    (with the ConfigMap loader in any state), of the provisioner with the registered
    strategies, of the registrar or of the mirror can make is granted by
    [config/rbac/role.yaml] and uses an index of [SetupIndexers], and every call of the
    two controllers of the Kubernetes runtime and of its Service watch is granted by
    [runtimes/kubernetes/manifests/rbac.yaml] and uses no index.  Moreover each
    controller stays within its own rules: the markers at its code, and what these
    forget. *)
Theorem calls_are_served loader pipeline cached envTypes class req service :
  let manager own c := served own manager_indexes c = true ∧
                       served manager_role manager_indexes c = true in
  let runtime own c := served own [] c && served runtime_role [] c = true in
  (every_call (manager workload_rules)
     (@Reconcile _ _ _ _ _ (source_of loader) pipeline cached req) ∧
   every_call (manager provisioner_rules) (ReconcileClaim (NewProvisionerReconciler envTypes) req) ∧
   every_call (manager registrar_rules) (RegistrarReconcile class req) ∧
   every_call (manager mirror_rules) (MirrorReconcile req)) ∧
  (every_call (runtime plan_rules) (ReconcilePlan req) ∧
   every_call (runtime exposure_rules) (ReconcileExposure req) ∧
   every_call (runtime exposure_rules) (findWorkloadExposuresForService service)).
Proof.
  intros manager runtime. split; split_and!.
  1-4: eapply every_call_mono; [intros c; apply served_covers; by vm_compute|].
  - apply Reconcile_served.
  - apply ReconcileClaim_served.
  - apply RegistrarReconcile_served.
  - apply MirrorReconcile_served.
  - apply ReconcilePlan_served.
  - apply ReconcileExposure_served.
  - apply findExposures_served.
Qed.
End roles.

(** *** The markers and the deployed role agree *)

(** C17: The role of the orchestrator is exactly what the markers of the controllers of
    both programs ask for: no permission is missing and none is added. *)
Theorem markers_make_role p : allowed manager_role p = allowed all_markers p.
Proof.
  apply eq_true_iff_eq. split; apply covers_spec; by vm_compute.
Qed.

(** *** On examples *)

(** The role of the runtime is not what the markers of its controllers ask for: it may
    not write plans, only their status, and it may record events, which the markers
    forget although the reconcile of a plan records them. *)
Example runtime_role_differs :
  let markers := runtime_plan_rbac ++ runtime_exposure_rbac in
  allowed markers (on KWorkloadPlan VUpdate) = true ∧
  allowed runtime_role (on KWorkloadPlan VUpdate) = false ∧
  granted markers (Event ("", "") "" "" "") = false ∧
  granted runtime_role (Event ("", "") "" "" "") = true.
Proof. by vm_compute. Qed.

(** What the markers forget. *)
Example markers_forget :
  granted workload_rbac (Get KSecret ("", "")) = false ∧
  (λ own, granted own (Event ("", "") "" "" "")) <$> [registrar_rbac; mirror_rbac; runtime_plan_rbac]
    = [false; false; false].
Proof. by vm_compute. Qed.
