(* ===== verification/Setup.v ===== *)
(** * Setup: [src/cmd/main.go], [src/runtimes/kubernetes/cmd/main.go], the methods
    [SetupWithManager] and [SetupIndexers]

    What the two programs configure, in which order, and when they give up.  The
    operations of controller-runtime are actions that may fail; which ones fail, and
    after what, is a parameter of the model. *)
From S2P Require Import Prelude GoStrings Json K8s Api Client Sort Conditions Selection.
From S2P Require Import Validation ConfigCache ReconcilerConfig ConfigLoader Placeholders.
From S2P Require Import Claims StatusManager Plan Pipeline Mirror Registrar.
From S2P Require Import RuntimePlan RuntimeExposure Lifecycle Strategy Provisioner Strategies.
From S2P Require Import Rbac Flags.

(** ** The servers *)

(** The field of [tls.Config] that the options touch. *)
Record TLSConfig := { NextProtos : list string }.

Definition TLSOpt : Type := TLSConfig → TLSConfig.

Definition disableHTTP2 : TLSOpt := λ _, {| NextProtos := ["http/1.1"] |}.

Definition tlsOpts (f : Flags) : list TLSOpt := if negb (enableHTTP2 f) then [disableHTTP2] else [].

(** A server applies its options in order. *)
Definition configured (opts : list TLSOpt) (c : TLSConfig) : TLSConfig :=
  foldl (λ c opt, opt c) c opts.

Record WebhookOptions := {
  wo_TLSOpts : list TLSOpt;
  wo_CertDir : string;
  wo_CertName : string;
  wo_KeyName : string;
}.

Definition webhookServerOptions (f : Flags) : WebhookOptions :=
  let options := {| wo_TLSOpts := tlsOpts f; wo_CertDir := ""; wo_CertName := "";
                    wo_KeyName := "" |} in
  if 0 <? String.length (webhookCertPath f)
  then {| options with wo_CertDir := webhookCertPath f; wo_CertName := webhookCertName f;
                       wo_KeyName := webhookCertKey f |}
  else options.

(** [mo_Authenticated]: the filter provider is
    [filters.WithAuthenticationAndAuthorization]. *)
Record MetricsOptions := {
  mo_BindAddress : string;
  mo_SecureServing : bool;
  mo_TLSOpts : list TLSOpt;
  mo_Authenticated : bool;
  mo_CertDir : string;
  mo_CertName : string;
  mo_KeyName : string;
}.

Definition metricsServerOptions (f : Flags) : MetricsOptions :=
  let options := {| mo_BindAddress := metricsAddr f; mo_SecureServing := secureMetrics f;
                    mo_TLSOpts := tlsOpts f; mo_Authenticated := false; mo_CertDir := "";
                    mo_CertName := ""; mo_KeyName := "" |} in
  let options := if secureMetrics f then {| options with mo_Authenticated := true |} else options in
  if 0 <? String.length (metricsCertPath f)
  then {| options with mo_CertDir := metricsCertPath f; mo_CertName := metricsCertName f;
                       mo_KeyName := metricsCertKey f |}
  else options.

Record ManagerOptions := {
  mgr_Metrics : MetricsOptions;
  mgr_WebhookServer : WebhookOptions;
  mgr_HealthProbeBindAddress : string;
  mgr_LeaderElection : bool;
  mgr_LeaderElectionID : string;
}.

Definition manager_options (id : string) (f : Flags) : ManagerOptions :=
  {| mgr_Metrics := metricsServerOptions f; mgr_WebhookServer := webhookServerOptions f;
     mgr_HealthProbeBindAddress := probeAddr f; mgr_LeaderElection := enableLeaderElection f;
     mgr_LeaderElectionID := id |}.

(** ** The controllers *)

(** What a watched object enqueues: itself, its owners of a kind (all, or the
    controller only), its workload, or the exposures of a Service. *)
Inductive Handler :=
| EnqueueObject
| EnqueueOwner (owner : Kind) (onlyController : bool)
| EnqueueOwningWorkload
| EnqueueExposures.

Inductive Predicate := AllEvents | GenerationChanged | FilterSupportedTypes.

(** The builder of [ctrl.NewControllerManagedBy]. *)
Record Builder := {
  b_For : Kind;
  b_Watches : list (Kind * Handler);
  b_Filter : Predicate;
  b_Named : option string;
  b_MaxConcurrentReconciles : option Z;
}.

(** [Owns]: the controller among the owners is enqueued. *)
Definition Owns (For K : Kind) : Kind * Handler := (K, EnqueueOwner For true).

Definition workload_builder : Builder :=
  {| b_For := KWorkload;
     b_Watches := [Owns KWorkload KResourceClaim; Owns KWorkload KWorkloadPlan;
                   (KResourceClaim, EnqueueOwningWorkload); (KWorkloadPlan, EnqueueOwningWorkload)];
     b_Filter := AllEvents; b_Named := Some "workload"; b_MaxConcurrentReconciles := Some 1%Z |}.

Definition provisioner_builder : Builder :=
  {| b_For := KResourceClaim; b_Watches := []; b_Filter := FilterSupportedTypes;
     b_Named := None; b_MaxConcurrentReconciles := None |}.

Definition mirror_builder : Builder :=
  {| b_For := KWorkloadExposure; b_Watches := []; b_Filter := AllEvents;
     b_Named := Some "exposure-mirror"; b_MaxConcurrentReconciles := None |}.

Definition registrar_builder : Builder :=
  {| b_For := KWorkload;
     b_Watches := [Owns KWorkload KWorkloadExposure; (KWorkloadPlan, EnqueueOwner KWorkload true)];
     b_Filter := GenerationChanged; b_Named := Some "workload-exposure-registrar";
     b_MaxConcurrentReconciles := None |}.

Definition runtime_plan_builder : Builder :=
  {| b_For := KWorkloadPlan;
     b_Watches := [Owns KWorkloadPlan KDeployment; Owns KWorkloadPlan KService;
                   (KDeployment, EnqueueOwner KWorkloadPlan false);
                   (KService, EnqueueOwner KWorkloadPlan false)];
     b_Filter := AllEvents; b_Named := Some "k8s-runtime-plan"; b_MaxConcurrentReconciles := None |}.

Definition runtime_exposure_builder : Builder :=
  {| b_For := KWorkloadExposure; b_Watches := [(KService, EnqueueExposures)];
     b_Filter := AllEvents; b_Named := None; b_MaxConcurrentReconciles := None |}.

(** [meta.RuntimeClassKubernetes] *)
Definition RuntimeClassKubernetes := "kubernetes".

(** The reconcilers with the settings they are made with. *)
Inductive Reconciler :=
| WorkloadReconciler (loader : LoaderOptions)
| Provisioner (loader : LoaderOptions) (envTypes : string)
| ExposureMirror
| ExposureRegistrar (RuntimeClass : string)
| RuntimePlanReconciler
| RuntimeExposureReconciler.

Definition builder_of (r : Reconciler) : Builder :=
  match r with
  | WorkloadReconciler _ => workload_builder
  | Provisioner _ _ => provisioner_builder
  | ExposureMirror => mirror_builder
  | ExposureRegistrar _ => registrar_builder
  | RuntimePlanReconciler => runtime_plan_builder
  | RuntimeExposureReconciler => runtime_exposure_builder
  end.

(** ** Setting up *)

(** What the programs ask of controller-runtime and client-go. *)
Inductive action :=
| GetConfigOrDie
| NewManager (options : ManagerOptions)
| IndexField (K : Kind) (field : string) (extract : obj K → list string)
| NewClientset
| SetupWithManager (r : Reconciler)
| AddHealthzCheck (name : string)
| AddReadyzCheck (name : string)
| StartManager.

(** A set-up knows the actions so far, and returns a value or exits the process. *)
Definition setup (A : Type) : Type := list action → (A + Z) * list action.

#[export] Instance setup_ret : MRet setup := λ A a past, (inl a, past).
#[export] Instance setup_bind : MBind setup := λ A B f p past,
  match p past with
  | (inl a, past) => f a past
  | (inr code, past) => (inr code, past)
  end.

(** [os.Exit] *)
Definition os_exit {A} (code : Z) : setup A := λ past, (inr code, past).

(** [if err := p; err != nil { return err }; q] *)
Definition and_then (p q : setup (res ())) : setup (res ()) :=
  r ← p; match r with Ok _ => q | Err err => mret (Err err) end.

(** [if err := p; err != nil { os.Exit(1) }] *)
Definition or_exit (p : setup (res ())) : setup () :=
  r ← p; match r with Ok _ => mret () | Err _ => os_exit 1 end.

Section programs.
(** Which action fails, after the actions so far. *)
Context `{!OtherFlags} (fails : list action → action → option goerror).

Definition attempt (a : action) : setup (res ()) := λ past,
  (inl match fails past a with None => Ok () | Some err => Err err end, past ++ [a]).

Definition SetupIndexers : setup (res ()) :=
  and_then (attempt (IndexField KResourceClaim IndexResourceClaimByWorkload index_claim))
    (attempt (IndexField KWorkloadPlan IndexWorkloadPlanByWorkload index_plan)).

(** The options of the configuration loader; [CONFIG_NAMESPACE] overrides one. *)
Definition loader_options (envNamespace : string) : LoaderOptions :=
  if negb (bool_decide (envNamespace = ""))
  then {| DefaultLoaderOptions with lo_Namespace := envNamespace |}
  else DefaultLoaderOptions.

(** [main] of the orchestrator, with the two environment variables and the
    arguments. *)
Definition main (envNamespace envTypes : string) (args : list string) : setup () :=
  match parse_flags args with
  | Exits code => os_exit code
  | Parsed f =>
      or_exit (attempt GetConfigOrDie);;
      or_exit (attempt (NewManager (manager_options "95568818.dev" f)));;
      or_exit SetupIndexers;;
      or_exit (attempt NewClientset);;
      let loader := loader_options envNamespace in
      or_exit (attempt (SetupWithManager (WorkloadReconciler loader)));;
      or_exit (attempt (SetupWithManager (Provisioner loader envTypes)));;
      or_exit (attempt (SetupWithManager ExposureMirror));;
      or_exit (attempt (SetupWithManager (ExposureRegistrar RuntimeClassKubernetes)));;
      or_exit (attempt (AddHealthzCheck "healthz"));;
      or_exit (attempt (AddReadyzCheck "readyz"));;
      or_exit (attempt StartManager)
  end.

(** [main] of the Kubernetes runtime. *)
Definition runtime_main (args : list string) : setup () :=
  match parse_flags args with
  | Exits code => os_exit code
  | Parsed f =>
      or_exit (attempt GetConfigOrDie);;
      or_exit (attempt (NewManager (manager_options "kubernetes-runtime.score.dev" f)));;
      or_exit (attempt (SetupWithManager RuntimePlanReconciler));;
      or_exit (attempt (SetupWithManager RuntimeExposureReconciler));;
      or_exit (attempt (AddHealthzCheck "healthz"));;
      or_exit (attempt (AddReadyzCheck "readyz"));;
      or_exit (attempt StartManager)
  end.

(** *** The plan of a set-up *)

(** What the orchestrator does when nothing fails. *)
Definition manager_plan (f : Flags) (envNamespace envTypes : string) : list action :=
  let loader := loader_options envNamespace in
  [GetConfigOrDie; NewManager (manager_options "95568818.dev" f);
   IndexField KResourceClaim IndexResourceClaimByWorkload index_claim;
   IndexField KWorkloadPlan IndexWorkloadPlanByWorkload index_plan;
   NewClientset] ++
  (SetupWithManager <$> [WorkloadReconciler loader; Provisioner loader envTypes; ExposureMirror;
                         ExposureRegistrar RuntimeClassKubernetes]) ++
  [AddHealthzCheck "healthz"; AddReadyzCheck "readyz"; StartManager].

Definition runtime_plan (f : Flags) : list action :=
  [GetConfigOrDie; NewManager (manager_options "kubernetes-runtime.score.dev" f)] ++
  (SetupWithManager <$> [RuntimePlanReconciler; RuntimeExposureReconciler]) ++
  [AddHealthzCheck "healthz"; AddReadyzCheck "readyz"; StartManager].

(** Each action of the list succeeds after those before it. *)
Definition all_succeed (past : list action) (actions : list action) : Prop :=
  ∀ before a after, actions = before ++ a :: after → fails (past ++ before) a = None.

(** How a set-up with a plan ends: every action succeeds, in order, and the process
    returns; or the first that fails is the last that is tried, and the process exits
    with code 1. *)
Definition carries_out (plan : list action) (end_ : (() + Z) * list action) : Prop :=
  (all_succeed [] plan ∧ end_ = (inl (), plan)) ∨
  ∃ before a after err, plan = before ++ a :: after ∧ all_succeed [] before ∧
    fails before a = Some err ∧ end_ = (inr 1%Z, before ++ [a]).

(** The reference: try the actions one after the other. *)
Fixpoint in_order (plan : list action) : setup () :=
  match plan with
  | [] => mret ()
  | a :: plan => or_exit (attempt a);; in_order plan
  end.

Lemma in_order_ends past plan :
  (all_succeed past plan ∧ in_order plan past = (inl (), past ++ plan)) ∨
  ∃ before a after err, plan = before ++ a :: after ∧ all_succeed past before ∧
    fails (past ++ before) a = Some err ∧ in_order plan past = (inr 1%Z, past ++ before ++ [a]).
Proof.
  revert past. induction plan as [|a plan IH]; intros past.
  - left. split; [by intros [] ? ?|]. simpl. by rewrite app_nil_r.
  - destruct (fails past a) as [err|] eqn:Ha.
    + right. exists [], a, plan, err. split_and!; [done|by intros [] ? ?|by rewrite app_nil_r|].
      simpl. unfold or_exit, attempt, mbind, setup_bind. by rewrite Ha.
    + assert (in_order (a :: plan) past = in_order plan (past ++ [a])) as ->.
      { simpl. unfold or_exit, attempt, mbind, setup_bind. by rewrite Ha. }
      assert (∀ l, all_succeed (past ++ [a]) l → all_succeed past (a :: l)) as Hcons.
      { intros l Hl [|b before] c after [= <- Heq]; [by rewrite app_nil_r|].
        replace (past ++ a :: before) with ((past ++ [a]) ++ before) by (by rewrite <- app_assoc).
        by eapply Hl. }
      destruct (IH (past ++ [a])) as [[Hs ->]|(before & b & after & err & -> & Hs & Hb & ->)].
      * left. split; [auto|]. by rewrite <- app_assoc.
      * right. exists (a :: before), b, after, err. rewrite <- !app_assoc in *. auto.
Qed.

Lemma in_order_carries_out plan : carries_out plan (in_order plan []).
Proof. exact (in_order_ends [] plan). Qed.

(** *** The programs follow their plans *)

Definition follows (p : setup ()) (plan : list action) : Prop :=
  ∀ past, p past = in_order plan past.

Lemma follows_last a : follows (or_exit (attempt a)) [a].
Proof.
  intros past. cbn [in_order]. unfold mbind, setup_bind.
  by destruct (or_exit (attempt a) past) as [[[]|code] past'].
Qed.

Lemma follows_next a q plan : follows q plan → follows (or_exit (attempt a);; q) (a :: plan).
Proof.
  intros Hq past. cbn [in_order]. unfold mbind, setup_bind.
  destruct (or_exit (attempt a) past) as [[[]|code] past']; [apply Hq|done].
Qed.

(** Two actions in a function that returns the first error. *)
Lemma follows_and_then a b q plan :
  follows q plan →
  follows (or_exit (and_then (attempt a) (attempt b));; q) (a :: b :: plan).
Proof.
  intros Hq past. cbn [in_order].
  unfold or_exit, and_then, attempt, mbind, setup_bind, mret, setup_ret.
  destruct (fails past a); [done|]. destruct (fails (past ++ [a]) b); [done|]. apply Hq.
Qed.

Lemma follows_carries_out p plan : follows p plan → carries_out plan (p []).
Proof. intros Hp. rewrite Hp. apply in_order_carries_out. Qed.

(** C29: Both programs set up in one fixed order and stop at the first failure: when the
    arguments are read, either every action of the plan succeeds, one after the other,
    and the process returns when the manager stops, or the first action that fails is
    the last that is tried and the process exits with code 1.  So the manager is
    started only after the indexes exist and every controller and both health checks
    are registered.  Bad arguments end the process before anything is tried. *)
Theorem setup_in_order envNamespace envTypes args :
  match parse_flags args with
  | Exits code => main envNamespace envTypes args [] = (inr code, []) ∧
                  runtime_main args [] = (inr code, [])
  | Parsed f => carries_out (manager_plan f envNamespace envTypes)
                  (main envNamespace envTypes args []) ∧
                carries_out (runtime_plan f) (runtime_main args [])
  end.
Proof.
  unfold main, runtime_main. destruct (parse_flags args) as [f|code]; [|done]. cbv zeta.
  split; apply follows_carries_out; cbn [manager_plan runtime_plan app fmap list_fmap];
    repeat first [apply follows_last | apply follows_and_then | apply follows_next].
Qed.
End programs.

(** ** The servers *)

(** How the flags secure the servers of both programs.  Whatever the defaults of
    the library are, the webhook server and the metrics server speak HTTP/1.1 only
    unless [enable-http2] is given, and then their protocols are left alone; metrics
    are served encrypted and behind authentication and authorisation exactly when
    [metrics-secure] holds; a server gets the named certificate exactly when its path
    is given, and otherwise none, so that the library generates one. *)
Theorem servers_secured id f c :
  let o := manager_options id f in
  (∀ opts, opts = wo_TLSOpts (mgr_WebhookServer o) ∨ opts = mo_TLSOpts (mgr_Metrics o) →
     NextProtos (configured opts c) = if enableHTTP2 f then NextProtos c else ["http/1.1"]) ∧
  (mo_SecureServing (mgr_Metrics o) = secureMetrics f ∧
   mo_Authenticated (mgr_Metrics o) = secureMetrics f) ∧
  (wo_CertDir (mgr_WebhookServer o), wo_CertName (mgr_WebhookServer o),
   wo_KeyName (mgr_WebhookServer o)) =
    (if bool_decide (webhookCertPath f = "") then ("", "", "")
     else (webhookCertPath f, webhookCertName f, webhookCertKey f)) ∧
  (mo_CertDir (mgr_Metrics o), mo_CertName (mgr_Metrics o), mo_KeyName (mgr_Metrics o)) =
    (if bool_decide (metricsCertPath f = "") then ("", "", "")
     else (metricsCertPath f, metricsCertName f, metricsCertKey f)).
Proof.
  split_and!.
  - intros opts [-> | ->]; simpl; unfold webhookServerOptions, metricsServerOptions;
      do 2 try destruct (0 <? _); destruct (secureMetrics f); simpl; unfold tlsOpts;
      by destruct (enableHTTP2 f).
  - simpl. unfold metricsServerOptions. destruct (0 <? _); by destruct (secureMetrics f) eqn:?.
  - simpl. unfold metricsServerOptions. destruct (0 <? _); by destruct (secureMetrics f) eqn:?.
  - simpl. unfold webhookServerOptions. by destruct (webhookCertPath f).
  - simpl. unfold metricsServerOptions. destruct (secureMetrics f); by destruct (metricsCertPath f).
Qed.

(** ** The wiring *)

Definition reconcilers (plan : list action) : list Reconciler :=
  omap (λ a, match a with SetupWithManager r => Some r | _ => None end) plan.

(** The indexes, with the values of an object under each. *)
Definition index_values (plan : list action) : list (Kind * string) :=
  omap (λ a, match a with IndexField K field _ => Some (K, field) | _ => None end) plan.

(** The name of a controller: the lower-case kind of its objects unless it is given. *)
Definition kind_name (K : Kind) : string :=
  match K with
  | KWorkload => "workload" | KResourceClaim => "resourceclaim" | KWorkloadPlan => "workloadplan"
  | KWorkloadExposure => "workloadexposure" | KSecret => "secret" | KConfigMap => "configmap"
  | KStatefulSet => "statefulset" | KDeployment => "deployment" | KService => "service"
  end.

Definition controller_name (r : Reconciler) : string :=
  default (kind_name (b_For (builder_of r))) (b_Named (builder_of r)).

Definition watched_kinds (r : Reconciler) : list Kind :=
  b_For (builder_of r) :: (b_Watches (builder_of r)).*1.

(** The role lets an informer list and watch the kind. *)
Definition may_watch (role : list Rule) (K : Kind) : bool :=
  allowed role (on K VList) && allowed role (on K VWatch).

(** C30: The two programs fit together as they are wired.  The names of the controllers
    of a program are distinct, as the manager demands; every kind they watch may be
    listed and watched by the deployed role; the indexes registered are those the
    look-ups of the reconcilers use; only the workload controller bounds its
    concurrency, to one reconcile; and the exposures the orchestrator registers carry
    the class that the runtime serves. *)
Theorem wiring_fits f envNamespace envTypes :
  let plan := manager_plan f envNamespace envTypes in
  let runtime := runtime_plan f in
  (NoDup (controller_name <$> reconcilers plan) ∧
   NoDup (controller_name <$> reconcilers runtime)) ∧
  (∀ r K, r ∈ reconcilers plan → K ∈ watched_kinds r → may_watch manager_role K = true) ∧
  (∀ r K, r ∈ reconcilers runtime → K ∈ watched_kinds r → may_watch runtime_role K = true) ∧
  (index_values plan = manager_indexes ∧ index_values runtime = []) ∧
  (∀ r n, r ∈ reconcilers plan ++ reconcilers runtime →
     b_MaxConcurrentReconciles (builder_of r) = Some n → controller_name r = "workload" ∧ n = 1%Z) ∧
  (∀ class, ExposureRegistrar class ∈ reconcilers plan → class = kubernetesRuntimeClass).
Proof.
  cbv zeta. cbn [manager_plan runtime_plan reconcilers index_values app fmap list_fmap omap list_omap].
  split_and!.
  - apply (bool_decide_unpack _). by vm_compute.
  - apply (bool_decide_unpack _). by vm_compute.
  - intros r K Hr HK. repeat (apply elem_of_cons in Hr as [->|Hr]); [..|by apply elem_of_nil in Hr];
      repeat (apply elem_of_cons in HK as [->|HK]); try done; by apply elem_of_nil in HK.
  - intros r K Hr HK. repeat (apply elem_of_cons in Hr as [->|Hr]); [..|by apply elem_of_nil in Hr];
      repeat (apply elem_of_cons in HK as [->|HK]); try done; by apply elem_of_nil in HK.
  - done.
  - done.
  - intros r n Hr Hn. repeat (apply elem_of_cons in Hr as [->|Hr]); [..|by apply elem_of_nil in Hr];
      simpl in Hn; by simplify_eq.
  - intros class Hc. set_solver.
Qed.
