(* ===== verification/GoMemory.v ===== *)
(** * GoMemory: Go values in memory, and what a deep copy is

    The other files treat the API objects as immutable values.  In the program they
    are structs that share pointers, slices and maps, which the controllers change in
    place; what keeps the informers' cache intact is that they change deep copies.
    Here a value is what lies in a variable, with the references it holds, and the
    heap maps locations to what is stored there. *)
From S2P Require Import Prelude Client.

(** ** Values and heaps *)

Abbreviation loc := positive (only parsing).

Inductive scalar :=
| SStr (s : string)
| SInt (z : Z)
| SBool (b : bool).

(** [Nil] is the nil of pointers, slices and maps.  A slice is a window of an array. *)
Inductive gval :=
| Scalar (s : scalar)
| Struct (fields : list (string * gval))
| Nil
| Ptr (l : loc)
| Slice (l : loc) (off len : nat)
| Map (l : loc).

Inductive cell :=
| Var (v : gval)
| Array (vs : list gval)
| Table (m : gmap string gval).

Abbreviation heap := (gmap loc cell) (only parsing).

(** The elements of a slice. *)
Definition elems (h : heap) (l : loc) (off len : nat) : option (list gval) :=
  match h !! l with
  | Some (Array vs) =>
      if bool_decide (off + len ≤ length vs) then Some (take len (drop off vs)) else None
  | _ => None
  end.

(** ** Code that changes the heap

    [None] is a panic (a dereference of nil) or a recursion that was not given enough
    fuel. *)
Definition M (A : Type) : Type := heap → option (A * heap).

#[export] Instance M_ret : MRet M := λ A a h, Some (a, h).
#[export] Instance M_bind : MBind M := λ A B f p h,
  match p h with Some (a, h) => f a h | None => None end.

Definition fail {A} : M A := λ _, None.

Definition alloc (c : cell) : M loc := λ h, let l := fresh (dom h : gset loc) in Some (l, <[l := c]> h).

Definition load (p : gval) : M gval := λ h,
  match p with
  | Ptr l => match h !! l with Some (Var v) => Some (v, h) | _ => None end
  | _ => None
  end.

(** The statements of the generated functions, on the value of a field. *)

(** [if in.F != nil { ... }], where [out.F] already holds the same nil. *)
Definition if_set (f : gval → M gval) (v : gval) : M gval :=
  match v with Nil => mret Nil | _ => f v end.

(** [*out = new(T); ( *in).DeepCopyInto( *out)] *)
Definition new_copy (into : gval → M gval) (p : gval) : M gval :=
  v ← load p; v' ← into v; l ← alloc (Var v'); mret (Ptr l).

(** [*out = new(T); **out = **in] *)
Definition new_assign : gval → M gval := new_copy mret.

(** [*out = make([]T, len( *in)); for i := range *in { ( *in)[i].DeepCopyInto(...) }] *)
Definition make_slice (into : gval → M gval) (s : gval) : M gval :=
  match s with
  | Slice l off len => λ h,
      match elems h l off len with
      | Some vs => (vs' ← mapM into vs; l' ← alloc (Array vs'); mret (Slice l' 0 len)) h
      | None => None
      end
  | _ => fail
  end.

(** [*out = make([]T, len( *in)); copy( *out, *in)] *)
Definition make_assign : gval → M gval := make_slice mret.

Section maps.
Context `{!MapOrder}.

(** [*out = make(map[string]T, len( *in)); for key, val := range *in { ... }] *)
Definition make_map (f : gval → M gval) (m : gval) : M gval :=
  match m with
  | Map l => λ h,
      match h !! l with
      | Some (Table m) =>
          (vs' ← mapM (λ kv : string * gval, f kv.2) (visit m);
           l' ← alloc (Table (list_to_map (zip (visit m).*1 vs'))); mret (Map l')) h
      | _ => None
      end
  | _ => fail
  end.
End maps.

(** [*val.DeepCopy()], on the address of the loop variable. *)
Definition star_copy (into : gval → M gval) (v : gval) : M gval :=
  l ← alloc (Var v); p ← if_set (new_copy into) (Ptr l); load p.

(** [func (in *T) DeepCopy() *T] *)
Definition deep_copy (into : gval → M gval) : gval → M gval := if_set (new_copy into).

(** [if c := in.DeepCopy(); c != nil { return c }; return nil] *)
Definition copy_object (copy : gval → M gval) (p : gval) : M gval :=
  c ← copy p; mret match c with Nil => Nil | c => c end.

(** *** Structs *)

Definition field (name : string) (fs : list (string * gval)) : M gval :=
  match List.find (λ f, bool_decide (f.1 = name)) fs with Some f => mret f.2 | None => fail end.

Definition set_field (name : string) (v : gval) (fs : list (string * gval)) : list (string * gval) :=
  (λ f, if bool_decide (f.1 = name) then (name, v) else f) <$> fs.

Fixpoint run_fields (stmts : list (string * (gval → M gval))) (inn out : list (string * gval)) :
    M (list (string * gval)) :=
  match stmts with
  | [] => mret out
  | (name, f) :: stmts =>
      v ← field name inn; v' ← f v; run_fields stmts inn (set_field name v' out)
  end.

(** [*out = *in], and then a statement for some of the fields. *)
Definition copy_struct (stmts : list (string * (gval → M gval))) (v : gval) : M gval :=
  match v with
  | Struct fs => out ← run_fields stmts fs fs; mret (Struct out)
  | _ => fail
  end.

(** ** What the heap holds *)

(** [v] in [h] and [v'] in [h'] have the same structure: the same scalars, nils and
    keys, and references to cells of the same structure. *)
Inductive same (h h' : heap) : gval → gval → Prop :=
| same_scalar s : same h h' (Scalar s) (Scalar s)
| same_struct fs fs' :
    fs.*1 = fs'.*1 →
    (∀ i v v', fs.*2 !! i = Some v → fs'.*2 !! i = Some v' → same h h' v v') →
    same h h' (Struct fs) (Struct fs')
| same_nil : same h h' Nil Nil
| same_ptr l l' v v' :
    h !! l = Some (Var v) → h' !! l' = Some (Var v') → same h h' v v' → same h h' (Ptr l) (Ptr l')
| same_slice l off l' off' len vs vs' :
    elems h l off len = Some vs → elems h' l' off' len = Some vs' →
    (∀ i v v', vs !! i = Some v → vs' !! i = Some v' → same h h' v v') →
    same h h' (Slice l off len) (Slice l' off' len)
| same_map l l' m m' :
    h !! l = Some (Table m) → h' !! l' = Some (Table m') → dom m = dom m' →
    (∀ k v v', m !! k = Some v → m' !! k = Some v' → same h h' v v') →
    same h h' (Map l) (Map l').

(** Every cell that is reachable from [v] exists in [h] and its location satisfies [P]. *)
Inductive lives (P : loc → Prop) (h : heap) : gval → Prop :=
| lives_scalar s : lives P h (Scalar s)
| lives_struct fs : (∀ i v, fs.*2 !! i = Some v → lives P h v) → lives P h (Struct fs)
| lives_nil : lives P h Nil
| lives_ptr l v : P l → h !! l = Some (Var v) → lives P h v → lives P h (Ptr l)
| lives_slice l off len vs :
    P l → elems h l off len = Some vs → (∀ i v, vs !! i = Some v → lives P h v) →
    lives P h (Slice l off len)
| lives_map l m :
    P l → h !! l = Some (Table m) → (∀ k v, m !! k = Some v → lives P h v) → lives P h (Map l).

(** [v'] in [h'] is a deep copy of [v] in [h]: nothing of [h] has changed, the two have
    the same structure, and the copy consists of cells that [h] does not have. *)
Definition copied (h : heap) (v : gval) (h' : heap) (v' : gval) : Prop :=
  h ⊆ h' ∧ same h h' v v' ∧ lives (.∉ (dom h : gset loc)) h' v'.

(** *** Laws *)

Lemma elems_weaken h h' l off len vs :
  h !! l = h' !! l → elems h l off len = Some vs → elems h' l off len = Some vs.
Proof. unfold elems. by intros ->. Qed.

Lemma elems_length h l off len vs : elems h l off len = Some vs → length vs = len.
Proof.
  unfold elems. destruct (h !! l) as [[]|]; try done. case_bool_decide; [|done].
  intros [= <-]. rewrite length_take, length_drop. lia.
Qed.

Lemma elems_is_Some h l off len vs : elems h l off len = Some vs → is_Some (h !! l).
Proof. unfold elems. by destruct (h !! l). Qed.

Lemma elems_sub h h' l off len vs :
  h ⊆ h' → elems h l off len = Some vs → elems h' l off len = Some vs.
Proof.
  intros Hsub He. apply (elems_weaken h); [|done].
  destruct (elems_is_Some _ _ _ _ _ He) as [c Hc].
  rewrite Hc. symmetry. by eapply lookup_weaken.
Qed.

Lemma lives_mono (P Q : loc → Prop) h v : (∀ l, P l → Q l) → lives P h v → lives Q h v.
Proof. intros HPQ. induction 1; econstructor; eauto. Qed.

Lemma lives_sub P h h' v : h ⊆ h' → lives P h v → lives P h' v.
Proof. intros Hsub. induction 1; econstructor; eauto using lookup_weaken, elems_sub. Qed.

(** A value does not change with cells that it does not reach. *)
Lemma lives_frame P h h' v : (∀ l, P l → h !! l = h' !! l) → lives P h v → lives P h' v ∧ same h h' v v.
Proof.
  intros Heq. induction 1 as [s|fs _ IH| |l v Hl Hv _ IH|l off len vs Hl Hv _ IH|l m Hl Hv _ IH].
  - split; constructor.
  - split; [constructor; intros i v Hi; by apply (IH i)|].
    constructor; [done|]. intros i v v' Hi Hi'. simplify_eq. by apply (IH i).
  - split; constructor.
  - destruct IH. split; econstructor; rewrite <- ?Heq; eauto.
  - pose proof (elems_weaken _ _ _ _ _ _ (Heq _ Hl) Hv). split.
    + econstructor; eauto. intros. by eapply IH.
    + econstructor; eauto. intros. simplify_eq. by eapply IH.
  - assert (h' !! l = Some (Table m)) by by rewrite <- (Heq l Hl). split.
    + econstructor; eauto. intros. by eapply IH.
    + econstructor; eauto. intros. simplify_eq. by eapply IH.
Qed.

(** The cells that are reached exist. *)
Lemma lives_in_dom P h v : lives P h v → lives (.∈ (dom h : gset loc)) h v.
Proof.
  induction 1; econstructor; eauto; apply elem_of_dom; eauto using elems_is_Some.
Qed.

Lemma lives_same h h' P v : lives P h v → h ⊆ h' → same h h' v v.
Proof.
  intros Hv Hsub. apply (lives_frame (.∈ (dom h : gset loc)) h h'); [|by eapply lives_in_dom].
  intros l [c Hc]%elem_of_dom. rewrite Hc. symmetry. by eapply lookup_weaken.
Qed.

Lemma same_sub h1 h1' h2 h2' v v' :
  h1 ⊆ h2 → h1' ⊆ h2' → same h1 h1' v v' → same h2 h2' v v'.
Proof. intros Hs Hs'. induction 1; econstructor; eauto using lookup_weaken, elems_sub. Qed.

Lemma other_lookup {A B} (l : list A) (k : list B) i x :
  length l = length k → l !! i = Some x → is_Some (k !! i).
Proof. intros Hlen Hi%lookup_lt_Some. apply lookup_lt_is_Some. lia. Qed.

Lemma same_names_length (fs fs' : list (string * gval)) :
  fs.*1 = fs'.*1 → length fs.*2 = length fs'.*2.
Proof. intros Hn%(f_equal length). by rewrite !length_fmap in *. Qed.

Lemma same_elems_length h h' l off l' off' len vs vs' :
  elems h l off len = Some vs → elems h' l' off' len = Some vs' → length vs = length vs'.
Proof. by intros ->%elems_length ->%elems_length. Qed.

Lemma same_lives h h' v v' : same h h' v v' → lives (λ _, True) h v ∧ lives (λ _, True) h' v'.
Proof.
  induction 1 as [s|fs fs' Hn _ IH| |l l' v v' Hl Hl' _ IH|l off l' off' len vs vs' Hl Hl' _ IH
                 |l l' m m' Hl Hl' Hd _ IH]; [split; constructor| |split; constructor| | |].
  - pose proof (same_names_length _ _ Hn) as Hlen.
    split; constructor; intros i v Hi.
    + destruct (other_lookup _ _ _ _ Hlen Hi) as [v' Hi']. by eapply IH.
    + destruct (other_lookup _ _ _ _ (eq_sym Hlen) Hi) as [v' Hi']. by eapply IH.
  - destruct IH. split; econstructor; eauto.
  - pose proof (same_elems_length _ _ _ _ _ _ _ _ _ Hl Hl') as Hlen.
    split; econstructor; eauto; intros i v Hi.
    + destruct (other_lookup _ _ _ _ Hlen Hi) as [v' Hi']. by eapply IH.
    + destruct (other_lookup _ _ _ _ (eq_sym Hlen) Hi) as [v' Hi']. by eapply IH.
  - split; econstructor; eauto; intros k v Hk.
    + assert (is_Some (m' !! k)) as [v' Hk'].
      { apply elem_of_dom. rewrite <- Hd. by eapply elem_of_dom_2. }
      by eapply IH.
    + assert (is_Some (m !! k)) as [v' Hk'].
      { apply elem_of_dom. rewrite Hd. by eapply elem_of_dom_2. }
      by eapply IH.
Qed.

Lemma same_trans h1 h2 h3 v1 v2 v3 : same h1 h2 v1 v2 → same h2 h3 v2 v3 → same h1 h3 v1 v3.
Proof.
  intros Hs. revert v3.
  induction Hs as [s|fs fs' Hn Hfs IH| |l l' v v' Hl Hl' _ IH
                  |l off l' off' len vs vs' Hl Hl' Hvs IH|l l' m m' Hl Hl' Hd Hm IH];
    intros v3; inversion 1; simplify_eq; econstructor; eauto; try congruence.
  - intros i v v' Hi Hi'.
    destruct (other_lookup _ _ _ _ (same_names_length _ _ Hn) Hi) as [v2 Hi2]. eauto.
  - intros i v v' Hi Hi'.
    destruct (other_lookup _ vs' _ _ (same_elems_length _ _ _ _ _ _ _ _ _ Hl Hl') Hi) as [v2 Hi2].
    eauto.
  - intros k v v' Hk Hk'. assert (is_Some (m' !! k)) as [v2 Hk2].
    { apply elem_of_dom. rewrite <- Hd. by eapply elem_of_dom_2. }
    eauto.
Qed.

(** A copy made later, when the heap has grown, is a copy of the original. *)
Lemma copied_later P h h1 v h' v' :
  lives P h v → h ⊆ h1 → copied h1 v h' v' → copied h v h' v'.
Proof.
  intros Hv Hsub (Hsub' & Hs & Hl). split_and!.
  - by transitivity h1.
  - eapply same_trans; [by eapply lives_same|done].
  - eapply lives_mono; [|done]. intros l Hnot Hin. apply Hnot. by apply (subseteq_dom _ _ Hsub).
Qed.

(** A copy stays one when the heap grows. *)
Lemma copied_sub h v h' h'' v' : h' ⊆ h'' → copied h v h' v' → copied h v h'' v'.
Proof.
  intros Hsub (? & Hs & Hl). split_and!; [by transitivity h'| |by eapply lives_sub].
  by eapply same_sub; [| |exact Hs].
Qed.

Lemma alloc_spec c h :
  ∃ l, alloc c h = Some (l, <[l := c]> h) ∧ (l ∉ (dom h : gset loc)) ∧ h ⊆ <[l := c]> h.
Proof.
  unfold alloc. eexists. split; [done|]. pose proof (is_fresh (dom h : gset loc)) as Hf.
  split; [done|]. by apply insert_subseteq, not_elem_of_dom.
Qed.

(** A fresh cell is not among those of the heap before. *)
Lemma fresh_before (h h' : heap) (l : loc) : h ⊆ h' → l ∉ (dom h' : gset loc) → l ∉ (dom h : gset loc).
Proof. intros Hsub Hn Hin. apply Hn. by apply (subseteq_dom _ _ Hsub). Qed.

(** ** Types *)

Inductive basic := BString | BInt | BBool.

(** The types of the API package.  [TRec] is the one recursive type, [TExt] a type of
    another package. *)
Inductive ty :=
| TBasic (b : basic)
| TStruct (fs : list (string * ty))
| TPtr (t : ty)
| TSlice (t : ty)
| TMap (t : ty)
| TRec
| TExt (name : string).

Definition scalar_basic (s : scalar) : basic :=
  match s with SStr _ => BString | SInt _ => BInt | SBool _ => BBool end.

(** The types of other packages: their values in memory, and their deep copies. *)
Class External := {
  ext_typed : string → heap → gval → Prop;
  ext_DeepCopyInto : string → gval → M gval;
}.

(** Whether a value is of a type depends on its structure only, the cells of a value
    exist, and the deep copies of other packages are deep copies. *)
Class ExternalLaws `{External} : Prop := {
  ext_same name h h' v v' : same h h' v v' → ext_typed name h v → ext_typed name h' v';
  ext_lives name h v : ext_typed name h v → lives (λ _, True) h v;
  ext_copies name h v : ext_typed name h v →
    ∃ v' h', ext_DeepCopyInto name v h = Some (v', h') ∧ copied h v h' v';
}.

Section types.
Context `{!External} (rec_type : ty).

(** [v] in [h] is a value of type [t] in which the recursive type is nested less than
    [n] times. *)
Inductive typed (h : heap) : nat → ty → gval → Prop :=
| typed_basic n s : typed h n (TBasic (scalar_basic s)) (Scalar s)
| typed_struct n ts fs :
    fs.*1 = ts.*1 → (∀ i t v, ts.*2 !! i = Some t → fs.*2 !! i = Some v → typed h n t v) →
    typed h n (TStruct ts) (Struct fs)
| typed_nil_ptr n t : typed h n (TPtr t) Nil
| typed_nil_slice n t : typed h n (TSlice t) Nil
| typed_nil_map n t : typed h n (TMap t) Nil
| typed_ptr n t l v : h !! l = Some (Var v) → typed h n t v → typed h n (TPtr t) (Ptr l)
| typed_slice n t l off len vs :
    elems h l off len = Some vs → (∀ i v, vs !! i = Some v → typed h n t v) →
    typed h n (TSlice t) (Slice l off len)
| typed_map n t l m :
    h !! l = Some (Table m) → (∀ k v, m !! k = Some v → typed h n t v) →
    typed h n (TMap t) (Map l)
| typed_rec n v : typed h n rec_type v → typed h (S n) TRec v
| typed_ext n name v : ext_typed name h v → typed h n (TExt name) v.

(** A type without references. *)
Fixpoint flat (t : ty) : bool :=
  match t with
  | TBasic _ => true
  | TStruct ts => forallb (λ f, flat f.2) ts
  | _ => false
  end.

Context `{!ExternalLaws}.

Lemma typed_lives h n t v : typed h n t v → lives (λ _, True) h v.
Proof.
  induction 1 as [n s|n ts fs Hn _ IH|n t|n t|n t|n t l v Hl _ IH|n t l off len vs Hl _ IH
                 |n t l m Hl _ IH|n v _ IH|n name v Hv]; try by econstructor; eauto.
  - constructor. intros i v Hi. assert (is_Some (ts.*2 !! i)) as [t Ht].
    { eapply other_lookup; [|exact Hi]. rewrite !length_fmap.
      by rewrite <- (length_fmap fst fs), Hn, length_fmap. }
    by eapply IH.
  - done.
  - by eapply ext_lives.
Qed.

(** A copy is of the same type. *)
Lemma typed_same h h' n t v v' : same h h' v v' → typed h n t v → typed h' n t v'.
Proof.
  intros Hs Ht. revert v' Hs.
  induction Ht as [n s|n ts fs Hn _ IH|n t|n t|n t|n t l v Hl _ IH|n t l off len vs Hl _ IH
                 |n t l m Hl _ IH|n v _ IH|n name v Hv]; intros v' Hs;
    [inversion Hs; simplify_eq..| |].
  - constructor.
  - constructor; [congruence|]. intros i t v Hi Hi'.
    match goal with Hf : fs.*1 = ?fs'.*1 |- _ =>
      destruct (other_lookup _ fs.*2 _ _ (eq_sym (same_names_length _ _ Hf)) Hi') as [v0 Hv0] end.
    eauto.
  - constructor.
  - constructor.
  - constructor.
  - econstructor; eauto.
  - econstructor; [done|]. intros i v Hi.
    destruct (other_lookup _ vs _ _ (eq_sym (same_elems_length _ _ _ _ _ _ _ _ _ Hl ltac:(eassumption))) Hi)
      as [v0 Hv0]. eauto.
  - econstructor; [done|]. intros k v Hk. assert (is_Some (m !! k)) as [v0 Hv0].
    { apply elem_of_dom. match goal with Hd : dom m = _ |- _ => rewrite Hd end. by eapply elem_of_dom_2. }
    eauto.
  - constructor. by apply IH.
  - constructor. by eapply ext_same.
Qed.

Lemma typed_sub h h' n t v : h ⊆ h' → typed h n t v → typed h' n t v.
Proof. intros Hsub Ht. eapply typed_same; [|done]. eapply lives_same; [by eapply typed_lives|done]. Qed.

Lemma typed_le h n m t v : n ≤ m → typed h n t v → typed h m t v.
Proof.
  intros Hle Ht. revert m Hle. induction Ht; intros m' Hle; try by econstructor; eauto.
  destruct m'; [lia|]. constructor. apply IHHt. lia.
Qed.

(** A value without references is its own copy. *)
Lemma flat_copied h n t v P : flat t = true → typed h n t v → same h h v v ∧ lives P h v.
Proof.
  intros Hf Ht. assert (lives P h v) as Hl; [|split; [by eapply lives_same|done]].
  induction Ht as [n s|n ts fs Hn _ IH| | | | | | | |]; try done.
  - constructor.
  - constructor. intros i v Hi. assert (is_Some (ts.*2 !! i)) as [t Ht].
    { eapply other_lookup; [|exact Hi]. rewrite !length_fmap.
      by rewrite <- (length_fmap fst fs), Hn, length_fmap. }
    eapply IH; eauto. rewrite list_lookup_fmap in Ht.
    destruct (ts !! i) as [[name t']|] eqn:Hts; simplify_eq/=.
    simpl in Hf. rewrite forallb_forall in Hf. apply (Hf (name, t)).
    rewrite <- list_elem_of_In. by eapply list_elem_of_lookup_2.
Qed.

(** ** Deep copiers *)

(** [f] makes a deep copy of every value of type [t]. *)
Definition copier (n : nat) (t : ty) (f : gval → M gval) : Prop :=
  ∀ h v, typed h n t v → ∃ v' h', f v h = Some (v', h') ∧ copied h v h' v'.

Lemma bind_Some {A B} (p : M A) (f : A → M B) h a h' :
  p h = Some (a, h') → (p ≫= f) h = f a h'.
Proof. intros Hp. unfold mbind, M_bind. by rewrite Hp. Qed.

Lemma copier_assign n t : flat t = true → copier n t mret.
Proof.
  intros Hf h v Hv. exists v, h. split; [done|]. split; [done|]. by eapply flat_copied.
Qed.

Lemma copier_ext n name : copier n (TExt name) (ext_DeepCopyInto name).
Proof. intros h v Hv. inversion Hv; simplify_eq. by apply ext_copies. Qed.

Lemma copier_rec n f : copier n rec_type f → copier (S n) TRec f.
Proof. intros Hf h v Hv. inversion Hv; simplify_eq. by apply Hf. Qed.

(** A field that may be nil. *)
Lemma copier_if_set n t f :
  (∀ h v, typed h n t v → v ≠ Nil → ∃ v' h', f v h = Some (v', h') ∧ copied h v h' v') →
  copier n t (if_set f).
Proof.
  intros Hf h v Hv. unfold if_set. destruct v; try (by apply Hf).
  exists Nil, h. split; [done|]. split_and!; [done|constructor..].
Qed.

Lemma copier_set n t f : copier n t f → copier n t (if_set f).
Proof. intros Hf. apply copier_if_set. auto. Qed.

Lemma copied_sub_l h v h' v' : copied h v h' v' → h ⊆ h'.
Proof. by intros [? _]. Qed.

(** The copy of the value in a new cell. *)
Lemma copied_alloc h v h' v' c l :
  copied h v h' v' → l ∉ (dom h' : gset loc) → copied h v (<[l := c]> h') v'.
Proof. intros Hc Hl. eapply copied_sub; [|done]. by apply insert_subseteq, not_elem_of_dom. Qed.

Lemma copier_new n t into : copier n t into → copier n (TPtr t) (if_set (new_copy into)).
Proof.
  intros Hinto. apply copier_if_set. intros h v Hv Hne. inversion Hv; simplify_eq.
  rename select (h !! l = _) into Hl. rename select (typed h n t _) into Ht.
  destruct (Hinto _ _ Ht) as (v' & h' & Hi & Hc).
  destruct (alloc_spec (Var v') h') as (l' & Ha & Hfresh & Hsub).
  exists (Ptr l'), (<[l' := Var v']> h'). split.
  - unfold new_copy. erewrite bind_Some; [|simpl; by rewrite Hl].
    erewrite bind_Some; [|done]. by erewrite bind_Some.
  - pose proof (copied_sub_l _ _ _ _ Hc) as Hsub0.
    pose proof (copied_alloc _ _ _ _ (Var v') l' Hc Hfresh) as (Hs & Hsame & Hlives).
    split_and!; [done| |].
    + econstructor; [done|by apply lookup_insert_eq|done].
    + econstructor; [|by apply lookup_insert_eq|done]. by apply (fresh_before h h').
Qed.

Lemma copier_new_assign n t : flat t = true → copier n (TPtr t) (if_set new_assign).
Proof. intros Hf. apply copier_new. by apply copier_assign. Qed.

(** Copying the values of a list one after the other. *)
Lemma copier_list {X} (key : X → gval) n t (f : X → M gval) h0 xs :
  (∀ h x, x ∈ xs → typed h n t (key x) → ∃ v' h', f x h = Some (v', h') ∧ copied h (key x) h' v') →
  (∀ x, x ∈ xs → typed h0 n t (key x)) →
  ∀ h, h0 ⊆ h →
  ∃ vs' h', mapM f xs h = Some (vs', h') ∧ h ⊆ h' ∧
    Forall2 (λ x v', copied h0 (key x) h' v') xs vs'.
Proof.
  induction xs as [|x xs IH]; intros Hf Ht h Hsub.
  - exists [], h. split; [done|]. split; [done|constructor].
  - assert (typed h0 n t (key x)) as Htx by (apply Ht; by left).
    destruct (Hf h x) as (v' & h1 & Hfx & Hc); [by left|by eapply typed_sub|].
    destruct IH with (h := h1) as (vs' & h2 & Hm & Hsub2 & HF);
      [intros; apply Hf; [by right|done]|intros; apply Ht; by right| |].
    { transitivity h; [done|]. by eapply copied_sub_l. }
    exists (v' :: vs'), h2. split_and!.
    + simpl. erewrite bind_Some; [|done]. by erewrite bind_Some.
    + transitivity h1; [by eapply copied_sub_l|done].
    + constructor; [|done]. eapply copied_sub; [done|].
      eapply copied_later; [by eapply typed_lives|done|done].
Qed.

Lemma copier_make_slice n t into : copier n t into → copier n (TSlice t) (if_set (make_slice into)).
Proof.
  intros Hinto. apply copier_if_set. intros h v Hv Hne.
  inversion Hv as [| | | | | |? ? l off len vs He Hvs| | |]; simplify_eq.
  destruct (copier_list id n t into h vs) with (h := h) as (vs' & h' & Hm & Hsub & HF).
  { intros. by apply Hinto. }
  { intros x [i Hi]%list_elem_of_lookup. by eapply Hvs. }
  { done. }
  destruct (alloc_spec (Array vs') h') as (l' & Ha & Hfresh & Hsub').
  exists (Slice l' 0 len), (<[l' := Array vs']> h'). split.
  - simpl. rewrite He. erewrite bind_Some; [|done]. by erewrite bind_Some.
  - assert (elems (<[l' := Array vs']> h') l' 0 len = Some vs') as He'.
    { unfold elems. rewrite lookup_insert_eq.
      assert (length vs' = len) as Hlen.
      { rewrite <- (Forall2_length _ _ _ HF). by eapply elems_length. }
      rewrite bool_decide_true by lia. rewrite drop_0, take_ge by lia. done. }
    split_and!; [by transitivity h'| |].
    + econstructor; [done|done|]. intros i v v' Hi Hi'.
      destruct (Forall2_lookup_lr _ _ _ _ _ _ HF Hi Hi') as (_ & Hs & _). by eapply same_sub; [| |exact Hs].
    + econstructor; [|done|]; [by apply (fresh_before h h')|]. intros i v' Hi'.
      destruct (Forall2_lookup_r _ _ _ _ _ HF Hi') as (v & Hi & (_ & _ & Hl)). by eapply lives_sub.
Qed.

Lemma copier_make_assign n t : flat t = true → copier n (TSlice t) (if_set make_assign).
Proof. intros Hf. apply copier_make_slice. by apply copier_assign. Qed.

Lemma visit_lookup `{!MapOrder, !MapOrderLaws} {A} (m : gmap string A) k (v : A) :
  (k, v) ∈ visit m ↔ m !! k = Some v.
Proof. by rewrite visit_perm, elem_of_map_to_list. Qed.

Lemma visit_keys `{!MapOrder, !MapOrderLaws} {A} (m : gmap string A) : NoDup (visit m).*1.
Proof. rewrite (visit_perm m). apply NoDup_fst_map_to_list. Qed.

(** The table that the copies of the entries make, one for each key. *)
Lemma zip_table `{!MapOrder, !MapOrderLaws} (R : gval → gval → Prop) m vs' :
  Forall2 (λ kv : string * gval, R kv.2) (visit m) vs' →
  let m' : gmap string gval := list_to_map (zip (visit m).*1 vs') in
  dom m = dom m' ∧ ∀ k v', m' !! k = Some v' → ∃ v, m !! k = Some v ∧ R v v'.
Proof.
  intros HF m'. pose proof (Forall2_length _ _ _ HF) as Hlen.
  assert ((zip (visit m).*1 vs').*1 = (visit m).*1) as Hfst.
  { apply fst_zip. rewrite length_fmap. lia. }
  assert (NoDup (zip (visit m).*1 vs').*1) as Hnd by (rewrite Hfst; apply visit_keys).
  split.
  - apply set_eq. intros k. unfold m'. rewrite dom_list_to_map_L, Hfst, elem_of_list_to_set.
    rewrite elem_of_dom, list_elem_of_fmap. split.
    + intros [v Hv]. exists (k, v). by rewrite visit_lookup.
    + intros ([k' v] & -> & Hv%visit_lookup). by exists v.
  - intros k v' Hk. apply elem_of_list_to_map in Hk; [|done].
    apply list_elem_of_lookup in Hk as [i Hi].
    apply lookup_zip_Some in Hi as [Hki Hvi]. rewrite list_lookup_fmap in Hki.
    destruct (visit m !! i) as [[k' v]|] eqn:Hv; simplify_eq/=.
    exists v. split; [|by apply (Forall2_lookup_lr _ _ _ _ _ _ HF Hv Hvi)].
    apply visit_lookup. by eapply list_elem_of_lookup_2.
Qed.

Lemma copier_make_map `{!MapOrder, !MapOrderLaws} n t f :
  copier n t f → copier n (TMap t) (if_set (make_map f)).
Proof.
  intros Hf. apply copier_if_set. intros h v Hv Hne.
  inversion Hv as [| | | | | | |? ? l m Hl Hm| |]; simplify_eq.
  destruct (copier_list (X := string * gval) snd n t (λ kv, f kv.2) h (visit m)) with (h := h)
    as (vs' & h' & Hmm & Hsub & HF).
  { intros. by apply Hf. }
  { intros [k x] Hk%visit_lookup. by eapply Hm. }
  { done. }
  destruct (zip_table (λ v v', copied h v h' v') m vs' HF) as [Hdom Hlook]. cbv zeta in *.
  set (m' := list_to_map _) in Hdom, Hlook.
  destruct (alloc_spec (Table m') h') as (l' & Ha & Hfresh & Hsub').
  exists (Map l'), (<[l' := Table m']> h'). split.
  - simpl. rewrite Hl. erewrite bind_Some; [|done]. by erewrite bind_Some.
  - split_and!; [by transitivity h'| |].
    + econstructor; [done|apply lookup_insert_eq|done|]. intros k v v' Hk Hk'.
      destruct (Hlook _ _ Hk') as (v0 & Hv0 & (_ & Hs & _)). simplify_eq.
      by eapply same_sub; [| |exact Hs].
    + econstructor; [by apply (fresh_before h h')|apply lookup_insert_eq|]. intros k v' Hk'.
      destruct (Hlook _ _ Hk') as (v0 & Hv0 & (_ & _ & Hlv)). by eapply lives_sub.
Qed.

(** A copy through the address of a variable that holds the value. *)
Lemma copier_star n t into : copier n t into → copier n t (star_copy into).
Proof.
  intros Hinto h v Hv. destruct (alloc_spec (Var v) h) as (l & Ha & Hfresh & Hsub).
  destruct (copier_new n t into Hinto (<[l := Var v]> h) (Ptr l)) as (p & h' & Hi & Hc).
  { econstructor; [apply lookup_insert_eq|by eapply typed_sub]. }
  destruct Hc as (Hsub' & Hs & Hl). inversion Hs; simplify_eq.
  rename select (<[l := Var v]> h !! l = _) into Hv0. rewrite lookup_insert_eq in Hv0.
  simplify_eq. rename select (h' !! _ = _) into Hv'. exists v', h'. split.
  - unfold star_copy. erewrite bind_Some; [|done]. erewrite bind_Some; [|done].
    simpl. by rewrite Hv'.
  - apply (copied_later (λ _, True) h (<[l := Var v0]> h)); [by eapply typed_lives|done|].
    split_and!; [done|done|]. inversion Hl; simplify_eq. congruence.
Qed.

(** *** Structs *)

Lemma field_spec fs i name v :
  NoDup fs.*1 → fs !! i = Some (name, v) → ∀ h, field name fs h = Some (v, h).
Proof.
  intros Hnd Hi h. unfold field.
  assert (List.find (λ f, bool_decide (f.1 = name)) fs = Some (name, v)) as ->; [|done].
  revert i Hi. induction fs as [|[name' v'] fs IH]; intros i Hi; [done|].
  apply NoDup_cons in Hnd as [Hnot Hnd]. simpl. case_bool_decide as Hn; simpl in Hn.
  - subst. destruct i as [|i]; [by simplify_eq/=|]. simpl in Hi. exfalso. apply Hnot.
    apply list_elem_of_fmap. exists (name, v). split; [done|]. by eapply list_elem_of_lookup_2.
  - destruct i as [|i]; simplify_eq/=. by eapply IH.
Qed.

Lemma set_field_names name v fs : (set_field name v fs).*1 = fs.*1.
Proof.
  unfold set_field. rewrite <- list_fmap_compose. apply list_fmap_ext. intros i [n' v'] _. simpl.
  by case_bool_decide; simplify_eq/=.
Qed.

Lemma set_field_lookup name v fs i n' v' :
  fs !! i = Some (n', v') →
  set_field name v fs !! i = Some (n', if bool_decide (n' = name) then v else v').
Proof.
  intros Hi. unfold set_field. rewrite list_lookup_fmap, Hi. simpl.
  by case_bool_decide; simplify_eq/=.
Qed.

(** What is known of a field while the statements run: it was copied, or it still holds
    the value of the original. *)
Definition field_done (done : list string) (h h' : heap) (name : string) (v v' : gval) : Prop :=
  if bool_decide (name ∈ done) then copied h v h' v' else v' = v.

Lemma run_fields_spec n ts fs stmts h :
  NoDup fs.*1 → (∀ i name t v, ts !! i = Some (name, t) → fs !! i = Some (name, v) → typed h n t v) →
  fs.*1 = ts.*1 →
  Forall (λ s : string * (gval → M gval), ∃ t, (s.1, t) ∈ ts ∧ copier n t s.2) stmts →
  ∀ finished out h1, NoDup (finished ++ stmts.*1) → h ⊆ h1 → out.*1 = fs.*1 →
  (∀ i name v v', fs !! i = Some (name, v) → out !! i = Some (name, v') →
     field_done finished h h1 name v v') →
  ∃ out' h', run_fields stmts fs out h1 = Some (out', h') ∧ h ⊆ h' ∧ out'.*1 = fs.*1 ∧
    ∀ i name v v', fs !! i = Some (name, v) → out' !! i = Some (name, v') →
      field_done (finished ++ stmts.*1) h h' name v v'.
Proof.
  intros Hnd Ht Hnames Hstmts. induction Hstmts as [|[name f] stmts (t & Hin & Hf) _ IH];
    intros finished out h1 Hfin Hsub Hout Hdone; simpl.
  - exists out, h1. rewrite app_nil_r. done.
  - simpl in *. apply list_elem_of_lookup in Hin as [i Hti].
    assert (∃ v, fs !! i = Some (name, v)) as [v Hv].
    { assert (fs.*1 !! i = Some name) as Hn by (by rewrite Hnames, list_lookup_fmap, Hti).
      rewrite list_lookup_fmap in Hn. destruct (fs !! i) as [[? v]|] eqn:?; simplify_eq/=. by exists v. }
    pose proof (Ht _ _ _ _ Hti Hv) as Htv.
    destruct (Hf h1 v) as (v' & h2 & Hfv & Hc); [by eapply typed_sub|].
    pose proof (copied_sub_l _ _ _ _ Hc) as Hsub2.
    destruct (IH (finished ++ [name]) (set_field name v' out) h2) as (out' & h' & Hrun & ? & ? & Hd).
    + by rewrite <- app_assoc.
    + by transitivity h1.
    + by rewrite set_field_names.
    + intros j name' w w' Hj Hj'. apply list_lookup_fmap_Some in Hj' as ([n0 w0] & Hw0 & Hj0).
      unfold field_done. case_bool_decide as Hn0; simpl in Hn0; simplify_eq/=.
      * rewrite bool_decide_true by set_solver.
        assert (w = v) as ->.
        { pose proof (field_spec _ _ _ _ Hnd Hj h). pose proof (field_spec _ _ _ _ Hnd Hv h). congruence. }
        eapply copied_later; [by eapply typed_lives|done|done].
      * pose proof (Hdone _ _ _ _ Hj Hj0) as Hdj. unfold field_done in Hdj.
        case_bool_decide as Hin.
        -- rewrite bool_decide_true by set_solver. by eapply copied_sub.
        -- rewrite bool_decide_false by set_solver. done.
    + exists out', h'. split_and!; try done.
      * erewrite bind_Some; [|by eapply field_spec]. by erewrite bind_Some.
      * intros. rewrite cons_middle, app_assoc. by eapply Hd.
Qed.

(** A copy function of a struct copies deeply if its statements are copiers of fields,
    one each, and every field without a statement holds no reference. *)
Lemma copier_struct n ts stmts :
  NoDup ts.*1 → NoDup stmts.*1 →
  Forall (λ s : string * (gval → M gval), ∃ t, (s.1, t) ∈ ts ∧ copier n t s.2) stmts →
  Forall (λ f : string * ty, f.1 ∈ stmts.*1 ∨ flat f.2 = true) ts →
  copier n (TStruct ts) (copy_struct stmts).
Proof.
  intros Hnd Hnds Hst Hflat h v Hv. inversion Hv as [|? ? fs Hnames Htyped| | | | | | | |]; simplify_eq.
  assert (∀ i name t v, ts !! i = Some (name, t) → fs !! i = Some (name, v) → typed h n t v) as Ht.
  { intros i name t v Hi Hi'. apply (Htyped i); rewrite list_lookup_fmap; by rewrite ?Hi, ?Hi'. }
  destruct (run_fields_spec n ts fs stmts h) with (finished := @nil string) (out := fs) (h1 := h)
    as (out & h' & Hrun & Hsub & Hout & Hd); try done; [by rewrite Hnames| |].
  { intros i name v v' Hi Hi'. unfold field_done. rewrite bool_decide_false by set_solver. congruence. }
  assert (∀ i v v', fs.*2 !! i = Some v → out.*2 !! i = Some v' → copied h v h' v') as Hall.
  { intros i v v' Hi Hi'. rewrite list_lookup_fmap in Hi, Hi'.
    destruct (fs !! i) as [[name w]|] eqn:Hfi; simplify_eq/=.
    destruct (out !! i) as [[name' w']|] eqn:Hoi; simplify_eq/=.
    assert (name' = name) as ->.
    { assert (out.*1 !! i = fs.*1 !! i) as Hn by (by rewrite Hout).
      rewrite !list_lookup_fmap, Hfi, Hoi in Hn. by simplify_eq/=. }
    pose proof (Hd _ _ _ _ Hfi Hoi) as Hdi. unfold field_done in Hdi.
    case_bool_decide as Hin; [done|]. subst v'.
    assert (∃ t, ts !! i = Some (name, t)) as [t Hti].
    { assert (ts.*1 !! i = Some name) as Hn by (by rewrite <- Hnames, list_lookup_fmap, Hfi).
      rewrite list_lookup_fmap in Hn. destruct (ts !! i) as [[? t]|] eqn:?; simplify_eq/=. by exists t. }
    destruct (Forall_lookup_1 _ _ _ _ Hflat Hti) as [Hin'|Hft]; [done|].
    eapply copied_sub; [done|]. split; [done|]. eapply flat_copied; [done|by eapply Ht]. }
  exists (Struct out), h'. split; [simpl; by erewrite bind_Some|].
  pose proof (same_names_length _ _ Hout) as Hlen.
  split_and!; [done| |].
  - constructor; [done|]. intros i v v' Hi Hi'. by apply (Hall i).
  - constructor. intros i v' Hi'. destruct (other_lookup _ _ _ _ Hlen Hi') as [v Hi].
    by apply (Hall i v).
Qed.

(** The premises as a computation on the names of the fields. *)
Fixpoint field_type (name : string) (ts : list (string * ty)) : option ty :=
  match ts with
  | [] => None
  | (name', t) :: ts => if String.eqb name name' then Some t else field_type name ts
  end.

Definition covered (ts : list (string * ty)) (names : list string) : bool :=
  bool_decide (NoDup ts.*1) && bool_decide (NoDup names) &&
  forallb (λ f, bool_decide (f.1 ∈ names) || flat f.2) ts.

Lemma field_type_in name ts t : field_type name ts = Some t → (name, t) ∈ ts.
Proof.
  induction ts as [|[name' t'] ts IH]; simpl; [done|].
  destruct (String.eqb_spec name name') as [->|]; [intros [= ->]; by left|right; auto].
Qed.

Lemma copier_fields n ts stmts :
  covered ts stmts.*1 = true →
  Forall (λ s : string * (gval → M gval), ∃ t, field_type s.1 ts = Some t ∧ copier n t s.2) stmts →
  copier n (TStruct ts) (copy_struct stmts).
Proof.
  unfold covered. rewrite !andb_true_iff, !bool_decide_eq_true. intros [[Hnd Hnds] Hall] Hst.
  apply copier_struct; [done|done| |].
  - eapply Forall_impl; [exact Hst|]. intros [name f] (t & Ht & Hf). exists t.
    split; [by apply field_type_in|done].
  - apply Forall_forall. intros [name t] Hin. rewrite forallb_forall in Hall.
    specialize (Hall (name, t)). rewrite <- list_elem_of_In, orb_true_iff, bool_decide_eq_true in Hall.
    auto.
Qed.
End types.

Create HintDb copiers.
#[export] Hint Resolve copier_assign copier_ext copier_set copier_new copier_new_assign
  copier_make_slice copier_make_assign copier_make_map copier_star : copiers.
#[export] Hint Extern 1 (flat _ = true) => vm_compute; reflexivity : copiers.

(** A copy function, statement by statement. *)
Ltac copies_fields :=
  apply copier_fields; [exact _|vm_compute; reflexivity|];
  repeat (apply Forall_cons_2; [eexists; split; [reflexivity|eauto 7 with copiers]|]);
  apply Forall_nil_2.
