(* ===== verification/DeepCopy.v ===== *)
(** * DeepCopy: [api/v1b1/zz_generated.deepcopy.go]

    The layout of every struct of the API package, taken from the [*_types.go] files,
    and the generated functions that copy them, statement by statement, over the memory
    of GoMemory.v.  A struct function starts from [*out = *in], so a field without a
    statement keeps what the original refers to; the theorems say that no such
    reference is left. *)
From S2P Require Import Prelude Client GoMemory.

(** ** The structs *)

(** [metav1.TypeMeta] *)
Definition TypeMeta_type : ty := TStruct [("Kind", TBasic BString); ("APIVersion", TBasic BString)].

Definition OrchestratorConfigMeta_type : ty :=
  TStruct [("Name", TBasic BString); ("Version", TBasic BString)].

Definition TemplateSpec_type : ty :=
  TStruct
    [("Kind", TBasic BString); ("Ref", TBasic BString);
     ("Values", TPtr (TExt "runtime.RawExtension"))].

Definition BackendSpec_type : ty :=
  TStruct
    [("BackendId", TBasic BString); ("RuntimeClass", TBasic BString);
     ("Template", TemplateSpec_type); ("Priority", TBasic BInt); ("Version", TBasic BString);
     ("Constraints", TPtr TRec)].

Definition ProfileSpec_type : ty :=
  TStruct
    [("Name", TBasic BString); ("Description", TBasic BString);
     ("Backends", TSlice BackendSpec_type)].

Definition ClassSpec_type : ty :=
  TStruct
    [("Name", TBasic BString); ("Description", TBasic BString);
     ("Parameters", TPtr (TExt "runtime.RawExtension")); ("Constraints", TPtr TRec)].

Definition ProvisionerDefaults_type : ty :=
  TStruct [("Class", TBasic BString); ("Params", TPtr (TExt "runtime.RawExtension"))].

Definition ProvisionerSpec_type : ty :=
  TStruct
    [("Type", TBasic BString); ("Provisioner", TBasic BString);
     ("Classes", TSlice ClassSpec_type); ("Defaults", TPtr ProvisionerDefaults_type)].

Definition SelectorSpec_type : ty :=
  TStruct
    [("MatchLabels", TMap (TBasic BString));
     ("MatchExpressions", TSlice (TExt "v1.LabelSelectorRequirement"));
     ("Profile", TBasic BString); ("Constraints", TPtr TRec)].

Definition DefaultsSpec_type : ty :=
  TStruct [("Profile", TBasic BString); ("Selectors", TSlice SelectorSpec_type)].

Definition OrchestratorConfigSpec_type : ty :=
  TStruct
    [("Profiles", TSlice ProfileSpec_type); ("Provisioners", TSlice ProvisionerSpec_type);
     ("Defaults", DefaultsSpec_type)].

Definition OrchestratorConfig_type : ty :=
  TStruct
    [("APIVersion", TBasic BString); ("Kind", TBasic BString);
     ("Metadata", OrchestratorConfigMeta_type); ("Spec", OrchestratorConfigSpec_type);
     ("Reconciler", TPtr (TExt "runtime.RawExtension"))].

Definition ResourceConstraints_type : ty :=
  TStruct [("CPU", TBasic BString); ("Memory", TBasic BString); ("Storage", TBasic BString)].

Definition ConstraintsSpec_type : ty :=
  TStruct
    [("Selectors", TSlice SelectorSpec_type); ("Features", TSlice (TBasic BString));
     ("Regions", TSlice (TBasic BString)); ("Resources", TPtr ResourceConstraints_type)].

Definition NamespacedName_type : ty :=
  TStruct [("Name", TBasic BString); ("Namespace", TBasic BString)].

Definition ResourceClaimSpec_type : ty :=
  TStruct
    [("WorkloadRef", NamespacedName_type); ("Key", TBasic BString); ("Type", TBasic BString);
     ("Class", TPtr (TBasic BString)); ("ID", TPtr (TBasic BString));
     ("Params", TPtr (TExt "apiextensionsv1.JSON"));
     ("DeprovisionPolicy", TPtr (TBasic BString))].

Definition LocalObjectReference_type : ty :=
  TStruct [("Name", TBasic BString)].

Definition CertificateOutput_type : ty :=
  TStruct [("SecretName", TPtr (TBasic BString)); ("Data", TMap (TSlice (TBasic BInt)))].

Definition ResourceClaimOutputs_type : ty :=
  TStruct
    [("SecretRef", TPtr LocalObjectReference_type);
     ("ConfigMapRef", TPtr LocalObjectReference_type); ("URI", TPtr (TBasic BString));
     ("Image", TPtr (TBasic BString)); ("Cert", TPtr CertificateOutput_type)].

Definition ResourceClaimStatus_type : ty :=
  TStruct
    [("Phase", TBasic BString); ("Reason", TBasic BString); ("Message", TBasic BString);
     ("Outputs", TPtr ResourceClaimOutputs_type); ("OutputsAvailable", TBasic BBool);
     ("ObservedGeneration", TBasic BInt); ("LastTransitionTime", TExt "*v1.Time")].

Definition ResourceClaim_type : ty :=
  TStruct
    [("TypeMeta", TypeMeta_type); ("ObjectMeta", TExt "v1.ObjectMeta");
     ("Spec", ResourceClaimSpec_type); ("Status", ResourceClaimStatus_type)].

Definition ResourceClaimList_type : ty :=
  TStruct
    [("TypeMeta", TypeMeta_type); ("ListMeta", TExt "v1.ListMeta");
     ("Items", TSlice ResourceClaim_type)].

Definition FileSourceSpec_type : ty :=
  TStruct [("URI", TBasic BString)].

Definition FileSpec_type : ty :=
  TStruct
    [("Target", TBasic BString); ("Mode", TPtr (TBasic BString));
     ("Source", TPtr FileSourceSpec_type); ("Content", TPtr (TBasic BString));
     ("BinaryContent", TPtr (TBasic BString))].

Definition HTTPGetProbe_type : ty :=
  TStruct [("Path", TBasic BString); ("Port", TBasic BInt); ("Headers", TMap (TBasic BString))].

Definition ExecProbe_type : ty :=
  TStruct [("Command", TSlice (TBasic BString))].

Definition ProbeSpec_type : ty :=
  TStruct [("HTTPGet", TPtr HTTPGetProbe_type); ("Exec", TPtr ExecProbe_type)].

Definition ResourceRequirements_type : ty :=
  TStruct [("Limits", TMap (TBasic BString)); ("Requests", TMap (TBasic BString))].

Definition ContainerSpec_type : ty :=
  TStruct
    [("Image", TBasic BString); ("Command", TSlice (TBasic BString));
     ("Args", TSlice (TBasic BString)); ("Variables", TMap (TBasic BString));
     ("Files", TSlice FileSpec_type); ("LivenessProbe", TPtr ProbeSpec_type);
     ("ReadinessProbe", TPtr ProbeSpec_type); ("Resources", TPtr ResourceRequirements_type)].

Definition ServicePort_type : ty :=
  TStruct
    [("Port", TBasic BInt); ("Protocol", TBasic BString); ("TargetPort", TPtr (TBasic BInt))].

Definition ServiceSpec_type : ty :=
  TStruct [("Ports", TSlice ServicePort_type)].

Definition ResourceSpec_type : ty :=
  TStruct
    [("Type", TBasic BString); ("Class", TPtr (TBasic BString));
     ("Params", TPtr (TExt "apiextensionsv1.JSON"))].

Definition WorkloadSpec_type : ty :=
  TStruct
    [("Profile", TPtr (TBasic BString)); ("Containers", TMap ContainerSpec_type);
     ("Service", TPtr ServiceSpec_type); ("Resources", TMap ResourceSpec_type)].

Definition ClaimSummary_type : ty :=
  TStruct
    [("Key", TBasic BString); ("Phase", TBasic BString); ("Reason", TBasic BString);
     ("Message", TBasic BString); ("OutputsAvailable", TBasic BBool)].

Definition WorkloadStatus_type : ty :=
  TStruct
    [("Endpoint", TPtr (TBasic BString)); ("Conditions", TSlice (TExt "v1.Condition"));
     ("Claims", TSlice ClaimSummary_type)].

Definition Workload_type : ty :=
  TStruct
    [("TypeMeta", TypeMeta_type); ("ObjectMeta", TExt "v1.ObjectMeta");
     ("Spec", WorkloadSpec_type); ("Status", WorkloadStatus_type)].

Definition WorkloadList_type : ty :=
  TStruct
    [("TypeMeta", TypeMeta_type); ("ListMeta", TExt "v1.ListMeta");
     ("Items", TSlice Workload_type)].

Definition WorkloadExposureWorkloadRef_type : ty :=
  TStruct
    [("Name", TBasic BString); ("Namespace", TPtr (TBasic BString)); ("UID", TBasic BString)].

Definition WorkloadExposureSpec_type : ty :=
  TStruct
    [("WorkloadRef", WorkloadExposureWorkloadRef_type);
     ("ObservedWorkloadGeneration", TBasic BInt); ("RuntimeClass", TBasic BString)].

Definition ExposureEntry_type : ty :=
  TStruct
    [("Name", TBasic BString); ("URL", TBasic BString); ("Type", TBasic BString);
     ("Ready", TBasic BBool); ("Scope", TBasic BString); ("SchemeHint", TBasic BString);
     ("Reachable", TPtr (TBasic BBool))].

Definition WorkloadExposureStatus_type : ty :=
  TStruct
    [("Exposures", TSlice ExposureEntry_type); ("Conditions", TSlice (TExt "v1.Condition"))].

Definition WorkloadExposure_type : ty :=
  TStruct
    [("TypeMeta", TypeMeta_type); ("ObjectMeta", TExt "v1.ObjectMeta");
     ("Spec", WorkloadExposureSpec_type); ("Status", WorkloadExposureStatus_type)].

Definition WorkloadExposureList_type : ty :=
  TStruct
    [("TypeMeta", TypeMeta_type); ("ListMeta", TExt "v1.ListMeta");
     ("Items", TSlice WorkloadExposure_type)].

Definition WorkloadPlanWorkloadRef_type : ty :=
  TStruct [("Name", TBasic BString); ("Namespace", TBasic BString)].

Definition PlanClaim_type : ty :=
  TStruct
    [("Key", TBasic BString); ("Type", TBasic BString); ("Class", TPtr (TBasic BString));
     ("Params", TPtr (TExt "runtime.RawExtension"))].

Definition WorkloadPlanSpec_type : ty :=
  TStruct
    [("WorkloadRef", WorkloadPlanWorkloadRef_type);
     ("ObservedWorkloadGeneration", TBasic BInt); ("RuntimeClass", TBasic BString);
     ("Template", TPtr TemplateSpec_type);
     ("ResolvedValues", TPtr (TExt "runtime.RawExtension")); ("Claims", TSlice PlanClaim_type)].

Definition WorkloadPlanStatus_type : ty :=
  TStruct
    [("Phase", TBasic BString); ("Conditions", TSlice (TExt "v1.Condition"));
     ("Message", TBasic BString)].

Definition WorkloadPlan_type : ty :=
  TStruct
    [("TypeMeta", TypeMeta_type); ("ObjectMeta", TExt "v1.ObjectMeta");
     ("Spec", WorkloadPlanSpec_type); ("Status", WorkloadPlanStatus_type)].

Definition FromClaimOutput_type : ty :=
  TStruct [("ClaimKey", TBasic BString); ("OutputKey", TBasic BString)].

Definition WorkloadPlanList_type : ty :=
  TStruct
    [("TypeMeta", TypeMeta_type); ("ListMeta", TExt "v1.ListMeta");
     ("Items", TSlice WorkloadPlan_type)].

(** ** The copy functions

    [n] bounds the nesting of [ConstraintsSpec], which contains itself through its
    selectors. *)
Section copies.
Context `{!External, !MapOrder}.

Definition TemplateSpec_DeepCopyInto : gval → M gval :=
  copy_struct [("Values", if_set (new_copy (ext_DeepCopyInto "runtime.RawExtension")))].

Definition SelectorSpec_with (constraints : gval → M gval) : gval → M gval :=
  copy_struct
    [("MatchLabels", if_set (make_map mret));
     ("MatchExpressions", if_set (make_slice (ext_DeepCopyInto "v1.LabelSelectorRequirement")));
     ("Constraints", if_set (new_copy constraints))].

Fixpoint ConstraintsSpec_DeepCopyInto (n : nat) : gval → M gval :=
  match n with
  | 0 => λ _, fail
  | S n =>
      copy_struct
        [("Selectors", if_set (make_slice (SelectorSpec_with (ConstraintsSpec_DeepCopyInto n))));
         ("Features", if_set make_assign); ("Regions", if_set make_assign);
         ("Resources", if_set new_assign)]
  end.

Definition BackendSpec_DeepCopyInto (n : nat) : gval → M gval :=
  copy_struct
    [("Template", TemplateSpec_DeepCopyInto);
     ("Constraints", if_set (new_copy (ConstraintsSpec_DeepCopyInto n)))].

Definition ProfileSpec_DeepCopyInto (n : nat) : gval → M gval :=
  copy_struct [("Backends", if_set (make_slice (BackendSpec_DeepCopyInto n)))].

Definition ClassSpec_DeepCopyInto (n : nat) : gval → M gval :=
  copy_struct
    [("Parameters", if_set (new_copy (ext_DeepCopyInto "runtime.RawExtension")));
     ("Constraints", if_set (new_copy (ConstraintsSpec_DeepCopyInto n)))].

Definition ProvisionerDefaults_DeepCopyInto : gval → M gval :=
  copy_struct [("Params", if_set (new_copy (ext_DeepCopyInto "runtime.RawExtension")))].

Definition ProvisionerSpec_DeepCopyInto (n : nat) : gval → M gval :=
  copy_struct
    [("Classes", if_set (make_slice (ClassSpec_DeepCopyInto n)));
     ("Defaults", if_set (new_copy ProvisionerDefaults_DeepCopyInto))].

Definition SelectorSpec_DeepCopyInto (n : nat) : gval → M gval :=
  SelectorSpec_with (ConstraintsSpec_DeepCopyInto n).

Definition DefaultsSpec_DeepCopyInto (n : nat) : gval → M gval :=
  copy_struct [("Selectors", if_set (make_slice (SelectorSpec_DeepCopyInto n)))].

Definition OrchestratorConfigSpec_DeepCopyInto (n : nat) : gval → M gval :=
  copy_struct
    [("Profiles", if_set (make_slice (ProfileSpec_DeepCopyInto n)));
     ("Provisioners", if_set (make_slice (ProvisionerSpec_DeepCopyInto n)));
     ("Defaults", DefaultsSpec_DeepCopyInto n)].

Definition OrchestratorConfig_DeepCopyInto (n : nat) : gval → M gval :=
  copy_struct
    [("Metadata", mret); ("Spec", OrchestratorConfigSpec_DeepCopyInto n);
     ("Reconciler", if_set (new_copy (ext_DeepCopyInto "runtime.RawExtension")))].

Definition OrchestratorConfigMeta_DeepCopyInto : gval → M gval := copy_struct [].

Definition ResourceConstraints_DeepCopyInto : gval → M gval := copy_struct [].

Definition ResourceClaimSpec_DeepCopyInto : gval → M gval :=
  copy_struct
    [("WorkloadRef", mret); ("Class", if_set new_assign); ("ID", if_set new_assign);
     ("Params", if_set (new_copy (ext_DeepCopyInto "apiextensionsv1.JSON")));
     ("DeprovisionPolicy", if_set new_assign)].

Definition CertificateOutput_DeepCopyInto : gval → M gval :=
  copy_struct
    [("SecretName", if_set new_assign); ("Data", if_set (make_map (if_set make_assign)))].

Definition ResourceClaimOutputs_DeepCopyInto : gval → M gval :=
  copy_struct
    [("SecretRef", if_set new_assign); ("ConfigMapRef", if_set new_assign);
     ("URI", if_set new_assign); ("Image", if_set new_assign);
     ("Cert", if_set (new_copy CertificateOutput_DeepCopyInto))].

Definition ResourceClaimStatus_DeepCopyInto : gval → M gval :=
  copy_struct
    [("Outputs", if_set (new_copy ResourceClaimOutputs_DeepCopyInto));
     ("LastTransitionTime", if_set (ext_DeepCopyInto "*v1.Time"))].

Definition ResourceClaim_DeepCopyInto : gval → M gval :=
  copy_struct
    [("TypeMeta", mret); ("ObjectMeta", ext_DeepCopyInto "v1.ObjectMeta");
     ("Spec", ResourceClaimSpec_DeepCopyInto); ("Status", ResourceClaimStatus_DeepCopyInto)].

Definition NamespacedName_DeepCopyInto : gval → M gval := copy_struct [].

Definition LocalObjectReference_DeepCopyInto : gval → M gval := copy_struct [].

Definition ResourceClaimList_DeepCopyInto : gval → M gval :=
  copy_struct
    [("TypeMeta", mret); ("ListMeta", ext_DeepCopyInto "v1.ListMeta");
     ("Items", if_set (make_slice ResourceClaim_DeepCopyInto))].

Definition FileSpec_DeepCopyInto : gval → M gval :=
  copy_struct
    [("Mode", if_set new_assign); ("Source", if_set new_assign);
     ("Content", if_set new_assign); ("BinaryContent", if_set new_assign)].

Definition HTTPGetProbe_DeepCopyInto : gval → M gval :=
  copy_struct [("Headers", if_set (make_map mret))].

Definition ExecProbe_DeepCopyInto : gval → M gval :=
  copy_struct [("Command", if_set make_assign)].

Definition ProbeSpec_DeepCopyInto : gval → M gval :=
  copy_struct
    [("HTTPGet", if_set (new_copy HTTPGetProbe_DeepCopyInto));
     ("Exec", if_set (new_copy ExecProbe_DeepCopyInto))].

Definition ResourceRequirements_DeepCopyInto : gval → M gval :=
  copy_struct [("Limits", if_set (make_map mret)); ("Requests", if_set (make_map mret))].

Definition ContainerSpec_DeepCopyInto : gval → M gval :=
  copy_struct
    [("Command", if_set make_assign); ("Args", if_set make_assign);
     ("Variables", if_set (make_map mret));
     ("Files", if_set (make_slice FileSpec_DeepCopyInto));
     ("LivenessProbe", if_set (new_copy ProbeSpec_DeepCopyInto));
     ("ReadinessProbe", if_set (new_copy ProbeSpec_DeepCopyInto));
     ("Resources", if_set (new_copy ResourceRequirements_DeepCopyInto))].

Definition FileSourceSpec_DeepCopyInto : gval → M gval := copy_struct [].

Definition ServicePort_DeepCopyInto : gval → M gval :=
  copy_struct [("TargetPort", if_set new_assign)].

Definition ServiceSpec_DeepCopyInto : gval → M gval :=
  copy_struct [("Ports", if_set (make_slice ServicePort_DeepCopyInto))].

Definition ResourceSpec_DeepCopyInto : gval → M gval :=
  copy_struct
    [("Class", if_set new_assign);
     ("Params", if_set (new_copy (ext_DeepCopyInto "apiextensionsv1.JSON")))].

Definition WorkloadSpec_DeepCopyInto : gval → M gval :=
  copy_struct
    [("Profile", if_set new_assign);
     ("Containers", if_set (make_map (star_copy ContainerSpec_DeepCopyInto)));
     ("Service", if_set (new_copy ServiceSpec_DeepCopyInto));
     ("Resources", if_set (make_map (star_copy ResourceSpec_DeepCopyInto)))].

Definition ClaimSummary_DeepCopyInto : gval → M gval := copy_struct [].

Definition WorkloadStatus_DeepCopyInto : gval → M gval :=
  copy_struct
    [("Endpoint", if_set new_assign);
     ("Conditions", if_set (make_slice (ext_DeepCopyInto "v1.Condition")));
     ("Claims", if_set make_assign)].

Definition Workload_DeepCopyInto : gval → M gval :=
  copy_struct
    [("TypeMeta", mret); ("ObjectMeta", ext_DeepCopyInto "v1.ObjectMeta");
     ("Spec", WorkloadSpec_DeepCopyInto); ("Status", WorkloadStatus_DeepCopyInto)].

Definition WorkloadList_DeepCopyInto : gval → M gval :=
  copy_struct
    [("TypeMeta", mret); ("ListMeta", ext_DeepCopyInto "v1.ListMeta");
     ("Items", if_set (make_slice Workload_DeepCopyInto))].

Definition WorkloadExposureWorkloadRef_DeepCopyInto : gval → M gval :=
  copy_struct [("Namespace", if_set new_assign)].

Definition WorkloadExposureSpec_DeepCopyInto : gval → M gval :=
  copy_struct [("WorkloadRef", WorkloadExposureWorkloadRef_DeepCopyInto)].

Definition ExposureEntry_DeepCopyInto : gval → M gval :=
  copy_struct [("Reachable", if_set new_assign)].

Definition WorkloadExposureStatus_DeepCopyInto : gval → M gval :=
  copy_struct
    [("Exposures", if_set (make_slice ExposureEntry_DeepCopyInto));
     ("Conditions", if_set (make_slice (ext_DeepCopyInto "v1.Condition")))].

Definition WorkloadExposure_DeepCopyInto : gval → M gval :=
  copy_struct
    [("TypeMeta", mret); ("ObjectMeta", ext_DeepCopyInto "v1.ObjectMeta");
     ("Spec", WorkloadExposureSpec_DeepCopyInto);
     ("Status", WorkloadExposureStatus_DeepCopyInto)].

Definition WorkloadExposureList_DeepCopyInto : gval → M gval :=
  copy_struct
    [("TypeMeta", mret); ("ListMeta", ext_DeepCopyInto "v1.ListMeta");
     ("Items", if_set (make_slice WorkloadExposure_DeepCopyInto))].

Definition PlanClaim_DeepCopyInto : gval → M gval :=
  copy_struct
    [("Class", if_set new_assign);
     ("Params", if_set (new_copy (ext_DeepCopyInto "runtime.RawExtension")))].

Definition WorkloadPlanSpec_DeepCopyInto : gval → M gval :=
  copy_struct
    [("WorkloadRef", mret); ("Template", if_set (new_copy TemplateSpec_DeepCopyInto));
     ("ResolvedValues", if_set (new_copy (ext_DeepCopyInto "runtime.RawExtension")));
     ("Claims", if_set (make_slice PlanClaim_DeepCopyInto))].

Definition WorkloadPlanStatus_DeepCopyInto : gval → M gval :=
  copy_struct [("Conditions", if_set (make_slice (ext_DeepCopyInto "v1.Condition")))].

Definition WorkloadPlan_DeepCopyInto : gval → M gval :=
  copy_struct
    [("TypeMeta", mret); ("ObjectMeta", ext_DeepCopyInto "v1.ObjectMeta");
     ("Spec", WorkloadPlanSpec_DeepCopyInto); ("Status", WorkloadPlanStatus_DeepCopyInto)].

Definition WorkloadPlanWorkloadRef_DeepCopyInto : gval → M gval := copy_struct [].

Definition FromClaimOutput_DeepCopyInto : gval → M gval := copy_struct [].

Definition WorkloadPlanList_DeepCopyInto : gval → M gval :=
  copy_struct
    [("TypeMeta", mret); ("ListMeta", ext_DeepCopyInto "v1.ListMeta");
     ("Items", if_set (make_slice WorkloadPlan_DeepCopyInto))].

(** *** The copies of pointers *)

Definition TemplateSpec_DeepCopy : gval → M gval := deep_copy TemplateSpec_DeepCopyInto.

Definition ConstraintsSpec_DeepCopy (n : nat) : gval → M gval :=
  deep_copy (ConstraintsSpec_DeepCopyInto n).

Definition BackendSpec_DeepCopy (n : nat) : gval → M gval :=
  deep_copy (BackendSpec_DeepCopyInto n).

Definition ProfileSpec_DeepCopy (n : nat) : gval → M gval :=
  deep_copy (ProfileSpec_DeepCopyInto n).

Definition ClassSpec_DeepCopy (n : nat) : gval → M gval := deep_copy (ClassSpec_DeepCopyInto n).

Definition ProvisionerDefaults_DeepCopy : gval → M gval :=
  deep_copy ProvisionerDefaults_DeepCopyInto.

Definition ProvisionerSpec_DeepCopy (n : nat) : gval → M gval :=
  deep_copy (ProvisionerSpec_DeepCopyInto n).

Definition SelectorSpec_DeepCopy (n : nat) : gval → M gval :=
  deep_copy (SelectorSpec_DeepCopyInto n).

Definition DefaultsSpec_DeepCopy (n : nat) : gval → M gval :=
  deep_copy (DefaultsSpec_DeepCopyInto n).

Definition OrchestratorConfigSpec_DeepCopy (n : nat) : gval → M gval :=
  deep_copy (OrchestratorConfigSpec_DeepCopyInto n).

Definition OrchestratorConfig_DeepCopy (n : nat) : gval → M gval :=
  deep_copy (OrchestratorConfig_DeepCopyInto n).

Definition OrchestratorConfigMeta_DeepCopy : gval → M gval :=
  deep_copy OrchestratorConfigMeta_DeepCopyInto.

Definition ResourceConstraints_DeepCopy : gval → M gval :=
  deep_copy ResourceConstraints_DeepCopyInto.

Definition ResourceClaimSpec_DeepCopy : gval → M gval := deep_copy ResourceClaimSpec_DeepCopyInto.

Definition CertificateOutput_DeepCopy : gval → M gval := deep_copy CertificateOutput_DeepCopyInto.

Definition ResourceClaimOutputs_DeepCopy : gval → M gval :=
  deep_copy ResourceClaimOutputs_DeepCopyInto.

Definition ResourceClaimStatus_DeepCopy : gval → M gval :=
  deep_copy ResourceClaimStatus_DeepCopyInto.

Definition ResourceClaim_DeepCopy : gval → M gval := deep_copy ResourceClaim_DeepCopyInto.

Definition ResourceClaim_DeepCopyObject : gval → M gval := copy_object ResourceClaim_DeepCopy.

Definition NamespacedName_DeepCopy : gval → M gval := deep_copy NamespacedName_DeepCopyInto.

Definition LocalObjectReference_DeepCopy : gval → M gval :=
  deep_copy LocalObjectReference_DeepCopyInto.

Definition ResourceClaimList_DeepCopy : gval → M gval := deep_copy ResourceClaimList_DeepCopyInto.

Definition ResourceClaimList_DeepCopyObject : gval → M gval :=
  copy_object ResourceClaimList_DeepCopy.

Definition FileSpec_DeepCopy : gval → M gval := deep_copy FileSpec_DeepCopyInto.

Definition HTTPGetProbe_DeepCopy : gval → M gval := deep_copy HTTPGetProbe_DeepCopyInto.

Definition ExecProbe_DeepCopy : gval → M gval := deep_copy ExecProbe_DeepCopyInto.

Definition ProbeSpec_DeepCopy : gval → M gval := deep_copy ProbeSpec_DeepCopyInto.

Definition ResourceRequirements_DeepCopy : gval → M gval :=
  deep_copy ResourceRequirements_DeepCopyInto.

Definition ContainerSpec_DeepCopy : gval → M gval := deep_copy ContainerSpec_DeepCopyInto.

Definition FileSourceSpec_DeepCopy : gval → M gval := deep_copy FileSourceSpec_DeepCopyInto.

Definition ServicePort_DeepCopy : gval → M gval := deep_copy ServicePort_DeepCopyInto.

Definition ServiceSpec_DeepCopy : gval → M gval := deep_copy ServiceSpec_DeepCopyInto.

Definition ResourceSpec_DeepCopy : gval → M gval := deep_copy ResourceSpec_DeepCopyInto.

Definition WorkloadSpec_DeepCopy : gval → M gval := deep_copy WorkloadSpec_DeepCopyInto.

Definition ClaimSummary_DeepCopy : gval → M gval := deep_copy ClaimSummary_DeepCopyInto.

Definition WorkloadStatus_DeepCopy : gval → M gval := deep_copy WorkloadStatus_DeepCopyInto.

Definition Workload_DeepCopy : gval → M gval := deep_copy Workload_DeepCopyInto.

Definition Workload_DeepCopyObject : gval → M gval := copy_object Workload_DeepCopy.

Definition WorkloadList_DeepCopy : gval → M gval := deep_copy WorkloadList_DeepCopyInto.

Definition WorkloadList_DeepCopyObject : gval → M gval := copy_object WorkloadList_DeepCopy.

Definition WorkloadExposureWorkloadRef_DeepCopy : gval → M gval :=
  deep_copy WorkloadExposureWorkloadRef_DeepCopyInto.

Definition WorkloadExposureSpec_DeepCopy : gval → M gval :=
  deep_copy WorkloadExposureSpec_DeepCopyInto.

Definition ExposureEntry_DeepCopy : gval → M gval := deep_copy ExposureEntry_DeepCopyInto.

Definition WorkloadExposureStatus_DeepCopy : gval → M gval :=
  deep_copy WorkloadExposureStatus_DeepCopyInto.

Definition WorkloadExposure_DeepCopy : gval → M gval := deep_copy WorkloadExposure_DeepCopyInto.

Definition WorkloadExposure_DeepCopyObject : gval → M gval :=
  copy_object WorkloadExposure_DeepCopy.

Definition WorkloadExposureList_DeepCopy : gval → M gval :=
  deep_copy WorkloadExposureList_DeepCopyInto.

Definition WorkloadExposureList_DeepCopyObject : gval → M gval :=
  copy_object WorkloadExposureList_DeepCopy.

Definition PlanClaim_DeepCopy : gval → M gval := deep_copy PlanClaim_DeepCopyInto.

Definition WorkloadPlanSpec_DeepCopy : gval → M gval := deep_copy WorkloadPlanSpec_DeepCopyInto.

Definition WorkloadPlanStatus_DeepCopy : gval → M gval :=
  deep_copy WorkloadPlanStatus_DeepCopyInto.

Definition WorkloadPlan_DeepCopy : gval → M gval := deep_copy WorkloadPlan_DeepCopyInto.

Definition WorkloadPlan_DeepCopyObject : gval → M gval := copy_object WorkloadPlan_DeepCopy.

Definition WorkloadPlanWorkloadRef_DeepCopy : gval → M gval :=
  deep_copy WorkloadPlanWorkloadRef_DeepCopyInto.

Definition FromClaimOutput_DeepCopy : gval → M gval := deep_copy FromClaimOutput_DeepCopyInto.

Definition WorkloadPlanList_DeepCopy : gval → M gval := deep_copy WorkloadPlanList_DeepCopyInto.

Definition WorkloadPlanList_DeepCopyObject : gval → M gval :=
  copy_object WorkloadPlanList_DeepCopy.

(** *** All of them *)

(** A type of the package with its copy function. *)
Record api_type := {
  at_name : string;
  at_type : ty;
  at_DeepCopyInto : nat → gval → M gval;
}.

Definition api_types : list api_type :=
  [{| at_name := "OrchestratorConfigMeta"; at_type := OrchestratorConfigMeta_type;
      at_DeepCopyInto := λ _, OrchestratorConfigMeta_DeepCopyInto |};
   {| at_name := "TemplateSpec"; at_type := TemplateSpec_type;
      at_DeepCopyInto := λ _, TemplateSpec_DeepCopyInto |};
   {| at_name := "BackendSpec"; at_type := BackendSpec_type;
      at_DeepCopyInto := BackendSpec_DeepCopyInto |};
   {| at_name := "ProfileSpec"; at_type := ProfileSpec_type;
      at_DeepCopyInto := ProfileSpec_DeepCopyInto |};
   {| at_name := "ClassSpec"; at_type := ClassSpec_type;
      at_DeepCopyInto := ClassSpec_DeepCopyInto |};
   {| at_name := "ProvisionerDefaults"; at_type := ProvisionerDefaults_type;
      at_DeepCopyInto := λ _, ProvisionerDefaults_DeepCopyInto |};
   {| at_name := "ProvisionerSpec"; at_type := ProvisionerSpec_type;
      at_DeepCopyInto := ProvisionerSpec_DeepCopyInto |};
   {| at_name := "SelectorSpec"; at_type := SelectorSpec_type;
      at_DeepCopyInto := SelectorSpec_DeepCopyInto |};
   {| at_name := "DefaultsSpec"; at_type := DefaultsSpec_type;
      at_DeepCopyInto := DefaultsSpec_DeepCopyInto |};
   {| at_name := "OrchestratorConfigSpec"; at_type := OrchestratorConfigSpec_type;
      at_DeepCopyInto := OrchestratorConfigSpec_DeepCopyInto |};
   {| at_name := "OrchestratorConfig"; at_type := OrchestratorConfig_type;
      at_DeepCopyInto := OrchestratorConfig_DeepCopyInto |};
   {| at_name := "ResourceConstraints"; at_type := ResourceConstraints_type;
      at_DeepCopyInto := λ _, ResourceConstraints_DeepCopyInto |};
   {| at_name := "ConstraintsSpec"; at_type := ConstraintsSpec_type;
      at_DeepCopyInto := λ n, ConstraintsSpec_DeepCopyInto (S n) |};
   {| at_name := "NamespacedName"; at_type := NamespacedName_type;
      at_DeepCopyInto := λ _, NamespacedName_DeepCopyInto |};
   {| at_name := "ResourceClaimSpec"; at_type := ResourceClaimSpec_type;
      at_DeepCopyInto := λ _, ResourceClaimSpec_DeepCopyInto |};
   {| at_name := "LocalObjectReference"; at_type := LocalObjectReference_type;
      at_DeepCopyInto := λ _, LocalObjectReference_DeepCopyInto |};
   {| at_name := "CertificateOutput"; at_type := CertificateOutput_type;
      at_DeepCopyInto := λ _, CertificateOutput_DeepCopyInto |};
   {| at_name := "ResourceClaimOutputs"; at_type := ResourceClaimOutputs_type;
      at_DeepCopyInto := λ _, ResourceClaimOutputs_DeepCopyInto |};
   {| at_name := "ResourceClaimStatus"; at_type := ResourceClaimStatus_type;
      at_DeepCopyInto := λ _, ResourceClaimStatus_DeepCopyInto |};
   {| at_name := "ResourceClaim"; at_type := ResourceClaim_type;
      at_DeepCopyInto := λ _, ResourceClaim_DeepCopyInto |};
   {| at_name := "ResourceClaimList"; at_type := ResourceClaimList_type;
      at_DeepCopyInto := λ _, ResourceClaimList_DeepCopyInto |};
   {| at_name := "FileSourceSpec"; at_type := FileSourceSpec_type;
      at_DeepCopyInto := λ _, FileSourceSpec_DeepCopyInto |};
   {| at_name := "FileSpec"; at_type := FileSpec_type;
      at_DeepCopyInto := λ _, FileSpec_DeepCopyInto |};
   {| at_name := "HTTPGetProbe"; at_type := HTTPGetProbe_type;
      at_DeepCopyInto := λ _, HTTPGetProbe_DeepCopyInto |};
   {| at_name := "ExecProbe"; at_type := ExecProbe_type;
      at_DeepCopyInto := λ _, ExecProbe_DeepCopyInto |};
   {| at_name := "ProbeSpec"; at_type := ProbeSpec_type;
      at_DeepCopyInto := λ _, ProbeSpec_DeepCopyInto |};
   {| at_name := "ResourceRequirements"; at_type := ResourceRequirements_type;
      at_DeepCopyInto := λ _, ResourceRequirements_DeepCopyInto |};
   {| at_name := "ContainerSpec"; at_type := ContainerSpec_type;
      at_DeepCopyInto := λ _, ContainerSpec_DeepCopyInto |};
   {| at_name := "ServicePort"; at_type := ServicePort_type;
      at_DeepCopyInto := λ _, ServicePort_DeepCopyInto |};
   {| at_name := "ServiceSpec"; at_type := ServiceSpec_type;
      at_DeepCopyInto := λ _, ServiceSpec_DeepCopyInto |};
   {| at_name := "ResourceSpec"; at_type := ResourceSpec_type;
      at_DeepCopyInto := λ _, ResourceSpec_DeepCopyInto |};
   {| at_name := "WorkloadSpec"; at_type := WorkloadSpec_type;
      at_DeepCopyInto := λ _, WorkloadSpec_DeepCopyInto |};
   {| at_name := "ClaimSummary"; at_type := ClaimSummary_type;
      at_DeepCopyInto := λ _, ClaimSummary_DeepCopyInto |};
   {| at_name := "WorkloadStatus"; at_type := WorkloadStatus_type;
      at_DeepCopyInto := λ _, WorkloadStatus_DeepCopyInto |};
   {| at_name := "Workload"; at_type := Workload_type;
      at_DeepCopyInto := λ _, Workload_DeepCopyInto |};
   {| at_name := "WorkloadList"; at_type := WorkloadList_type;
      at_DeepCopyInto := λ _, WorkloadList_DeepCopyInto |};
   {| at_name := "WorkloadExposureWorkloadRef"; at_type := WorkloadExposureWorkloadRef_type;
      at_DeepCopyInto := λ _, WorkloadExposureWorkloadRef_DeepCopyInto |};
   {| at_name := "WorkloadExposureSpec"; at_type := WorkloadExposureSpec_type;
      at_DeepCopyInto := λ _, WorkloadExposureSpec_DeepCopyInto |};
   {| at_name := "ExposureEntry"; at_type := ExposureEntry_type;
      at_DeepCopyInto := λ _, ExposureEntry_DeepCopyInto |};
   {| at_name := "WorkloadExposureStatus"; at_type := WorkloadExposureStatus_type;
      at_DeepCopyInto := λ _, WorkloadExposureStatus_DeepCopyInto |};
   {| at_name := "WorkloadExposure"; at_type := WorkloadExposure_type;
      at_DeepCopyInto := λ _, WorkloadExposure_DeepCopyInto |};
   {| at_name := "WorkloadExposureList"; at_type := WorkloadExposureList_type;
      at_DeepCopyInto := λ _, WorkloadExposureList_DeepCopyInto |};
   {| at_name := "WorkloadPlanWorkloadRef"; at_type := WorkloadPlanWorkloadRef_type;
      at_DeepCopyInto := λ _, WorkloadPlanWorkloadRef_DeepCopyInto |};
   {| at_name := "PlanClaim"; at_type := PlanClaim_type;
      at_DeepCopyInto := λ _, PlanClaim_DeepCopyInto |};
   {| at_name := "WorkloadPlanSpec"; at_type := WorkloadPlanSpec_type;
      at_DeepCopyInto := λ _, WorkloadPlanSpec_DeepCopyInto |};
   {| at_name := "WorkloadPlanStatus"; at_type := WorkloadPlanStatus_type;
      at_DeepCopyInto := λ _, WorkloadPlanStatus_DeepCopyInto |};
   {| at_name := "WorkloadPlan"; at_type := WorkloadPlan_type;
      at_DeepCopyInto := λ _, WorkloadPlan_DeepCopyInto |};
   {| at_name := "FromClaimOutput"; at_type := FromClaimOutput_type;
      at_DeepCopyInto := λ _, FromClaimOutput_DeepCopyInto |};
   {| at_name := "WorkloadPlanList"; at_type := WorkloadPlanList_type;
      at_DeepCopyInto := λ _, WorkloadPlanList_DeepCopyInto |}].
End copies.

(** ** Every one is a deep copy *)

Section deep.
Context `{!External, !ExternalLaws, !MapOrder, !MapOrderLaws}.

#[local] Abbreviation copies := (copier ConstraintsSpec_type).

Lemma TemplateSpec_copies n : copies n TemplateSpec_type TemplateSpec_DeepCopyInto.
Proof. copies_fields. Qed.
#[local] Hint Resolve TemplateSpec_copies : copiers.

Lemma SelectorSpec_with_copies n constraints :
  copies n TRec constraints → copies n SelectorSpec_type (SelectorSpec_with constraints).
Proof. intros Hc. copies_fields. Qed.
#[local] Hint Resolve SelectorSpec_with_copies : copiers.

Lemma ConstraintsSpec_copies n : copies n TRec (ConstraintsSpec_DeepCopyInto n).
Proof.
  induction n as [|n IH]; [intros h v Hv; by inversion Hv|].
  apply copier_rec. cbn [ConstraintsSpec_DeepCopyInto]. copies_fields.
Qed.
#[local] Hint Resolve ConstraintsSpec_copies : copiers.

Lemma BackendSpec_copies n : copies n BackendSpec_type (BackendSpec_DeepCopyInto n).
Proof. copies_fields. Qed.
#[local] Hint Resolve BackendSpec_copies : copiers.

Lemma ProfileSpec_copies n : copies n ProfileSpec_type (ProfileSpec_DeepCopyInto n).
Proof. copies_fields. Qed.
#[local] Hint Resolve ProfileSpec_copies : copiers.

Lemma ClassSpec_copies n : copies n ClassSpec_type (ClassSpec_DeepCopyInto n).
Proof. copies_fields. Qed.
#[local] Hint Resolve ClassSpec_copies : copiers.

Lemma ProvisionerDefaults_copies n :
  copies n ProvisionerDefaults_type ProvisionerDefaults_DeepCopyInto.
Proof. copies_fields. Qed.
#[local] Hint Resolve ProvisionerDefaults_copies : copiers.

Lemma ProvisionerSpec_copies n : copies n ProvisionerSpec_type (ProvisionerSpec_DeepCopyInto n).
Proof. copies_fields. Qed.
#[local] Hint Resolve ProvisionerSpec_copies : copiers.

Lemma SelectorSpec_copies n : copies n SelectorSpec_type (SelectorSpec_DeepCopyInto n).
Proof. apply SelectorSpec_with_copies, ConstraintsSpec_copies. Qed.
#[local] Hint Resolve SelectorSpec_copies : copiers.

Lemma DefaultsSpec_copies n : copies n DefaultsSpec_type (DefaultsSpec_DeepCopyInto n).
Proof. copies_fields. Qed.
#[local] Hint Resolve DefaultsSpec_copies : copiers.

Lemma OrchestratorConfigSpec_copies n :
  copies n OrchestratorConfigSpec_type (OrchestratorConfigSpec_DeepCopyInto n).
Proof. copies_fields. Qed.
#[local] Hint Resolve OrchestratorConfigSpec_copies : copiers.

Lemma OrchestratorConfig_copies n :
  copies n OrchestratorConfig_type (OrchestratorConfig_DeepCopyInto n).
Proof. copies_fields. Qed.
#[local] Hint Resolve OrchestratorConfig_copies : copiers.

Lemma OrchestratorConfigMeta_copies n :
  copies n OrchestratorConfigMeta_type OrchestratorConfigMeta_DeepCopyInto.
Proof. copies_fields. Qed.
#[local] Hint Resolve OrchestratorConfigMeta_copies : copiers.

Lemma ResourceConstraints_copies n :
  copies n ResourceConstraints_type ResourceConstraints_DeepCopyInto.
Proof. copies_fields. Qed.
#[local] Hint Resolve ResourceConstraints_copies : copiers.

Lemma ResourceClaimSpec_copies n : copies n ResourceClaimSpec_type ResourceClaimSpec_DeepCopyInto.
Proof. copies_fields. Qed.
#[local] Hint Resolve ResourceClaimSpec_copies : copiers.

Lemma CertificateOutput_copies n : copies n CertificateOutput_type CertificateOutput_DeepCopyInto.
Proof. copies_fields. Qed.
#[local] Hint Resolve CertificateOutput_copies : copiers.

Lemma ResourceClaimOutputs_copies n :
  copies n ResourceClaimOutputs_type ResourceClaimOutputs_DeepCopyInto.
Proof. copies_fields. Qed.
#[local] Hint Resolve ResourceClaimOutputs_copies : copiers.

Lemma ResourceClaimStatus_copies n :
  copies n ResourceClaimStatus_type ResourceClaimStatus_DeepCopyInto.
Proof. copies_fields. Qed.
#[local] Hint Resolve ResourceClaimStatus_copies : copiers.

Lemma ResourceClaim_copies n : copies n ResourceClaim_type ResourceClaim_DeepCopyInto.
Proof. copies_fields. Qed.
#[local] Hint Resolve ResourceClaim_copies : copiers.

Lemma NamespacedName_copies n : copies n NamespacedName_type NamespacedName_DeepCopyInto.
Proof. copies_fields. Qed.
#[local] Hint Resolve NamespacedName_copies : copiers.

Lemma LocalObjectReference_copies n :
  copies n LocalObjectReference_type LocalObjectReference_DeepCopyInto.
Proof. copies_fields. Qed.
#[local] Hint Resolve LocalObjectReference_copies : copiers.

Lemma ResourceClaimList_copies n : copies n ResourceClaimList_type ResourceClaimList_DeepCopyInto.
Proof. copies_fields. Qed.
#[local] Hint Resolve ResourceClaimList_copies : copiers.

Lemma FileSpec_copies n : copies n FileSpec_type FileSpec_DeepCopyInto.
Proof. copies_fields. Qed.
#[local] Hint Resolve FileSpec_copies : copiers.

Lemma HTTPGetProbe_copies n : copies n HTTPGetProbe_type HTTPGetProbe_DeepCopyInto.
Proof. copies_fields. Qed.
#[local] Hint Resolve HTTPGetProbe_copies : copiers.

Lemma ExecProbe_copies n : copies n ExecProbe_type ExecProbe_DeepCopyInto.
Proof. copies_fields. Qed.
#[local] Hint Resolve ExecProbe_copies : copiers.

Lemma ProbeSpec_copies n : copies n ProbeSpec_type ProbeSpec_DeepCopyInto.
Proof. copies_fields. Qed.
#[local] Hint Resolve ProbeSpec_copies : copiers.

Lemma ResourceRequirements_copies n :
  copies n ResourceRequirements_type ResourceRequirements_DeepCopyInto.
Proof. copies_fields. Qed.
#[local] Hint Resolve ResourceRequirements_copies : copiers.

Lemma ContainerSpec_copies n : copies n ContainerSpec_type ContainerSpec_DeepCopyInto.
Proof. copies_fields. Qed.
#[local] Hint Resolve ContainerSpec_copies : copiers.

Lemma FileSourceSpec_copies n : copies n FileSourceSpec_type FileSourceSpec_DeepCopyInto.
Proof. copies_fields. Qed.
#[local] Hint Resolve FileSourceSpec_copies : copiers.

Lemma ServicePort_copies n : copies n ServicePort_type ServicePort_DeepCopyInto.
Proof. copies_fields. Qed.
#[local] Hint Resolve ServicePort_copies : copiers.

Lemma ServiceSpec_copies n : copies n ServiceSpec_type ServiceSpec_DeepCopyInto.
Proof. copies_fields. Qed.
#[local] Hint Resolve ServiceSpec_copies : copiers.

Lemma ResourceSpec_copies n : copies n ResourceSpec_type ResourceSpec_DeepCopyInto.
Proof. copies_fields. Qed.
#[local] Hint Resolve ResourceSpec_copies : copiers.

Lemma WorkloadSpec_copies n : copies n WorkloadSpec_type WorkloadSpec_DeepCopyInto.
Proof. copies_fields. Qed.
#[local] Hint Resolve WorkloadSpec_copies : copiers.

Lemma ClaimSummary_copies n : copies n ClaimSummary_type ClaimSummary_DeepCopyInto.
Proof. copies_fields. Qed.
#[local] Hint Resolve ClaimSummary_copies : copiers.

Lemma WorkloadStatus_copies n : copies n WorkloadStatus_type WorkloadStatus_DeepCopyInto.
Proof. copies_fields. Qed.
#[local] Hint Resolve WorkloadStatus_copies : copiers.

Lemma Workload_copies n : copies n Workload_type Workload_DeepCopyInto.
Proof. copies_fields. Qed.
#[local] Hint Resolve Workload_copies : copiers.

Lemma WorkloadList_copies n : copies n WorkloadList_type WorkloadList_DeepCopyInto.
Proof. copies_fields. Qed.
#[local] Hint Resolve WorkloadList_copies : copiers.

Lemma WorkloadExposureWorkloadRef_copies n :
  copies n WorkloadExposureWorkloadRef_type WorkloadExposureWorkloadRef_DeepCopyInto.
Proof. copies_fields. Qed.
#[local] Hint Resolve WorkloadExposureWorkloadRef_copies : copiers.

Lemma WorkloadExposureSpec_copies n :
  copies n WorkloadExposureSpec_type WorkloadExposureSpec_DeepCopyInto.
Proof. copies_fields. Qed.
#[local] Hint Resolve WorkloadExposureSpec_copies : copiers.

Lemma ExposureEntry_copies n : copies n ExposureEntry_type ExposureEntry_DeepCopyInto.
Proof. copies_fields. Qed.
#[local] Hint Resolve ExposureEntry_copies : copiers.

Lemma WorkloadExposureStatus_copies n :
  copies n WorkloadExposureStatus_type WorkloadExposureStatus_DeepCopyInto.
Proof. copies_fields. Qed.
#[local] Hint Resolve WorkloadExposureStatus_copies : copiers.

Lemma WorkloadExposure_copies n : copies n WorkloadExposure_type WorkloadExposure_DeepCopyInto.
Proof. copies_fields. Qed.
#[local] Hint Resolve WorkloadExposure_copies : copiers.

Lemma WorkloadExposureList_copies n :
  copies n WorkloadExposureList_type WorkloadExposureList_DeepCopyInto.
Proof. copies_fields. Qed.
#[local] Hint Resolve WorkloadExposureList_copies : copiers.

Lemma PlanClaim_copies n : copies n PlanClaim_type PlanClaim_DeepCopyInto.
Proof. copies_fields. Qed.
#[local] Hint Resolve PlanClaim_copies : copiers.

Lemma WorkloadPlanSpec_copies n : copies n WorkloadPlanSpec_type WorkloadPlanSpec_DeepCopyInto.
Proof. copies_fields. Qed.
#[local] Hint Resolve WorkloadPlanSpec_copies : copiers.

Lemma WorkloadPlanStatus_copies n :
  copies n WorkloadPlanStatus_type WorkloadPlanStatus_DeepCopyInto.
Proof. copies_fields. Qed.
#[local] Hint Resolve WorkloadPlanStatus_copies : copiers.

Lemma WorkloadPlan_copies n : copies n WorkloadPlan_type WorkloadPlan_DeepCopyInto.
Proof. copies_fields. Qed.
#[local] Hint Resolve WorkloadPlan_copies : copiers.

Lemma WorkloadPlanWorkloadRef_copies n :
  copies n WorkloadPlanWorkloadRef_type WorkloadPlanWorkloadRef_DeepCopyInto.
Proof. copies_fields. Qed.
#[local] Hint Resolve WorkloadPlanWorkloadRef_copies : copiers.

Lemma FromClaimOutput_copies n : copies n FromClaimOutput_type FromClaimOutput_DeepCopyInto.
Proof. copies_fields. Qed.
#[local] Hint Resolve FromClaimOutput_copies : copiers.

Lemma WorkloadPlanList_copies n : copies n WorkloadPlanList_type WorkloadPlanList_DeepCopyInto.
Proof. copies_fields. Qed.
#[local] Hint Resolve WorkloadPlanList_copies : copiers.

Lemma ConstraintsSpec_unfolded n :
  copies n ConstraintsSpec_type (ConstraintsSpec_DeepCopyInto (S n)).
Proof. intros h v Hv. by apply ConstraintsSpec_copies, typed_rec. Qed.
#[local] Hint Resolve ConstraintsSpec_unfolded : copiers.

Lemma api_types_copy a n : a ∈ api_types → copies n (at_type a) (at_DeepCopyInto a n).
Proof.
  intros Ha. unfold api_types in Ha.
  repeat (apply elem_of_cons in Ha as [->|Ha]; [cbn [at_type at_DeepCopyInto]; auto with copiers|]).
  by apply elem_of_nil in Ha.
Qed.

(** C37: Every generated [DeepCopyInto] terminates and makes a deep copy, for each of the
    49 types of the package.  Given a well-typed value in memory and fuel for its nested
    constraints (any larger amount will do), it does not panic; what the heap held stays
    as it was; the copy has the structure of the original; and the copy shares no
    pointer, slice or map with the original or with anything else that was in the
    heap. *)
Theorem DeepCopyInto_deep a n m h v :
  a ∈ api_types → n ≤ m → typed ConstraintsSpec_type h n (at_type a) v →
  ∃ v' h', at_DeepCopyInto a m v h = Some (v', h') ∧ copied h v h' v'.
Proof. intros Ha Hle Hv. apply api_types_copy; [done|]. by eapply typed_le. Qed.

(** The same for the copies of pointers. *)
Lemma DeepCopy_pointer a n m h p :
  a ∈ api_types → n ≤ m → typed ConstraintsSpec_type h n (TPtr (at_type a)) p →
  ∃ p' h', deep_copy (at_DeepCopyInto a m) p h = Some (p', h') ∧ copied h p h' p'.
Proof.
  intros Ha Hle Hp. apply (copier_new ConstraintsSpec_type m _ _ (api_types_copy a m Ha)).
  by eapply typed_le.
Qed.

(** C38: Copy and original do not influence each other.  After [DeepCopy] of a pointer
    (nil included), whatever is then written to the cells of the copy, or allocated, the
    original keeps its structure, and whatever is written to the cells that existed
    before, the copy keeps its own: this is what lets the controllers change what they
    copied out of the informers' cache. *)
Theorem DeepCopy_isolates a n m h p :
  a ∈ api_types → n ≤ m → typed ConstraintsSpec_type h n (TPtr (at_type a)) p →
  ∃ p' h', deep_copy (at_DeepCopyInto a m) p h = Some (p', h') ∧ same h h' p p' ∧
    (∀ h2, (∀ l, l ∈ (dom h : gset loc) → h2 !! l = h' !! l) → same h h2 p p) ∧
    (∀ h2, (∀ l, l ∉ (dom h : gset loc) → h2 !! l = h' !! l) → same h' h2 p' p').
Proof.
  intros Ha Hle Hp. destruct (DeepCopy_pointer a n m h p Ha Hle Hp) as (p' & h' & Hc & Hsub & Hs & Hl).
  exists p', h'. split_and!; [done|done| |].
  - intros h2 Heq. apply (lives_frame (.∈ (dom h : gset loc))).
    + intros l Hin. rewrite (Heq l Hin). apply elem_of_dom in Hin as [c Hc'].
      rewrite Hc'. symmetry. by eapply lookup_weaken.
    + eapply lives_in_dom. by eapply typed_lives.
  - intros h2 Heq. apply (lives_frame (.∉ (dom h : gset loc))); [|done].
    intros l Hin. by rewrite (Heq l Hin).
Qed.
End deep.

(** ** On an example *)

Module DeepCopyDemo.
(** Types of other packages, as a struct with a slice of bytes, and as a pointer. *)
Definition other_type (name : string) : ty :=
  if bool_decide (name = "*v1.Time") then TPtr (TStruct [("wall", TBasic BInt)])
  else TStruct [("Raw", TSlice (TBasic BInt))].

Definition no_external : External :=
  {| ext_typed _ _ _ := False; ext_DeepCopyInto _ := λ _, fail |}.

Lemma no_external_laws : @ExternalLaws no_external.
Proof. by split. Qed.

#[local] Instance external : External :=
  {| ext_typed name h v := @typed no_external TRec h 0 (other_type name) v;
     ext_DeepCopyInto name := if bool_decide (name = "*v1.Time") then if_set new_assign
                              else copy_struct [("Raw", if_set make_assign)] |}.

#[local] Instance external_laws : ExternalLaws.
Proof.
  pose proof no_external_laws as Hno. split; simpl.
  - intros name h h' v v'. by apply (@typed_same no_external).
  - intros name h v. by apply (@typed_lives no_external).
  - intros name. change (@copier no_external TRec 0 (other_type name)
      (if bool_decide (name = "*v1.Time") then if_set new_assign
       else copy_struct [("Raw", if_set make_assign)])).
    unfold other_type. case_bool_decide.
    + by apply (@copier_new_assign no_external).
    + copies_fields.
Qed.

#[local] Instance order : MapOrder := {| visit A m := map_to_list m |}.
#[local] Instance order_laws : MapOrderLaws.
Proof. by split. Qed.

(** A service port with a target port, at location 1, which refers to location 2. *)
Definition port : gval :=
  Struct [("Port", Scalar (SInt 80)); ("Protocol", Scalar (SStr "TCP")); ("TargetPort", Ptr 2)].
Definition memory : heap := {[1%positive := Var port; 2%positive := Var (Scalar (SInt 8080))]}.

Definition ServicePort_api : api_type :=
  {| at_name := "ServicePort"; at_type := ServicePort_type;
     at_DeepCopyInto := λ _, ServicePort_DeepCopyInto |}.

Lemma ServicePort_in : ServicePort_api ∈ api_types.
Proof. unfold api_types, ServicePort_api. repeat (apply elem_of_cons; (by left) || right). Qed.

Lemma port_typed : typed ConstraintsSpec_type memory 0 ServicePort_type port.
Proof.
  constructor; [done|]. intros [|[|[|i]]] t v Ht Hv; simplify_eq/=.
  - apply (typed_basic _ _ _ (SInt 80)).
  - apply (typed_basic _ _ _ (SStr "TCP")).
  - econstructor; [by vm_compute|]. apply (typed_basic _ _ _ (SInt 8080)).
Qed.

Lemma pointer_typed : typed ConstraintsSpec_type memory 0 (TPtr ServicePort_type) (Ptr 1).
Proof. econstructor; [by vm_compute|apply port_typed]. Qed.

(** The copy has its own target port. *)
Example copied_port :
  match ServicePort_DeepCopy (Ptr 1) memory with
  | Some (Ptr l, h) => l ≠ 1%positive ∧ ∃ l', h !! l =
      Some (Var (Struct [("Port", Scalar (SInt 80)); ("Protocol", Scalar (SStr "TCP"));
                         ("TargetPort", Ptr l')])) ∧
      h !! l' = Some (Var (Scalar (SInt 8080))) ∧ l' ≠ 2%positive
  | _ => False
  end.
Proof. vm_compute. split; [done|]. eexists. split; [done|]. by split. Qed.
End DeepCopyDemo.

#[local] Existing Instances DeepCopyDemo.external DeepCopyDemo.external_laws DeepCopyDemo.order
  DeepCopyDemo.order_laws.

Lemma DeepCopyInto_deep_witness :
  ∃ v' h', ServicePort_DeepCopyInto DeepCopyDemo.port DeepCopyDemo.memory = Some (v', h') ∧
    copied DeepCopyDemo.memory DeepCopyDemo.port h' v'.
Proof.
  exact (DeepCopyInto_deep DeepCopyDemo.ServicePort_api 0 0 DeepCopyDemo.memory DeepCopyDemo.port
           DeepCopyDemo.ServicePort_in (le_n 0) DeepCopyDemo.port_typed).
Defined.

Lemma DeepCopy_isolates_witness :
  let h := DeepCopyDemo.memory in
  ∃ p' h', ServicePort_DeepCopy (Ptr 1) h = Some (p', h') ∧ same h h' (Ptr 1) p' ∧
    (∀ h2, (∀ l, l ∈ (dom h : gset loc) → h2 !! l = h' !! l) → same h h2 (Ptr 1) (Ptr 1)) ∧
    (∀ h2, (∀ l, l ∉ (dom h : gset loc) → h2 !! l = h' !! l) → same h' h2 p' p').
Proof.
  exact (DeepCopy_isolates DeepCopyDemo.ServicePort_api 0 0 DeepCopyDemo.memory (Ptr 1)
           DeepCopyDemo.ServicePort_in (le_n 0) DeepCopyDemo.pointer_typed).
Defined.
