(* ===== verification/Interleaving.v ===== *)
(** * Interleaving: the two writers of the status of a workload

    The workload controller stores the status of a workload with an update that the API
    server accepts only for the version that was read; the mirror stores endpoint and
    conditions with a merge patch that it accepts for any version.  Both read from a
    cache that may be behind.  This file shows what each program writes, models the two
    kinds of writes on the stored object, and says which changes survive when the two
    are interleaved. *)
From S2P Require Import Prelude GoStrings Json K8s Api Client Sort Conditions Selection.
From S2P Require Import Validation ConfigCache ReconcilerConfig ConfigLoader Placeholders.
From S2P Require Import Claims StatusManager Plan Pipeline Mirror.

(** ** What the workload controller writes *)

(** [w] has the metadata (the version with it), the specification and the endpoint of
    [w0]. *)
Definition based_on (w0 w : Workload) : Prop :=
  wl_ObjectMeta w = wl_ObjectMeta w0 ∧ wl_Spec w = wl_Spec w0 ∧
  wst_Endpoint (wl_Status w) = wst_Endpoint (wl_Status w0).

Lemma based_on_refl w : based_on w w.
Proof. done. Qed.

(** A write of a status is an update of a workload that is based on [w0]. *)
Definition carries (w0 : Workload) (c : call) : Prop :=
  status_write c → ∃ w, c = StatusUpdate KWorkload w ∧ based_on w0 w.

Lemma every_result_skip {A B} (p : prog A) (f : A → prog B) (Q : B → Prop) :
  (∀ a, every_result Q (f a)) → every_result Q (p ≫= f).
Proof.
  intros Hf. apply every_result_bind. eapply every_result_mono; [|apply every_result_top].
  intros a _. apply Hf.
Qed.

Section workload.
Context `{!Scheme} `{!Finalizers} `{!MapOrder} `{!Semver} `{!LabelSelectors} `{!DNS1123}
  `{!ConfigSource} `{!ConfigSourceLaws}.

(** A phase keeps what its workload is based on and stores nothing else. *)
Definition keeps_base (ph : Phase) : Prop := ∀ w0 ctx,
  based_on w0 (pctx_Workload ctx) →
  every_result (λ x, based_on w0 (pctx_Workload x.1)) (ph_Execute ph ctx) ∧
  every_call (carries w0) (ph_Execute ph ctx).

Lemma no_status_carries {A} w0 (p : prog A) :
  every_call (λ c, ¬ status_write c) p → every_call (carries w0) p.
Proof. apply every_call_mono. by intros c Hc ?%Hc. Qed.

Lemma ValidationPhase_keeps : keeps_base ValidationPhase.
Proof. intros w0 ctx Hb. split; [by intros now|]. cbn. split; [by intros []|done]. Qed.

Lemma ClaimPhase_keeps : keeps_base ClaimPhase.
Proof.
  intros w0 ctx Hb. cbn [ph_Execute ClaimPhase]. split.
  - apply every_result_skip. intros [[]|err]; [|intros []; exact Hb]. apply every_result_skip.
    intros [claims|err]; [|exact Hb]. intros now. exact Hb.
  - apply every_call_bind; [apply no_status_carries, EnsureClaims_no_status|].
    intros [[]|err]; [|unfold emit; calls; by intros []].
    apply every_call_bind; [unfold GetClaims, getResourceClaimsWithoutIndex; calls; by intros []|].
    intros [claims|err]; [|done]. calls. by intros [].
Qed.

Lemma EnsurePlan_based w0 workload claims agg :
  based_on w0 workload →
  every_result (λ x, based_on w0 x.1) (EnsurePlan workload claims agg).
Proof.
  intros Hb. unfold EnsurePlan. destruct (ca_Ready agg); [|done].
  apply every_result_skip. intros [sb|err]; [|intros now; exact Hb]. apply every_result_skip.
  intros [[]|err]; [intros []; exact Hb|].
  by destruct (is_projection_error err); [intros now []|intros []].
Qed.

Lemma PlanPhase_keeps : keeps_base PlanPhase.
Proof.
  intros w0 ctx Hb. cbn [ph_Execute PlanPhase]. split.
  - apply every_result_bind. eapply every_result_mono; [|by apply EnsurePlan_based].
    intros [w [[]|err]] Hw; cbn [fst snd] in *; [|by destruct (Contains _ _)].
    apply every_result_skip. intros plan. exact Hw.
  - apply every_call_bind; [apply no_status_carries, EnsurePlan_no_status|].
    intros [w [[]|err]]; cbn [fst snd]; [|by destruct (Contains _ _)].
    apply every_call_bind; [unfold GetPlan; calls; by intros []|done].
Qed.

Lemma set_condition_based w0 t status reason message w :
  based_on w0 w → every_result (based_on w0) (set_condition t status reason message w).
Proof. by intros Hb now. Qed.

Lemma ComputeFinalStatus_based w0 w plan :
  based_on w0 w → every_result (based_on w0) (ComputeFinalStatus w plan).
Proof.
  intros Hb. unfold ComputeFinalStatus. apply every_result_bind.
  eapply (every_result_mono _ (based_on w0)).
  - intros w1 Hw1. destruct (ComputeReadyCondition _) as [[status reason] message].
    apply every_result_bind. eapply every_result_mono; [|by apply set_condition_based].
    intros w2 Hw2. by case_bool_decide; [intros []|].
  - unfold updateRuntimeStatusFromPlan. destruct plan as [plan|]; [|by apply set_condition_based].
    destruct (checkRuntimeStatusFromPlan _) as [[ready reason] message]. by apply set_condition_based.
Qed.

Lemma ComputeFinalStatus_no_status w plan :
  every_call (λ c, ¬ status_write c) (ComputeFinalStatus w plan).
Proof.
  unfold ComputeFinalStatus, updateRuntimeStatusFromPlan, SetRuntimeReadyCondition, set_condition.
  calls; by intros [].
Qed.

Lemma StatusPhase_carries w0 ctx :
  based_on w0 (pctx_Workload ctx) → every_call (carries w0) (ph_Execute StatusPhase ctx).
Proof.
  intros Hb. cbn [ph_Execute StatusPhase].
  apply (every_call_bind_result (based_on w0)).
  - by apply ComputeFinalStatus_based.
  - apply no_status_carries, ComputeFinalStatus_no_status.
  - intros w Hw. apply every_call_bind; [unfold UpdateStatus; calls; eexists; split; [done|exact Hw]|].
    intros [w' [[]|err]]; cbn [fst snd]; [done|]. by destruct (IsConflict err).
Qed.

(** Phases that keep the base, and then the status phase. *)
Lemma run_phases_carries w0 phases ctx :
  Forall keeps_base phases → based_on w0 (pctx_Workload ctx) →
  every_call (carries w0) (run_phases (phases ++ [StatusPhase]) ctx).
Proof.
  intros Hp. revert ctx. induction Hp as [|phase phases Hph _ IH]; intros ctx Hb; cbn [app run_phases].
  - destruct (ph_ShouldSkip StatusPhase ctx); [done|].
    apply every_call_bind; [by apply StatusPhase_carries|]. intros [ctx' result].
    destruct (phr_Error result); [done|]. by destruct (phr_Requeue result), (phr_Skip result).
  - destruct (ph_ShouldSkip phase ctx); [by apply IH|].
    destruct (Hph w0 ctx Hb) as [Hres Hcalls].
    eapply every_call_bind_result; [exact Hres|exact Hcalls|].
    intros [ctx' result] Hb'. destruct (phr_Error result); [done|].
    destruct (phr_Requeue result), (phr_Skip result); try done. by apply IH.
Qed.

Lemma normal_phases_carry config w0 :
  every_call (carries w0) (run_phases normalPhases (new_context config w0)).
Proof.
  apply (run_phases_carries w0 [ValidationPhase; ClaimPhase; PlanPhase]); [|by apply based_on_refl].
  repeat apply Forall_cons_2; [apply ValidationPhase_keeps|apply ClaimPhase_keeps|
    apply PlanPhase_keeps|apply Forall_nil_2].
Qed.

(** The deletion stores no status. *)
Lemma deletion_no_status ctx :
  every_call (λ c, ¬ status_write c) (executeDeletionPipeline ctx).
Proof.
  unfold executeDeletionPipeline, DeletionPhase, RemoveWorkloadFinalizer, update_workload, emit,
    GetClaims, getResourceClaimsWithoutIndex.
  cbn [ph_Execute ph_ShouldSkip]. cbv zeta. calls; try by intros [].
  generalize (pctx_Workload ctx). intros w. induction a as [|claim claims IH]; [done|].
  cbn [process_claims]. unfold processDeprovisionPolicy, deleteResourceClaim, removeOwnerReference.
  calls; try by intros []. apply IH.
Qed.

Lemma Execute_based config workload past :
  wp well_formed_claims (Execute config workload) past (λ _ tr, ∃ l, tr = past ++ l ∧
    ∀ e, e ∈ l → ∃ w0, (w0 = workload ∨ ∃ w', Ev (Update KWorkload w') (Ok w0) ∈ l) ∧
      carries w0 (ev_call e)).
Proof.
  assert (∀ w0 past, wp well_formed_claims (run_phases normalPhases (new_context config w0)) past
            (λ _ tr, ∃ l, tr = past ++ l ∧ ∀ e, e ∈ l → carries w0 (ev_call e))) as Hrun.
  { intros w0 past'. eapply wp_mono; [done| |apply wp_with_calls;
      [apply normal_outcome|apply normal_phases_carry]].
    intros r tr [_ (l & -> & Hl)]. rewrite Forall_forall in Hl. eauto. }
  pose proof (Execute_outcome config workload past) as Hout. unfold Execute in *.
  destruct (being_deleted workload).
  - eapply wp_mono; [done| |apply wp_with_calls; [exact Hout|apply deletion_no_status]].
    intros r tr [_ (l & -> & Hl)]. exists l. split; [done|]. intros e Hin.
    rewrite Forall_forall in Hl. exists workload. split; [by left|]. by intros ?%Hl.
  - clear Hout. rewrite wp_bind. unfold EnsureFinalizer, update_workload.
    destruct (HasFinalizer workload); cbn [wp mret prog_ret fst snd].
    + eapply wp_mono; [done| |apply Hrun]. intros r tr (l & -> & Hl). exists l.
      split; [done|]. intros e Hin. exists workload. split; [by left|]. by apply Hl.
    + rewrite wp_bind. intros [stored|err] _; cbn [wp mret prog_ret fst snd].
      * eapply wp_mono; [done| |apply Hrun]. intros r tr (l & -> & Hl). rewrite <- app_assoc.
        eexists. split; [done|]. intros e [->|Hin]%elem_of_cons.
        -- exists workload. split; [by left|]. by intros [].
        -- exists stored. split; [right; eexists; by left|]. auto.
      * eexists. split; [done|]. intros e ->%list_elem_of_singleton. exists workload.
        split; [by left|]. by intros [].
Qed.

(** The workload as it was read, or as the update of the finalizer returned it. *)
Definition obtained (req : ObjectKey) (tr : list event) (w0 : Workload) : Prop :=
  Ev (Get KWorkload req) (Ok w0) ∈ tr ∨ ∃ w, Ev (Update KWorkload w) (Ok w0) ∈ tr.

Definition updated_workload (c : call) : option Workload :=
  match c with StatusUpdate KWorkload w => Some w | _ => None end.

Lemma status_writes_based pipeline cached req :
  wp well_formed_claims (Reconcile pipeline cached req) [] (λ _ tr, ∀ e, e ∈ tr →
    status_write (ev_call e) →
    ∃ w w0, ev_call e = StatusUpdate KWorkload w ∧ obtained req tr w0 ∧ based_on w0 w).
Proof.
  unfold Reconcile. rewrite wp_bind. intros [workload|err] _; cbn [wp].
  - rewrite wp_bind. eapply wp_mono; [done| |apply Execute_based].
    intros r tr (l & -> & Hl). cbn [wp mret prog_ret]. intros e Hin Hs.
    apply elem_of_app in Hin as [->%list_elem_of_singleton|Hin]; [done|].
    destruct (Hl _ Hin) as (w0 & Hw0 & Hc). destruct (Hc Hs) as (w & Hw & Hb).
    exists w, w0. split_and!; [done| |done]. destruct Hw0 as [->|[w' Hw']].
    + left. by left.
    + right. exists w'. by right.
  - destruct (IsNotFound err); cbn [wp mret prog_ret]; by intros e ->%list_elem_of_singleton.
Qed.

Lemma status_update_read pipeline cached req :
  wp well_formed_claims (Reconcile pipeline cached req) [] (λ _ tr, ∀ w reply,
    Ev (StatusUpdate KWorkload w) reply ∈ tr → ∃ w0, obtained req tr w0 ∧ based_on w0 w).
Proof.
  eapply wp_mono; [done| |apply status_writes_based]. intros r tr Hall w reply Hin.
  destruct (Hall _ Hin I) as (w1 & w0 & Heq & Hw0 & Hb). exists w0. split; [done|].
  by apply (f_equal updated_workload) in Heq as [= ->].
Qed.

(** A status that one reconcile of the workload controller stores is based on the
    workload that the same reconcile read, or got back when it stored the finalizer:
    it carries the version of that workload, so that the API server can refuse it if
    anything has changed since, and its metadata, its specification and its endpoint
    are those of that workload. *)
Theorem status_update_based pipeline cached req :
  wp well_formed_claims (Reconcile pipeline cached req) [] (λ _ tr, ∀ w reply,
    Ev (StatusUpdate KWorkload w) reply ∈ tr → ∃ w0, obtained req tr w0 ∧ based_on w0 w).
Proof. apply status_update_read. Qed.
End workload.

(** ** What the mirror writes *)

Definition patched_call (c : call) : option (Workload * Workload) :=
  match c with StatusPatch KWorkload base new => Some (base, new) | _ => None end.
Definition patched (e : event) : option (Workload * Workload) := patched_call (ev_call e).

Lemma unwritten tr e : writes tr = [] → e ∈ tr → is_write (ev_call e) = false.
Proof.
  intros Hw Hin. destruct (is_write (ev_call e)) eqn:He; [|done].
  assert (ev_call e ∈ writes tr) as Hc.
  { apply list_elem_of_filter. split; [done|]. by apply list_elem_of_fmap_2. }
  rewrite Hw in Hc. by apply elem_of_nil in Hc.
Qed.

(** Without conditions on the exposure the mirror changes the endpoint and nothing else. *)
Definition endpoint_change (base new : Workload) : Prop :=
  wl_ObjectMeta new = wl_ObjectMeta base ∧
  wst_Endpoint (wl_Status new) ≠ wst_Endpoint (wl_Status base) ∧
  wst_Conditions (wl_Status new) = wst_Conditions (wl_Status base) ∧
  wst_Claims (wl_Status new) = wst_Claims (wl_Status base).

Lemma mirror_change workload exposure past :
  let x := mirrorEndpoint workload exposure in
  wp any (mirrorConditions x.1 exposure) past (λ y tr,
    wst_Endpoint (wl_Status y.1) = newEndpoint exposure ∧
    (west_Conditions (we_Status exposure) = [] → x.2 || y.2 = true →
       endpoint_change workload y.1) ∧
    ∃ l, tr = past ++ l ∧ writes l = []).
Proof.
  intros x. destruct (decide (west_Conditions (we_Status exposure) = [])) as [Hnil|Hnil].
  - unfold mirrorConditions. rewrite Hnil. cbn. unfold x, mirrorEndpoint.
    case_bool_decide as He; cbn; (split; [done|split; [|exists []; by rewrite app_nil_r]]);
      intros _ ?; [done|]. by split_and!.
  - eapply wp_mono; [done| |apply mirror_wp].
    intros y tr ((_ & _ & _ & He & _) & _ & Hl). split; [done|]. split; [done|exact Hl].
Qed.

Lemma MirrorReconcile_writes req :
  wp any (MirrorReconcile req) [] (λ _ tr, ∀ e, e ∈ tr → is_write (ev_call e) = true →
    ∃ exposure key base new, ev_call e = StatusPatch KWorkload base new ∧
      Ev (Get KWorkloadExposure req) (Ok exposure) ∈ tr ∧
      Ev (Get KWorkload key) (Ok base) ∈ tr ∧
      wst_Endpoint (wl_Status new) = newEndpoint exposure ∧
      (west_Conditions (we_Status exposure) = [] → endpoint_change base new)).
Proof.
  assert (∀ tr e, writes tr = [] → e ∈ tr → is_write (ev_call e) = true → False) as Hno.
  { intros tr e Hw Hin He. pose proof (unwritten _ _ Hw Hin). congruence. }
  unfold MirrorReconcile. rewrite wp_bind.
  intros [exposure|err] _; cbn [wp mret prog_ret]; [|by intros e Hin He; destruct (λ H, Hno _ e H Hin He)].
  rewrite wp_bind. intros [workload|err] _; cbn [wp mret prog_ret]; [|by intros e Hin He; destruct (λ H, Hno _ e H Hin He)].
  destruct (accepts _ _); cbn [negb]; [|by intros e Hin He; destruct (λ H, Hno _ e H Hin He)].
  set (past := _ ++ _). assert (writes past = []) as Hpast by done.
  assert (Ev (Get KWorkloadExposure req) (Ok exposure) ∈ past) as HE by by left.
  assert (Ev (Get KWorkload (mirrored_workload exposure)) (Ok workload) ∈ past) as HW
    by by right; left.
  clearbody past. pose proof (mirror_change workload exposure past) as Hm.
  destruct (mirrorEndpoint workload exposure) as [new eu]. cbn [fst snd] in Hm.
  rewrite wp_bind. eapply wp_mono; [done| |exact Hm].
  intros [w cu] tr (He & Hch & l & -> & Hl). cbn [fst snd] in *.
  assert (writes (past ++ l) = []) as Hw by by rewrite writes_app, Hpast, Hl.
  destruct (eu || cu); [|by intros e Hin ?; destruct (Hno _ e Hw Hin)].
  rewrite wp_bind. intros stored _.
  assert (∀ tr, writes tr = [] → ∀ e,
    e ∈ ((past ++ l) ++ [Ev (StatusPatch KWorkload workload w) stored]) ++ tr →
    is_write (ev_call e) = true → ev_call e = StatusPatch KWorkload workload w) as Hone.
  { intros tr Htr e [[Hin|Hin]%elem_of_app|Hin]%elem_of_app.
    - intros ?. by destruct (Hno (past ++ l) e).
    - by apply list_elem_of_singleton in Hin as ->.
    - intros ?. by destruct (Hno tr e). }
  destruct stored as [stored|err]; cbn [wp].
  - unfold mirror_event. destruct (wst_Endpoint (wl_Status stored)); intros [] _;
      cbn [wp mret prog_ret]; intros e Hin Hwr;
      (exists exposure, (mirrored_workload exposure), workload, w;
       split_and!; [by eapply Hone; [|exact Hin|]|rewrite !elem_of_app; tauto..|done|
                    by intros Hn; apply Hch]).
  - intros e Hin Hwr. rewrite <- (app_nil_r (_ ++ [_])) in Hin.
    exists exposure, (mirrored_workload exposure), workload, w.
    split_and!; [by eapply Hone; [|exact Hin|]|rewrite !elem_of_app; tauto..|done|
                 by intros Hn; apply Hch].
Qed.

(** ** The stored object *)

(** What the API server makes of an accepted request on the stored workload: [stores cur
    c next] when the request [c] turns [cur] into [next]. *)
Class StatusStore := { stores : Workload → call → Workload → Prop }.

(** The field of a merge patch that differs from its base replaces the stored one. *)
Definition merged {A} (f : WorkloadStatus → A) (base new cur next : Workload) : Prop :=
  (f (wl_Status base) = f (wl_Status new) → f (wl_Status next) = f (wl_Status cur)) ∧
  (f (wl_Status base) ≠ f (wl_Status new) → f (wl_Status next) = f (wl_Status new)).

(** The writes of the status of a workload. *)
Definition writes_workload_status (c : call) : bool :=
  match c with StatusUpdate KWorkload _ | StatusPatch KWorkload _ _ => true | _ => false end.

(** What Kubernetes documents of the status subresource: an update is refused unless it
    carries the stored version, and replaces the status; a merge patch without a version
    is accepted at any time, and replaces the fields of the status that it names, lists
    as a whole; no other request changes the status. *)
Class StatusStoreLaws `{StatusStore} : Prop := {
  stores_update cur w next : stores cur (StatusUpdate KWorkload w) next →
    om_ResourceVersion (wl_ObjectMeta w) = om_ResourceVersion (wl_ObjectMeta cur) ∧
    wl_Status next = wl_Status w;
  stores_patch cur base new next : stores cur (StatusPatch KWorkload base new) next →
    merged wst_Endpoint base new cur next ∧ merged wst_Conditions base new cur next ∧
    merged wst_Claims base new cur next;
  stores_other cur c next : stores cur c next → writes_workload_status c = false →
    wl_Status next = wl_Status cur;
}.

(** The calls and replies of one execution. *)
Definition execution {A} (p : prog A) (tr : list event) : Prop :=
  ∃ (serve : ∀ c : call, nat → reply c * nat) a n, run serve p 0 = (a, n, tr).

Lemma execution_wp {A} E (p : prog A) Q tr :
  wp E p [] Q → execution p tr → Forall E tr → ∃ x, Q x tr.
Proof.
  intros Hwp (serve & a & n & Hrun) HE.
  destruct (wp_run _ _ _ _ _ _ _ _ _ Hwp Hrun HE) as (x & _ & Hx). by exists x.
Qed.

Definition version (w : Workload) : string := om_ResourceVersion (wl_ObjectMeta w).

Section store.
Context `{!Scheme} `{!Finalizers} `{!MapOrder} `{!Semver} `{!LabelSelectors} `{!DNS1123}
  `{!ConfigSource} `{!ConfigSourceLaws} `{!StatusStore} `{!StatusStoreLaws}.

(** The requests that reach the stored workload, of which [h] are the versions so far:
    the status updates of reconciles of the workload controller and the status patches
    of reconciles of the mirror, each of which read some version of [h], not
    necessarily the last one; and any request of anybody else that is not a write of
    the status.  The exposures that the mirror reads carry no conditions, as the
    kubernetes runtime publishes them. *)
Inductive sent (h : list Workload) : call → Prop :=
| sent_update pipeline cached req tr w reply :
    execution (Reconcile pipeline cached req) tr → Forall well_formed_claims tr →
    (∀ w0, obtained req tr w0 → w0 ∈ h) →
    Ev (StatusUpdate KWorkload w) reply ∈ tr → sent h (StatusUpdate KWorkload w)
| sent_patch req tr base new reply :
    execution (MirrorReconcile req) tr →
    (∀ key w0, Ev (Get KWorkload key) (Ok w0) ∈ tr → w0 ∈ h) →
    (∀ exposure, Ev (Get KWorkloadExposure req) (Ok exposure) ∈ tr →
       west_Conditions (we_Status exposure) = []) →
    Ev (StatusPatch KWorkload base new) reply ∈ tr → sent h (StatusPatch KWorkload base new)
| sent_other c : writes_workload_status c = false → sent h c.

(** The versions of the workload and the requests that made them, the newest first.
    Every change has a version of its own. *)
Inductive history (w0 : Workload) : list Workload → list call → Prop :=
| history_start : history w0 [w0] []
| history_write cur h log c next :
    history w0 (cur :: h) log → sent (cur :: h) c → stores cur c next →
    version next ∉ version <$> cur :: h →
    history w0 (next :: cur :: h) (c :: log).

(** What the last status update said of the conditions and the claims. *)
Fixpoint last_verdict (w0 : Workload) (log : list call) : list Condition * list ClaimSummary :=
  match log with
  | [] => (wst_Conditions (wl_Status w0), wst_Claims (wl_Status w0))
  | c :: log =>
      match c with
      | StatusUpdate KWorkload w => (wst_Conditions (wl_Status w), wst_Claims (wl_Status w))
      | _ => last_verdict w0 log
      end
  end.

(** What the last patch said of the endpoint. *)
Fixpoint last_address (w0 : Workload) (log : list call) : option string :=
  match log with
  | [] => wst_Endpoint (wl_Status w0)
  | c :: log =>
      match c with
      | StatusPatch KWorkload _ new => wst_Endpoint (wl_Status new)
      | _ => last_address w0 log
      end
  end.

Lemma history_versions w0 h log : history w0 h log → NoDup (version <$> h).
Proof.
  induction 1 as [|cur h log c next _ IH _ _ Hfresh]; [apply NoDup_singleton|].
  rewrite fmap_cons. by apply NoDup_cons.
Qed.

(** Among the versions of one object the number tells the version. *)
Lemma same_version h w w' :
  NoDup (version <$> h) → w ∈ h → w' ∈ h → version w = version w' → w = w'.
Proof.
  induction h as [|x h IH]; [by intros _ ?%elem_of_nil|]. rewrite fmap_cons, NoDup_cons.
  intros [Hx Hnd] Hw Hw' Hv.
  assert (∀ y, y ∈ h → version y ∈ version <$> h) as Hin by (intros y; apply list_elem_of_fmap_2).
  apply elem_of_cons in Hw as [->|Hw], Hw' as [->|Hw']; [done| | |by apply IH].
  - destruct Hx. rewrite Hv. by apply Hin.
  - destruct Hx. rewrite <- Hv. by apply Hin.
Qed.

(** An update that is accepted was computed from the stored object itself. *)
Lemma accepted_is_current w0 cur h log w next :
  history w0 (cur :: h) log → sent (cur :: h) (StatusUpdate KWorkload w) →
  stores cur (StatusUpdate KWorkload w) next → based_on cur w.
Proof.
  intros Hh Hsent [Hv _]%stores_update. apply history_versions in Hh.
  inversion Hsent as [pipeline cached req tr w' reply Hex Hwf Hread Hin| |c Hno]; [|by subst].
  simplify_eq. pose proof (status_update_read pipeline cached req) as Hwp.
  destruct (execution_wp _ _ _ _ Hwp Hex Hwf) as [_ Hx].
  destruct (Hx _ _ Hin) as (w1 & Hw1 & Hb). apply Hread in Hw1.
  rewrite (same_version (cur :: h) cur w1); [done..|by left|done|].
  unfold version. rewrite <- Hv. by destruct Hb as [-> _].
Qed.
Lemma sent_patch_change h base new :
  sent h (StatusPatch KWorkload base new) → endpoint_change base new.
Proof.
  intros Hsent.
  inversion Hsent as [|req tr base' new' reply Hex Hread Hnone Hin|c Hno]; [|by subst].
  simplify_eq.
  destruct (execution_wp _ _ _ _ (MirrorReconcile_writes req) Hex) as [_ Hx];
    [by apply Forall_true|].
  destruct (Hx _ Hin eq_refl) as (exposure & key & base' & new' & Hc & He & _ & _ & Hch).
  apply (f_equal patched_call) in Hc as [= -> ->]. auto.
Qed.

(** C7: As long as the exposures that the mirror reads carry no conditions (the runtime
    publishes none), the workload controller and the mirror can be interleaved in any
    way, each on its own outdated reading of the workload, and neither undoes what the
    other has stored: the conditions and the claims of the stored workload are always
    those of the last status update that was accepted, and its endpoint is that of the
    last status patch.  For an update carries the version it was computed from and is
    refused when that is no longer the stored one; and such a patch names the endpoint
    only.  With conditions the claim fails (below). *)
Theorem no_lost_updates w0 cur h log :
  history w0 (cur :: h) log →
  (wst_Conditions (wl_Status cur), wst_Claims (wl_Status cur)) = last_verdict w0 log ∧
  wst_Endpoint (wl_Status cur) = last_address w0 log.
Proof.
  remember (cur :: h) as hs eqn:Hhs. intros Hh. revert cur h Hhs.
  induction Hh as [|old h log c next Hh IH Hsent Hst _]; intros cur h' [= <- <-]; [done|].
  destruct (IH _ _ eq_refl) as [IHv IHa].
  destruct (writes_workload_status c) eqn:Hc.
  - destruct c as [| | | | |[] w| |[] base new| | | |]; try done.
    + destruct (accepted_is_current _ _ _ _ _ _ Hh Hsent Hst) as (_ & _ & He).
      apply stores_update in Hst as [_ Hst]. simpl. by rewrite Hst, He.
    + destruct (sent_patch_change _ _ _ Hsent) as (_ & He & Hcs & Hcl).
      apply stores_patch in Hst as ([_ Hea] & [Hcb _] & [Hclb _]). simpl.
      by rewrite Hea, Hcb, Hclb by congruence.
  - pose proof (stores_other _ _ _ Hst Hc) as Hsame. rewrite Hsame.
    by destruct c as [| | | | |[] w| |[] base new| | | |].
Qed.
End store.

(** ** Witnesses *)

Module InterleavingDemo.
(** The next version of a workload. *)
Definition renewed (cur : Workload) (st : WorkloadStatus) : Workload :=
  {| wl_ObjectMeta := {| (wl_ObjectMeta cur) with
       om_ResourceVersion := version cur +:+ "1" |};
     wl_Spec := wl_Spec cur; wl_Status := st |}.

#[local] Instance ClaimSummary_eq_dec : EqDecision ClaimSummary.
Proof. solve_decision. Defined.

Definition pick {A} `{!EqDecision A} (base new cur : A) : A :=
  if decide (base = new) then cur else new.

(** A server that checks the version of an update and merges a patch. *)
Definition next_of (cur : Workload) (c : call) : option Workload :=
  match c with
  | StatusUpdate KWorkload w =>
      if decide (version w = version cur) then Some (renewed cur (wl_Status w)) else None
  | StatusPatch KWorkload base new =>
      let pick_field {A} `{!EqDecision A} (f : WorkloadStatus → A) :=
        pick (f (wl_Status base)) (f (wl_Status new)) (f (wl_Status cur)) in
      Some (renewed cur {| wst_Endpoint := pick_field wst_Endpoint;
                           wst_Conditions := pick_field wst_Conditions;
                           wst_Claims := pick_field wst_Claims |})
  | _ => Some (renewed cur (wl_Status cur))
  end.

#[local] Instance store : StatusStore := {| stores cur c next := next_of cur c = Some next |}.

Lemma pick_merged {A} `{!EqDecision A} (f : WorkloadStatus → A) base new cur next :
  f (wl_Status next) = pick (f (wl_Status base)) (f (wl_Status new)) (f (wl_Status cur)) →
  merged f base new cur next.
Proof. unfold merged, pick. intros ->. by case_decide. Qed.

#[local] Instance store_laws : StatusStoreLaws.
Proof.
  split.
  - intros cur w next. cbn. by case_decide; intros; simplify_eq.
  - intros cur base new next. cbn. intros [= <-]. by split_and!; apply pick_merged.
  - intros cur c next Hst Hc.
    by destruct c as [| | | | |[] w| |[] base new| | | |]; cbn in *; simplify_eq.
Qed.

(** The exposure of the workload, with conditions. *)
Definition exposure (cs : list Condition) : WorkloadExposure :=
  {| (MirrorDemo.exposure cs) with we_Spec :=
     {| wes_WorkloadRef := {| wer_Name := "app"; wer_Namespace := Some "default"; wer_UID := "" |};
        wes_ObservedWorkloadGeneration := 9; wes_RuntimeClass := "kubernetes" |} |}.

(** A server whose reads lag behind: it answers with one version of the workload. *)
Definition serve (w : Workload) (cs : list Condition) (q : call) (n : nat) : reply q * nat :=
  (match q return reply q with
   | Get KWorkloadExposure _ => Ok (exposure cs)
   | q => (PipelineDemo.serve w (PipelineDemo.claim ResourceClaimPhaseBound) q ()).1
   end, n).

Definition updates (tr : list event) : list Workload :=
  omap (λ e, match ev_call e with StatusUpdate KWorkload w => Some w | _ => None end) tr.
Definition patches (tr : list event) : list (Workload * Workload) := omap patched tr.
End InterleavingDemo.
#[local] Existing Instances ClaimsDemo.scheme ClaimsDemo.scheme_laws ValidationDemo.dns1123
  PlanDemo.source PlanDemo.source_laws Demo.semver Demo.selectors
  PipelineDemo.finalizers PipelineDemo.order InterleavingDemo.store InterleavingDemo.store_laws.

Lemma status_update_based_witness :
  wp well_formed_claims (Reconcile None None ("default", "app")) [] (λ _ tr, ∀ w reply,
    Ev (StatusUpdate KWorkload w) reply ∈ tr →
    ∃ w0, obtained ("default", "app") tr w0 ∧ based_on w0 w).
Proof. exact (status_update_based None None ("default", "app")). Defined.

Module Race.
(** Both programs read the workload as it was created; the status update is stored
    first, the patch second. *)
Definition w0 : Workload := PipelineDemo.finalized.
Definition controller_trace : list event :=
  (run (InterleavingDemo.serve w0 []) (Reconcile None None ("default", "app")) 0).2.
Definition mirror_trace (cs : list Condition) : list event :=
  (run (InterleavingDemo.serve w0 cs) (MirrorReconcile ("prod", "web")) 0).2.

Definition updated : Workload := default w0 (head (InterleavingDemo.updates controller_trace)).
Definition patch (cs : list Condition) : Workload * Workload :=
  default (w0, w0) (head (InterleavingDemo.patches (mirror_trace cs))).

Definition w1 : Workload := default w0 (InterleavingDemo.next_of w0 (StatusUpdate KWorkload updated)).
Definition w2 (cs : list Condition) : Workload :=
  default w1 (InterleavingDemo.next_of w1 (StatusPatch KWorkload (patch cs).1 (patch cs).2)).
End Race.

Lemma run_execution {A} serve (p : prog A) : execution p (run serve p 0).2.
Proof.
  destruct (run serve p 0) as [[a n] tr] eqn:Hrun. exists serve, a, n. exact Hrun.
Qed.

(** The mirror read a version without conditions; the conditions that were stored in the
    meantime stay. *)
Example race_without_conditions :
  wst_Endpoint (wl_Status (Race.w2 [])) = Some "http://localhost:8080" ∧
  c_Type <$> conditions_of (Race.w2 []) = ["InputsValid"; "ClaimsReady"; "RuntimeReady"; "Ready"].
Proof. vm_compute. split; reflexivity. Qed.

(** When the exposure does have conditions, the patch replaces the whole list: the Ready
    condition that the workload controller has stored in the meantime is gone. *)
Example race_with_conditions :
  c_Type <$> conditions_of (Race.w2 MirrorDemo.agreeing) = ["RuntimeReady"].
Proof. vm_compute. reflexivity. Qed.

(** The reads of a workload return [w]. *)
Definition reads_only (w : Workload) (e : event) : Prop :=
  match e with Ev (Get KWorkload _) (Ok w') => w' = w | _ => True end.

Definition updates_workload (e : event) : bool :=
  match ev_call e with Update KWorkload _ => true | _ => false end.

Lemma reads_only_obtained w (h : list Workload) req tr w0 :
  Forall (reads_only w) tr → existsb updates_workload tr = false → w ∈ h →
  obtained req tr w0 → w0 ∈ h.
Proof.
  rewrite Forall_forall. intros Hall Hno Hw [Hin|[w' Hin]].
  - apply Hall in Hin. simpl in Hin. by subst.
  - assert (existsb updates_workload tr = true) as Hyes; [|congruence].
    apply existsb_exists. eexists. by rewrite <- list_elem_of_In.
Qed.

Lemma in_updates w tr :
  w ∈ InterleavingDemo.updates tr → ∃ reply, Ev (StatusUpdate KWorkload w) reply ∈ tr.
Proof.
  intros ([[] reply] & Hin & Hc)%list_elem_of_omap; try done. destruct K; simplify_eq/=. eauto.
Qed.

Lemma in_patches x tr :
  x ∈ InterleavingDemo.patches tr → ∃ reply, Ev (StatusPatch KWorkload x.1 x.2) reply ∈ tr.
Proof.
  intros ([[| | | | | | |[] base new| | | |] reply] & Hin & Hc)%list_elem_of_omap;
    try discriminate Hc. injection Hc as <-. eauto.
Qed.

Lemma head_in {A} (d : A) l : l ≠ [] → default d (head l) ∈ l.
Proof. destruct l; [done|]. intros _. by left. Qed.

(** What holds of all replies of a server holds of an execution against it. *)
Lemma run_replies {A W} (serve : ∀ c : call, W → reply c * W) (E : event → Prop) (p : prog A) w :
  (∀ c w, E (Ev c (serve c w).1)) → Forall E (run serve p w).2.
Proof.
  intros HE. revert w. induction p as [a|c k IH|]; intros w; simpl; [done| |done].
  pose proof (HE c w) as Hc. destruct (serve c w) as [r w1]. pose proof (IH r w1) as Hk.
  destruct (run serve (k r) w1) as [[a w2] tr]. by constructor.
Qed.

Definition listed (e : event) : option (list ResourceClaim) :=
  match e with
  | Ev (ListByField KResourceClaim _ _) (Ok claims)
  | Ev (ListByLabel KResourceClaim _ _ _) (Ok claims) => Some claims
  | _ => None
  end.

Lemma listed_claims e claims : lists_claims e claims → listed e = Some claims.
Proof. by intros [(i & v & ->)|(ns & l & v & ->)]. Qed.

Lemma served_claims w cs c n : well_formed_claims (Ev c (InterleavingDemo.serve w cs c n).1).
Proof.
  assert (outputs_present (PipelineDemo.claim ResourceClaimPhaseBound)) as Hout by by eexists.
  intros claims Hl. apply listed_claims in Hl.
  destruct c as [| []| []| | | | | | | | |]; simplify_eq/=; [|done]. by repeat constructor.
Qed.

Lemma controller_sends : sent [Race.w0] (StatusUpdate KWorkload Race.updated).
Proof.
  assert (Race.updated ∈ InterleavingDemo.updates Race.controller_trace)
    as [reply Hin]%in_updates by (apply head_in; by vm_compute).
  eapply (sent_update _ None None ("default", "app")); [apply run_execution| | |exact Hin].
  - apply run_replies, served_claims.
  - intros w. apply (reads_only_obtained Race.w0); [|by vm_compute|by left].
    apply run_replies. by intros [[]| | | | | | | | | | |].
Qed.

Lemma mirror_sends h :
  Race.w0 ∈ h → sent h (StatusPatch KWorkload (Race.patch []).1 (Race.patch []).2).
Proof.
  intros Hw0. assert (Race.patch [] ∈ InterleavingDemo.patches (Race.mirror_trace []))
    as [reply Hin]%in_patches by (apply head_in; by vm_compute).
  eapply (sent_patch _ ("prod", "web")); [apply run_execution| | |exact Hin].
  - intros key w Hr. apply (reads_only_obtained Race.w0 h key (Race.mirror_trace []));
      [|by vm_compute|done|by left]. apply run_replies. by intros [[]| | | | | | | | | | |].
  - assert (Forall (λ e, match e with Ev (Get KWorkloadExposure _) (Ok exposure) =>
      west_Conditions (we_Status exposure) = [] | _ => True end) (Race.mirror_trace [])) as Hall.
    { apply run_replies. by intros [[]| | | | | | | | | | |]. }
    rewrite Forall_forall in Hall. intros e He. exact (Hall _ He).
Qed.

Lemma race_history :
  history Race.w0 [Race.w2 []; Race.w1; Race.w0]
    [StatusPatch KWorkload (Race.patch []).1 (Race.patch []).2;
     StatusUpdate KWorkload Race.updated].
Proof.
  econstructor; [econstructor; [constructor|apply controller_sends| |]| | |].
  - vm_compute. reflexivity.
  - apply (bool_decide_unpack _). by vm_compute.
  - apply mirror_sends. by right; left.
  - vm_compute. reflexivity.
  - apply (bool_decide_unpack _). by vm_compute.
Qed.

Lemma no_lost_updates_witness :
  history Race.w0 [Race.w2 []; Race.w1; Race.w0]
    [StatusPatch KWorkload (Race.patch []).1 (Race.patch []).2;
     StatusUpdate KWorkload Race.updated] ∧
  (wst_Conditions (wl_Status (Race.w2 [])), wst_Claims (wl_Status (Race.w2 []))) =
    last_verdict Race.w0 [StatusPatch KWorkload (Race.patch []).1 (Race.patch []).2;
                          StatusUpdate KWorkload Race.updated] ∧
  wst_Endpoint (wl_Status (Race.w2 [])) =
    last_address Race.w0 [StatusPatch KWorkload (Race.patch []).1 (Race.patch []).2;
                          StatusUpdate KWorkload Race.updated].
Proof. split; [apply race_history|]. exact (no_lost_updates _ _ _ _ race_history). Defined.
