(* ===== verification/System.v ===== *)
(** * System: all controllers at once

    Each controller is proved correct under assumptions on what the API server returns,
    and each promises something of what it stores.  Here the promises of the ones are
    shown to be the assumptions of the others: any number of reconciles of all six
    controllers, interleaved call by call, in any order and without end, keep every
    status in order, and none of them ever panics. *)
From S2P Require Import Prelude GoStrings Json K8s Api Client Sort Conditions Selection.
From S2P Require Import Validation ConfigCache ReconcilerConfig ConfigLoader Placeholders.
From S2P Require Import Claims StatusManager Plan Pipeline Mirror Registrar.
From S2P Require Import RuntimePlan RuntimeExposure Lifecycle Strategy Provisioner Strategies.
From S2P Require Import Rbac Interleaving.

(** ** Assumption and promise *)

(** The endpoint of a workload is absent, or an http or https URL with a host. *)
Definition good_endpoint (w : Workload) : Prop :=
  ∀ url, wst_Endpoint (wl_Status w) = Some url → isValidURL url = true.

(** What all controllers keep of the status of an object. *)
Definition good (K : Kind) : obj K → Prop :=
  match K with
  | KWorkload => good_endpoint
  | KResourceClaim => outputs_match
  | KWorkloadExposure => λ e, west_Conditions (we_Status e) = []
  | _ => λ _, True
  end.

(** Every object that the reply of an event contains satisfies [P]. *)
Definition on_objects (P : ∀ K, obj K → Prop) (e : event) : Prop :=
  match e with
  | Ev (Get K _) (Ok o) | Ev (Create K _) (Ok o) | Ev (Update K _) (Ok o)
  | Ev (StatusUpdate K _) (Ok o) | Ev (Patch K _ _) (Ok o) | Ev (StatusPatch K _ _) (Ok o) => P K o
  | Ev (ListByField K _ _) (Ok os) | Ev (ListByLabel K _ _ _) (Ok os) => Forall (P K) os
  | _ => True
  end.

(** The assumption of every controller. *)
Definition relies (e : event) : Prop := on_objects good e ∧ platform_ok e.

(** The promise of every controller: what it makes the status of an object. *)
Definition promised (c : call) : Prop :=
  match c with
  | StatusUpdate K o => good K o
  | StatusPatch KWorkload _ o => good_endpoint o
  | StatusPatch KResourceClaim _ _ | StatusPatch KWorkloadExposure _ _ => False
  | _ => True
  end.

(** A program that keeps its promise with every call, and does not panic, as long as the
    replies are as assumed. *)
Fixpoint safe {A} (p : prog A) : Prop :=
  match p with
  | Ret _ => True
  | Call c k => promised c ∧ ∀ r, relies (Ev c r) → safe (k r)
  | Panic => False
  end.

(** *** Laws *)

#[local] Instance status_write_dec c : Decision (status_write c).
Proof. destruct c; apply _. Defined.

Lemma promised_other c : ¬ status_write c → promised c.
Proof. by destruct c as [| | | | |[]| |[]| | | |]; simpl; try tauto. Qed.

Lemma promised_read c : is_write c = false → promised c.
Proof. by destruct c. Qed.

Lemma reply_exists c : ∃ r, relies (Ev c r).
Proof.
  destruct c as [[] key|K i v|K n l v|K o|K o|K o|K b o|K b o|K key|k t r m| |n].
  all: first [by exists (Err (EStatus NotFound ""))|by exists (Ok ())|by exists ()
             |by exists 0%Z|by exists None].
Qed.

(** A run can always be completed. *)
Lemma wp_complete {A} (p : prog A) past Q :
  wp relies p past Q → ∃ a l, Q a (past ++ l).
Proof.
  revert past. induction p as [a|c k IH|]; intros past Hp; [| |done].
  - exists a, []. by rewrite app_nil_r.
  - destruct (reply_exists c) as [r Hr]. destruct (IH r _ (Hp r Hr)) as (a & l & Hq).
    exists a, (Ev c r :: l). by rewrite <- app_assoc in Hq.
Qed.

(** What holds of all calls of the complete runs makes a program safe. *)
Lemma wp_safe {A} (p : prog A) past :
  wp relies p past (λ _ tr, Forall (λ e, promised (ev_call e)) tr) → safe p.
Proof.
  revert past. induction p as [a|c k IH|]; intros past Hp; [done| |done]. simpl. split.
  - destruct (reply_exists c) as [r Hr].
    destruct (wp_complete _ _ _ (Hp r Hr)) as (a & l & Hl).
    rewrite Forall_forall in Hl. apply (Hl (Ev c r)). rewrite !elem_of_app. by left; right; left.
  - intros r Hr. by eapply IH, Hp.
Qed.

(** The replies of a run are as assumed. *)
Lemma wp_relied {A} E (p : prog A) past (Q : A → list event → Prop) :
  wp E p past Q → wp E p past (λ a tr, Q a tr ∧ ∃ l, tr = past ++ l ∧ Forall E l).
Proof.
  revert past. induction p as [a|c k IH|]; intros past Hp; [| |done].
  - split; [done|]. exists []. by rewrite app_nil_r.
  - intros r Hr. eapply wp_mono; [done| |by apply IH, Hp]. intros a tr [Ha (l & -> & Hl)].
    split; [done|]. exists (Ev c r :: l). rewrite <- app_assoc. split; [done|]. by constructor.
Qed.

Lemma safe_bind {A B} (p : prog A) (f : A → prog B) :
  safe p → (∀ a, safe (f a)) → safe (p ≫= f).
Proof. intros Hp Hf. induction p; simpl in *; naive_solver. Qed.

Lemma safe_ask c : promised c → safe (ask c).
Proof. done. Qed.

(** Walk through a program. *)
Ltac safely :=
  repeat lazymatch goal with
    | |- safe (_ ≫= _) => apply safe_bind
    | |- safe (ask _) => apply safe_ask
    | |- safe (mret _) => exact I
    | |- safe (match ?x with _ => _ end) => destruct x eqn:?
    | |- ∀ _, safe _ => intro
    end.

(** ** The controllers *)

Section controllers.
Context `{!Scheme, !SchemeLaws, !Finalizers, !FinalizersLaws, !MapOrder, !Semver, !LabelSelectors, !DNS1123,
          !ConfigYAML, !ControllerRefs, !NumberText, !Quantities, !Defaulter, !DefaulterLaws,
          !SemanticEqual}.

Lemma good_claims e : relies e → well_formed_claims e.
Proof.
  assert (∀ c, outputs_match c → outputs_present c) as Hpres.
  { intros c Hm Ha. by apply outputs_match_present. }
  intros [Hg _] claims [(i & v & ->)|(ns & l & v & ->)]; (eapply Forall_impl; [exact Hg|apply Hpres]).
Qed.

Lemma claims_match_good e : relies e → wf platform_ok e.
Proof.
  intros [Hg Hp]. split; [done|]. 
  by destruct e as [[[] key| | | |[] o| | | | | | |] r]; try done; destruct r.
Qed.

Lemma Reconcile_safe loader pipeline cached req :
  cached_valid (cml_cache loader) →
  safe (@Reconcile _ _ _ _ _ (source_of loader) pipeline cached req).
Proof.
  intros Hl. pose proof (source_of_laws loader Hl) as Hlaws. apply (wp_safe _ []).
  eapply wp_mono; [done| |apply wp_relied; eapply wp_mono;
    [apply good_claims| |apply status_writes_based]]; [|by intros a tr Ha; exact Ha].
  intros a tr [Hw (l & -> & Hrel)]. rewrite Forall_forall in Hrel |- *. intros e Hin.
  destruct (decide (status_write (ev_call e))) as [Hs|Hs]; [|by apply promised_other].
  destruct (Hw e Hin Hs) as (w & w0 & -> & Hw0 & _ & _ & He). simpl. unfold good_endpoint.
  rewrite He. destruct Hw0 as [Hw0|[w' Hw0]]; apply (Hrel _ Hw0).
Qed.

Lemma ReconcileClaim_safe envTypes req : safe (ReconcileClaim (NewProvisionerReconciler envTypes) req).
Proof.
  apply (wp_safe _ []). eapply wp_mono; [apply claims_match_good| |
    apply (ReconcileClaim_writes _ _ _ (registered_laws envTypes))].
  intros a tr Hw. rewrite Forall_forall. intros e Hin.
  destruct (is_write (ev_call e)) eqn:Hwr; [|by apply promised_read].
  destruct (Hw e Hin Hwr) as (claim & l & -> & Ho).
  by destruct Ho as [? ? _ ->|? ? _ ->|_ _ ->|w ? -> _ _ Hm _|? ? _ _ ->].
Qed.

Lemma MirrorReconcile_safe req : safe (MirrorReconcile req).
Proof.
  apply (wp_safe _ []). eapply wp_mono; [|  |apply MirrorReconcile_writes]; [done|].
  intros a tr Hw. rewrite Forall_forall. intros e Hin.
  destruct (is_write (ev_call e)) eqn:Hwr; [|by apply promised_read].
  destruct (Hw e Hin Hwr) as (exposure & key & base & new & -> & _ & _ & He & _). simpl.
  intros url. rewrite He. unfold newEndpoint. destruct (west_Exposures _) as [|top tops]; [done|].
  destruct (isValidURL (ee_URL top)) eqn:Hv; [|done]. by intros [= <-].
Qed.

Lemma RegistrarReconcile_safe class req : safe (RegistrarReconcile class req).
Proof. unfold RegistrarReconcile, registrar_event. cbv zeta. safely; done. Qed.

Lemma ReconcileExposure_safe req : safe (ReconcileExposure req).
Proof. unfold ReconcileExposure. cbv zeta. safely; done. Qed.

Lemma findExposures_safe service : safe (findWorkloadExposuresForService service).
Proof. unfold findWorkloadExposuresForService. cbv zeta. safely; done. Qed.

Lemma ReconcilePlan_safe req : safe (ReconcilePlan req).
Proof.
  apply (wp_safe _ []). eapply wp_mono; [|  |apply wp_with_calls;
    [apply (ReconcilePlan_wp any)|apply ReconcilePlan_served]]; [done|].
  intros a tr [_ (l & -> & Hl)]. eapply Forall_impl; [exact Hl|]. intros e Hs.
  cbv beta in Hs. revert Hs. destruct (ev_call e) as [| | | | |[]| |[]| | | |]; intros Hs;
    first [exact I|by vm_compute in Hs].
Qed.

(** ** The controllers together *)

(** A reconcile in progress. *)
Inductive thread :=
| Thread {A : Type} (p : prog A).

Definition panicked (t : thread) : bool := match t with Thread Panic => true | _ => false end.
Definition thread_safe (t : thread) : Prop := match t with Thread p => safe p end.

(** A reconcile that begins: of any controller, for any request, with the orchestrator's
    configuration loader in any state that it reaches. *)
Inductive starts : thread → Prop :=
| starts_workload loader pipeline cached req :
    cached_valid (cml_cache loader) →
    starts (Thread (@Reconcile _ _ _ _ _ (source_of loader) pipeline cached req))
| starts_claim envTypes req :
    starts (Thread (ReconcileClaim (NewProvisionerReconciler envTypes) req))
| starts_mirror req : starts (Thread (MirrorReconcile req))
| starts_registrar class req : starts (Thread (RegistrarReconcile class req))
| starts_plan req : starts (Thread (ReconcilePlan req))
| starts_exposure req : starts (Thread (ReconcileExposure req))
| starts_service service : starts (Thread (findWorkloadExposuresForService service)).

Lemma starts_safe t : starts t → thread_safe t.
Proof.
  destruct 1; simpl.
  - by apply Reconcile_safe.
  - apply ReconcileClaim_safe.
  - apply MirrorReconcile_safe.
  - apply RegistrarReconcile_safe.
  - apply ReconcilePlan_safe.
  - apply ReconcileExposure_safe.
  - apply findExposures_safe.
Qed.
End controllers.

(** What the API server and the random source may reply to a call, after the calls and
    replies so far of all the clients. *)
Class ApiServer := { replies : list event → ∀ c : call, reply c → Prop }.

(** The status of the object [o] comes from the calls [tr]: it is that of an object that
    was never written, or of a status update, or was made by a status patch.  The
    endpoint of a workload is followed on its own, as patches replace single fields. *)
Definition has_origin (tr : list event) (K : Kind) : obj K → Prop :=
  match K with
  | KWorkload => λ o, wst_Endpoint (wl_Status o) = None ∨
      ∃ e w, e ∈ tr ∧ wst_Endpoint (wl_Status o) = wst_Endpoint (wl_Status w) ∧
        (ev_call e = StatusUpdate KWorkload w ∨ ∃ base, ev_call e = StatusPatch KWorkload base w)
  | KResourceClaim => λ o, rc_Status o = ResourceClaimStatus_zero ∨
      ∃ e w, e ∈ tr ∧ ((ev_call e = StatusUpdate KResourceClaim w ∧ rc_Status o = rc_Status w) ∨
                       ∃ base, ev_call e = StatusPatch KResourceClaim base w)
  | KWorkloadExposure => λ o, we_Status o = {| west_Exposures := []; west_Conditions := [] |} ∨
      ∃ e w, e ∈ tr ∧ ((ev_call e = StatusUpdate KWorkloadExposure w ∧ we_Status o = we_Status w) ∨
                       ∃ base, ev_call e = StatusPatch KWorkloadExposure base w)
  | _ => λ _, True
  end.

(** What Kubernetes documents of an object with a status subresource: it is created with
    an empty status, whatever the request says, and its status changes only by requests
    for the status; what is read, be it outdated, was stored at some time. *)
Class ApiServerLaws `{ApiServer} : Prop := {
  replies_origin past c r :
    replies past c r → on_objects (has_origin (past ++ [Ev c r])) (Ev c r);
  replies_platform past c r : replies past c r → platform_ok (Ev c r);
}.

Section system.
Context `{!Scheme, !SchemeLaws, !Finalizers, !FinalizersLaws, !MapOrder, !Semver, !LabelSelectors,
          !DNS1123, !ConfigYAML, !ControllerRefs, !NumberText, !Quantities, !Defaulter,
          !DefaulterLaws, !SemanticEqual, !ApiServer, !ApiServerLaws}.

(** Reconciles begin at any time; any of those in progress makes its next call, which is
    answered in the order of arrival; and anybody else may call the API server for
    anything but a status. *)
Inductive system : list thread → list event → Prop :=
| system_init : system [] []
| system_start t pool past : starts t → system pool past → system (t :: pool) past
| system_call A c (k : reply c → prog A) l1 l2 past r :
    system (l1 ++ Thread (Call c k) :: l2) past → replies past c r →
    system (l1 ++ Thread (k r) :: l2) (past ++ [Ev c r])
| system_other c pool past r :
    ¬ status_write c → system pool past → replies past c r → system pool (past ++ [Ev c r]).

(** What was promised of the calls so far makes the objects of a reply good. *)
Lemma origin_good tr K (o : obj K) :
  Forall (λ e, promised (ev_call e)) tr → has_origin tr K o → good K o.
Proof.
  rewrite Forall_forall. intros Hall. destruct K; simpl; try done.
  - intros Ho url He. destruct Ho as [Ho|(e & w & Hin & Heq & Hc)]; [congruence|].
    specialize (Hall e Hin). destruct Hc as [Hc|[base Hc]]; rewrite Hc in Hall;
      (apply Hall; congruence).
  - unfold outputs_match. intros [->|(e & w & Hin & [[Hc ->]|[base Hc]])]; [done| |];
      specialize (Hall e Hin); by rewrite Hc in Hall.
  - intros [->|(e & w & Hin & [[Hc ->]|[base Hc]])]; [done| |];
      specialize (Hall e Hin); by rewrite Hc in Hall.
Qed.

Lemma on_objects_mono (P Q : ∀ K, obj K → Prop) e :
  (∀ K o, P K o → Q K o) → on_objects P e → on_objects Q e.
Proof.
  intros HPQ. destruct e as [[] r]; simpl; try done; destruct r; try done; try apply HPQ;
    intros Hf; (eapply Forall_impl; [exact Hf|]); apply HPQ.
Qed.

Lemma reply_relied past c r :
  Forall (λ e, promised (ev_call e)) past → promised c → replies past c r → relies (Ev c r).
Proof.
  intros Hpast Hc Hr. split; [|by eapply replies_platform].
  eapply on_objects_mono; [|by apply replies_origin]. intros K o.
  apply origin_good, Forall_app. split; [done|]. by constructor.
Qed.

Lemma system_invariant pool past :
  system pool past →
  Forall thread_safe pool ∧ Forall (λ e, promised (ev_call e)) past ∧ Forall relies past.
Proof.
  induction 1 as [|t pool past Ht _ IH|A c k l1 l2 past r _ IH Hr|c pool past r Hc _ IH Hr].
  - by split_and!; constructor.
  - destruct IH as (Hpool & Hp & Hrel). split; [|done].
    constructor; [by apply starts_safe|done].
  - destruct IH as (Hpool & Hp & Hrel). rewrite Forall_app, Forall_cons in Hpool.
    destruct Hpool as (Hl1 & [Hcall Hk] & Hl2).
    assert (relies (Ev c r)) as Hev by by eapply reply_relied.
    split_and!; [|rewrite Forall_app; split; [done|]; by constructor..].
    rewrite Forall_app, Forall_cons. split_and!; [done| |done]. by apply Hk.
  - destruct IH as (Hpool & Hp & Hrel). apply promised_other in Hc.
    split_and!; [done|rewrite Forall_app; split; [done|]; constructor; [|done]..]; [done|].
    by eapply reply_relied.
Qed.

(** C8: However many reconciles of the six controllers run at the same time, and however
    their calls, and those of the users, follow one another, no reconcile panics, and
    every object that anybody ever reads is in order: a claim announces outputs exactly
    when it is Bound, and then usable ones; an exposure has no conditions; the endpoint
    of a workload is an http or https URL with a host.  The API server is asked only
    not to make up a status, and to return outdated objects rather than wrong ones. *)
Theorem system_safe pool past :
  system pool past →
  Forall (λ t, panicked t = false) pool ∧ Forall (on_objects good) past.
Proof.
  intros (Hpool & _ & Hrel)%system_invariant. split.
  - eapply Forall_impl; [exact Hpool|]. by intros [A []].
  - eapply Forall_impl; [exact Hrel|]. by intros e [Hg _].
Qed.
End system.

(** ** Witnesses *)

Module SystemDemo.
(** The claim as it was created, and the last status that was stored for it. *)
Definition created : ResourceClaim :=
  {| (ProvisionDemo.claim ResourceClaimPhasePending) with rc_Status := ResourceClaimStatus_zero |}.

Definition stored_status (past : list event) : ResourceClaimStatus :=
  default ResourceClaimStatus_zero
    (last (omap (λ e, rc_Status <$> status_claim (ev_call e)) past)).

Definition stored (past : list event) (o : ResourceClaim) : ResourceClaim :=
  {| o with rc_Status := stored_status past |}.

(** A server that holds one claim. *)
Definition answer (past : list event) (c : call) : reply c :=
  match c return reply c with
  | Get K _ => match K return res (obj K) with
               | KResourceClaim => Ok (stored past created)
               | _ => Err (EStatus NotFound "not found")
               end
  | Update K o => match K return obj K → res (obj K) with
                  | KResourceClaim => λ o, Ok (stored past o)
                  | _ => λ _, Err (EStatus NotFound "not found")
                  end o
  | StatusUpdate K o => match K return obj K → res (obj K) with
                        | KResourceClaim => λ o, Ok o
                        | _ => λ _, Err (EStatus NotFound "not found")
                        end o
  | ListByField _ _ _ | ListByLabel _ _ _ _ => Ok []
  | Create _ _ | Patch _ _ _ | StatusPatch _ _ _ => Err (EStatus NotFound "not found")
  | Delete _ _ => Ok ()
  | Event _ _ _ _ => ()
  | Now => 42%Z
  | RandRead _ => None
  end.

#[local] Instance server : ApiServer := {| replies past c r := r = answer past c |}.

Lemma stored_origin past e o : has_origin (past ++ [e]) KResourceClaim (stored past o).
Proof.
  simpl. unfold stored_status. destruct (last _) as [st|] eqn:Hl; [|by left]. right.
  apply last_Some_elem_of, list_elem_of_omap in Hl as (e' & Hin & He).
  destruct (status_claim (ev_call e')) as [w|] eqn:Hw; [|done]. injection He as <-.
  exists e', w. rewrite elem_of_app. split; [by left|]. left. split; [|done].
  unfold status_claim in Hw. destruct (ev_call e') as [| | | | |[]| | | | | |]; congruence.
Qed.

#[local] Instance server_laws : ApiServerLaws.
Proof.
  split; intros past c r ->.
  - destruct c as [K key|K i v|K n l v|K o|K o|K o|K base o|K base o| | | |]; try done;
      destruct K; try done; try apply stored_origin; try by constructor.
    right. exists (Ev (StatusUpdate KResourceClaim o) (Ok o)), o.
    rewrite elem_of_app. split; [right; by left|by left].
  - by destruct c as [[]|[]|[]|[]|[] o|[] o|[]|[]| | | |].
Qed.

(** The next call of the thread at a position. *)
Definition advance (i : nat) (st : list thread * list event) : list thread * list event :=
  match st.1 !! i with
  | Some (Thread (Call c k)) =>
      let r := answer st.2 c in (<[i := Thread (k r)]> st.1, st.2 ++ [Ev c r])
  | _ => st
  end.
End SystemDemo.
#[local] Existing Instances ProvisionDemo.scheme ProvisionDemo.scheme_laws ValidationDemo.dns1123
  Demo.semver Demo.selectors PipelineDemo.finalizers PipelineDemo.finalizers_laws
  PipelineDemo.order LoaderDemo.yaml RegistrarDemo.refs RuntimeDemo.numbers
  RuntimeDemo.quantities RuntimeDemo.defaulter RuntimeDemo.defaulter_laws RuntimeDemo.semantic
  SystemDemo.server SystemDemo.server_laws.

Lemma advance_system i st :
  system st.1 st.2 → system (SystemDemo.advance i st).1 (SystemDemo.advance i st).2.
Proof.
  intros Hs. unfold SystemDemo.advance. destruct (st.1 !! i) as [[A [a|c k|]]|] eqn:Hi; try done.
  simpl. rewrite (insert_take_drop _ _ _ (lookup_lt_Some _ _ _ Hi)).
  rewrite <- (take_drop_middle _ _ _ Hi) in Hs. by apply system_call.
Qed.

(** Two reconciles of the same claim, and one of a workload in between. *)
Definition race (schedule : list nat) : list thread * list event :=
  fold_left (λ st i, SystemDemo.advance i st) schedule
    ([Thread (ReconcileClaim (NewProvisionerReconciler "") ("default", "app-db"));
      Thread (ReconcileClaim (NewProvisionerReconciler "") ("default", "app-db"));
      Thread (@Reconcile _ _ _ _ _ (source_of (NewConfigMapLoader DefaultLoaderOptions))
                None None ("default", "app"))], []).

Definition stored_phases (tr : list event) : list ResourceClaimPhase :=
  omap (λ e, rst_Phase ∘ rc_Status <$> status_claim (ev_call e)) tr.

(** In this order both reconciles read the claim before either stores its status. *)
Definition schedule : list nat := [0; 1; 2; 0; 0; 0; 0; 1; 1; 1; 1; 1; 0; 0; 1].

Example race_calls :
  length (race schedule).2 = 11 ∧
  stored_phases (race schedule).2 = [ResourceClaimPhaseFailed; ResourceClaimPhaseFailed].
Proof. by vm_compute. Qed.

Lemma race_system order : system (race order).1 (race order).2.
Proof.
  assert (∀ st, system st.1 st.2 →
    system (fold_left (λ st i, SystemDemo.advance i st) order st).1
           (fold_left (λ st i, SystemDemo.advance i st) order st).2) as Hrun.
  { induction order as [|i order IH]; intros st Hst; [done|]. by apply IH, advance_system. }
  apply Hrun. apply system_start; [apply starts_claim|].
  apply system_start; [apply starts_claim|]. apply system_start; [|apply system_init].
  apply starts_workload. intros cache config [= <-]. discriminate.
Qed.

Lemma system_safe_witness :
  system (race schedule).1 (race schedule).2 ∧
  Forall (λ t, panicked t = false) (race schedule).1 ∧
  Forall (on_objects good) (race schedule).2.
Proof. split; [apply race_system|]. exact (system_safe _ _ (race_system schedule)). Defined.
