(* ===== verification/TestUtils.v ===== *)
(** * TestUtils: [test/utils/utils.go]

    The helpers of the end-to-end tests: running a command in the directory of the
    project, installing the certificate manager, loading an image into a kind cluster,
    and editing the configuration of a deployment by uncommenting code. *)
From S2P Require Import Prelude GoStrings K8s Client.

(** The line feed. *)
Definition LF : ascii := "010".
Definition NL : string := String LF "".

(** ** The process and its surroundings *)

(** [exec.Cmd], as far as it is used. *)
Record Cmd := { cmd_Args : list string; cmd_Dir : string; cmd_Env : list string }.

Definition Command (name : string) (args : list string) : Cmd :=
  {| cmd_Args := name :: args; cmd_Dir := ""; cmd_Env := [] |}.

(** The working directory, the environment, the files, the commands that were run and
    what was written to [GinkgoWriter]. *)
Record World := {
  w_wd : string;
  w_environ : list (string * string);
  w_files : gmap string string;
  w_ran : list Cmd;
  w_written : list string;
}.

(** What the operating system answers: the errors of [os.Getwd], [os.Chdir],
    [os.ReadFile] and [os.WriteFile], the output and the error of a command, and the
    text of a quoted string ([%q]). *)
Class Platform := {
  getwd_error : World → option goerror;
  chdir_error : World → string → option goerror;
  read_error : World → string → goerror;
  write_error : World → string → option goerror;
  combined_output : World → Cmd → string * option goerror;
  Quote : string → string;
}.

Section utils.
Context `{!Platform}.

Definition Getwd (w : World) : string * option goerror := (w_wd w, getwd_error w).

Definition Chdir (dir : string) (w : World) : option goerror * World :=
  match chdir_error w dir with
  | None => (None, {| w with w_wd := dir |})
  | Some err => (Some err, w)
  end.

Definition LookupEnv (key : string) (w : World) : option string :=
  snd <$> List.find (λ kv, bool_decide (kv.1 = key)) (w_environ w).

Definition Environ (w : World) : list string :=
  (λ kv : string * string, kv.1 +:+ "=" +:+ kv.2) <$> w_environ w.

Definition Fprintf (text : string) (w : World) : World :=
  {| w with w_written := w_written w ++ [text] |}.

(** ** Commands *)

Definition warnError (err : goerror) : World → World :=
  Fprintf ("warning: " +:+ Error err +:+ NL).

(** The directory is returned next to the error. *)
Definition GetProjectDir (w : World) : string * option goerror :=
  match Getwd w with
  | (wd, Some err) => (wd, Some (EWrap "failed to get current working directory" err))
  | (wd, None) => (ReplaceAll wd "/test/e2e" "", None)
  end.

(** The error of [GetProjectDir] is ignored, and that of [os.Chdir] only reported. *)
Definition Run (cmd : Cmd) (w : World) : string * option goerror * World :=
  let '(dir, _) := GetProjectDir w in
  let '(err, w) := Chdir dir w in
  let w := match err with
           | Some err => Fprintf ("chdir dir: " +:+ Quote (Error err) +:+ NL) w
           | None => w
           end in
  let cmd := {| cmd_Args := cmd_Args cmd; cmd_Dir := dir;
                cmd_Env := Environ w ++ ["GO111MODULE=on"] |} in
  let command := String.concat " " (cmd_Args cmd) in
  let w := Fprintf ("running: " +:+ Quote command +:+ NL) w in
  let '(output, err) := combined_output w cmd in
  let w := {| w with w_ran := w_ran w ++ [cmd] |} in
  (output,
   match err with
   | Some err => Some (EWrap (Quote command +:+ " failed with error " +:+ Quote output) err)
   | None => None
   end, w).

(** Run and warn of a failure. *)
Definition run_or_warn (cmd : Cmd) (w : World) : World :=
  let '(_, err, w) := Run cmd w in
  match err with Some err => warnError err w | None => w end.

Definition certmanagerVersion := "v1.18.2".
Definition certmanagerURL : string :=
  "https://github.com/cert-manager/cert-manager/releases/download/" +:+ certmanagerVersion +:+
  "/cert-manager.yaml".

Definition kubeSystemLeases : list string :=
  ["cert-manager-cainjector-leader-election"; "cert-manager-controller"].

Definition UninstallCertManager (w : World) : World :=
  foldl (λ w lease, run_or_warn (Command "kubectl" ["delete"; "lease"; lease; "-n"; "kube-system";
           "--ignore-not-found"; "--force"; "--grace-period=0"]) w)
    (run_or_warn (Command "kubectl" ["delete"; "-f"; certmanagerURL]) w) kubeSystemLeases.

Definition InstallCertManager (w : World) : option goerror * World :=
  let '(_, err, w) := Run (Command "kubectl" ["apply"; "-f"; certmanagerURL]) w in
  match err with
  | Some err => (Some err, w)
  | None =>
      let '(_, err, w) := Run (Command "kubectl"
        ["wait"; "deployment.apps/cert-manager-webhook"; "--for"; "condition=Available";
         "--namespace"; "cert-manager"; "--timeout"; "5m"]) w in
      (err, w)
  end.

Definition GetNonEmptyLines (output : string) : list string :=
  filter (λ element, element ≠ "") (Split output LF).

Definition certManagerCRDs : list string :=
  ["certificates.cert-manager.io"; "issuers.cert-manager.io"; "clusterissuers.cert-manager.io";
   "certificaterequests.cert-manager.io"; "orders.acme.cert-manager.io";
   "challenges.acme.cert-manager.io"].

Definition IsCertManagerCRDsInstalled (w : World) : bool * World :=
  let '(output, err, w) := Run (Command "kubectl" ["get"; "crds"]) w in
  match err with
  | Some _ => (false, w)
  | None =>
      let crdList := GetNonEmptyLines output in
      (existsb (λ crd, existsb (λ line, Contains line crd) crdList) certManagerCRDs, w)
  end.

Definition defaultKindBinary := "kind".
Definition defaultKindCluster := "kind".

Definition LoadImageToKindClusterWithName (name : string) (w : World) : option goerror * World :=
  let cluster := default defaultKindCluster (LookupEnv "KIND_CLUSTER" w) in
  let kindOptions := ["load"; "docker-image"; name; "--name"; cluster] in
  let kindBinary := default defaultKindBinary (LookupEnv "KIND" w) in
  let '(_, err, w) := Run (Command kindBinary kindOptions) w in
  (err, w).

(** ** Uncommenting code *)

(** [strings.Index] with the parts of the string before and after the first occurrence. *)
Fixpoint cut_first (s target : string) : option (string * string) :=
  match strip target s with
  | Some after => Some ("", after)
  | None =>
      match s with
      | "" => None
      | String a s => '(before, after) ← cut_first s target; Some (String a before, after)
      end
  end.

(** [strings.TrimPrefix] *)
Definition TrimPrefix (s prefix : string) : string := default s (strip prefix s).

(** [bufio.MaxScanTokenSize]: a longer line ends the scan. *)
Definition MaxScanTokenSize := 65536%Z.

Fixpoint short_lines (lines : list string) : list string :=
  match lines with
  | [] => []
  | line :: lines =>
      if (Z.of_nat (String.length line) <? MaxScanTokenSize)%Z then line :: short_lines lines
      else []
  end.

(** The lines of a [bufio.Scanner]: a line loses a carriage return at its end, and
    nothing follows the last line feed when it ends the text. *)
Definition scan_lines (text : string) : list string :=
  let pieces := Split text LF in
  let lines := if bool_decide (last pieces = Some "") then removelast pieces else pieces in
  (λ line, TrimSuffix line (String "013" "")) <$> short_lines lines.

Definition UncommentCode (filename target prefix : string) (w : World) : res () * World :=
  match w_files w !! filename with
  | None => (Err (EWrap ("failed to read file " +:+ Quote filename) (read_error w filename)), w)
  | Some content =>
      match cut_first content target with
      | None => (Err (ENew ("unable to find the code " +:+ Quote target +:+ " to be uncomment")), w)
      | Some (before, after) =>
          match scan_lines target with
          | [] => (Ok (), w)
          | lines =>
              let out := before +:+ String.concat NL ((λ line, TrimPrefix line prefix) <$> lines) +:+
                         after in
              match write_error w filename with
              | Some err => (Err (EWrap ("failed to write file " +:+ Quote filename) err), w)
              | None => (Ok (), {| w with w_files := <[filename := out]> (w_files w) |})
              end
          end
      end
  end.
End utils.

(** *** What they do *)

Lemma cut_first_Some s target before after :
  cut_first s target = Some (before, after) → s = before +:+ target +:+ after.
Proof.
  revert before after. induction s as [|a s IH]; intros before after; cbn [cut_first];
    destruct (strip target _) as [rest|] eqn:Hs; try done.
  - intros [= <- <-]. by apply strip_Some in Hs.
  - intros [= <- <-]. by apply strip_Some in Hs.
  - destruct (cut_first s target) as [[b r]|]; simpl; [|done]. intros [= <- <-].
    simpl. by rewrite (IH b r).
Qed.

Lemma cut_first_found s target : Contains s target = true → is_Some (cut_first s target).
Proof.
  induction s as [|a s IH]; cbn [Contains cut_first]; rewrite orb_true_iff, prefix_iff;
    (intros [[rest Hr]|Hin]; [rewrite Hr, strip_app; by eexists|]); [done|].
  destruct (strip target _); [by eexists|]. destruct (IH Hin) as [[b r] ->]. by eexists.
Qed.

(** A text without line feed occurs in a text when it occurs in one of the lines. *)
Definition one_line (s : string) : Prop := str_forall (λ a, negb (bool_decide (a = LF))) s = true.

Lemma prefix_line sub text line lines :
  one_line sub → Split text LF = line :: lines → String.prefix sub text = String.prefix sub line.
Proof.
  revert text line lines. induction sub as [|b sub IH]; intros text line lines Hsub Hs; [by destruct text, line|].
  apply andb_true_iff in Hsub as [Hb Hsub]. destruct text as [|a text]; simpl in Hs.
  - by injection Hs as <- <-.
  - case_bool_decide as Ha.
    + injection Hs as <- <-. simpl. destruct (ascii_dec b a); [|done].
      subst. by rewrite bool_decide_true in Hb.
    + destruct (Split_cons text LF) as (p & ps & Hp). rewrite Hp in Hs.
      injection Hs as <- <-. simpl. destruct (ascii_dec b a); [|done]. by eapply IH.
Qed.

Lemma Contains_split text sub :
  one_line sub → sub ≠ "" →
  Contains text sub = existsb (λ line, Contains line sub) (Split text LF).
Proof.
  intros Hsub Hne. induction text as [|a text IH]; [simpl; by rewrite !orb_false_r|].
  cbn [Contains]. rewrite IH. cbn [Split].
  case_bool_decide as Ha.
  - subst a. cbn [existsb]. replace (Contains "" sub) with false by by destruct sub.
    rewrite (prefix_line sub (String LF text) "" (Split text LF)); [by destruct sub|done|].
    done.
  - destruct (Split_cons text LF) as (p & ps & Hp). rewrite Hp. cbn [existsb Contains].
    rewrite (prefix_line sub (String a text) (String a p) ps); [by rewrite orb_assoc|done|].
    simpl. by rewrite bool_decide_false, Hp.
Qed.

(** The certificate manager counts as installed when the command succeeds and one of the
    names occurs in its output. *)
Theorem installed_iff `{!Platform} w :
  let '(output, err, _) := Run (Command "kubectl" ["get"; "crds"]) w in
  (IsCertManagerCRDsInstalled w).1 = true ↔
  err = None ∧ ∃ crd, crd ∈ certManagerCRDs ∧ Contains output crd = true.
Proof.
  unfold IsCertManagerCRDsInstalled. destruct (Run _ _) as [[output err] w'].
  destruct err as [err|]; cbn [fst]; [by split; [|intros []]|].
  rewrite existsb_exists. setoid_rewrite <- list_elem_of_In.
  assert (∀ crd, crd ∈ certManagerCRDs →
    existsb (λ line, Contains line crd) (GetNonEmptyLines output) = Contains output crd) as Heq.
  { intros crd Hcrd. assert (one_line crd ∧ crd ≠ "") as [Hone Hne].
    { revert Hcrd. unfold certManagerCRDs. rewrite !elem_of_cons, elem_of_nil.
      by intros [->|[->|[->|[->|[->|[->|[]]]]]]]. }
    rewrite (Contains_split output) by done. unfold GetNonEmptyLines.
    induction (Split output LF) as [|line lines IH]; [done|]. rewrite filter_cons.
    cbn [existsb]. case_decide as Hl; cbn [existsb]; rewrite IH; [done|].
    subst line. by destruct crd. }
  split.
  - intros (crd & Hin & Hc). split; [done|]. exists crd. rewrite <- Heq; done.
  - intros [_ (crd & Hin & Hc)]. exists crd. rewrite Heq; done.
Qed.

(** A line as a scanner returns it: without line feed, no carriage return at the end, and
    not too long. *)
Definition clean (line : string) : Prop :=
  one_line line ∧
  HasSuffix line (String "013" "") = false ∧
  (Z.of_nat (String.length line) < MaxScanTokenSize)%Z.

Lemma Split_lines lines :
  lines ≠ [] → Forall clean lines → Split (String.concat NL lines) LF = lines.
Proof.
  intros Hne Hl. induction Hl as [|line lines [Hc _] _ IH]; [done|].
  destruct lines as [|next lines]; simpl.
  - by apply (Split_single (λ a, negb (bool_decide (a = LF)))).
  - rewrite (Split_app (λ a, negb (bool_decide (a = LF)))) by done.
    f_equal. by apply IH.
Qed.

Lemma TrimSuffix_absent s suf : HasSuffix s suf = false → TrimSuffix s suf = s.
Proof.
  induction s as [|a s IH]; cbn [HasSuffix TrimSuffix]; [by destruct suf|].
  intros [Heq Hs]%orb_false_iff. rewrite Heq. by rewrite IH.
Qed.

Lemma scan_lines_concat lines :
  Forall clean lines → (∀ line, last lines = Some line → line ≠ "") →
  scan_lines (String.concat NL lines) = lines.
Proof.
  intros Hl Hlast. unfold scan_lines. destruct lines as [|line lines]; [done|].
  rewrite Split_lines by done. rewrite bool_decide_false; [|intros Hn; by apply (Hlast _ Hn)].
  clear Hlast. induction Hl as [|x xs (_ & Hcr & Hlen) _ IH]; [done|]. cbn [short_lines].
  rewrite (proj2 (Z.ltb_lt _ _) Hlen). cbn [fmap list_fmap]. by rewrite TrimSuffix_absent, IH.
Qed.

Lemma trim_prefixes prefix (lines : list string) :
  (λ line, TrimPrefix line prefix) <$> ((λ line, prefix +:+ line) <$> lines) = lines.
Proof.
  induction lines as [|line lines IH]; [done|]. cbn [fmap list_fmap].
  unfold TrimPrefix at 1. by rewrite strip_app, IH.
Qed.

(** Uncommenting what was commented gives the code back, in the place where the commented
    code stood first, and touches nothing else. *)
Theorem uncomment_commented `{!Platform} w filename prefix (lines : list string) before after :
  let commented := String.concat NL ((λ line, prefix +:+ line) <$> lines) in
  lines ≠ [] → prefix ≠ "" → Forall clean ((λ line, prefix +:+ line) <$> lines) →
  w_files w !! filename = Some (before +:+ commented +:+ after) →
  cut_first (before +:+ commented +:+ after) commented = Some (before, after) →
  write_error w filename = None →
  UncommentCode filename commented prefix w =
    (Ok (), {| w with w_files :=
       <[filename := before +:+ String.concat NL lines +:+ after]> (w_files w) |}).
Proof.
  intros commented Hne Hp Hclean Hfile Hcut Hwrite. unfold UncommentCode.
  rewrite Hfile, Hcut. unfold commented at 1. rewrite scan_lines_concat; [|done|].
  - destruct lines as [|line lines]; [done|]. cbn [fmap list_fmap]. rewrite Hwrite.
    pose proof (trim_prefixes prefix (line :: lines)) as Ht. cbn [fmap list_fmap] in Ht.
    by rewrite Ht.
  - intros line Hl. apply last_Some_elem_of, list_elem_of_fmap in Hl as (l & -> & _).
    by destruct prefix.
Qed.

(** Code that is not in the file is an error, and nothing is written. *)
Theorem uncomment_absent `{!Platform} w filename target prefix content :
  w_files w !! filename = Some content → Contains content target = false →
  ∃ err, UncommentCode filename target prefix w = (Err err, w).
Proof.
  intros Hf Hc. unfold UncommentCode. rewrite Hf.
  destruct (cut_first content target) as [[b r]|] eqn:Hcut; [|by eexists].
  apply cut_first_Some in Hcut as ->.
  assert (Contains (b +:+ target +:+ r) target = true); [|congruence].
  apply Contains_app_r, Contains_app_l, Contains_iff. exists "", "". by rewrite string_app_nil_r.
Qed.

(** A target that ends with a line feed loses it, so that its last line is joined with
    what follows. *)
Module UtilsDemo.
#[local] Instance platform : Platform :=
  {| getwd_error w := None; chdir_error w dir := None;
     read_error w file := ENew "no such file or directory"; write_error w file := None;
     combined_output w cmd := ("", None); Quote := quote |}.

Definition world : World :=
  {| w_wd := "/src/test/e2e"; w_environ := [];
     w_files := {["kustomization.yaml" := "#- ../metrics" +:+ NL +:+ "#- ../webhook"]};
     w_ran := []; w_written := [] |}.

Example trailing_newline :
  w_files (UncommentCode "kustomization.yaml" ("#- ../metrics" +:+ NL) "#" world).2
    !! "kustomization.yaml" = Some "- ../metrics#- ../webhook".
Proof. by vm_compute. Qed.

(** A command runs in the directory of the project. *)
Example run_in_project :
  cmd_Dir <$> w_ran (Run (Command "make" ["install"]) world).2 = ["/src"].
Proof. by vm_compute. Qed.
End UtilsDemo.
